(** * Kudu master: catalog manager

    A shallow embedding of [src/kudu/master/catalog_manager.cc]: the
    copy-on-write table and tablet records, the in-memory directory, the
    request handlers CreateTable, DeleteTable, AlterTable,
    IsCreateTableDone, the tablet-report processing and the retrying
    tablet-server RPC task, with the properties the specification states
    about them.

    Conventions.
    - A [scoped_refptr<TableInfo>] or [scoped_refptr<TabletInfo>] is the id
      of the object; the objects live in [table_ids_map_] and [tablet_map_],
      which never drop an entry outside a reload.
    - A handler runs with the locks it takes held, so it is one function
      from the catalog before to the catalog after; the dirty copy of a
      metadata lock is a local value and a commit stores it.
    - 32 and 64 bit integers are [Z]; the arithmetic the handlers do stays
      far from the bounds, and C++ [%] is [Z.rem].
    - Log lines and the text of status messages are left out; a [Status] is
      its code. *)

From Stdlib Require Import ZArith Lia.
From Stdlib Require Floats.PrimFloat Numbers.Cyclic.Int63.Uint63.
From stdpp Require Import base option list gmap strings pretty sorting.

Local Open Scope Z_scope.

(* [set_solver] clears hypotheses it has already consumed. *)
#[local] Set Warnings "-clear-no-such-hyp".

(** ** Status, error codes, flags *)

Inductive Status :=
| OK | NotFound | Corruption | NotSupported | InvalidArgument | IOError
| AlreadyPresent | RuntimeError | NetworkError | IllegalState | Aborted
| ServiceUnavailable | TimedOut.

#[global] Instance Status_eq_dec : EqDecision Status.
Proof. solve_decision. Defined.

Definition ok (s : Status) : bool := bool_decide (s = OK).

Module MasterErrorPB.
Inductive Code :=
| UNKNOWN_ERROR | INVALID_SCHEMA | TABLE_NOT_FOUND | TABLE_ALREADY_PRESENT
| TOO_MANY_TABLETS | CATALOG_MANAGER_NOT_INITIALIZED | NOT_THE_LEADER
| REPLICATION_FACTOR_TOO_HIGH | TABLET_NOT_RUNNING | EVEN_REPLICATION_FACTOR
| ILLEGAL_REPLICATION_FACTOR.
End MasterErrorPB.

#[global] Instance MasterErrorPB_Code_eq_dec : EqDecision MasterErrorPB.Code.
Proof. solve_decision. Defined.

(** The error slot of a response: [SetupError(resp->mutable_error(), code, s)]. *)
Definition MasterErrorSlot : Type := option (MasterErrorPB.Code * Status).

(** The gflags the modelled code reads (defaults at lines 131-229). *)
Record Flags := {
  FLAGS_default_num_replicas : Z;
  FLAGS_max_num_replicas : Z;
  FLAGS_allow_unsafe_replication_factor : bool;
  FLAGS_max_create_tablets_per_ts : Z;
  FLAGS_catalog_manager_check_ts_count_for_create_table : bool;
  FLAGS_master_tombstone_evicted_tablet_replicas : bool;
  FLAGS_master_add_server_when_underreplicated : bool;
  FLAGS_catalog_manager_wait_for_new_tablets_to_elect_leader : bool;
  FLAGS_catalog_manager_evict_excess_replicas : bool;
  FLAGS_raft_prepare_replacement_before_eviction : bool;
  FLAGS_raft_attempt_to_replace_replica_without_majority : bool;
}.

Definition default_flags : Flags := {|
  FLAGS_default_num_replicas := 3;
  FLAGS_max_num_replicas := 7;
  FLAGS_allow_unsafe_replication_factor := false;
  FLAGS_max_create_tablets_per_ts := 20;
  FLAGS_catalog_manager_check_ts_count_for_create_table := true;
  FLAGS_master_tombstone_evicted_tablet_replicas := true;
  FLAGS_master_add_server_when_underreplicated := true;
  FLAGS_catalog_manager_wait_for_new_tablets_to_elect_leader := true;
  FLAGS_catalog_manager_evict_excess_replicas := true;
  FLAGS_raft_prepare_replacement_before_eviction := false;
  FLAGS_raft_attempt_to_replace_replica_without_majority := false;
|}.


(** ** Protobuf messages *)

(** A column of a schema: its name and, once assigned, its id. The
    validation and the schema builder ([Schema], [SchemaBuilder]) are
    collaborators of the catalog manager; only equality of schemas matters
    here. *)
Record ColumnSchemaPB := {
  column_name : string;
  column_id : option Z;
}.

#[global] Instance ColumnSchemaPB_eq_dec : EqDecision ColumnSchemaPB.
Proof. solve_decision. Defined.

Definition SchemaPB : Type := list ColumnSchemaPB.

(** The serialized hash and range partitioning descriptor. *)
Definition PartitionSchemaPB : Type := string.

Record PartitionPB := {
  partition_key_start : string;
  partition_key_end : string;
}.

#[global] Instance PartitionPB_eq_dec : EqDecision PartitionPB.
Proof. solve_decision. Defined.

Module RaftPeerPB.
Inductive MemberType := UNKNOWN_MEMBER_TYPE | VOTER | NON_VOTER.
Inductive HealthStatus := HEALTH_UNKNOWN | FAILED | HEALTHY.
Record t := {
  permanent_uuid : string;
  member_type : MemberType;
  health_report : option HealthStatus;
}.
(** [peer.clear_health_report()]. *)
Definition clear_health_report (p : t) : t :=
  {| permanent_uuid := permanent_uuid p;
     member_type := member_type p;
     health_report := None |}.
End RaftPeerPB.

#[global] Instance RaftPeerPB_MemberType_eq_dec : EqDecision RaftPeerPB.MemberType.
Proof. solve_decision. Defined.
#[global] Instance RaftPeerPB_HealthStatus_eq_dec : EqDecision RaftPeerPB.HealthStatus.
Proof. solve_decision. Defined.
#[global] Instance RaftPeerPB_eq_dec : EqDecision RaftPeerPB.t.
Proof. solve_decision. Defined.

Module RaftConfigPB.
Record t := {
  opid_index_field : option Z;
  peers : list RaftPeerPB.t;
}.
Definition has_opid_index (c : t) : bool := bool_decide (is_Some (opid_index_field c)).
(** The getter of an unset [optional int64] returns 0. *)
Definition opid_index (c : t) : Z := default 0 (opid_index_field c).
Definition default_instance : t := {| opid_index_field := None; peers := [] |}.
End RaftConfigPB.

#[global] Instance RaftConfigPB_eq_dec : EqDecision RaftConfigPB.t.
Proof. solve_decision. Defined.

Module ConsensusStatePB.
Record t := {
  current_term : Z;
  leader_uuid : string;
  committed_config : RaftConfigPB.t;
  pending_config : option RaftConfigPB.t;
}.
Definition has_pending_config (c : t) : bool := bool_decide (is_Some (pending_config c)).
Definition clear_leader_uuid (c : t) : t :=
  {| current_term := current_term c; leader_uuid := "";
     committed_config := committed_config c; pending_config := pending_config c |}.
Definition set_leader_uuid (l : string) (c : t) : t :=
  {| current_term := current_term c; leader_uuid := l;
     committed_config := committed_config c; pending_config := pending_config c |}.
Definition set_committed_config (cfg : RaftConfigPB.t) (c : t) : t :=
  {| current_term := current_term c; leader_uuid := leader_uuid c;
     committed_config := cfg; pending_config := pending_config c |}.
Definition default_instance : t :=
  {| current_term := 0; leader_uuid := "";
     committed_config := RaftConfigPB.default_instance; pending_config := None |}.
End ConsensusStatePB.

#[global] Instance ConsensusStatePB_eq_dec : EqDecision ConsensusStatePB.t.
Proof. solve_decision. Defined.

Module tablet.
Inductive TabletStatePB :=
| UNKNOWN | NOT_STARTED | BOOTSTRAPPING | RUNNING | FAILED | QUIESCING | SHUTDOWN.
Inductive TabletDataState :=
| TABLET_DATA_UNKNOWN | TABLET_DATA_COPYING | TABLET_DATA_READY
| TABLET_DATA_DELETED | TABLET_DATA_TOMBSTONED.
End tablet.

#[global] Instance TabletStatePB_eq_dec : EqDecision tablet.TabletStatePB.
Proof. solve_decision. Defined.
#[global] Instance TabletDataState_eq_dec : EqDecision tablet.TabletDataState.
Proof. solve_decision. Defined.

(** One entry of a tablet report. *)
Module ReportedTabletPB.
Record t := {
  tablet_id : string;
  state : tablet.TabletStatePB;
  tablet_data_state : tablet.TabletDataState;
  consensus_state : option ConsensusStatePB.t;
  error : option Status;
  schema_version : option Z;
}.
End ReportedTabletPB.

(** The update record of the response for one reported tablet. *)
Module ReportedTabletUpdatesPB.
Record t := {
  tablet_id : string;
  state_msg : option string;
}.
Definition set_state_msg (m : string) (u : t) : t :=
  {| tablet_id := tablet_id u; state_msg := Some m |}.
End ReportedTabletUpdatesPB.

#[global] Instance ReportedTabletUpdatesPB_eq_dec : EqDecision ReportedTabletUpdatesPB.t.
Proof. solve_decision. Defined.

(** The persistent record of a table, [PersistentTableInfo::pb]. *)
Module SysTablesEntryPB.
Inductive State := UNKNOWN | PREPARING | RUNNING | ALTERING | REMOVED.
Record t := {
  name : string;
  version : Z;
  schema : SchemaPB;
  fully_applied_schema : option SchemaPB;
  partition_schema : PartitionSchemaPB;
  next_column_id : Z;
  num_replicas : Z;
  state : State;
  state_msg : string;
}.
End SysTablesEntryPB.

#[global] Instance SysTablesEntryPB_State_eq_dec : EqDecision SysTablesEntryPB.State.
Proof. solve_decision. Defined.
#[global] Instance SysTablesEntryPB_eq_dec : EqDecision SysTablesEntryPB.t.
Proof. solve_decision. Defined.

(** The persistent record of a tablet, [PersistentTabletInfo::pb]. *)
Module SysTabletsEntryPB.
Inductive State := UNKNOWN | PREPARING | CREATING | RUNNING | REPLACED | DELETED.
Record t := {
  partition : PartitionPB;
  consensus_state_field : option ConsensusStatePB.t;
  state : State;
  state_msg : string;
  table_id : string;
}.
Definition has_consensus_state (p : t) : bool :=
  bool_decide (is_Some (consensus_state_field p)).
(** The getter of an unset message field returns the default instance. *)
Definition consensus_state (p : t) : ConsensusStatePB.t :=
  default ConsensusStatePB.default_instance (consensus_state_field p).
End SysTabletsEntryPB.

#[global] Instance SysTabletsEntryPB_State_eq_dec : EqDecision SysTabletsEntryPB.State.
Proof. solve_decision. Defined.
#[global] Instance SysTabletsEntryPB_eq_dec : EqDecision SysTabletsEntryPB.t.
Proof. solve_decision. Defined.

(** ** Persistent records and in-memory objects *)

Module PersistentTableInfo.
(** Modelled from the spec: [PersistentTableInfo::is_deleted] is declared in
    catalog_manager.h, which is not part of the source; per section 3 a
    table is "REMOVED on delete". *)
Definition is_deleted (pb : SysTablesEntryPB.t) : bool :=
  bool_decide (SysTablesEntryPB.state pb = SysTablesEntryPB.REMOVED).
(** [PersistentTableInfo::set_state] (lines 4667-4670). *)
Definition set_state (st : SysTablesEntryPB.State) (msg : string)
    (pb : SysTablesEntryPB.t) : SysTablesEntryPB.t :=
  {| SysTablesEntryPB.name := SysTablesEntryPB.name pb;
     SysTablesEntryPB.version := SysTablesEntryPB.version pb;
     SysTablesEntryPB.schema := SysTablesEntryPB.schema pb;
     SysTablesEntryPB.fully_applied_schema := SysTablesEntryPB.fully_applied_schema pb;
     SysTablesEntryPB.partition_schema := SysTablesEntryPB.partition_schema pb;
     SysTablesEntryPB.next_column_id := SysTablesEntryPB.next_column_id pb;
     SysTablesEntryPB.num_replicas := SysTablesEntryPB.num_replicas pb;
     SysTablesEntryPB.state := st;
     SysTablesEntryPB.state_msg := msg |}.
Definition set_name (n : string) (pb : SysTablesEntryPB.t) : SysTablesEntryPB.t :=
  {| SysTablesEntryPB.name := n;
     SysTablesEntryPB.version := SysTablesEntryPB.version pb;
     SysTablesEntryPB.schema := SysTablesEntryPB.schema pb;
     SysTablesEntryPB.fully_applied_schema := SysTablesEntryPB.fully_applied_schema pb;
     SysTablesEntryPB.partition_schema := SysTablesEntryPB.partition_schema pb;
     SysTablesEntryPB.next_column_id := SysTablesEntryPB.next_column_id pb;
     SysTablesEntryPB.num_replicas := SysTablesEntryPB.num_replicas pb;
     SysTablesEntryPB.state := SysTablesEntryPB.state pb;
     SysTablesEntryPB.state_msg := SysTablesEntryPB.state_msg pb |}.
Definition set_schema (s : SchemaPB) (pb : SysTablesEntryPB.t) : SysTablesEntryPB.t :=
  {| SysTablesEntryPB.name := SysTablesEntryPB.name pb;
     SysTablesEntryPB.version := SysTablesEntryPB.version pb;
     SysTablesEntryPB.schema := s;
     SysTablesEntryPB.fully_applied_schema := SysTablesEntryPB.fully_applied_schema pb;
     SysTablesEntryPB.partition_schema := SysTablesEntryPB.partition_schema pb;
     SysTablesEntryPB.next_column_id := SysTablesEntryPB.next_column_id pb;
     SysTablesEntryPB.num_replicas := SysTablesEntryPB.num_replicas pb;
     SysTablesEntryPB.state := SysTablesEntryPB.state pb;
     SysTablesEntryPB.state_msg := SysTablesEntryPB.state_msg pb |}.
Definition set_fully_applied_schema (s : option SchemaPB) (pb : SysTablesEntryPB.t)
    : SysTablesEntryPB.t :=
  {| SysTablesEntryPB.name := SysTablesEntryPB.name pb;
     SysTablesEntryPB.version := SysTablesEntryPB.version pb;
     SysTablesEntryPB.schema := SysTablesEntryPB.schema pb;
     SysTablesEntryPB.fully_applied_schema := s;
     SysTablesEntryPB.partition_schema := SysTablesEntryPB.partition_schema pb;
     SysTablesEntryPB.next_column_id := SysTablesEntryPB.next_column_id pb;
     SysTablesEntryPB.num_replicas := SysTablesEntryPB.num_replicas pb;
     SysTablesEntryPB.state := SysTablesEntryPB.state pb;
     SysTablesEntryPB.state_msg := SysTablesEntryPB.state_msg pb |}.
Definition set_version (v next_col : Z) (pb : SysTablesEntryPB.t) : SysTablesEntryPB.t :=
  {| SysTablesEntryPB.name := SysTablesEntryPB.name pb;
     SysTablesEntryPB.version := v;
     SysTablesEntryPB.schema := SysTablesEntryPB.schema pb;
     SysTablesEntryPB.fully_applied_schema := SysTablesEntryPB.fully_applied_schema pb;
     SysTablesEntryPB.partition_schema := SysTablesEntryPB.partition_schema pb;
     SysTablesEntryPB.next_column_id := next_col;
     SysTablesEntryPB.num_replicas := SysTablesEntryPB.num_replicas pb;
     SysTablesEntryPB.state := SysTablesEntryPB.state pb;
     SysTablesEntryPB.state_msg := SysTablesEntryPB.state_msg pb |}.
End PersistentTableInfo.

Module PersistentTabletInfo.
(** Modelled from the spec: [PersistentTabletInfo::is_running] is declared in
    catalog_manager.h, which is not part of the source; per section 3 a
    tablet is running when its state is RUNNING. *)
Definition is_running (pb : SysTabletsEntryPB.t) : bool :=
  bool_decide (SysTabletsEntryPB.state pb = SysTabletsEntryPB.RUNNING).
(** [PersistentTabletInfo::set_state] (lines 4486-4489). *)
Definition set_state (st : SysTabletsEntryPB.State) (msg : string)
    (pb : SysTabletsEntryPB.t) : SysTabletsEntryPB.t :=
  {| SysTabletsEntryPB.partition := SysTabletsEntryPB.partition pb;
     SysTabletsEntryPB.consensus_state_field := SysTabletsEntryPB.consensus_state_field pb;
     SysTabletsEntryPB.state := st;
     SysTabletsEntryPB.state_msg := msg;
     SysTabletsEntryPB.table_id := SysTabletsEntryPB.table_id pb |}.
Definition set_consensus_state (c : ConsensusStatePB.t)
    (pb : SysTabletsEntryPB.t) : SysTabletsEntryPB.t :=
  {| SysTabletsEntryPB.partition := SysTabletsEntryPB.partition pb;
     SysTabletsEntryPB.consensus_state_field := Some c;
     SysTabletsEntryPB.state := SysTabletsEntryPB.state pb;
     SysTabletsEntryPB.state_msg := SysTabletsEntryPB.state_msg pb;
     SysTabletsEntryPB.table_id := SysTabletsEntryPB.table_id pb |}.
End PersistentTabletInfo.

(** The sentinel of a tablet that has not reported a schema version; the
    comment at lines 4573-4576 gives its value. *)
Definition NOT_YET_REPORTED : Z := -1.

(** A [TabletInfo]: its id, its table, the committed copy of its metadata
    and the last schema version it reported. *)
Module TabletInfo.
Record t := {
  tablet_id_ : string;
  table_ : string;
  metadata_ : SysTabletsEntryPB.t;
  reported_schema_version_ : Z;
}.
Definition set_metadata (pb : SysTabletsEntryPB.t) (ti : t) : t :=
  {| tablet_id_ := tablet_id_ ti; table_ := table_ ti; metadata_ := pb;
     reported_schema_version_ := reported_schema_version_ ti |}.
Definition set_reported (v : Z) (ti : t) : t :=
  {| tablet_id_ := tablet_id_ ti; table_ := table_ ti; metadata_ := metadata_ ti;
     reported_schema_version_ := v |}.
End TabletInfo.

#[global] Instance TabletInfo_eq_dec : EqDecision TabletInfo.t.
Proof. solve_decision. Defined.

(** A [TableInfo]: its id, the committed copy of its metadata, the map from
    partition start key to child tablet and the count of tablets per
    reported schema version. *)
Module TableInfo.
Record t := {
  table_id_ : string;
  metadata_ : SysTablesEntryPB.t;
  tablet_map_ : gmap string string;
  schema_version_counts_ : gmap Z nat;
}.
Definition set_metadata (pb : SysTablesEntryPB.t) (ti : t) : t :=
  {| table_id_ := table_id_ ti; metadata_ := pb; tablet_map_ := tablet_map_ ti;
     schema_version_counts_ := schema_version_counts_ ti |}.
Definition set_tablets (m : gmap string string) (c : gmap Z nat) (ti : t) : t :=
  {| table_id_ := table_id_ ti; metadata_ := metadata_ ti; tablet_map_ := m;
     schema_version_counts_ := c |}.

(** [IncrementSchemaVersionCountUnlocked] (lines 4646-4649). *)
Definition IncrementSchemaVersionCountUnlocked (version : Z) (c : gmap Z nat)
    : gmap Z nat :=
  <[version := S (default 0%nat (c !! version))]> c.

(** [DecrementSchemaVersionCountUnlocked] (lines 4651-4665). A version that
    is not in the map trips a DCHECK; the model leaves the map as it is. *)
Definition DecrementSchemaVersionCountUnlocked (version : Z) (c : gmap Z nat)
    : gmap Z nat :=
  match c !! version with
  | Some n => if bool_decide (Nat.pred n = 0%nat) then delete version c
              else <[version := Nat.pred n]> c
  | None => c
  end.

(** The first key of the ordered map [schema_version_counts_]. *)
Definition lowest_version (c : gmap Z nat) : option Z :=
  foldr (fun kv acc => Some (match acc with
                             | None => kv.1
                             | Some a => Z.min kv.1 a
                             end)) None (map_to_list c).

(** [TableInfo::IsAlterInProgress] (lines 4564-4578). *)
Definition IsAlterInProgress (version : Z) (ti : t) : bool :=
  match lowest_version (schema_version_counts_ ti) with
  | None => false
  | Some v => bool_decide (v < version)
  end.

(** [TableInfo::IsCreateInProgress] (lines 4580-4589): some child tablet is
    not running. [store] resolves the tablet pointers of the map. *)
Definition IsCreateInProgress (store : gmap string TabletInfo.t) (ti : t) : bool :=
  existsb (fun e => match store !! e.2 with
                    | Some tab => negb (PersistentTabletInfo.is_running
                                          (TabletInfo.metadata_ tab))
                    | None => false
                    end) (map_to_list (tablet_map_ ti)).

(** [TableInfo::GetAllTablets] (lines 4638-4644). *)
Definition GetAllTablets (ti : t) : list string :=
  (map_to_list (tablet_map_ ti)).*2.

(** One step of the drop loop of [AddRemoveTablets]; [None] is the failed
    [CHECK] that the dropped tablet was in the map. *)
Definition drop_tablet (tab : TabletInfo.t) (acc : option (gmap string string * gmap Z nat))
    : option (gmap string string * gmap Z nat) :=
  acc ≫= fun '(m, c) =>
    let lower_bound := partition_key_start
                         (SysTabletsEntryPB.partition (TabletInfo.metadata_ tab)) in
    match m !! lower_bound with
    | None => None
    | Some _ => Some (delete lower_bound m,
                      DecrementSchemaVersionCountUnlocked
                        (TabletInfo.reported_schema_version_ tab) c)
    end.

(** One step of the add loop of [AddRemoveTablets]: [UpdateReturnCopy] and
    the counts. [store] resolves the pointer to the replaced tablet. *)
Definition add_tablet (store : gmap string TabletInfo.t) (tab : TabletInfo.t)
    (acc : gmap string string * gmap Z nat) : gmap string string * gmap Z nat :=
  let '(m, c) := acc in
  let key := partition_key_start
               (SysTabletsEntryPB.partition (TabletInfo.metadata_ tab)) in
  let c1 := match m !! key with
            | Some old =>
                match store !! old with
                | Some o => DecrementSchemaVersionCountUnlocked
                              (TabletInfo.reported_schema_version_ o) c
                | None => c
                end
            | None => c
            end in
  (<[key := TabletInfo.tablet_id_ tab]> m,
   IncrementSchemaVersionCountUnlocked (TabletInfo.reported_schema_version_ tab) c1).

(** [TableInfo::AddRemoveTablets] (lines 4505-4534). *)
Definition AddRemoveTablets (store : gmap string TabletInfo.t)
    (tablets_to_add tablets_to_drop : list TabletInfo.t) (ti : t) : option t :=
  foldl (fun acc tab => drop_tablet tab acc)
        (Some (tablet_map_ ti, schema_version_counts_ ti)) tablets_to_drop
  ≫= fun dropped =>
    let '(m, c) := foldl (fun acc tab => add_tablet store tab acc) dropped tablets_to_add in
    Some (set_tablets m c ti).
End TableInfo.

(** ** The system catalog *)

(** [SysCatalogTable::Actions]: the dirty records a write persists, each
    with the id of its object. *)
Module Actions.
Record t := {
  table_to_add : option (string * SysTablesEntryPB.t);
  table_to_update : option (string * SysTablesEntryPB.t);
  tablets_to_add : list (string * SysTabletsEntryPB.t);
  tablets_to_update : list (string * SysTabletsEntryPB.t);
}.
Definition empty : t :=
  {| table_to_add := None; table_to_update := None;
     tablets_to_add := []; tablets_to_update := [] |}.
End Actions.

(** Modelled from the spec: [SysCatalogTable] is not part of the source. Per
    section 2 (1) and the list of collaborators in section 1 it "accepts a
    bundle of adds/updates and commits them atomically": a write either
    stores every row of the bundle or none and reports a failure.
    [write_script_] lists the outcomes of the next writes (a write past its
    end succeeds); [writes_ok_] and [writes_failed_] count the writes made so
    far. *)
Module SysCatalogTable.
Record t := {
  tables_ : gmap string SysTablesEntryPB.t;
  tablets_ : gmap string SysTabletsEntryPB.t;
  write_script_ : list Status;
  writes_ok_ : nat;
  writes_failed_ : nat;
}.
Definition put_table (r : option (string * SysTablesEntryPB.t))
    (m : gmap string SysTablesEntryPB.t) : gmap string SysTablesEntryPB.t :=
  match r with
  | Some (id, pb) => <[id := pb]> m
  | None => m
  end.
Definition put_tablets (rs : list (string * SysTabletsEntryPB.t))
    (m : gmap string SysTabletsEntryPB.t) : gmap string SysTabletsEntryPB.t :=
  foldl (fun acc r => <[r.1 := r.2]> acc) m rs.
Definition next_outcome (sc : t) : Status :=
  match write_script_ sc with
  | [] => OK
  | s :: _ => s
  end.
Definition Write (a : Actions.t) (sc : t) : Status * t :=
  let s := next_outcome sc in
  if ok s then
    (OK,
     {| tables_ := put_table (Actions.table_to_update a)
                     (put_table (Actions.table_to_add a) (tables_ sc));
        tablets_ := put_tablets (Actions.tablets_to_update a)
                      (put_tablets (Actions.tablets_to_add a) (tablets_ sc));
        write_script_ := tail (write_script_ sc);
        writes_ok_ := S (writes_ok_ sc);
        writes_failed_ := writes_failed_ sc |})
  else
    (s,
     {| tables_ := tables_ sc;
        tablets_ := tablets_ sc;
        write_script_ := tail (write_script_ sc);
        writes_ok_ := writes_ok_ sc;
        writes_failed_ := S (writes_failed_ sc) |}).
End SysCatalogTable.

(** ** Collaborators *)

Record TableIdentifierPB := {
  ident_table_id : option string;
  ident_table_name : option string;
}.

Record CreateTableRequestPB := {
  create_name : string;
  create_schema : SchemaPB;
  create_split_rows_range_bounds : string;
  create_partition_schema : PartitionSchemaPB;
  create_num_replicas : option Z;
}.

Module AlterTableRequestPB.
Inductive StepType :=
| UNKNOWN | ADD_COLUMN | DROP_COLUMN | RENAME_COLUMN | ADD_RANGE_PARTITION
| DROP_RANGE_PARTITION | ALTER_COLUMN.
(** A step: its type and its serialized argument. *)
Record Step := {
  step_type : StepType;
  step_arg : string;
}.
Record t := {
  table : TableIdentifierPB;
  alter_schema_steps : list Step;
  new_table_name : option string;
  schema : SchemaPB;
}.
End AlterTableRequestPB.

#[global] Instance AlterTableRequestPB_StepType_eq_dec :
  EqDecision AlterTableRequestPB.StepType.
Proof. solve_decision. Defined.

(** The parts of the master the catalog manager calls and the source does
    not contain: the flags, the schema builder and the partition schema, the
    decoder of row operations, the quorum policy functions, the id
    generator, the clock. *)
Class Externals := {
  FLAGS : Flags;
  (** [consensus::kInvalidOpIdIndex]. *)
  kInvalidOpIdIndex : Z;
  (** [PersistentTableInfo::is_running]. *)
  table_is_running : SysTablesEntryPB.t -> bool;
  (** [PersistentTabletInfo::is_deleted]. *)
  tablet_is_deleted : SysTabletsEntryPB.t -> bool;
  (** [oid_generator_.Next()], by the number of ids generated before. *)
  oid_Next : nat -> string;
  (** [LocalTimeAsString()]. *)
  LocalTimeAsString : string;
  (** Step a of CreateTable (lines 1210-1290): column defaults, schema
      validation, column ids, partition schema, split rows and range
      bounds, partitions. It gives the status and the error set up, with
      which CreateTable returns when the status is not OK, and the schema,
      the partition schema and the partitions. *)
  PrepareCreateTable :
    CreateTableRequestPB ->
    Status * MasterErrorSlot * (SchemaPB * PartitionSchemaPB * list PartitionPB);
  (** [schema.max_col_id()]. *)
  max_col_id : SchemaPB -> Z;
  (** [ApplyAlterSchemaSteps] (lines 1638-1717): every step is a call of
      [SchemaBuilder], which the source does not contain; the status, the
      schema built and its next column id. *)
  ApplyAlterSchemaSteps :
    SysTablesEntryPB.t -> list AlterTableRequestPB.Step -> Status * (SchemaPB * Z);
  ValidateClientSchema : SchemaPB -> Status;
  (** [SchemaFromPB], as far as it can fail. *)
  SchemaFromPB : SchemaPB -> Status;
  ValidateIdentifier : string -> Status;
  (** [PartitionSchema::FromPB], as far as it can fail. *)
  PartitionSchema_FromPB : PartitionSchemaPB -> SchemaPB -> Status;
  (** The range partitions of a partitioning step (lines 1741-1778): the
      range bounds of the step decoded by [RowOperationsPBDecoder] with the
      schema of the client, the check for a lower and an upper bound, the
      bounds made inclusive and exclusive, and
      [PartitionSchema::CreatePartitions] for the range between them. *)
  CreateRangePartitions :
    SysTablesEntryPB.t -> SchemaPB -> AlterTableRequestPB.Step ->
    Status * list PartitionPB;
  (** [consensus::IsRaftConfigMember], of quorum_util.cc: whether the
      server with the uuid is a member of the config. *)
  IsRaftConfigMember : string -> RaftConfigPB.t -> bool;
  (** [consensus::CountVoters], [ShouldEvictReplica], [ShouldAddReplica]. *)
  CountVoters : RaftConfigPB.t -> Z;
  ShouldEvictReplica : RaftConfigPB.t -> string -> Z -> bool -> option string;
  ShouldAddReplica : RaftConfigPB.t -> Z -> bool -> bool;
}.

(** Modelled from the spec: [consensus::IsRaftConfigMember] is defined in
    quorum_util.cc, which is not part of the source. Of its use on the
    leader of a report section 4.4 says "disregard the reported leader if it
    is not a voter in the reported committed config" (step 5) and "a leader
    exists and is a committed voter" (step 6): it holds when a peer of the
    config that is a voter has the uuid. *)
Definition IsRaftConfigMember_of_spec (uuid : string) (config : RaftConfigPB.t) : bool :=
  existsb (fun p => bool_decide (RaftPeerPB.permanent_uuid p = uuid)
                    && bool_decide (RaftPeerPB.member_type p = RaftPeerPB.VOTER))
          (RaftConfigPB.peers config).

(** ** The catalog manager *)

(** The tasks a handler hands to the tablet servers (lines 2671-3250), by
    the arguments of their constructors; the text of the reason is left
    out. *)
Inductive RpcTask :=
| AsyncDeleteReplica (permanent_uuid : string) (table : string) (tablet_id : string)
    (delete_type : tablet.TabletDataState)
    (cas_config_opid_index_less_or_equal : option Z)
| AsyncAlterTable (tablet_id : string)
| AsyncAddReplicaTask (tablet_id : string) (cstate : ConsensusStatePB.t)
    (member_type : RaftPeerPB.MemberType)
| AsyncEvictReplicaTask (tablet_id : string) (cstate : ConsensusStatePB.t)
    (peer_uuid_to_evict : string).

#[global] Instance RpcTask_eq_dec : EqDecision RpcTask.
Proof. solve_decision. Defined.

Module CatalogManager.
Inductive State := kConstructed | kStarting | kRunning | kClosing.
Record t := {
  state_ : State;
  table_ids_map_ : gmap string TableInfo.t;
  table_names_map_ : gmap string string;
  tablet_map_ : gmap string TabletInfo.t;
  reserved_table_names_ : gset string;
  sys_catalog_ : SysCatalogTable.t;
  oid_generator_ : nat;
}.
Definition set_sys_catalog (sc : SysCatalogTable.t) (cm : t) : t :=
  {| state_ := state_ cm; table_ids_map_ := table_ids_map_ cm;
     table_names_map_ := table_names_map_ cm; tablet_map_ := tablet_map_ cm;
     reserved_table_names_ := reserved_table_names_ cm; sys_catalog_ := sc;
     oid_generator_ := oid_generator_ cm |}.
Definition set_reserved (r : gset string) (cm : t) : t :=
  {| state_ := state_ cm; table_ids_map_ := table_ids_map_ cm;
     table_names_map_ := table_names_map_ cm; tablet_map_ := tablet_map_ cm;
     reserved_table_names_ := r; sys_catalog_ := sys_catalog_ cm;
     oid_generator_ := oid_generator_ cm |}.
Definition set_oid (n : nat) (cm : t) : t :=
  {| state_ := state_ cm; table_ids_map_ := table_ids_map_ cm;
     table_names_map_ := table_names_map_ cm; tablet_map_ := tablet_map_ cm;
     reserved_table_names_ := reserved_table_names_ cm; sys_catalog_ := sys_catalog_ cm;
     oid_generator_ := n |}.
Definition set_maps (ids : gmap string TableInfo.t) (names : gmap string string)
    (tablets : gmap string TabletInfo.t) (cm : t) : t :=
  {| state_ := state_ cm; table_ids_map_ := ids;
     table_names_map_ := names; tablet_map_ := tablets;
     reserved_table_names_ := reserved_table_names_ cm; sys_catalog_ := sys_catalog_ cm;
     oid_generator_ := oid_generator_ cm |}.
(** The committed in-memory directory: the table and tablet objects with
    their committed records, by id, and the index of tables by name. *)
Definition directory (cm : t)
    : gmap string TableInfo.t * gmap string string * gmap string TabletInfo.t :=
  (table_ids_map_ cm, table_names_map_ cm, tablet_map_ cm).
End CatalogManager.

#[global] Instance CatalogManager_State_eq_dec : EqDecision CatalogManager.State.
Proof. solve_decision. Defined.

(** How a handler ends: it returns a status, a response and the tasks it
    started, or the process dies on a failed [CHECK], [InsertOrDie] or
    [PANIC_RPC]. *)
Inductive Outcome (R : Type) :=
| Returned (s : Status) (resp : R) (rpcs : list RpcTask) (cm : CatalogManager.t)
| Crashed.
Arguments Returned {R} s resp rpcs cm.
Arguments Crashed {R}.

(** [CatalogManager::CheckOnline] (lines 1110-1115). *)
Definition CheckOnline (cm : CatalogManager.t) : Status :=
  if bool_decide (CatalogManager.state_ cm = CatalogManager.kRunning) then OK
  else ServiceUnavailable.

(** [CheckIfNoLongerLeaderAndSetupError] (lines 568-582). *)
Definition CheckIfNoLongerLeaderAndSetupError (s : Status) (e : MasterErrorSlot)
    : MasterErrorSlot :=
  if bool_decide (s = IllegalState) || bool_decide (s = Aborted)
  then Some (MasterErrorPB.NOT_THE_LEADER, ServiceUnavailable)
  else e.

(** [GenerateId]. *)
Definition GenerateId `{Externals} (cm : CatalogManager.t) : string * CatalogManager.t :=
  (oid_Next (CatalogManager.oid_generator_ cm),
   CatalogManager.set_oid (S (CatalogManager.oid_generator_ cm)) cm).

(** [InsertOrDie]: [None] is the death. *)
Definition InsertOrDie {A : Type} (k : string) (v : A) (m : option (gmap string A))
    : option (gmap string A) :=
  m ≫= fun m0 => match m0 !! k with
                 | Some _ => None
                 | None => Some (<[k := v]> m0)
                 end.

(** [CatalogManager::CreateTableInfo] (lines 1480-1497): the dirty record of
    the new table. *)
Definition CreateTableInfo `{Externals} (req : CreateTableRequestPB) (num_replicas : Z)
    (schema : SchemaPB) (partition_schema : PartitionSchemaPB) : SysTablesEntryPB.t :=
  {| SysTablesEntryPB.name := create_name req;
     SysTablesEntryPB.version := 0;
     SysTablesEntryPB.schema := schema;
     SysTablesEntryPB.fully_applied_schema := None;
     SysTablesEntryPB.partition_schema := partition_schema;
     SysTablesEntryPB.next_column_id := max_col_id schema + 1;
     SysTablesEntryPB.num_replicas := num_replicas;
     SysTablesEntryPB.state := SysTablesEntryPB.PREPARING;
     SysTablesEntryPB.state_msg := "" |}.

(** [CatalogManager::CreateTabletInfo] (lines 1499-1508): the dirty record of
    a new tablet of [table_id], under the id [id]. *)
Definition CreateTabletInfo (table_id : string) (partition : PartitionPB)
    : SysTabletsEntryPB.t :=
  {| SysTabletsEntryPB.partition := partition;
     SysTabletsEntryPB.consensus_state_field := None;
     SysTabletsEntryPB.state := SysTabletsEntryPB.PREPARING;
     SysTabletsEntryPB.state_msg := "";
     SysTabletsEntryPB.table_id := table_id |}.

(** A [CreateTabletInfo] per partition, each with a generated id. *)
Fixpoint CreateTabletInfos `{Externals} (table_id : string) (partitions : list PartitionPB)
    (cm : CatalogManager.t) : list (string * SysTabletsEntryPB.t) * CatalogManager.t :=
  match partitions with
  | [] => ([], cm)
  | p :: ps =>
      let '(id, cm1) := GenerateId cm in
      let '(rest, cm2) := CreateTabletInfos table_id ps cm1 in
      ((id, CreateTabletInfo table_id p) :: rest, cm2)
  end.

(** The [TabletInfo] object behind a new tablet id, once its dirty record is
    committed. *)
Definition new_TabletInfo (table_id : string) (r : string * SysTabletsEntryPB.t)
    : TabletInfo.t :=
  {| TabletInfo.tablet_id_ := r.1;
     TabletInfo.table_ := table_id;
     TabletInfo.metadata_ := r.2;
     TabletInfo.reported_schema_version_ := NOT_YET_REPORTED |}.

Record CreateTableResponsePB := {
  create_error : MasterErrorSlot;
  create_table_id : option string;
}.

(** The checks of the replication factor and of the number of tablets and
    live tablet servers (lines 1297-1343): the error set up, if any. *)
Definition CreateTable_check_replication `{Externals}
    (num_replicas num_partitions num_live_tservers : Z)
    : option (MasterErrorPB.Code * Status) :=
  if bool_decide (Z.rem num_replicas 2 = 0)
     && negb (FLAGS_allow_unsafe_replication_factor FLAGS)
  then Some (MasterErrorPB.EVEN_REPLICATION_FACTOR, InvalidArgument)
  else if bool_decide (num_replicas > FLAGS_max_num_replicas FLAGS)
  then Some (MasterErrorPB.REPLICATION_FACTOR_TOO_HIGH, InvalidArgument)
  else if bool_decide (num_replicas <= 0)
  then Some (MasterErrorPB.ILLEGAL_REPLICATION_FACTOR, InvalidArgument)
  else
    let max_tablets := FLAGS_max_create_tablets_per_ts FLAGS * num_live_tservers in
    if bool_decide (num_replicas > 1) && bool_decide (max_tablets > 0)
       && bool_decide (num_partitions > max_tablets)
    then Some (MasterErrorPB.TOO_MANY_TABLETS, InvalidArgument)
    else if FLAGS_catalog_manager_check_ts_count_for_create_table FLAGS
            && bool_decide (num_replicas > num_live_tservers)
    then Some (MasterErrorPB.REPLICATION_FACTOR_TOO_HIGH, InvalidArgument)
    else None.

(** The tablet objects [ts] added to the objects of [m]. *)
Definition with_tablets (ts : list TabletInfo.t) (m : gmap string TabletInfo.t)
    : gmap string TabletInfo.t :=
  foldl (fun acc tab => <[TabletInfo.tablet_id_ tab := tab]> acc) m ts.

(** [InsertOrDie(&tablet_map_, tablet->id(), tablet)] for each tablet. *)
Definition publish_tablets (ts : list TabletInfo.t) (m : gmap string TabletInfo.t)
    : option (gmap string TabletInfo.t) :=
  foldl (fun acc tab => InsertOrDie (TabletInfo.tablet_id_ tab) tab acc) (Some m) ts.

(** The scoped cleanup that drops the name reservation. *)
Definition release_name (name : string) (cm : CatalogManager.t) : CatalogManager.t :=
  CatalogManager.set_reserved (CatalogManager.reserved_table_names_ cm ∖ {[name]}) cm.

(** [pb.set_state(state)] on a table record, the message kept. *)
Definition table_pb_set_state (st : SysTablesEntryPB.State) (pb : SysTablesEntryPB.t)
    : SysTablesEntryPB.t :=
  PersistentTableInfo.set_state st (SysTablesEntryPB.state_msg pb) pb.

(** What steps a to d of CreateTable leave for the write: the name
    reserved, the id of the new table, its dirty record and the dirty
    records of its tablets, all locked for write. *)
Record CreatePlan := {
  plan_name : string;
  plan_table_id : string;
  plan_table : SysTablesEntryPB.t;
  plan_tablets : list (string * SysTabletsEntryPB.t);
}.

(** Steps a to d of [CatalogManager::CreateTable] (lines 1201-1392): the
    outcome of a request that is refused, or the plan and the catalog with
    the name reserved. [num_live_tservers] is the size of what
    [GetAllLiveDescriptors] returns. *)
Definition CreateTable_prepare `{Externals} (orig_req : CreateTableRequestPB)
    (num_live_tservers : Z) (cm : CatalogManager.t)
    : Outcome CreateTableResponsePB + CreatePlan * CatalogManager.t :=
  let fail s e :=
    inl (Returned s {| create_error := e; create_table_id := None |} [] cm) in
  if negb (ok (CheckOnline cm)) then fail (CheckOnline cm) None else
  let '(s, e, (schema, partition_schema, partitions)) := PrepareCreateTable orig_req in
  if negb (ok s) then fail s e else
  let name := create_name orig_req in
  let num_replicas :=
    default (FLAGS_default_num_replicas FLAGS) (create_num_replicas orig_req) in
  match CreateTable_check_replication num_replicas (Z.of_nat (length partitions))
          num_live_tservers with
  | Some (c, s) => fail s (Some (c, s))
  | None =>
  (* b. the table does not exist; c. reserve the name *)
  match CatalogManager.table_names_map_ cm !! name with
  | Some _ =>
      fail AlreadyPresent (Some (MasterErrorPB.TABLE_ALREADY_PRESENT, AlreadyPresent))
  | None =>
  if bool_decide (name ∈ CatalogManager.reserved_table_names_ cm)
  then fail ServiceUnavailable
            (Some (MasterErrorPB.TABLE_ALREADY_PRESENT, ServiceUnavailable))
  else
  let cm1 := CatalogManager.set_reserved
               ({[name]} ∪ CatalogManager.reserved_table_names_ cm) cm in
  (* d. the in-memory representation, locked for write *)
  let '(table_id, cm2) := GenerateId cm1 in
  let preparing := CreateTableInfo orig_req num_replicas schema partition_schema in
  let '(tablets, cm3) := CreateTabletInfos table_id partitions cm2 in
  inr ({| plan_name := name; plan_table_id := table_id;
          plan_table := preparing; plan_tablets := tablets |}, cm3)
  end end.

(** The rest of [CatalogManager::CreateTable] (lines 1394-1453): the sanity
    check, the state set to RUNNING on the dirty record, the write, the
    commit and the publication; the name reservation is dropped on every
    way out. *)
Definition CreateTable_apply (plan : CreatePlan) (cm : CatalogManager.t)
    : Outcome CreateTableResponsePB :=
  let name := plan_name plan in
  let table_id := plan_table_id plan in
  let tablets := plan_tablets plan in
  if negb (bool_decide (SysTablesEntryPB.state (plan_table plan)
                        = SysTablesEntryPB.PREPARING)
           && forallb (fun r => bool_decide (SysTabletsEntryPB.state r.2
                                             = SysTabletsEntryPB.PREPARING)) tablets)
  then Crashed
  else
  let dirty := table_pb_set_state SysTablesEntryPB.RUNNING (plan_table plan) in
  (* e. write table and tablets to the system catalog *)
  let actions :=
    {| Actions.table_to_add := Some (table_id, dirty);
       Actions.table_to_update := None;
       Actions.tablets_to_add := tablets;
       Actions.tablets_to_update := [] |} in
  let '(s, sc) := SysCatalogTable.Write actions (CatalogManager.sys_catalog_ cm) in
  let cm4 := CatalogManager.set_sys_catalog sc cm in
  if negb (ok s)
  then Returned s
         {| create_error := CheckIfNoLongerLeaderAndSetupError s None;
            create_table_id := None |} [] (release_name name cm4)
  else
  (* f. commit; g. add the tablets to the table *)
  let objs := new_TabletInfo table_id <$> tablets in
  let fresh_table :=
    {| TableInfo.table_id_ := table_id; TableInfo.metadata_ := dirty;
       TableInfo.tablet_map_ := ∅; TableInfo.schema_version_counts_ := ∅ |} in
  match TableInfo.AddRemoveTablets
          (with_tablets objs (CatalogManager.tablet_map_ cm4)) objs [] fresh_table with
  | None => Crashed
  | Some table =>
  (* h. make the table and the tablets visible *)
  match publish_tablets objs (CatalogManager.tablet_map_ cm4) with
  | None => Crashed
  | Some tablet_map =>
      Returned OK {| create_error := None; create_table_id := Some table_id |} []
        (release_name name
           (CatalogManager.set_maps
              (<[table_id := table]> (CatalogManager.table_ids_map_ cm4))
              (<[name := table_id]> (CatalogManager.table_names_map_ cm4))
              tablet_map cm4))
  end end.

(** [CatalogManager::CreateTable] (lines 1193-1454). *)
Definition CreateTable `{Externals} (orig_req : CreateTableRequestPB)
    (num_live_tservers : Z) (cm : CatalogManager.t) : Outcome CreateTableResponsePB :=
  match CreateTable_prepare orig_req num_live_tservers cm with
  | inl refused => refused
  | inr (plan, cm') => CreateTable_apply plan cm'
  end.

(** [CatalogManager::FindAndLockTable] (lines 1510-1550): the status and the
    table found, if any. *)
Definition FindAndLockTable (ident : TableIdentifierPB) (cm : CatalogManager.t)
    : Status * option TableInfo.t :=
  let by_id (id : string) : option string :=
    match CatalogManager.table_ids_map_ cm !! id with
    | Some _ => Some id
    | None => None
    end in
  let by_name (n : string) : option string :=
    CatalogManager.table_names_map_ cm !! n ≫= by_id in
  let lock (table : option string) : Status * option TableInfo.t :=
    match table ≫= fun id => CatalogManager.table_ids_map_ cm !! id with
    | None => (OK, None)
    | Some ti =>
        match ident_table_name ident with
        | Some n =>
            if bool_decide (n ≠ SysTablesEntryPB.name (TableInfo.metadata_ ti))
            then (OK, None) else (OK, Some ti)
        | None => (OK, Some ti)
        end
    end in
  match ident_table_id ident, ident_table_name ident with
  | Some id, Some n =>
      if bool_decide (by_id id ≠ by_name n) then (OK, None) else lock (by_id id)
  | Some id, None => lock (by_id id)
  | None, Some n => lock (by_name n)
  | None, None => (InvalidArgument, None)
  end.

(** [CheckIfTableDeletedOrNotRunning] (lines 584-597). *)
Definition CheckIfTableDeletedOrNotRunning `{Externals} (pb : SysTablesEntryPB.t)
    : option (MasterErrorPB.Code * Status) :=
  if PersistentTableInfo.is_deleted pb
  then Some (MasterErrorPB.TABLE_NOT_FOUND, NotFound)
  else if negb (table_is_running pb)
  then Some (MasterErrorPB.TABLE_NOT_FOUND, ServiceUnavailable)
  else None.

Record IsCreateTableDoneResponsePB := {
  is_create_done_error : MasterErrorSlot;
  is_create_done : option bool;
}.

(** [CatalogManager::IsCreateTableDone] (lines 1456-1478). *)
Definition IsCreateTableDone `{Externals} (req : TableIdentifierPB)
    (cm : CatalogManager.t) : Outcome IsCreateTableDoneResponsePB :=
  let fail s e :=
    Returned s {| is_create_done_error := e; is_create_done := None |} [] cm in
  if negb (ok (CheckOnline cm)) then fail (CheckOnline cm) None else
  match FindAndLockTable req cm with
  | (s, None) =>
      if negb (ok s) then fail s None
      else fail NotFound (Some (MasterErrorPB.TABLE_NOT_FOUND, NotFound))
  | (s, Some table) =>
      if negb (ok s) then fail s None
      else
        match CheckIfTableDeletedOrNotRunning (TableInfo.metadata_ table) with
        | Some (c, s') => fail s' (Some (c, s'))
        | None =>
            Returned OK
              {| is_create_done_error := None;
                 is_create_done :=
                   Some (negb (TableInfo.IsCreateInProgress
                                 (CatalogManager.tablet_map_ cm) table)) |} [] cm
        end
  end.

(** The tablet objects behind a list of tablet pointers. *)
Definition resolve_tablets (store : gmap string TabletInfo.t) (ids : list string)
    : list TabletInfo.t :=
  omap (fun id => store !! id) ids.

(** Commit of the dirty records [rs] of existing tablets. *)
Definition commit_tablets (rs : list (string * SysTabletsEntryPB.t))
    (m : gmap string TabletInfo.t) : gmap string TabletInfo.t :=
  foldl (fun acc r => alter (TabletInfo.set_metadata r.2) r.1 acc) m rs.

(** [CatalogManager::SendDeleteTabletRequest] (lines 3672-3695), on the
    committed record of the tablet. *)
Definition SendDeleteTabletRequest (tab : TabletInfo.t) : list RpcTask :=
  let pb := TabletInfo.metadata_ tab in
  if negb (SysTabletsEntryPB.has_consensus_state pb) then []
  else
    (fun peer =>
       AsyncDeleteReplica (RaftPeerPB.permanent_uuid peer) (TabletInfo.table_ tab)
         (TabletInfo.tablet_id_ tab) tablet.TABLET_DATA_DELETED None)
    <$> RaftConfigPB.peers
          (ConsensusStatePB.committed_config (SysTabletsEntryPB.consensus_state pb)).

(** [CatalogManager::SendDeleteTableRequest] (lines 3661-3670). *)
Definition SendDeleteTableRequest (store : gmap string TabletInfo.t)
    (table : TableInfo.t) : list RpcTask :=
  resolve_tablets store (TableInfo.GetAllTablets table) ≫= SendDeleteTabletRequest.

(** [CatalogManager::SendAlterTableRequest] (lines 3650-3659). *)
Definition SendAlterTableRequest (table : TableInfo.t) : list RpcTask :=
  AsyncAlterTable <$> TableInfo.GetAllTablets table.

Record DeleteTableResponsePB := {
  delete_error : MasterErrorSlot;
}.

(** Step 1 of [CatalogManager::DeleteTable] (lines 1555-1575): the outcome
    of a request that is refused, or the table found and locked. *)
Definition DeleteTable_prepare (req : TableIdentifierPB) (cm : CatalogManager.t)
    : Outcome DeleteTableResponsePB + TableInfo.t :=
  let fail s e := inl (Returned s {| delete_error := e |} [] cm) in
  if negb (ok (CheckOnline cm)) then fail (CheckOnline cm) None else
  match FindAndLockTable req cm with
  | (s, None) =>
      if negb (ok s) then fail s None
      else fail NotFound (Some (MasterErrorPB.TABLE_NOT_FOUND, NotFound))
  | (s, Some table) =>
      if negb (ok s) then fail s None
      else if PersistentTableInfo.is_deleted (TableInfo.metadata_ table)
      then fail NotFound (Some (MasterErrorPB.TABLE_NOT_FOUND, NotFound))
      else inr table
  end.

(** The rest of [CatalogManager::DeleteTable] (lines 1577-1636). *)
Definition DeleteTable_apply `{Externals} (table : TableInfo.t) (cm : CatalogManager.t)
    : Outcome DeleteTableResponsePB :=
  let deletion_msg := "Table deleted at " +:+ LocalTimeAsString in
  let dirty := PersistentTableInfo.set_state SysTablesEntryPB.REMOVED deletion_msg
                 (TableInfo.metadata_ table) in
  (* 2. look up the tablets, lock them, mark them as deleted *)
  let tablets := resolve_tablets (CatalogManager.tablet_map_ cm)
                   (TableInfo.GetAllTablets table) in
  let dirty_tablets :=
    (fun tab => (TabletInfo.tablet_id_ tab,
                 PersistentTabletInfo.set_state SysTabletsEntryPB.DELETED deletion_msg
                   (TabletInfo.metadata_ tab))) <$> tablets in
  (* 3. update the system catalog *)
  let actions :=
    {| Actions.table_to_add := None;
       Actions.table_to_update := Some (TableInfo.table_id_ table, dirty);
       Actions.tablets_to_add := [];
       Actions.tablets_to_update := dirty_tablets |} in
  let '(s, sc) := SysCatalogTable.Write actions (CatalogManager.sys_catalog_ cm) in
  let cm1 := CatalogManager.set_sys_catalog sc cm in
  if negb (ok s)
  then Returned s {| delete_error := CheckIfNoLongerLeaderAndSetupError s None |} [] cm1
  else
  (* 4. remove the table from the by-name map *)
  match CatalogManager.table_names_map_ cm1 !! SysTablesEntryPB.name dirty with
  | None => Crashed
  | Some _ =>
  let names := delete (SysTablesEntryPB.name dirty) (CatalogManager.table_names_map_ cm1) in
  (* 5. commit the tablets; 6. commit the table *)
  let tablet_map := commit_tablets dirty_tablets (CatalogManager.tablet_map_ cm1) in
  let table' := TableInfo.set_metadata dirty table in
  let ids := <[TableInfo.table_id_ table := table']> (CatalogManager.table_ids_map_ cm1) in
  (* 7. abort the tasks of the table; 8. DeleteTablet to every replica *)
  Returned OK {| delete_error := None |}
    (SendDeleteTableRequest tablet_map table')
    (CatalogManager.set_maps ids names tablet_map cm1)
  end.

(** [CatalogManager::DeleteTable] (lines 1552-1636). *)
Definition DeleteTable `{Externals} (req : TableIdentifierPB) (cm : CatalogManager.t)
    : Outcome DeleteTableResponsePB :=
  match DeleteTable_prepare req cm with
  | inl refused => refused
  | inr table => DeleteTable_apply table cm
  end.

(** ** Ordered maps

    A [std::map<std::string, V>] is a [gmap]; its order is the order of
    [std::string], byte by byte. *)

Definition key_order {V : Type} (a b : string * V) : Prop := String.leb a.1 b.1 = true.

#[global] Instance key_order_dec {V : Type} (a b : string * V) : Decision (key_order a b).
Proof. unfold key_order. apply _. Defined.

(** The entries of the map from [begin()] to [end()]. *)
Definition ordered_entries {V : Type} (m : gmap string V) : list (string * V) :=
  merge_sort key_order (map_to_list m).

(** [m.lower_bound(k)]: the first entry whose key is not less than [k];
    [None] is [m.end()]. *)
Definition lower_bound {V : Type} (k : string) (m : gmap string V) : option (string * V) :=
  List.find (fun e => String.leb k e.1) (ordered_entries m).

(** [m.upper_bound(k)]: the first entry whose key is greater than [k]. *)
Definition upper_bound {V : Type} (k : string) (m : gmap string V) : option (string * V) :=
  List.find (fun e => String.ltb k e.1) (ordered_entries m).

(** [std::prev(m.upper_bound(k))]: the last entry whose key is not greater
    than [k]; [None] when [m.upper_bound(k)] is [m.begin()]. *)
Definition prev_upper_bound {V : Type} (k : string) (m : gmap string V)
    : option (string * V) :=
  List.find (fun e => String.leb e.1 k) (reverse (ordered_entries m)).

(** [m.emplace(k, v)]: nothing is stored when the key is taken. *)
Definition emplace {V : Type} (k : string) (v : V) (m : gmap string V) : gmap string V :=
  match m !! k with
  | Some _ => m
  | None => <[k := v]> m
  end.

(** ** The partitioning steps of AlterTable *)

(** The local state of [ApplyAlterPartitioningSteps]: its copy of the map
    of the table, with the tablet pointers resolved; the new tablets by the
    start of their partition, each with its id and its dirty record; the
    existing tablets to drop. *)
Record AlterPartitioning := {
  existing_tablets : gmap string TabletInfo.t;
  new_tablets : gmap string (string * SysTabletsEntryPB.t);
  dropped_tablets : list TabletInfo.t;
}.

(** The overlap test of a new range with the tablets of a map (lines
    1789-1808 and 1811-1829): with the tablet after the lower bound, then
    with the tablet before it. *)
Definition range_conflicts {V : Type} (partition : V -> PartitionPB)
    (lower_bound_key upper_bound_key : string) (m : gmap string V) : bool :=
  match upper_bound lower_bound_key m with
  | Some e =>
      bool_decide (upper_bound_key = "")
      || String.ltb (partition_key_start (partition e.2)) upper_bound_key
  | None => false
  end
  || match prev_upper_bound lower_bound_key m with
     | Some e =>
         bool_decide (partition_key_end (partition e.2) = "")
         || String.ltb lower_bound_key (partition_key_end (partition e.2))
     | None => false
     end.

(** One pass of the loop of an ADD_RANGE_PARTITION step (lines 1782-1834). *)
Definition add_range_partition `{Externals} (table_id : string) (partition : PartitionPB)
    (st : AlterPartitioning) (cm : CatalogManager.t)
    : Status * AlterPartitioning * CatalogManager.t :=
  let lower_bound_key := partition_key_start partition in
  let upper_bound_key := partition_key_end partition in
  if range_conflicts (fun tab => SysTabletsEntryPB.partition (TabletInfo.metadata_ tab))
       lower_bound_key upper_bound_key (existing_tablets st)
  then (InvalidArgument, st, cm)
  else if range_conflicts (fun r : string * SysTabletsEntryPB.t =>
                             SysTabletsEntryPB.partition r.2)
            lower_bound_key upper_bound_key (new_tablets st)
  then (InvalidArgument, st, cm)
  else
    let '(id, cm1) := GenerateId cm in
    (OK,
     {| existing_tablets := existing_tablets st;
        new_tablets := emplace lower_bound_key (id, CreateTabletInfo table_id partition)
                         (new_tablets st);
        dropped_tablets := dropped_tablets st |},
     cm1).

(** One pass of the loop of a DROP_RANGE_PARTITION step (lines 1839-1874).
    The [DCHECK] that not both maps hold the range is left out. *)
Definition drop_range_partition (partition : PartitionPB) (st : AlterPartitioning)
    : Status * AlterPartitioning :=
  let lower_bound_key := partition_key_start partition in
  let upper_bound_key := partition_key_end partition in
  let found (p : PartitionPB) :=
    bool_decide (partition_key_start p = lower_bound_key)
    && bool_decide (partition_key_end p = upper_bound_key) in
  let found_existing :=
    match lower_bound lower_bound_key (existing_tablets st) with
    | Some e => if found (SysTabletsEntryPB.partition (TabletInfo.metadata_ e.2))
                then Some e else None
    | None => None
    end in
  let found_new :=
    match lower_bound lower_bound_key (new_tablets st) with
    | Some e => if found (SysTabletsEntryPB.partition e.2.2) then Some e else None
    | None => None
    end in
  match found_existing, found_new with
  | Some e, _ =>
      (OK, {| existing_tablets := delete e.1 (existing_tablets st);
              new_tablets := new_tablets st;
              dropped_tablets := dropped_tablets st ++ [e.2] |})
  | None, Some e =>
      (OK, {| existing_tablets := existing_tablets st;
              new_tablets := delete e.1 (new_tablets st);
              dropped_tablets := dropped_tablets st |})
  | None, None => (InvalidArgument, st)
  end.

(** The loops over the partitions of a step; an error ends them. *)
Fixpoint add_range_partitions `{Externals} (table_id : string)
    (partitions : list PartitionPB) (st : AlterPartitioning) (cm : CatalogManager.t)
    : Status * AlterPartitioning * CatalogManager.t :=
  match partitions with
  | [] => (OK, st, cm)
  | p :: ps =>
      let '(s, st1, cm1) := add_range_partition table_id p st cm in
      if negb (ok s) then (s, st1, cm1)
      else add_range_partitions table_id ps st1 cm1
  end.

Fixpoint drop_range_partitions (partitions : list PartitionPB) (st : AlterPartitioning)
    : Status * AlterPartitioning :=
  match partitions with
  | [] => (OK, st)
  | p :: ps =>
      let '(s, st1) := drop_range_partition p st in
      if negb (ok s) then (s, st1) else drop_range_partitions ps st1
  end.

(** The body of the loop over the steps (lines 1740-1882); [None] is the
    failed [CHECK_EQ] on the type of a step that adds no range. *)
Definition apply_partitioning_step `{Externals} (pb : SysTablesEntryPB.t)
    (table_id : string) (client_schema : SchemaPB) (step : AlterTableRequestPB.Step)
    (st : AlterPartitioning) (cm : CatalogManager.t)
    : option (Status * AlterPartitioning * CatalogManager.t) :=
  match AlterTableRequestPB.step_type step with
  | AlterTableRequestPB.ADD_RANGE_PARTITION =>
      let '(s, partitions) := CreateRangePartitions pb client_schema step in
      if negb (ok s) then Some (s, st, cm)
      else Some (add_range_partitions table_id partitions st cm)
  | AlterTableRequestPB.DROP_RANGE_PARTITION =>
      let '(s, partitions) := CreateRangePartitions pb client_schema step in
      if negb (ok s) then Some (s, st, cm)
      else let '(s1, st1) := drop_range_partitions partitions st in Some (s1, st1, cm)
  | _ => None
  end.

Fixpoint apply_partitioning_steps `{Externals} (pb : SysTablesEntryPB.t)
    (table_id : string) (client_schema : SchemaPB) (steps : list AlterTableRequestPB.Step)
    (st : AlterPartitioning) (cm : CatalogManager.t)
    : option (Status * AlterPartitioning * CatalogManager.t) :=
  match steps with
  | [] => Some (OK, st, cm)
  | step :: rest =>
      match apply_partitioning_step pb table_id client_schema step st cm with
      | None => None
      | Some (s, st1, cm1) =>
          if negb (ok s) then Some (s, st1, cm1)
          else apply_partitioning_steps pb table_id client_schema rest st1 cm1
      end
  end.

(** [CatalogManager::ApplyAlterPartitioningSteps] (lines 1719-1889) for the
    table [table] with the record [pb]: the status, the new tablets in the
    order of their partition starts, each with its id and its dirty record,
    the existing tablets to drop, and the catalog with the ids taken from
    the generator; [None] is the death of the process. On an error no tablet
    is handed back to add. *)
Definition ApplyAlterPartitioningSteps `{Externals} (pb : SysTablesEntryPB.t)
    (table : TableInfo.t) (client_schema : SchemaPB)
    (steps : list AlterTableRequestPB.Step) (cm : CatalogManager.t)
    : option (Status * list (string * SysTabletsEntryPB.t) * list TabletInfo.t
              * CatalogManager.t) :=
  if negb (ok (SchemaFromPB (SysTablesEntryPB.schema pb)))
  then Some (SchemaFromPB (SysTablesEntryPB.schema pb), [], [], cm)
  else if negb (ok (PartitionSchema_FromPB (SysTablesEntryPB.partition_schema pb)
                      (SysTablesEntryPB.schema pb)))
  then Some (PartitionSchema_FromPB (SysTablesEntryPB.partition_schema pb)
               (SysTablesEntryPB.schema pb), [], [], cm)
  else
    let st0 :=
      {| existing_tablets :=
           omap (fun id => CatalogManager.tablet_map_ cm !! id)
                (TableInfo.tablet_map_ table);
         new_tablets := ∅;
         dropped_tablets := [] |} in
    match apply_partitioning_steps pb (TableInfo.table_id_ table) client_schema steps
            st0 cm with
    | None => None
    | Some (s, st, cm1) =>
        if negb (ok s) then Some (s, [], dropped_tablets st, cm1)
        else Some (OK, (ordered_entries (new_tablets st)).*2, dropped_tablets st, cm1)
    end.

Record AlterTableResponsePB := {
  alter_error : MasterErrorSlot;
  alter_table_id : option string;
}.

(** Step 1 of AlterTable (lines 1900-1921): the schema steps, the
    partitioning steps, or [None] at a step of unknown type. *)
Fixpoint group_steps (steps : list AlterTableRequestPB.Step)
    : option (list AlterTableRequestPB.Step * list AlterTableRequestPB.Step) :=
  match steps with
  | [] => Some ([], [])
  | st :: rest =>
      match AlterTableRequestPB.step_type st with
      | AlterTableRequestPB.UNKNOWN => None
      | AlterTableRequestPB.ADD_RANGE_PARTITION
      | AlterTableRequestPB.DROP_RANGE_PARTITION =>
          group_steps rest ≫= fun '(sch, par) => Some (sch, st :: par)
      | _ => group_steps rest ≫= fun '(sch, par) => Some (st :: sch, par)
      end
  end.

(** Step 6 of AlterTable (lines 2039-2058): the dirty table record with
    the schema serialized, the version incremented and the state set. *)
Definition AlterTable_update_record `{Externals}
    (schema_changes metadata_changes for_existing_tablets tablets_added : bool)
    (new_schema : SchemaPB) (next_col_id : Z) (pb : SysTablesEntryPB.t)
    : SysTablesEntryPB.t :=
  let pb1 :=
    if for_existing_tablets
       && negb (bool_decide (is_Some (SysTablesEntryPB.fully_applied_schema pb)))
    then PersistentTableInfo.set_fully_applied_schema
           (Some (SysTablesEntryPB.schema pb)) pb
    else pb in
  let pb2 := if schema_changes then PersistentTableInfo.set_schema new_schema pb1
             else pb1 in
  let pb3 := if metadata_changes
             then PersistentTableInfo.set_version
                    (SysTablesEntryPB.version pb2 + 1) next_col_id pb2
             else pb2 in
  if tablets_added || for_existing_tablets
  then PersistentTableInfo.set_state SysTablesEntryPB.ALTERING
         ("Alter Table version=" +:+ pretty (SysTablesEntryPB.version pb3)
          +:+ " ts=" +:+ LocalTimeAsString) pb3
  else pb3.

(** What steps 1 to 5 of AlterTable leave: the table locked for write, its
    name before the alter, its dirty record (with the new name, if any),
    whether there are schema steps and partitioning steps, the schema and
    the next column id the schema steps gave, the dirty records of the new
    tablets and the existing tablets to drop. *)
Record AlterPlan := {
  alter_plan_table : TableInfo.t;
  alter_plan_table_name : string;
  alter_plan_dirty : SysTablesEntryPB.t;
  has_schema_changes : bool;
  has_partitioning_changes : bool;
  alter_plan_new_schema : SchemaPB;
  alter_plan_next_col_id : Z;
  tablets_to_add : list (string * SysTabletsEntryPB.t);
  tablets_to_drop : list TabletInfo.t;
}.

(** "Set to true if there are schema changes, or the table is renamed"
    (lines 2026-2027). *)
Definition has_metadata_changes (req : AlterTableRequestPB.t) (plan : AlterPlan) : bool :=
  has_schema_changes plan
  || bool_decide (is_Some (AlterTableRequestPB.new_table_name req)).

(** "Set to true if metadata changes need to be applied to existing
    tablets" (lines 2030-2032). *)
Definition has_metadata_changes_for_existing_tablets (req : AlterTableRequestPB.t)
    (plan : AlterPlan) : bool :=
  has_metadata_changes req plan
  && bool_decide (length (tablets_to_drop plan)
                  < size (TableInfo.tablet_map_ (alter_plan_table plan)))%nat.

(** The scoped cleanup of AlterTable (lines 2001-2007). *)
Definition AlterTable_cleanup (req : AlterTableRequestPB.t) (cm : CatalogManager.t)
    : CatalogManager.t :=
  match AlterTableRequestPB.new_table_name req with
  | Some n => release_name n cm
  | None => cm
  end.

(** The dirty table record after step 6. *)
Definition AlterTable_dirty `{Externals} (req : AlterTableRequestPB.t) (plan : AlterPlan)
    : SysTablesEntryPB.t :=
  AlterTable_update_record (has_schema_changes plan) (has_metadata_changes req plan)
    (has_metadata_changes_for_existing_tablets req plan)
    (negb (bool_decide (tablets_to_add plan = [])))
    (alter_plan_new_schema plan) (alter_plan_next_col_id plan) (alter_plan_dirty plan).

(** Steps 6 to 8 of AlterTable (lines 2024-2155). *)
Definition AlterTable_apply `{Externals} (req : AlterTableRequestPB.t) (plan : AlterPlan)
    (cm : CatalogManager.t) : Outcome AlterTableResponsePB :=
  let table := alter_plan_table plan in
  let table_id := TableInfo.table_id_ table in
  let resp e := {| alter_error := e; alter_table_id := Some table_id |} in
  let has_tablets_to_add := negb (bool_decide (tablets_to_add plan = [])) in
  (* skip empty requests *)
  if negb (has_metadata_changes req plan) && negb (has_partitioning_changes plan)
  then Returned OK (resp None) [] (AlterTable_cleanup req cm)
  else
  (* 6. serialize the schema and increment the version number *)
  let dirty' := AlterTable_dirty req plan in
  (* 7. update the system catalog *)
  let deletion_msg := "Partition dropped at " +:+ LocalTimeAsString in
  let dirty_drops :=
    (fun tab => (TabletInfo.tablet_id_ tab,
                 PersistentTabletInfo.set_state SysTabletsEntryPB.DELETED deletion_msg
                   (TabletInfo.metadata_ tab))) <$> tablets_to_drop plan in
  let actions :=
    {| Actions.table_to_add := None;
       Actions.table_to_update :=
         if has_tablets_to_add || has_metadata_changes req plan
         then Some (table_id, dirty') else None;
       Actions.tablets_to_add := tablets_to_add plan;
       Actions.tablets_to_update := dirty_drops |} in
  let '(s, sc) := SysCatalogTable.Write actions (CatalogManager.sys_catalog_ cm) in
  let cm1 := CatalogManager.set_sys_catalog sc cm in
  if negb (ok s)
  then Returned s (resp (CheckIfNoLongerLeaderAndSetupError s None)) []
         (AlterTable_cleanup req cm1)
  else
  (* 8. commit the in-memory state *)
  let objs := new_TabletInfo table_id <$> tablets_to_add plan in
  let names_opt :=
    match AlterTableRequestPB.new_table_name req with
    | Some n =>
        match CatalogManager.table_names_map_ cm1 !! alter_plan_table_name plan with
        | None => None
        | Some _ =>
            InsertOrDie n table_id
              (Some (delete (alter_plan_table_name plan)
                       (CatalogManager.table_names_map_ cm1)))
        end
    | None => Some (CatalogManager.table_names_map_ cm1)
    end in
  match names_opt with
  | None => Crashed
  | Some names =>
  match publish_tablets objs (CatalogManager.tablet_map_ cm1) with
  | None => Crashed
  | Some published =>
  match TableInfo.AddRemoveTablets published objs (tablets_to_drop plan) table with
  | None => Crashed
  | Some table1 =>
  let tablet_map := commit_tablets dirty_drops published in
  let table2 := if has_tablets_to_add || has_metadata_changes req plan
                then TableInfo.set_metadata dirty' table1 else table1 in
  let ids := <[table_id := table2]> (CatalogManager.table_ids_map_ cm1) in
  Returned OK (resp None)
    (SendAlterTableRequest table2
     ++ (resolve_tablets tablet_map (TabletInfo.tablet_id_ <$> tablets_to_drop plan)
         ≫= SendDeleteTabletRequest))
    (AlterTable_cleanup req (CatalogManager.set_maps ids names tablet_map cm1))
  end end end.

(** Step 5 of AlterTable (lines 2009-2022): the status and the error set
    up when the step fails, or the new tablets, in the order of their
    partition starts, and the existing tablets to drop; with the catalog,
    whose generator gave the ids. [None] is the death of the process. *)
Definition alter_partitioning `{Externals} (req : AlterTableRequestPB.t)
    (dirty : SysTablesEntryPB.t) (table : TableInfo.t)
    (alter_partitioning_steps : list AlterTableRequestPB.Step) (cm : CatalogManager.t)
    : option (Status * MasterErrorSlot * CatalogManager.t
              + list (string * SysTabletsEntryPB.t) * list TabletInfo.t
                * CatalogManager.t) :=
  if negb (bool_decide (alter_partitioning_steps = [])) then
    if negb (ok (SchemaFromPB (AlterTableRequestPB.schema req)))
    then Some (inl (SchemaFromPB (AlterTableRequestPB.schema req), None, cm))
    else
      match ApplyAlterPartitioningSteps dirty table (AlterTableRequestPB.schema req)
              alter_partitioning_steps cm with
      | None => None
      | Some (s, to_add, to_drop, cm1) =>
          if negb (ok s) then Some (inl (s, Some (MasterErrorPB.UNKNOWN_ERROR, s), cm1))
          else Some (inr (to_add, to_drop, cm1))
      end
  else Some (inr ([], [], cm)).

(** Steps 1 to 5 of [CatalogManager::AlterTable] (lines 1894-2022): the
    outcome of a request that is refused, or the plan and the catalog with
    the new name reserved. *)
Definition AlterTable_prepare `{Externals} (req : AlterTableRequestPB.t)
    (cm : CatalogManager.t) : Outcome AlterTableResponsePB + AlterPlan * CatalogManager.t :=
  let early s :=
    inl (Returned s {| alter_error := None; alter_table_id := None |} [] cm) in
  let not_found :=
    inl (Returned NotFound
           {| alter_error := Some (MasterErrorPB.TABLE_NOT_FOUND, NotFound);
              alter_table_id := None |} [] cm) in
  if negb (ok (CheckOnline cm)) then early (CheckOnline cm) else
  (* 1. group the steps *)
  match group_steps (AlterTableRequestPB.alter_schema_steps req) with
  | None => early InvalidArgument
  | Some (alter_schema_steps, alter_partitioning_steps) =>
  (* 2. look up the table and lock it for modification *)
  match FindAndLockTable (AlterTableRequestPB.table req) cm with
  | (s, None) => if negb (ok s) then early s else not_found
  | (s, Some table) =>
  if negb (ok s) then early s else
  if PersistentTableInfo.is_deleted (TableInfo.metadata_ table) then not_found else
  let pb := TableInfo.metadata_ table in
  let table_name := SysTablesEntryPB.name pb in
  let table_id := TableInfo.table_id_ table in
  let fail s c cm' :=
    inl (Returned s {| alter_error := Some (c, s); alter_table_id := Some table_id |}
           [] cm') in
  (* 3. the new schema *)
  let schema_changes := negb (bool_decide (alter_schema_steps = [])) in
  let schema_result : Status + (SchemaPB * Z) :=
    if schema_changes then
      let '(s, (new_schema, next_col_id)) :=
        ApplyAlterSchemaSteps pb alter_schema_steps in
      if negb (ok s) then inl s
      else if negb (ok (ValidateClientSchema new_schema))
      then inl (ValidateClientSchema new_schema)
      else inr (new_schema, next_col_id)
    else inr ([], SysTablesEntryPB.next_column_id pb) in
  match schema_result with
  | inl s => fail s MasterErrorPB.INVALID_SCHEMA cm
  | inr (new_schema, next_col_id) =>
  (* 4. validate and reserve the new table name *)
  let renamed : Status * MasterErrorPB.Code + SysTablesEntryPB.t * CatalogManager.t :=
    match AlterTableRequestPB.new_table_name req with
    | None => inr (pb, cm)
    | Some n =>
        if negb (ok (ValidateIdentifier n))
        then inl (ValidateIdentifier n, MasterErrorPB.INVALID_SCHEMA)
        else if bool_decide (is_Some (CatalogManager.table_names_map_ cm !! n))
        then inl (AlreadyPresent, MasterErrorPB.TABLE_ALREADY_PRESENT)
        else if bool_decide (n ∈ CatalogManager.reserved_table_names_ cm)
        then inl (ServiceUnavailable, MasterErrorPB.TABLE_ALREADY_PRESENT)
        else inr (PersistentTableInfo.set_name n pb,
                  CatalogManager.set_reserved
                    ({[n]} ∪ CatalogManager.reserved_table_names_ cm) cm)
    end in
  match renamed with
  | inl (s, c) => fail s c cm
  | inr (dirty, cm1) =>
  (* 5. alter the partitioning *)
  match alter_partitioning req dirty table alter_partitioning_steps cm1 with
  | None => inl Crashed
  | Some (inl (s, e, cm2)) =>
      inl (Returned s {| alter_error := e; alter_table_id := Some table_id |} []
             (AlterTable_cleanup req cm2))
  | Some (inr (to_add, to_drop, cm2)) =>
  inr ({| alter_plan_table := table;
          alter_plan_table_name := table_name;
          alter_plan_dirty := dirty;
          has_schema_changes := schema_changes;
          has_partitioning_changes :=
            negb (bool_decide (alter_partitioning_steps = []));
          alter_plan_new_schema := new_schema;
          alter_plan_next_col_id := next_col_id;
          tablets_to_add := to_add;
          tablets_to_drop := to_drop |},
       cm2)
  end end end end end.

(** [CatalogManager::AlterTable] (lines 1891-2155). *)
Definition AlterTable `{Externals} (req : AlterTableRequestPB.t) (cm : CatalogManager.t)
    : Outcome AlterTableResponsePB :=
  match AlterTable_prepare req cm with
  | inl refused => refused
  | inr (plan, cm') => AlterTable_apply req plan cm'
  end.

(** ** Tablet reports *)

(** [ShouldTransitionTabletToRunning] (lines 2284-2304), on the committed
    record of the tablet. *)
Definition ShouldTransitionTabletToRunning `{Externals} (tablet_pb : SysTabletsEntryPB.t)
    (report : ReportedTabletPB.t) (cstate : ConsensusStatePB.t) : bool :=
  if PersistentTabletInfo.is_running tablet_pb then false
  else if negb (bool_decide (ReportedTabletPB.state report = tablet.RUNNING)) then false
  else if negb (FLAGS_catalog_manager_wait_for_new_tablets_to_elect_leader FLAGS) then true
  else negb (bool_decide (ConsensusStatePB.leader_uuid cstate = ""))
       && IsRaftConfigMember (ConsensusStatePB.leader_uuid cstate)
            (ConsensusStatePB.committed_config cstate).

(** Step 7b (lines 3424-3430): the reported consensus state with the leader
    disregarded when it is no member of the committed config. *)
Definition disregard_leader `{Externals} (reported : ConsensusStatePB.t)
    : ConsensusStatePB.t :=
  if bool_decide (ConsensusStatePB.leader_uuid reported = "")
     || negb (IsRaftConfigMember (ConsensusStatePB.leader_uuid reported)
                (ConsensusStatePB.committed_config reported))
  then ConsensusStatePB.clear_leader_uuid reported
  else reported.

(** Step 7d (lines 3453-3457): whether the consensus state is updated. *)
Definition consensus_state_updated (cstate prev_cstate : ConsensusStatePB.t) : bool :=
  bool_decide (RaftConfigPB.opid_index (ConsensusStatePB.committed_config cstate)
               > RaftConfigPB.opid_index (ConsensusStatePB.committed_config prev_cstate))
  || (negb (bool_decide (ConsensusStatePB.leader_uuid cstate = ""))
      && (bool_decide (ConsensusStatePB.leader_uuid prev_cstate = "")
          || bool_decide (ConsensusStatePB.current_term cstate
                          > ConsensusStatePB.current_term prev_cstate))).

(** Step 7d(i) (lines 3467-3482): the leader of the previous state reused
    for the same term; [None] is the entry abandoned because the two states
    name different leaders for one term. *)
Definition retain_leader (cstate prev_cstate : ConsensusStatePB.t)
    : option ConsensusStatePB.t :=
  if bool_decide (ConsensusStatePB.current_term cstate
                  = ConsensusStatePB.current_term prev_cstate)
  then
    if bool_decide (ConsensusStatePB.leader_uuid cstate = "")
       && negb (bool_decide (ConsensusStatePB.leader_uuid prev_cstate = ""))
    then Some (ConsensusStatePB.set_leader_uuid
                 (ConsensusStatePB.leader_uuid prev_cstate) cstate)
    else if negb (bool_decide (ConsensusStatePB.leader_uuid cstate = ""))
            && negb (bool_decide (ConsensusStatePB.leader_uuid prev_cstate = ""))
            && negb (bool_decide (ConsensusStatePB.leader_uuid cstate
                                  = ConsensusStatePB.leader_uuid prev_cstate))
    then None
    else Some cstate
  else Some cstate.

(** Step 7d(ii) (lines 3496-3502): the copy that is persisted, without the
    health reports. *)
Definition strip_health_reports (cstate : ConsensusStatePB.t) : ConsensusStatePB.t :=
  ConsensusStatePB.set_committed_config
    {| RaftConfigPB.opid_index_field :=
         RaftConfigPB.opid_index_field (ConsensusStatePB.committed_config cstate);
       RaftConfigPB.peers :=
         RaftPeerPB.clear_health_report
         <$> RaftConfigPB.peers (ConsensusStatePB.committed_config cstate) |}
    cstate.

(** [InsertOrDie(&current_member_uuids, p.permanent_uuid())] over the peers
    of the new config: [None] when two peers share a uuid. *)
Fixpoint insert_member_uuids (ps : list RaftPeerPB.t) (acc : gset string)
    : option (gset string) :=
  match ps with
  | [] => Some acc
  | p :: rest =>
      if bool_decide (RaftPeerPB.permanent_uuid p ∈ acc) then None
      else insert_member_uuids rest ({[RaftPeerPB.permanent_uuid p]} ∪ acc)
  end.

(** Step 7d(iii) (lines 3505-3523): a tombstoning DeleteTablet for every
    peer of the previous config that is not in the new one. *)
Definition tombstone_evicted (table_id tablet_id : string)
    (cstate prev_cstate : ConsensusStatePB.t) : option (list RpcTask) :=
  insert_member_uuids (RaftConfigPB.peers (ConsensusStatePB.committed_config cstate)) ∅
  ≫= fun current_member_uuids =>
    Some ((fun p =>
             AsyncDeleteReplica (RaftPeerPB.permanent_uuid p) table_id tablet_id
               tablet.TABLET_DATA_TOMBSTONED
               (Some (RaftConfigPB.opid_index
                        (ConsensusStatePB.committed_config prev_cstate))))
          <$> filter (fun p => RaftPeerPB.permanent_uuid p ∉ current_member_uuids)
                (RaftConfigPB.peers (ConsensusStatePB.committed_config prev_cstate))).

(** Step 7e (lines 3526-3566): the change of configuration asked of the
    leader. *)
Definition config_change `{Externals} (ts_uuid tablet_id : string)
    (updated : bool) (replication_factor : Z) (cstate : ConsensusStatePB.t)
    : list RpcTask :=
  if negb (FLAGS_raft_prepare_replacement_before_eviction FLAGS) then
    if updated && FLAGS_master_add_server_when_underreplicated FLAGS
       && bool_decide (CountVoters (ConsensusStatePB.committed_config cstate)
                       < replication_factor)
    then [AsyncAddReplicaTask tablet_id cstate RaftPeerPB.VOTER]
    else []
  else if negb (ConsensusStatePB.has_pending_config cstate)
          && negb (bool_decide (ConsensusStatePB.leader_uuid cstate = ""))
          && bool_decide (ConsensusStatePB.leader_uuid cstate = ts_uuid)
  then
    let config := ConsensusStatePB.committed_config cstate in
    let policy := FLAGS_raft_attempt_to_replace_replica_without_majority FLAGS in
    match (if FLAGS_catalog_manager_evict_excess_replicas FLAGS
           then ShouldEvictReplica config (ConsensusStatePB.leader_uuid cstate)
                  replication_factor policy
           else None) with
    | Some to_evict => [AsyncEvictReplicaTask tablet_id cstate to_evict]
    | None =>
        if FLAGS_master_add_server_when_underreplicated FLAGS
           && ShouldAddReplica config replication_factor policy
        then [AsyncAddReplicaTask tablet_id cstate RaftPeerPB.NON_VOTER]
        else []
    end
  else [].

(** What one pass of the loop of step 3 leaves for a tablet: its dirty
    record, the tasks queued, whether the tablet was pushed onto
    [mutated_tablets], and the state message set on its update record. *)
Record EntryResult := {
  entry_dirty : SysTabletsEntryPB.t;
  entry_rpcs : list RpcTask;
  entry_mutated : bool;
  entry_state_msg : option string;
}.

(** Steps 7 to 9 for a report whose consensus state [reported] carries a
    committed opid index (lines 3424-3595); [None] is the death on a
    duplicate peer. *)
Definition process_consensus_state `{Externals} (ts_uuid : string) (table : TableInfo.t)
    (tab : TabletInfo.t) (report : ReportedTabletPB.t) (reported : ConsensusStatePB.t)
    : option (SysTabletsEntryPB.t * bool * list RpcTask
              * option (ConsensusStatePB.t * bool)) :=
  let pb := TabletInfo.metadata_ tab in
  let prev_cstate := SysTabletsEntryPB.consensus_state pb in
  (* 7b *)
  let cstate := disregard_leader reported in
  (* 7c *)
  let running := ShouldTransitionTabletToRunning pb report cstate in
  let dirty1 := if running
                then PersistentTabletInfo.set_state SysTabletsEntryPB.RUNNING
                       "Tablet reported with an active leader" pb
                else pb in
  (* 7d *)
  let updated := consensus_state_updated cstate prev_cstate in
  if updated then
    match retain_leader cstate prev_cstate with
    | None => Some (dirty1, running, [], None)
    | Some cstate' =>
        let dirty2 := PersistentTabletInfo.set_consensus_state
                        (strip_health_reports cstate') dirty1 in
        if FLAGS_master_tombstone_evicted_tablet_replicas FLAGS then
          tombstone_evicted (TableInfo.table_id_ table) (TabletInfo.tablet_id_ tab)
            cstate' prev_cstate
          ≫= fun rpcs => Some (dirty2, true, rpcs, Some (cstate', true))
        else Some (dirty2, true, [], Some (cstate', true))
    end
  else Some (dirty1, running, [], Some (cstate, false)).

(** Step 8 (lines 3569-3588). *)
Definition alter_schema_if_stale (table : TableInfo.t) (tab : TabletInfo.t)
    (report : ReportedTabletPB.t) : list RpcTask :=
  match ReportedTabletPB.schema_version report with
  | Some v =>
      if bool_decide (v ≠ SysTablesEntryPB.version (TableInfo.metadata_ table))
      then [AsyncAlterTable (TabletInfo.tablet_id_ tab)] else []
  | None => []
  end.

(** Steps 4 to 6 of the loop (lines 3356-3408): the result of the pass when
    one of them ends it with [continue], [None] when the pass goes on. *)
Definition skip_reported_tablet `{Externals} (ts_uuid : string) (table : TableInfo.t)
    (tab : TabletInfo.t) (report : ReportedTabletPB.t) : option EntryResult :=
  let pb := TabletInfo.metadata_ tab in
  let table_id := TableInfo.table_id_ table in
  let tablet_id := TabletInfo.tablet_id_ tab in
  let skip rpcs msg :=
    Some {| entry_dirty := pb; entry_rpcs := rpcs; entry_mutated := false;
            entry_state_msg := msg |} in
  (* 4. the tablet or its table has been deleted *)
  if tablet_is_deleted pb || PersistentTableInfo.is_deleted (TableInfo.metadata_ table)
  then skip [AsyncDeleteReplica ts_uuid table_id tablet_id tablet.TABLET_DATA_DELETED None]
            (Some (SysTabletsEntryPB.state_msg pb))
  else
  (* 5. tombstone a replica that is no longer part of the config *)
  let prev_cstate := SysTabletsEntryPB.consensus_state pb in
  let prev_opid_index :=
    RaftConfigPB.opid_index (ConsensusStatePB.committed_config prev_cstate) in
  let report_opid_index :=
    match ReportedTabletPB.consensus_state report with
    | Some c =>
        if RaftConfigPB.has_opid_index (ConsensusStatePB.committed_config c)
        then RaftConfigPB.opid_index (ConsensusStatePB.committed_config c)
        else kInvalidOpIdIndex
    | None => kInvalidOpIdIndex
    end in
  if FLAGS_master_tombstone_evicted_tablet_replicas FLAGS
     && negb (bool_decide (ReportedTabletPB.tablet_data_state report
                           = tablet.TABLET_DATA_TOMBSTONED))
     && negb (bool_decide (ReportedTabletPB.tablet_data_state report
                           = tablet.TABLET_DATA_DELETED))
     && negb (IsRaftConfigMember ts_uuid (ConsensusStatePB.committed_config prev_cstate))
     && bool_decide (report_opid_index < prev_opid_index)
  then skip [AsyncDeleteReplica ts_uuid table_id tablet_id
               tablet.TABLET_DATA_TOMBSTONED (Some prev_opid_index)] None
  else
  (* 6. a tablet that reports an error *)
  if bool_decide (is_Some (ReportedTabletPB.error report)) then skip [] None
  else None.

(** One pass of the loop of step 3 of ProcessTabletReport (lines
    3348-3596), for the tablet [tab] of [table] and its report; [None] is
    the death of the process. *)
Definition ProcessReportedTablet `{Externals} (ts_uuid : string) (table : TableInfo.t)
    (tab : TabletInfo.t) (report : ReportedTabletPB.t) : option EntryResult :=
  let pb := TabletInfo.metadata_ tab in
  let tablet_id := TabletInfo.tablet_id_ tab in
  match skip_reported_tablet ts_uuid table tab report with
  | Some r => Some r
  | None =>
  let replication_factor := SysTablesEntryPB.num_replicas (TableInfo.metadata_ table) in
  match ReportedTabletPB.consensus_state report with
  | Some reported =>
      (* 7a. no committed opid index *)
      if negb (RaftConfigPB.has_opid_index (ConsensusStatePB.committed_config reported))
      then Some {| entry_dirty := pb; entry_rpcs := []; entry_mutated := false;
                   entry_state_msg := None |}
      else
        process_consensus_state ts_uuid table tab report reported
        ≫= fun '(dirty, mutated, rpcs, after) =>
          match after with
          | None =>
              (* abandoned at 7d(i): the dirty record stays, nothing is persisted *)
              Some {| entry_dirty := dirty; entry_rpcs := rpcs;
                      entry_mutated := false; entry_state_msg := None |}
          | Some (cstate, updated) =>
              Some {| entry_dirty := dirty;
                      entry_rpcs :=
                        rpcs
                        ++ config_change ts_uuid tablet_id updated replication_factor cstate
                        ++ alter_schema_if_stale table tab report;
                      entry_mutated := mutated;
                      entry_state_msg := None |}
          end
  | None =>
      Some {| entry_dirty := pb;
              entry_rpcs := alter_schema_if_stale table tab report;
              entry_mutated := false;
              entry_state_msg := None |}
  end
  end.

(** [TabletInfo::set_reported_schema_version] (lines 4426-4474), on the
    tablet [tablet_id] and its table. *)
Definition set_reported_schema_version (tablet_id : string) (version : Z)
    (cm : CatalogManager.t) : CatalogManager.t :=
  match CatalogManager.tablet_map_ cm !! tablet_id with
  | None => cm
  | Some tab =>
      let old_version := TabletInfo.reported_schema_version_ tab in
      if bool_decide (version <= old_version) then cm
      else
        let key_start := partition_key_start
                           (SysTabletsEntryPB.partition (TabletInfo.metadata_ tab)) in
        match CatalogManager.table_ids_map_ cm !! TabletInfo.table_ tab with
        | None => cm
        | Some table =>
            (* dropped from the table, or replaced in its map *)
            if negb (bool_decide (TableInfo.tablet_map_ table !! key_start
                                  = Some tablet_id))
            then cm
            else
              let counts :=
                TableInfo.IncrementSchemaVersionCountUnlocked version
                  (TableInfo.DecrementSchemaVersionCountUnlocked old_version
                     (TableInfo.schema_version_counts_ table)) in
              CatalogManager.set_maps
                (<[TableInfo.table_id_ table :=
                     TableInfo.set_tablets (TableInfo.tablet_map_ table) counts table]>
                   (CatalogManager.table_ids_map_ cm))
                (CatalogManager.table_names_map_ cm)
                (<[tablet_id := TabletInfo.set_reported version tab]>
                   (CatalogManager.tablet_map_ cm))
                cm
        end
  end.

(** [CatalogManager::HandleTabletSchemaVersionReport] (lines 3839-3875). *)
Definition HandleTabletSchemaVersionReport `{Externals} (tablet_id : string)
    (version : Z) (cm : CatalogManager.t) : CatalogManager.t :=
  let cm1 := set_reported_schema_version tablet_id version cm in
  match CatalogManager.tablet_map_ cm1 !! tablet_id
        ≫= fun tab => CatalogManager.table_ids_map_ cm1 !! TabletInfo.table_ tab with
  | None => cm1
  | Some table =>
      let pb := TableInfo.metadata_ table in
      if PersistentTableInfo.is_deleted pb
         || negb (bool_decide (SysTablesEntryPB.state pb = SysTablesEntryPB.ALTERING))
      then cm1
      else
        let current_version := SysTablesEntryPB.version pb in
        if TableInfo.IsAlterInProgress current_version table then cm1
        else
          let dirty :=
            PersistentTableInfo.set_state SysTablesEntryPB.RUNNING
              ("Current schema version=" +:+ pretty current_version)
              (PersistentTableInfo.set_fully_applied_schema None pb) in
          let actions :=
            {| Actions.table_to_add := None;
               Actions.table_to_update := Some (TableInfo.table_id_ table, dirty);
               Actions.tablets_to_add := [];
               Actions.tablets_to_update := [] |} in
          let '(s, sc) := SysCatalogTable.Write actions (CatalogManager.sys_catalog_ cm1) in
          let cm2 := CatalogManager.set_sys_catalog sc cm1 in
          if negb (ok s) then cm2
          else
            CatalogManager.set_maps
              (<[TableInfo.table_id_ table := TableInfo.set_metadata dirty table]>
                 (CatalogManager.table_ids_map_ cm2))
              (CatalogManager.table_names_map_ cm2)
              (CatalogManager.tablet_map_ cm2) cm2
  end.

(** Step 1 of ProcessTabletReport (lines 3301-3339): the report of each
    known tablet; of the entries with one tablet id the last one stays. *)
Definition collect_reports (tablet_map : gmap string TabletInfo.t)
    (full_report : list ReportedTabletPB.t) : gmap string ReportedTabletPB.t :=
  foldl (fun reports report =>
           if bool_decide (is_Some (tablet_map !! ReportedTabletPB.tablet_id report))
           then <[ReportedTabletPB.tablet_id report := report]> reports
           else reports) ∅ full_report.

(** Step 1a: every entry of the report gets an update record. *)
Definition prepare_updates (full_report : list ReportedTabletPB.t)
    : list ReportedTabletUpdatesPB.t :=
  (fun report =>
     {| ReportedTabletUpdatesPB.tablet_id := ReportedTabletPB.tablet_id report;
        ReportedTabletUpdatesPB.state_msg := None |}) <$> full_report.

(** Step 1c: the position of the update record of each known tablet. *)
Definition collect_updates (tablet_map : gmap string TabletInfo.t)
    (full_report : list ReportedTabletPB.t) : gmap string nat :=
  foldl (fun updates ir =>
           if bool_decide (is_Some (tablet_map !! ReportedTabletPB.tablet_id ir.2))
           then <[ReportedTabletPB.tablet_id ir.2 := ir.1]> updates
           else updates) ∅ (zip (seq 0 (length full_report)) full_report).

(** What the loop of step 3 gathers. *)
Record ReportPass := {
  pass_dirty : list (string * SysTabletsEntryPB.t);
  pass_rpcs : list RpcTask;
  pass_mutated : list (string * SysTabletsEntryPB.t);
  pass_msgs : list (string * string);
}.

(** Step 3 of ProcessTabletReport (lines 3345-3596) over the collected
    reports. The order of an [unordered_map] is not specified; the model
    takes the order of the entries of the map. *)
Definition process_reports `{Externals} (ts_uuid : string) (cm : CatalogManager.t)
    (reports : gmap string ReportedTabletPB.t) : option ReportPass :=
  foldl (fun acc e =>
           acc ≫= fun pass =>
             match CatalogManager.tablet_map_ cm !! e.1
                   ≫= fun tab =>
                     CatalogManager.table_ids_map_ cm !! TabletInfo.table_ tab
                     ≫= fun table => Some (tab, table) with
             | None => Some pass
             | Some (tab, table) =>
                 ProcessReportedTablet ts_uuid table tab e.2
                 ≫= fun r =>
                   Some {| pass_dirty := pass_dirty pass ++ [(e.1, entry_dirty r)];
                           pass_rpcs := pass_rpcs pass ++ entry_rpcs r;
                           pass_mutated :=
                             pass_mutated pass
                             ++ (if entry_mutated r then [(e.1, entry_dirty r)] else []);
                           pass_msgs :=
                             pass_msgs pass
                             ++ (match entry_state_msg r with
                                 | Some m => [(e.1, m)]
                                 | None => []
                                 end) |}
             end)
        (Some {| pass_dirty := []; pass_rpcs := []; pass_mutated := []; pass_msgs := [] |})
        (map_to_list reports).

(** The state messages set through the pointers of [updates]. *)
Definition apply_state_msgs (updates : gmap string nat) (msgs : list (string * string))
    (records : list ReportedTabletUpdatesPB.t) : list ReportedTabletUpdatesPB.t :=
  foldl (fun recs im =>
           match updates !! im.1 with
           | Some i => alter (ReportedTabletUpdatesPB.set_state_msg im.2) i recs
           | None => recs
           end) records msgs.

(** Step 13 (lines 3621-3632): the schema version of every tablet that
    reported one. *)
Definition handle_schema_versions `{Externals} (reports : gmap string ReportedTabletPB.t)
    (cm : CatalogManager.t) : CatalogManager.t :=
  foldl (fun acc e =>
           match ReportedTabletPB.schema_version e.2 with
           | Some v => HandleTabletSchemaVersionReport e.1 v acc
           | None => acc
           end) cm (map_to_list reports).

(** [CatalogManager::ProcessTabletReport] (lines 3252-3648) for a report of
    the tablet server [ts_uuid]; the response is the list of update
    records. *)
Definition ProcessTabletReport `{Externals} (ts_uuid : string)
    (full_report : list ReportedTabletPB.t) (cm : CatalogManager.t)
    : Outcome (list ReportedTabletUpdatesPB.t) :=
  (* 1. set up local state; 2. lock the tables and tablets *)
  let reports := collect_reports (CatalogManager.tablet_map_ cm) full_report in
  let updates := collect_updates (CatalogManager.tablet_map_ cm) full_report in
  (* 3. to 9. process each tablet *)
  match process_reports ts_uuid cm reports with
  | None => Crashed
  | Some pass =>
  let full_report_update :=
    apply_state_msgs updates (pass_msgs pass) (prepare_updates full_report) in
  (* 11. write all tablet mutations to the catalog table *)
  let actions :=
    {| Actions.table_to_add := None;
       Actions.table_to_update := None;
       Actions.tablets_to_add := [];
       Actions.tablets_to_update := pass_mutated pass |} in
  let '(s, sc) := SysCatalogTable.Write actions (CatalogManager.sys_catalog_ cm) in
  let cm1 := CatalogManager.set_sys_catalog sc cm in
  if negb (ok s) then Returned s full_report_update [] cm1
  else
  (* 12. publish the in-memory tablet mutations *)
  let cm2 := CatalogManager.set_maps (CatalogManager.table_ids_map_ cm1)
               (CatalogManager.table_names_map_ cm1)
               (commit_tablets (pass_dirty pass) (CatalogManager.tablet_map_ cm1)) cm1 in
  (* 13. process all tablet schema version changes *)
  let cm3 := handle_schema_versions reports cm2 in
  (* 14. send all queued RPCs *)
  Returned OK full_report_update (pass_rpcs pass) cm3
  end.

(** ** The retrying tablet-server RPC task (lines 2414-2595) *)

Module MonitoredTask.
Inductive State :=
| kStatePreparing | kStateRunning | kStateComplete | kStateFailed | kStateAborted.
End MonitoredTask.

#[global] Instance MonitoredTask_State_eq_dec : EqDecision MonitoredTask.State.
Proof. solve_decision. Defined.

(** The fields of [RetryingTSRpcTask] the backoff reads and writes. *)
Record RetryingTSRpcTask := {
  attempt_ : Z;
  state_ : MonitoredTask.State;
}.

(** [NoBarrier_CompareAndSwap(&state_, kStateRunning, kStateFailed)]. *)
Definition MarkFailed (t : RetryingTSRpcTask) : RetryingTSRpcTask :=
  if decide (state_ t = MonitoredTask.kStateRunning)
  then {| attempt_ := attempt_ t; state_ := MonitoredTask.kStateFailed |}
  else t.

(** [RetryingTSRpcTask::RescheduleWithBackoffDelay] (lines 2568-2595).
    [to_deadline_ms] is [(deadline_ - now).ToMilliseconds()] and [rand_value]
    is what [rand()] returned. The result is the boolean the function
    returns, the delay handed to [ScheduleOnReactor] when it schedules, and
    the task afterwards. *)
Definition RescheduleWithBackoffDelay (to_deadline_ms rand_value : Z)
    (t : RetryingTSRpcTask) : bool * option Z * RetryingTSRpcTask :=
  if negb (bool_decide (state_ t = MonitoredTask.kStateRunning)) then (false, None, t)
  else
    let millis_remaining := to_deadline_ms - 10 in
    let base_delay_ms :=
      if bool_decide (attempt_ t <= 12) then Z.shiftl 1 (attempt_ t + 3)
      else 60 * 1000 in
    let jitter_ms := Z.rem rand_value 50 in
    let delay_millis := Z.min (base_delay_ms + jitter_ms) millis_remaining in
    if bool_decide (delay_millis <= 0) then (false, None, MarkFailed t)
    else (true, Some delay_millis, t).

(** ** Notions for the order of write and commit

    A handler is a function from the catalog to an outcome. The counters of
    the system catalog tell whether a write was made and how it ended. *)

(** Whenever a write the handler made failed, the handler returns the
    status of that write, which is an error, starts no task and leaves the
    committed directory as it was. The write a handler makes first ends as
    [SysCatalogTable.next_outcome] says of the system catalog the handler
    started from. *)
Definition failed_write_returns_error {R : Type}
    (handler : CatalogManager.t -> Outcome R) : Prop :=
  forall cm s resp rpcs cm',
    handler cm = Returned s resp rpcs cm' ->
    SysCatalogTable.writes_failed_ (CatalogManager.sys_catalog_ cm')
    <> SysCatalogTable.writes_failed_ (CatalogManager.sys_catalog_ cm) ->
    s = SysCatalogTable.next_outcome (CatalogManager.sys_catalog_ cm)
    /\ s <> OK /\ rpcs = []
    /\ CatalogManager.directory cm' = CatalogManager.directory cm.

(** The same for the first write of a handler that always makes one: when
    that write fails, the handler returns its status, which is an error,
    starts no task and leaves the committed directory as it was. *)
Definition failed_first_write_returns_error {R : Type}
    (handler : CatalogManager.t -> Outcome R) : Prop :=
  forall cm s resp rpcs cm',
    handler cm = Returned s resp rpcs cm' ->
    ok (SysCatalogTable.next_outcome (CatalogManager.sys_catalog_ cm)) = false ->
    s = SysCatalogTable.next_outcome (CatalogManager.sys_catalog_ cm)
    /\ s <> OK /\ rpcs = []
    /\ CatalogManager.directory cm' = CatalogManager.directory cm
    /\ SysCatalogTable.writes_failed_ (CatalogManager.sys_catalog_ cm')
       <> SysCatalogTable.writes_failed_ (CatalogManager.sys_catalog_ cm).

(** The committed directory changes only when a write succeeded. *)
Definition commit_follows_write {R : Type}
    (handler : CatalogManager.t -> Outcome R) : Prop :=
  forall cm s resp rpcs cm',
    handler cm = Returned s resp rpcs cm' ->
    SysCatalogTable.writes_ok_ (CatalogManager.sys_catalog_ cm')
    = SysCatalogTable.writes_ok_ (CatalogManager.sys_catalog_ cm) ->
    CatalogManager.directory cm' = CatalogManager.directory cm.

(** Once a write succeeded the handler returns no error. *)
Definition no_error_after_write {R : Type}
    (handler : CatalogManager.t -> Outcome R) : Prop :=
  forall cm s resp rpcs cm',
    handler cm = Returned s resp rpcs cm' ->
    SysCatalogTable.writes_ok_ (CatalogManager.sys_catalog_ cm')
    <> SysCatalogTable.writes_ok_ (CatalogManager.sys_catalog_ cm) ->
    s = OK.

(** How a handler that makes at most one write may end, seen from the
    catalog before and after: without a write and with the directory as it
    was; with a failed write, its status returned, no task started and the
    directory as it was; or with a write that succeeded and the status
    OK. *)
Definition single_write_outcome (cm : CatalogManager.t) (s : Status)
    (rpcs : list RpcTask) (cm' : CatalogManager.t) : Prop :=
  (CatalogManager.sys_catalog_ cm' = CatalogManager.sys_catalog_ cm
   /\ rpcs = []
   /\ CatalogManager.directory cm' = CatalogManager.directory cm)
  \/ (ok (SysCatalogTable.next_outcome (CatalogManager.sys_catalog_ cm)) = false
      /\ s = SysCatalogTable.next_outcome (CatalogManager.sys_catalog_ cm)
      /\ rpcs = []
      /\ CatalogManager.directory cm' = CatalogManager.directory cm
      /\ SysCatalogTable.writes_ok_ (CatalogManager.sys_catalog_ cm')
         = SysCatalogTable.writes_ok_ (CatalogManager.sys_catalog_ cm)
      /\ SysCatalogTable.writes_failed_ (CatalogManager.sys_catalog_ cm')
         = S (SysCatalogTable.writes_failed_ (CatalogManager.sys_catalog_ cm)))
  \/ (ok (SysCatalogTable.next_outcome (CatalogManager.sys_catalog_ cm)) = true
      /\ s = OK
      /\ SysCatalogTable.writes_ok_ (CatalogManager.sys_catalog_ cm')
         = S (SysCatalogTable.writes_ok_ (CatalogManager.sys_catalog_ cm))
      /\ SysCatalogTable.writes_failed_ (CatalogManager.sys_catalog_ cm')
         = SysCatalogTable.writes_failed_ (CatalogManager.sys_catalog_ cm)).

(** The ids the generator hands out from now on differ from one another and
    name no tablet of the directory. *)
Definition fresh_ids `{Externals} (cm : CatalogManager.t) : Prop :=
  (forall i j, (CatalogManager.oid_generator_ cm <= i)%nat ->
               (CatalogManager.oid_generator_ cm <= j)%nat ->
               oid_Next i = oid_Next j -> i = j)
  /\ (forall i, (CatalogManager.oid_generator_ cm <= i)%nat ->
                CatalogManager.tablet_map_ cm !! oid_Next i = None).

(** Every table of the by-id map that is not deleted is in the by-name map
    under its name. *)
Definition names_consistent (cm : CatalogManager.t) : Prop :=
  forall id table,
    CatalogManager.table_ids_map_ cm !! id = Some table ->
    PersistentTableInfo.is_deleted (TableInfo.metadata_ table) = false ->
    is_Some (CatalogManager.table_names_map_ cm
             !! SysTablesEntryPB.name (TableInfo.metadata_ table)).

(** The tablets [drops] are tablets of [table], each under the start of its
    partition, and no two of them start at the same key: what
    ApplyAlterPartitioningSteps gives, which takes them out of its copy of
    the map of the table one by one (lines 1853-1855). *)
Definition drops_of_table (table : TableInfo.t) (drops : list TabletInfo.t) : Prop :=
  let starts :=
    (fun tab => partition_key_start
                  (SysTabletsEntryPB.partition (TabletInfo.metadata_ tab))) <$> drops in
  NoDup starts /\ forall k, k ∈ starts -> is_Some (TableInfo.tablet_map_ table !! k).

(** What holds of the local state of ApplyAlterPartitioningSteps for the
    table [table] at every step of its loops, [cm0] being the catalog it
    started from: the directory, the system catalog, the reserved names and
    the state are as they were and the generator is not behind; the copy of
    the map holds tablets of the map of the table; the dropped tablets were
    in that map under distinct keys, which the copy no longer has; the new
    tablets are tablets of the table, each under the start of its partition
    and with an id the generator gave in this call; and no two of them
    share an id when the generator does not repeat itself. *)
Definition partitioning_invariant `{Externals} (table : TableInfo.t) (cm0 : CatalogManager.t)
    (st : AlterPartitioning) (cm : CatalogManager.t) : Prop :=
  CatalogManager.directory cm = CatalogManager.directory cm0
  /\ CatalogManager.sys_catalog_ cm = CatalogManager.sys_catalog_ cm0
  /\ CatalogManager.reserved_table_names_ cm = CatalogManager.reserved_table_names_ cm0
  /\ CatalogManager.state_ cm = CatalogManager.state_ cm0
  /\ (CatalogManager.oid_generator_ cm0 <= CatalogManager.oid_generator_ cm)%nat
  /\ (forall k tab,
        existing_tablets st !! k = Some tab ->
        exists id, TableInfo.tablet_map_ table !! k = Some id
                   /\ CatalogManager.tablet_map_ cm0 !! id = Some tab)
  /\ (exists ks,
        NoDup ks
        /\ Forall2 (fun k tab =>
                      existing_tablets st !! k = None
                      /\ exists id, TableInfo.tablet_map_ table !! k = Some id
                                    /\ CatalogManager.tablet_map_ cm0 !! id = Some tab)
             ks (dropped_tablets st))
  /\ (forall k r,
        new_tablets st !! k = Some r ->
        exists i p,
          (CatalogManager.oid_generator_ cm0 <= i < CatalogManager.oid_generator_ cm)%nat
          /\ r = (oid_Next i, CreateTabletInfo (TableInfo.table_id_ table) p)
          /\ partition_key_start p = k)
  /\ ((forall i j, (CatalogManager.oid_generator_ cm0 <= i)%nat ->
                   (CatalogManager.oid_generator_ cm0 <= j)%nat ->
                   oid_Next i = oid_Next j -> i = j) ->
      forall k1 k2 r1 r2,
        new_tablets st !! k1 = Some r1 -> new_tablets st !! k2 = Some r2 ->
        r1.1 = r2.1 -> k1 = k2).

(** The handler returns: the process does not die in it. *)
Definition never_dies {R : Type} (handler : CatalogManager.t -> Outcome R)
    (cm : CatalogManager.t) : Prop :=
  exists s resp rpcs cm', handler cm = Returned s resp rpcs cm'.

(** ** Further handlers of the catalog manager *)

Record IsAlterTableDoneResponsePB := {
  is_alter_done_error : MasterErrorSlot;
  is_alter_done_schema_version : option Z;
  is_alter_done : option bool;
}.

(** [CatalogManager::IsAlterTableDone] (lines 2157-2181). *)
Definition IsAlterTableDone `{Externals} (req : TableIdentifierPB)
    (cm : CatalogManager.t) : Outcome IsAlterTableDoneResponsePB :=
  let fail s e :=
    Returned s {| is_alter_done_error := e; is_alter_done_schema_version := None;
                  is_alter_done := None |} [] cm in
  if negb (ok (CheckOnline cm)) then fail (CheckOnline cm) None else
  match FindAndLockTable req cm with
  | (s, None) =>
      if negb (ok s) then fail s None
      else fail NotFound (Some (MasterErrorPB.TABLE_NOT_FOUND, NotFound))
  | (s, Some table) =>
      if negb (ok s) then fail s None
      else
        let pb := TableInfo.metadata_ table in
        match CheckIfTableDeletedOrNotRunning pb with
        | Some (c, s') => fail s' (Some (c, s'))
        | None =>
            Returned OK
              {| is_alter_done_error := None;
                 is_alter_done_schema_version := Some (SysTablesEntryPB.version pb);
                 is_alter_done :=
                   Some (negb (bool_decide (SysTablesEntryPB.state pb
                                            = SysTablesEntryPB.ALTERING))) |} [] cm
        end
  end.

Record GetTableSchemaResponsePB := {
  get_schema_error : MasterErrorSlot;
  get_schema_schema : option SchemaPB;
  get_schema_num_replicas : option Z;
  get_schema_table_id : option string;
  get_schema_partition_schema : option PartitionSchemaPB;
  get_schema_table_name : option string;
}.

(** [CatalogManager::GetTableSchema] (lines 2183-2215); the process dies in
    the [CHECK_EQ] when a table that is not ALTERING has a
    fully_applied_schema. *)
Definition GetTableSchema `{Externals} (req : TableIdentifierPB)
    (cm : CatalogManager.t) : Outcome GetTableSchemaResponsePB :=
  let fail s e :=
    Returned s {| get_schema_error := e; get_schema_schema := None;
                  get_schema_num_replicas := None; get_schema_table_id := None;
                  get_schema_partition_schema := None;
                  get_schema_table_name := None |} [] cm in
  if negb (ok (CheckOnline cm)) then fail (CheckOnline cm) None else
  match FindAndLockTable req cm with
  | (s, None) =>
      if negb (ok s) then fail s None
      else fail NotFound (Some (MasterErrorPB.TABLE_NOT_FOUND, NotFound))
  | (s, Some table) =>
      if negb (ok s) then fail s None
      else
        let pb := TableInfo.metadata_ table in
        match CheckIfTableDeletedOrNotRunning pb with
        | Some (c, s') => fail s' (Some (c, s'))
        | None =>
            let respond schema :=
              Returned OK
                {| get_schema_error := None;
                   get_schema_schema := Some schema;
                   get_schema_num_replicas := Some (SysTablesEntryPB.num_replicas pb);
                   get_schema_table_id := Some (TableInfo.table_id_ table);
                   get_schema_partition_schema :=
                     Some (SysTablesEntryPB.partition_schema pb);
                   get_schema_table_name := Some (SysTablesEntryPB.name pb) |} [] cm in
            match SysTablesEntryPB.fully_applied_schema pb with
            | Some fully_applied =>
                if negb (bool_decide (SysTablesEntryPB.state pb
                                      = SysTablesEntryPB.ALTERING))
                then Crashed
                else respond fully_applied
            | None => respond (SysTablesEntryPB.schema pb)
            end
        end
  end.

Record ListTablesRequestPB := {
  name_filter : option string;
}.

(** [CatalogManager::ListTables] (lines 2217-2241): the id and the name of
    the listed tables. The entries of [table_names_map_] point to the table
    objects; the model finds them in [table_ids_map_] and takes the entries
    in the order of the map. *)
Definition ListTables `{Externals} (req : ListTablesRequestPB) (cm : CatalogManager.t)
    : Outcome (list (string * string)) :=
  if negb (ok (CheckOnline cm)) then Returned (CheckOnline cm) [] [] cm else
  Returned OK
    (omap (fun entry =>
             CatalogManager.table_ids_map_ cm !! entry.2 ≫= fun table =>
               let pb := TableInfo.metadata_ table in
               if negb (table_is_running pb) then None
               else
                 match name_filter req with
                 | Some filter =>
                     match String.index 0 filter (SysTablesEntryPB.name pb) with
                     | None => None
                     | Some _ => Some (TableInfo.table_id_ table, SysTablesEntryPB.name pb)
                     end
                 | None => Some (TableInfo.table_id_ table, SysTablesEntryPB.name pb)
                 end)
       (map_to_list (CatalogManager.table_names_map_ cm)))
    [] cm.

(** [CatalogManager::TableNameExists] (lines 2263-2270). *)
Definition TableNameExists (table_name : string) (cm : CatalogManager.t)
    : Status * option bool :=
  if negb (ok (CheckOnline cm)) then (CheckOnline cm, None)
  else (OK, Some (bool_decide (is_Some (CatalogManager.table_names_map_ cm !! table_name)))).

(** The two default values of a [ColumnSchemaPB], each with its has-bit. *)
Record ColumnDefaultsPB := {
  read_default_value : option string;
  write_default_value : option string;
}.

(** [ProcessColumnPBDefaults] (lines 601-620), on the two fields it reads
    and writes. *)
Definition ProcessColumnPBDefaults (col : ColumnDefaultsPB) : Status * ColumnDefaultsPB :=
  match read_default_value col, write_default_value col with
  | Some r, None =>
      (OK, {| read_default_value := Some r; write_default_value := Some r |})
  | Some r, Some w =>
      if negb (bool_decide (r = w)) then (InvalidArgument, col) else (OK, col)
  | None, Some _ => (InvalidArgument, col)
  | None, None => (OK, col)
  end.

(** A table record has a fully_applied_schema only while the table is
    ALTERING, or after it was deleted in that state. *)
Definition fully_applied_while_altering (cm : CatalogManager.t) : Prop :=
  forall id table fully_applied,
    CatalogManager.table_ids_map_ cm !! id = Some table ->
    SysTablesEntryPB.fully_applied_schema (TableInfo.metadata_ table) = Some fully_applied ->
    SysTablesEntryPB.state (TableInfo.metadata_ table) = SysTablesEntryPB.ALTERING
    \/ SysTablesEntryPB.state (TableInfo.metadata_ table) = SysTablesEntryPB.REMOVED.

(** The directory is consistent: a table is in the by-id map under its own
    id; a table that is not deleted is in the by-name map under its name,
    and the by-name map holds nothing else; a tablet is in the tablet map
    under its own id and its table is in the by-id map; and the ids the
    generator hands out from now on differ from one another and are the key
    of no table and of no tablet. *)
Definition directory_consistent `{Externals} (cm : CatalogManager.t) : Prop :=
  (forall id table,
     CatalogManager.table_ids_map_ cm !! id = Some table -> TableInfo.table_id_ table = id)
  /\ (forall id table,
        CatalogManager.table_ids_map_ cm !! id = Some table ->
        PersistentTableInfo.is_deleted (TableInfo.metadata_ table) = false ->
        CatalogManager.table_names_map_ cm !! SysTablesEntryPB.name (TableInfo.metadata_ table)
        = Some id)
  /\ (forall name id,
        CatalogManager.table_names_map_ cm !! name = Some id ->
        exists table,
          CatalogManager.table_ids_map_ cm !! id = Some table
          /\ SysTablesEntryPB.name (TableInfo.metadata_ table) = name
          /\ PersistentTableInfo.is_deleted (TableInfo.metadata_ table) = false)
  /\ (forall id tab,
        CatalogManager.tablet_map_ cm !! id = Some tab ->
        TabletInfo.tablet_id_ tab = id
        /\ is_Some (CatalogManager.table_ids_map_ cm !! TabletInfo.table_ tab))
  /\ (forall i j, (CatalogManager.oid_generator_ cm <= i)%nat ->
                  (CatalogManager.oid_generator_ cm <= j)%nat ->
                  oid_Next i = oid_Next j -> i = j)
  /\ (forall i, (CatalogManager.oid_generator_ cm <= i)%nat ->
                CatalogManager.table_ids_map_ cm !! oid_Next i = None
                /\ CatalogManager.tablet_map_ cm !! oid_Next i = None).

(** The directory [cm'] has the tables and the tablets of [cm], each under
    the same key and with the same id, name (or table) and deletion state;
    the by-name map and the generator are the same. *)
Definition same_entries (cm cm' : CatalogManager.t) : Prop :=
  CatalogManager.oid_generator_ cm' = CatalogManager.oid_generator_ cm
  /\ CatalogManager.table_names_map_ cm' = CatalogManager.table_names_map_ cm
  /\ (forall id,
        match CatalogManager.table_ids_map_ cm' !! id with
        | Some table' =>
            exists table,
              CatalogManager.table_ids_map_ cm !! id = Some table
              /\ TableInfo.table_id_ table' = TableInfo.table_id_ table
              /\ SysTablesEntryPB.name (TableInfo.metadata_ table')
                 = SysTablesEntryPB.name (TableInfo.metadata_ table)
              /\ PersistentTableInfo.is_deleted (TableInfo.metadata_ table')
                 = PersistentTableInfo.is_deleted (TableInfo.metadata_ table)
        | None => CatalogManager.table_ids_map_ cm !! id = None
        end)
  /\ (forall id,
        match CatalogManager.tablet_map_ cm' !! id with
        | Some tab' =>
            exists tab,
              CatalogManager.tablet_map_ cm !! id = Some tab
              /\ TabletInfo.tablet_id_ tab' = TabletInfo.tablet_id_ tab
              /\ TabletInfo.table_ tab' = TabletInfo.table_ tab
        | None => CatalogManager.tablet_map_ cm !! id = None
        end).

(** ** The life of a task (lines 2414-3250) *)

(** [MarkComplete] and [MarkAborted]: the compare-and-swap from
    kStateRunning (lines 2461-2474). *)
Definition MarkComplete (t : RetryingTSRpcTask) : RetryingTSRpcTask :=
  if decide (state_ t = MonitoredTask.kStateRunning)
  then {| attempt_ := attempt_ t; state_ := MonitoredTask.kStateComplete |}
  else t.

Definition MarkAborted (t : RetryingTSRpcTask) : RetryingTSRpcTask :=
  if decide (state_ t = MonitoredTask.kStateRunning)
  then {| attempt_ := attempt_ t; state_ := MonitoredTask.kStateAborted |}
  else t.

Module TabletServerErrorPB.
(** The codes the tasks tell apart; [OTHER_CODE] is any other code. *)
Inductive Code :=
| UNKNOWN_ERROR | TABLET_NOT_FOUND | CAS_FAILED | MISMATCHED_SCHEMA
| TABLET_HAS_A_NEWER_SCHEMA | OTHER_CODE.
End TabletServerErrorPB.

(** The response of the tablet server: its error, if it has one, as the
    code and the status of the error. *)
Definition TaskResponse : Type := option (TabletServerErrorPB.Code * Status).

(** The classes of tasks. *)
Inductive TaskType :=
| CreateTabletTask | DeleteTabletTask | AlterTableTask | AddReplicaTask | EvictReplicaTask.

(** [HandleResponse] of [AsyncCreateReplica] (lines 2703-2719),
    [AsyncDeleteReplica] (lines 2760-2800), [AsyncAlterTable] (lines
    2938-2967) and [AsyncChangeConfigTask] (lines 3035-3061). *)
Definition HandleResponse (type : TaskType) (resp : TaskResponse) (t : RetryingTSRpcTask)
    : RetryingTSRpcTask :=
  match type, resp with
  | CreateTabletTask, None => MarkComplete t
  | CreateTabletTask, Some (_, s) =>
      if bool_decide (s = AlreadyPresent) then MarkComplete t else t
  | DeleteTabletTask, Some (TabletServerErrorPB.TABLET_NOT_FOUND, _)
  | DeleteTabletTask, Some (TabletServerErrorPB.CAS_FAILED, _) => MarkComplete t
  | DeleteTabletTask, Some _ => t
  | DeleteTabletTask, None => MarkComplete t
  | AlterTableTask, Some (TabletServerErrorPB.TABLET_NOT_FOUND, _)
  | AlterTableTask, Some (TabletServerErrorPB.MISMATCHED_SCHEMA, _)
  | AlterTableTask, Some (TabletServerErrorPB.TABLET_HAS_A_NEWER_SCHEMA, _) =>
      MarkComplete t
  | AlterTableTask, Some _ => t
  | AlterTableTask, None => MarkComplete t
  | (AddReplicaTask | EvictReplicaTask), None => MarkComplete t
  | (AddReplicaTask | EvictReplicaTask), Some (TabletServerErrorPB.CAS_FAILED, _) =>
      MarkFailed t
  | (AddReplicaTask | EvictReplicaTask), Some _ => t
  end.

(** [AsyncChangeConfigTask::CheckOpIdIndex] (lines 3063-3077):
    [latest_index] is the opid index of the committed config of the tablet,
    [task_index] that of the consensus state the task was made with. *)
Definition CheckOpIdIndex (latest_index task_index : Z) (t : RetryingTSRpcTask)
    : bool * RetryingTSRpcTask :=
  if bool_decide (latest_index > task_index) then (false, MarkAborted t)
  else (true, t).

(** [SendRequest]: whether the request went out. The tasks of a tablet
    always send (lines 2721-2728, 2802-2818, 2969-2986); a change of config
    is not sent when [CheckOpIdIndex] fails, nor when no replacement replica
    is found for an addition (lines 3117-3164, 3229-3250). *)
Definition SendRequest (type : TaskType) (latest_index task_index : Z)
    (replacement_found : bool) (t : RetryingTSRpcTask) : bool * RetryingTSRpcTask :=
  match type with
  | AddReplicaTask =>
      let '(current, t1) := CheckOpIdIndex latest_index task_index t in
      if negb current then (false, t1) else (replacement_found, t1)
  | EvictReplicaTask => CheckOpIdIndex latest_index task_index t
  | _ => (true, t)
  end.

(** What a step of a task leaves: the status it returns, the delay of the
    retry it scheduled, whether it sent a request, whether it unregistered
    itself from its table, and the task. *)
Record TaskStep := {
  step_status : Status;
  step_retry_in : option Z;
  step_sent : bool;
  step_unregistered : bool;
  step_task : RetryingTSRpcTask;
}.

(** [RetryingTSRpcTask::RpcCallback] (lines 2551-2566): [rpc_status] is
    [rpc_.status()]. *)
Definition RpcCallback (type : TaskType) (rpc_status : Status) (resp : TaskResponse)
    (to_deadline_ms rand_value : Z) (t : RetryingTSRpcTask) : TaskStep :=
  let t1 :=
    if negb (ok rpc_status) then t
    else if negb (bool_decide (state_ t = MonitoredTask.kStateAborted))
    then HandleResponse type resp t
    else t in
  let '(rescheduled, delay, t2) := RescheduleWithBackoffDelay to_deadline_ms rand_value t1 in
  {| step_status := OK; step_retry_in := delay; step_sent := false;
     step_unregistered := negb rescheduled; step_task := t2 |}.

(** [RetryingTSRpcTask::Run] (lines 2522-2549): [fail_ts_rpcs] is
    FLAGS_catalog_manager_fail_ts_rpcs and [reset] what [ResetTSProxy]
    returns. *)
Definition Run (type : TaskType) (fail_ts_rpcs : bool) (reset : Status)
    (latest_index task_index : Z) (replacement_found : bool)
    (to_deadline_ms rand_value : Z) (t : RetryingTSRpcTask) : TaskStep :=
  if fail_ts_rpcs
  then {| step_status := RuntimeError; step_retry_in := None; step_sent := false;
          step_unregistered := true; step_task := MarkFailed t |}
  else
    let '(sent, t1) :=
      if ok reset
      then SendRequest type latest_index task_index replacement_found
             {| attempt_ := attempt_ t + 1; state_ := state_ t |}
      else (false, t) in
    if sent
    then {| step_status := OK; step_retry_in := None; step_sent := true;
            step_unregistered := false; step_task := t1 |}
    else
      let '(rescheduled, delay, t2) :=
        RescheduleWithBackoffDelay to_deadline_ms rand_value t1 in
      {| step_status := reset; step_retry_in := delay; step_sent := false;
         step_unregistered := negb rescheduled;
         step_task := if rescheduled then t2 else MarkFailed t2 |}.

(** [RetryingTSRpcTask::RunDelayedTask] (lines 2597-2611): [timer] is the
    status the reactor calls back with. *)
Definition RunDelayedTask (type : TaskType) (timer : Status) (fail_ts_rpcs : bool)
    (reset : Status) (latest_index task_index : Z) (replacement_found : bool)
    (to_deadline_ms rand_value : Z) (t : RetryingTSRpcTask) : TaskStep :=
  if negb (ok timer)
  then {| step_status := OK; step_retry_in := None; step_sent := false;
          step_unregistered := true; step_task := t |}
  else Run type fail_ts_rpcs reset latest_index task_index replacement_found
         to_deadline_ms rand_value t.

(** [PickLeaderReplica::PickReplica] (lines 2388-2406), on the committed
    record of the tablet. *)
Definition PickLeaderReplica (pb : SysTabletsEntryPB.t) : Status * option string :=
  if negb (SysTabletsEntryPB.has_consensus_state pb) then (NotFound, None)
  else if bool_decide (ConsensusStatePB.leader_uuid (SysTabletsEntryPB.consensus_state pb)
                       = "")
  then (NotFound, None)
  else (OK, Some (ConsensusStatePB.leader_uuid (SysTabletsEntryPB.consensus_state pb))).

(** ** Placement of replicas (lines 2826-2905 and 4002-4072) *)

(** Modelled from the spec: [TSDescriptor] is declared in ts_descriptor.h,
    which is not part of the source. Section 4.5 step 3 names what the
    placement reads and writes: the count of live replicas and
    [RecentReplicaCreations], "a decaying counter", which a selection
    increments. The decay goes with the time; one pass of the assignment is
    taken to happen at one instant, so a read gives the count as it was last
    written. The count is a [double]. *)
Record TSDescriptor := {
  permanent_uuid_ : string;
  recent_replica_creations_ : PrimFloat.float;
  num_live_replicas_ : Z;
}.

(** [ts->IncrementRecentReplicaCreations()]. *)
Definition IncrementRecentReplicaCreations (ts : TSDescriptor) : TSDescriptor :=
  {| permanent_uuid_ := permanent_uuid_ ts;
     recent_replica_creations_ := PrimFloat.add (recent_replica_creations_ ts) PrimFloat.one;
     num_live_replicas_ := num_live_replicas_ ts |}.

(** The conversion of an [int] to a [double]. *)
Definition int_to_double (n : Z) : PrimFloat.float :=
  if n <? 0 then PrimFloat.opp (PrimFloat.of_uint63 (Uint63.of_Z (- n)))
  else PrimFloat.of_uint63 (Uint63.of_Z n).

(** The load of a server (lines 2853-2854). *)
Definition load (ts : TSDescriptor) : PrimFloat.float :=
  PrimFloat.add (recent_replica_creations_ ts) (int_to_double (num_live_replicas_ ts)).

(** What the assignment takes from outside the file: the random source
    [rng_] with its two draws, the first term of a consensus state and the
    flag of the creation timeout. A [shared_ptr<TSDescriptor>] of the vector
    of live servers is the position of the server in the vector, so the
    sample of [ReservoirSample] is a list of positions and the excluded set
    a set of positions. *)
Class Placement := {
  Rng : Type;
  (** [rng->ReservoirSample(ts_descs, k, excluded, &out)]. *)
  ReservoirSample : list TSDescriptor -> nat -> gset nat -> Rng -> list nat * Rng;
  (** [rng->Uniform(n)]. *)
  Uniform : nat -> Rng -> nat * Rng;
  (** [consensus::kMinimumTerm]. *)
  kMinimumTerm : Z;
  FLAGS_tablet_creation_timeout_ms : Z;
}.

(** [PickBetterReplicaLocation] (lines 2830-2863) on the two positions of
    the sample; [None] is a null pointer, which a position outside of the
    vector stands for as well. *)
Definition PickBetterReplicaLocation `{Placement} (ts_descs : list TSDescriptor)
    (a b : nat) (rng : Rng) : option nat * Rng :=
  match ts_descs !! a, ts_descs !! b with
  | Some ts_a, Some ts_b =>
      let load_a := load ts_a in
      let load_b := load ts_b in
      if PrimFloat.ltb load_a load_b then (Some a, rng)
      else if PrimFloat.ltb load_b load_a then (Some b, rng)
      else let '(i, rng1) := Uniform 2 rng in ([a; b] !! i, rng1)
  | _, _ => (None, rng)
  end.

(** [SelectReplica] (lines 2868-2905). *)
Definition SelectReplica `{Placement} (ts_descs : list TSDescriptor)
    (excluded : gset nat) (rng : Rng) : option nat * Rng :=
  let '(two_choices, rng1) := ReservoirSample ts_descs 2 excluded rng in
  match two_choices with
  | [a; b] => PickBetterReplicaLocation ts_descs a b rng1
  | [a] => (ts_descs !! a ≫= fun _ => Some a, rng1)
  | _ => (None, rng1)
  end.

(** The peer [SelectReplicas] adds for a server (lines 4062-4064); the model
    of a peer has no address. *)
Definition new_peer (ts : TSDescriptor) : RaftPeerPB.t :=
  {| RaftPeerPB.permanent_uuid := permanent_uuid_ ts;
     RaftPeerPB.member_type := RaftPeerPB.VOTER;
     RaftPeerPB.health_report := None |}.

(** The loop of [CatalogManager::SelectReplicas] (lines 4037-4072), [n]
    rounds of it: the servers, the positions selected so far, the peers of
    the config and the random source go from round to round. [None] is the
    death of the process: [InsertOrDie] on a server that was selected
    before, or the call through a null pointer when no server was found. *)
Fixpoint SelectReplicas `{Placement} (n : nat) (ts_descs : list TSDescriptor)
    (already_selected : gset nat) (peers : list RaftPeerPB.t) (rng : Rng)
    : option (list TSDescriptor * gset nat * list RaftPeerPB.t * Rng) :=
  match n with
  | O => Some (ts_descs, already_selected, peers, rng)
  | S n' =>
      let '(ts, rng1) := SelectReplica ts_descs already_selected rng in
      match ts ≫= fun i => ts_descs !! i ≫= fun d => Some (i, d) with
      | None => None
      | Some (i, d) =>
          if bool_decide (i ∈ already_selected) then None
          else SelectReplicas n' (<[i := IncrementRecentReplicaCreations d]> ts_descs)
                 ({[i]} ∪ already_selected) (peers ++ [new_peer d]) rng1
      end
  end.

(** [CatalogManager::SelectReplicasForTablet] (lines 4002-4022) on the
    committed record of the table and the dirty record of the tablet. The
    record of a table of the model has every required field, so the check of
    [IsInitialized] does not fire. The comparison of the number of servers,
    a [size_t], with the [int] of the replicas is made on 64 bit unsigned
    integers. *)
Definition SelectReplicasForTablet `{Externals} `{Placement}
    (ts_descs : list TSDescriptor) (table : SysTablesEntryPB.t)
    (dirty : SysTabletsEntryPB.t) (rng : Rng)
    : option (Status * SysTabletsEntryPB.t * list TSDescriptor * Rng) :=
  let nreplicas := SysTablesEntryPB.num_replicas table in
  if Z.of_nat (length ts_descs) <? nreplicas mod 2 ^ 64
  then Some (InvalidArgument, dirty, ts_descs, rng)
  else
    let cstate := SysTabletsEntryPB.consensus_state dirty in
    let config := ConsensusStatePB.committed_config cstate in
    match SelectReplicas (Z.to_nat nreplicas) ts_descs ∅ (RaftConfigPB.peers config) rng with
    | None => None
    | Some (ts_descs1, _, peers, rng1) =>
        Some (OK,
              PersistentTabletInfo.set_consensus_state
                {| ConsensusStatePB.current_term := kMinimumTerm;
                   ConsensusStatePB.leader_uuid := ConsensusStatePB.leader_uuid cstate;
                   ConsensusStatePB.committed_config :=
                     {| RaftConfigPB.opid_index_field := Some kInvalidOpIdIndex;
                        RaftConfigPB.peers := peers |};
                   ConsensusStatePB.pending_config :=
                     ConsensusStatePB.pending_config cstate |} dirty,
              ts_descs1, rng1)
    end.

(** ** Assignment of tablets (lines 3697-3727 and 3780-4000) *)

(** [CatalogManager::ExtractTabletsToProcess] (lines 3697-3727): the tablets
    of the tables that are not deleted which are neither deleted nor
    running, table by table in the order of the by-id map. *)
Definition ExtractTabletsToProcess `{Externals} (cm : CatalogManager.t) : list string :=
  map_to_list (CatalogManager.table_ids_map_ cm) ≫= fun table_entry =>
    let table := table_entry.2 in
    if PersistentTableInfo.is_deleted (TableInfo.metadata_ table) then []
    else
      List.filter (fun id =>
                     match CatalogManager.tablet_map_ cm !! id with
                     | Some tab =>
                         negb (tablet_is_deleted (TabletInfo.metadata_ tab)
                               || PersistentTabletInfo.is_running (TabletInfo.metadata_ tab))
                     | None => false
                     end) (TableInfo.GetAllTablets table).

(** [DeferredAssignmentActions]: the tablets by their pointers. *)
Module DeferredAssignmentActions.
Record t := {
  tablets_to_add : list string;
  tablets_to_update : list string;
  needs_create_rpc : list string;
}.
End DeferredAssignmentActions.

(** The state of the first loop of ProcessPendingAssignments: the deferred
    actions, the dirty records of the locked tablets ([lock_in]) and of the
    new ones ([lock_out]), the new [TabletInfo] objects by pointer with the
    pointer to their table, and the catalog manager with its generator of
    ids. *)
Record AssignmentPass := {
  assign_deferred : DeferredAssignmentActions.t;
  assign_dirty : gmap string SysTabletsEntryPB.t;
  assign_new : list (string * string);
  assign_cm : CatalogManager.t;
}.

(** The dirty record of a locked tablet: a copy of the committed one until
    it is written to. *)
Definition mutable_dirty (pass : AssignmentPass) (id : string) (tab : TabletInfo.t)
    : SysTabletsEntryPB.t :=
  default (TabletInfo.metadata_ tab) (assign_dirty pass !! id).

(** [CatalogManager::HandleAssignPreparingTablet] (lines 3780-3789). *)
Definition HandleAssignPreparingTablet (id : string) (tab : TabletInfo.t)
    (pass : AssignmentPass) : AssignmentPass :=
  let deferred := assign_deferred pass in
  {| assign_deferred :=
       {| DeferredAssignmentActions.tablets_to_add :=
            DeferredAssignmentActions.tablets_to_add deferred;
          DeferredAssignmentActions.tablets_to_update :=
            DeferredAssignmentActions.tablets_to_update deferred ++ [id];
          DeferredAssignmentActions.needs_create_rpc :=
            DeferredAssignmentActions.needs_create_rpc deferred ++ [id] |};
     assign_dirty :=
       <[id := PersistentTabletInfo.set_state SysTabletsEntryPB.CREATING
                 "Sending initial creation of tablet" (mutable_dirty pass id tab)]>
         (assign_dirty pass);
     assign_new := assign_new pass;
     assign_cm := assign_cm pass |}.

(** [CatalogManager::HandleAssignCreatingTablet] (lines 3791-3834);
    [since_create_ms] is the time since the creation of the tablet was last
    asked for, in milliseconds, and [table] the table of the tablet. *)
Definition HandleAssignCreatingTablet `{Externals} `{Placement} (id : string)
    (tab : TabletInfo.t) (table : TableInfo.t) (since_create_ms : Z)
    (pass : AssignmentPass) : AssignmentPass :=
  let remaining_timeout_ms := FLAGS_tablet_creation_timeout_ms - since_create_ms in
  if 0 <? remaining_timeout_ms then pass
  else
    let old_info := TabletInfo.metadata_ tab in
    let '(replacement, cm1) := GenerateId (assign_cm pass) in
    let replacement_pb :=
      CreateTabletInfo (TableInfo.table_id_ table) (SysTabletsEntryPB.partition old_info) in
    let deferred := assign_deferred pass in
    {| assign_deferred :=
         {| DeferredAssignmentActions.tablets_to_add :=
              DeferredAssignmentActions.tablets_to_add deferred ++ [replacement];
            DeferredAssignmentActions.tablets_to_update :=
              DeferredAssignmentActions.tablets_to_update deferred ++ [id];
            DeferredAssignmentActions.needs_create_rpc :=
              DeferredAssignmentActions.needs_create_rpc deferred ++ [replacement] |};
       assign_dirty :=
         <[replacement := PersistentTabletInfo.set_state SysTabletsEntryPB.CREATING
                            ("Replacement for " +:+ TabletInfo.tablet_id_ tab)
                            replacement_pb]>
           (<[id := PersistentTabletInfo.set_state SysTabletsEntryPB.REPLACED
                      ("Replaced by " +:+ replacement +:+ " at " +:+ LocalTimeAsString)
                      (mutable_dirty pass id tab)]>
              (assign_dirty pass));
       assign_new := assign_new pass ++ [(replacement, TabletInfo.table_ tab)];
       assign_cm := cm1 |}.

(** One round of the first loop of ProcessPendingAssignments (lines
    3900-3923): the tablet by its committed state. The tablets are those
    behind the pointers: a pointer that names no tablet of the tablet map,
    or a tablet whose table is not in the by-id map, stands for no
    tablet. *)
Definition handle_assignment `{Externals} `{Placement} (since_create_ms : string -> Z)
    (cm : CatalogManager.t) (pass : AssignmentPass) (id : string) : AssignmentPass :=
  match CatalogManager.tablet_map_ cm !! id
        ≫= fun tab =>
          CatalogManager.table_ids_map_ cm !! TabletInfo.table_ tab
          ≫= fun table => Some (tab, table) with
  | None => pass
  | Some (tab, table) =>
      match SysTabletsEntryPB.state (TabletInfo.metadata_ tab) with
      | SysTabletsEntryPB.PREPARING => HandleAssignPreparingTablet id tab pass
      | SysTabletsEntryPB.CREATING =>
          HandleAssignCreatingTablet id tab table (since_create_ms id) pass
      | _ => pass
      end
  end.

(** The first loop. *)
Definition handle_assignments `{Externals} `{Placement} (since_create_ms : string -> Z)
    (tablets : list string) (cm : CatalogManager.t) : AssignmentPass :=
  foldl (handle_assignment since_create_ms cm)
        {| assign_deferred :=
             {| DeferredAssignmentActions.tablets_to_add := [];
                DeferredAssignmentActions.tablets_to_update := [];
                DeferredAssignmentActions.needs_create_rpc := [] |};
           assign_dirty := ∅; assign_new := []; assign_cm := cm |}
        tablets.

(** The table of a tablet that needs replicas: of a locked tablet, or of a
    new one. *)
Definition table_of_assigned (cm : CatalogManager.t) (new : list (string * string))
    (id : string) : option TableInfo.t :=
  match CatalogManager.tablet_map_ cm !! id with
  | Some tab => CatalogManager.table_ids_map_ cm !! TabletInfo.table_ tab
  | None =>
      list_find (fun e => e.1 = id) new
      ≫= fun e => CatalogManager.table_ids_map_ cm !! e.2.2
  end.

(** The second loop (lines 3936-3942): replicas for each tablet that needs a
    create request, in order, until one fails; the first loop gave each of
    them a dirty record, and a table. [None] is the death of the process in
    [SelectReplicas]. *)
Fixpoint select_replicas_for_tablets `{Externals} `{Placement} (cm : CatalogManager.t)
    (new : list (string * string)) (needs_create_rpc : list string)
    (dirty : gmap string SysTabletsEntryPB.t) (ts_descs : list TSDescriptor) (rng : Rng)
    : option (Status * gmap string SysTabletsEntryPB.t * list TSDescriptor * Rng) :=
  match needs_create_rpc with
  | [] => Some (OK, dirty, ts_descs, rng)
  | id :: rest =>
      match table_of_assigned cm new id, dirty !! id with
      | Some table, Some pb =>
          match SelectReplicasForTablet ts_descs (TableInfo.metadata_ table) pb rng with
          | None => None
          | Some (s, pb1, ts_descs1, rng1) =>
              if negb (ok s) then Some (s, dirty, ts_descs1, rng1)
              else select_replicas_for_tablets cm new rest (<[id := pb1]> dirty)
                     ts_descs1 rng1
          end
      | _, _ => select_replicas_for_tablets cm new rest dirty ts_descs rng
      end
  end.

(** What a pass of the assignment gives beside its status: the create
    requests it sent, each with the id of the tablet and the uuid of the
    server, and the servers as it left them. *)
Record AssignmentResult := {
  create_tablet_requests : list (string * string);
  ts_descs_after : list TSDescriptor;
}.

(** The dirty records behind a list of pointers. *)
Definition dirty_records (dirty : gmap string SysTabletsEntryPB.t) (ids : list string)
    : list (string * SysTabletsEntryPB.t) :=
  omap (fun id => (fun pb => (id, pb)) <$> dirty !! id) ids.

(** The new tablets join their tables and the tablet map (lines 3954-3968):
    [AddRemoveTablets] of each one, then [tablet_map_[id] = tablet]. The
    pointer to the tablet a new one takes the place of is resolved in the
    tablet map. *)
Definition publish_replacements (dirty : gmap string SysTabletsEntryPB.t)
    (new : list (string * string)) (cm : CatalogManager.t) : CatalogManager.t :=
  let objects :=
    omap (fun e => (fun pb => new_TabletInfo e.2 (e.1, pb)) <$> dirty !! e.1) new in
  let tablet_map :=
    foldl (fun m t => <[TabletInfo.tablet_id_ t := t]> m)
          (CatalogManager.tablet_map_ cm) objects in
  let ids :=
    foldl (fun ids t =>
             match ids !! TabletInfo.table_ t with
             | Some table =>
                 match TableInfo.AddRemoveTablets tablet_map [t] [] table with
                 | Some table' => <[TabletInfo.table_ t := table']> ids
                 | None => ids
                 end
             | None => ids
             end) (CatalogManager.table_ids_map_ cm) objects in
  CatalogManager.set_maps ids (CatalogManager.table_names_map_ cm) tablet_map cm.

(** [CatalogManager::SendCreateTabletRequest] (lines 4024-4035): an
    [AsyncCreateReplica] per peer of the committed config. *)
Definition SendCreateTabletRequest (tab : TabletInfo.t) : list (string * string) :=
  (fun peer => (TabletInfo.tablet_id_ tab, RaftPeerPB.permanent_uuid peer))
  <$> RaftConfigPB.peers
        (ConsensusStatePB.committed_config
           (SysTabletsEntryPB.consensus_state (TabletInfo.metadata_ tab))).

(** [CatalogManager::ProcessPendingAssignments] (lines 3877-4000) on the
    tablets behind [tablets], with the live servers [ts_descs] of the
    tablet-server manager and the random source [rng]. *)
Definition ProcessPendingAssignments `{Externals} `{Placement}
    (since_create_ms : string -> Z) (ts_descs : list TSDescriptor) (rng : Rng)
    (tablets : list string) (cm : CatalogManager.t) : Outcome AssignmentResult :=
  (* handle each tablet, whatever state it may be in *)
  let pass := handle_assignments since_create_ms tablets cm in
  let deferred := assign_deferred pass in
  let cm0 := assign_cm pass in
  if bool_decide (DeferredAssignmentActions.tablets_to_add deferred = [])
     && bool_decide (DeferredAssignmentActions.tablets_to_update deferred = [])
     && bool_decide (DeferredAssignmentActions.needs_create_rpc deferred = [])
  then Returned OK {| create_tablet_requests := []; ts_descs_after := ts_descs |} [] cm0
  else
  (* assign replicas to the tablets which need to be created *)
  match select_replicas_for_tablets cm (assign_new pass)
          (DeferredAssignmentActions.needs_create_rpc deferred) (assign_dirty pass)
          ts_descs rng with
  | None => Crashed
  | Some (s, dirty, ts_descs1, _) =>
  if negb (ok s)
  then Returned s {| create_tablet_requests := []; ts_descs_after := ts_descs1 |} [] cm0
  else
  (* update the sys catalog with the new set of tablets *)
  let actions :=
    {| Actions.table_to_add := None;
       Actions.table_to_update := None;
       Actions.tablets_to_add :=
         dirty_records dirty (DeferredAssignmentActions.tablets_to_add deferred);
       Actions.tablets_to_update :=
         dirty_records dirty (DeferredAssignmentActions.tablets_to_update deferred) |} in
  let '(s, sc) := SysCatalogTable.Write actions (CatalogManager.sys_catalog_ cm0) in
  let cm1 := CatalogManager.set_sys_catalog sc cm0 in
  if negb (ok s)
  then Returned s {| create_tablet_requests := []; ts_descs_after := ts_descs1 |} [] cm1
  else
  (* commit the new tablets, then the locked ones *)
  let cm2 :=
    CatalogManager.set_maps (CatalogManager.table_ids_map_ cm1)
      (CatalogManager.table_names_map_ cm1)
      (commit_tablets
         (dirty_records dirty (DeferredAssignmentActions.tablets_to_update deferred))
         (CatalogManager.tablet_map_ cm1)) cm1 in
  (* the new tablets join their tables and the tablet map *)
  let cm3 := publish_replacements dirty (assign_new pass) cm2 in
  (* DeleteTablet for the deleted tablets, CreateTablet for the new ones *)
  let deletes :=
    resolve_tablets (CatalogManager.tablet_map_ cm3)
      (DeferredAssignmentActions.tablets_to_update deferred)
    ≫= fun tab => if tablet_is_deleted (TabletInfo.metadata_ tab)
                  then SendDeleteTabletRequest tab else [] in
  let creates :=
    resolve_tablets (CatalogManager.tablet_map_ cm3)
      (DeferredAssignmentActions.needs_create_rpc deferred)
    ≫= SendCreateTabletRequest in
  Returned OK {| create_tablet_requests := creates; ts_descs_after := ts_descs1 |}
    deletes cm3
  end.

(** The tablet behind a pointer of the list, with its table. *)
Definition pending_tablet (cm : CatalogManager.t) (id : string) (tab : TabletInfo.t)
    (table : TableInfo.t) : Prop :=
  CatalogManager.tablet_map_ cm !! id = Some tab
  /\ CatalogManager.table_ids_map_ cm !! TabletInfo.table_ tab = Some table.

(** A tablet whose creation a pass asks for: it is PREPARING. *)
Definition to_create (cm : CatalogManager.t) (id : string) (tab : TabletInfo.t)
    (table : TableInfo.t) : Prop :=
  pending_tablet cm id tab table
  /\ SysTabletsEntryPB.state (TabletInfo.metadata_ tab) = SysTabletsEntryPB.PREPARING.

(** A tablet a pass replaces: it is CREATING and its creation has timed
    out. *)
Definition to_replace `{Placement} (since_create_ms : string -> Z) (cm : CatalogManager.t)
    (id : string) (tab : TabletInfo.t) (table : TableInfo.t) : Prop :=
  pending_tablet cm id tab table
  /\ SysTabletsEntryPB.state (TabletInfo.metadata_ tab) = SysTabletsEntryPB.CREATING
  /\ FLAGS_tablet_creation_timeout_ms - since_create_ms id <= 0.

(** What the placement expects of the random source. For
    [ReservoirSample], by the comments at lines 2866-2867 and 2894-2896 and
    section 4.5 step 3 of the specification: the sample holds distinct
    servers of the vector that are not excluded, as many as asked for, or
    all of them when there are fewer. For [Uniform]: a draw below its
    bound. *)
Definition sampler_contract `{Placement} : Prop :=
  (forall ts_descs k excluded rng,
     let sample := (ReservoirSample ts_descs k excluded rng).1 in
     let candidates := filter (fun i => i ∉ excluded) (seq 0 (length ts_descs)) in
     NoDup sample
     /\ (forall i, i ∈ sample -> i ∈ candidates)
     /\ length sample = Nat.min k (length candidates))
  /\ (forall n rng, (0 < n)%nat -> ((Uniform n rng).1 < n)%nat).

(** The dirty record [dirty'] is [dirty] with replicas placed: [replicas]
    new peers, all voters, on distinct servers among [uuids], behind the
    peers it had; the term is the first one and the config has no index
    yet. The rest of the record is as it was. *)
Definition replicas_placed `{Externals} `{Placement} (uuids : list string) (replicas : Z)
    (dirty dirty' : SysTabletsEntryPB.t) : Prop :=
  SysTabletsEntryPB.state dirty' = SysTabletsEntryPB.state dirty
  /\ SysTabletsEntryPB.state_msg dirty' = SysTabletsEntryPB.state_msg dirty
  /\ SysTabletsEntryPB.partition dirty' = SysTabletsEntryPB.partition dirty
  /\ SysTabletsEntryPB.table_id dirty' = SysTabletsEntryPB.table_id dirty
  /\ ConsensusStatePB.current_term (SysTabletsEntryPB.consensus_state dirty') = kMinimumTerm
  /\ RaftConfigPB.opid_index_field
       (ConsensusStatePB.committed_config (SysTabletsEntryPB.consensus_state dirty'))
     = Some kInvalidOpIdIndex
  /\ exists new,
       RaftConfigPB.peers
         (ConsensusStatePB.committed_config (SysTabletsEntryPB.consensus_state dirty'))
       = RaftConfigPB.peers
           (ConsensusStatePB.committed_config (SysTabletsEntryPB.consensus_state dirty))
         ++ new
       /\ Z.of_nat (length new) = replicas
       /\ NoDup (RaftPeerPB.permanent_uuid <$> new)
       /\ (forall p, p ∈ new ->
             RaftPeerPB.member_type p = RaftPeerPB.VOTER
             /\ RaftPeerPB.permanent_uuid p ∈ uuids).

(** ** Reload of the directory (lines 283-367 and 978-1005) *)

(** [TableLoader::VisitTable] (lines 290-312); [None] is the failed [CHECK]
    that the table is not loaded yet. *)
Definition VisitTable (table_id : string) (metadata : SysTablesEntryPB.t)
    (cm : CatalogManager.t) : option CatalogManager.t :=
  if bool_decide (is_Some (CatalogManager.table_ids_map_ cm !! table_id)) then None
  else
    let table :=
      {| TableInfo.table_id_ := table_id; TableInfo.metadata_ := metadata;
         TableInfo.tablet_map_ := ∅; TableInfo.schema_version_counts_ := ∅ |} in
    let is_deleted := PersistentTableInfo.is_deleted metadata in
    Some (CatalogManager.set_maps
            (<[table_id := table]> (CatalogManager.table_ids_map_ cm))
            (if is_deleted then CatalogManager.table_names_map_ cm
             else <[SysTablesEntryPB.name metadata := table_id]>
                    (CatalogManager.table_names_map_ cm))
            (CatalogManager.tablet_map_ cm) cm).

(** [TabletLoader::VisitTablet] (lines 331-367). *)
Definition VisitTablet `{Externals} (table_id tablet_id : string)
    (metadata : SysTabletsEntryPB.t) (cm : CatalogManager.t)
    : Status * CatalogManager.t :=
  match CatalogManager.table_ids_map_ cm !! table_id with
  | None => (Corruption, cm)
  | Some table =>
      let tablet :=
        {| TabletInfo.tablet_id_ := tablet_id; TabletInfo.table_ := table_id;
           TabletInfo.metadata_ := metadata;
           TabletInfo.reported_schema_version_ := NOT_YET_REPORTED |} in
      let tablet_map := <[tablet_id := tablet]> (CatalogManager.tablet_map_ cm) in
      let ids :=
        if tablet_is_deleted metadata then CatalogManager.table_ids_map_ cm
        else
          match TableInfo.AddRemoveTablets tablet_map [tablet] [] table with
          | Some table' => <[table_id := table']> (CatalogManager.table_ids_map_ cm)
          | None => CatalogManager.table_ids_map_ cm
          end in
      (OK, CatalogManager.set_maps ids (CatalogManager.table_names_map_ cm) tablet_map cm)
  end.

(** Modelled from the spec: [SysCatalogTable::VisitTables] and
    [VisitTablets] are not part of the source. Per section 1 the system
    tablet gives a "sequential visitor over entries": the visitor is called
    on each row, in the order of the rows, until a call fails; a tablet is
    visited with the table id of its record (section 3). *)
Definition VisitTables (cm : CatalogManager.t) : option CatalogManager.t :=
  foldl (fun acc row => acc ≫= VisitTable row.1 row.2) (Some cm)
        (map_to_list (SysCatalogTable.tables_ (CatalogManager.sys_catalog_ cm))).

Definition visit_tablet_row `{Externals} (acc : Status * CatalogManager.t)
    (row : string * SysTabletsEntryPB.t) : Status * CatalogManager.t :=
  if negb (ok acc.1) then acc
  else VisitTablet (SysTabletsEntryPB.table_id row.2) row.1 row.2 acc.2.

Definition VisitTablets `{Externals} (cm : CatalogManager.t) : Status * CatalogManager.t :=
  foldl visit_tablet_row (OK, cm)
        (map_to_list (SysCatalogTable.tablets_ (CatalogManager.sys_catalog_ cm))).

(** [CatalogManager::VisitTablesAndTabletsUnlocked] (lines 978-1005); the
    tasks it aborts first are not part of the model. *)
Definition VisitTablesAndTabletsUnlocked `{Externals} (cm : CatalogManager.t)
    : Outcome unit :=
  (* clear the existing state *)
  let cm0 := CatalogManager.set_maps ∅ ∅ ∅ cm in
  (* visit tables and tablets, load them into memory *)
  match VisitTables cm0 with
  | None => Crashed
  | Some cm1 =>
      let '(s, cm2) := VisitTablets cm1 in
      Returned s tt [] cm2
  end.

(** The system catalog holds what is committed in memory: a row per table
    and per tablet of the directory, each with the committed record, and no
    other row; and the record of a tablet names the table of the tablet. *)
Definition persisted (cm : CatalogManager.t) : Prop :=
  SysCatalogTable.tables_ (CatalogManager.sys_catalog_ cm)
  = TableInfo.metadata_ <$> CatalogManager.table_ids_map_ cm
  /\ SysCatalogTable.tablets_ (CatalogManager.sys_catalog_ cm)
     = TabletInfo.metadata_ <$> CatalogManager.tablet_map_ cm
  /\ (forall id tab,
        CatalogManager.tablet_map_ cm !! id = Some tab ->
        SysTabletsEntryPB.table_id (TabletInfo.metadata_ tab) = TabletInfo.table_ tab).

(** ** The catalogs the handlers reach *)

(** The generator never gives one id twice. *)
Definition generator_never_repeats `{Externals} : Prop :=
  forall i j : nat, oid_Next i = oid_Next j -> i = j.

(** Every entry of the map of a table leads to a tablet of the tablet map
    whose partition starts at the key of the entry. *)
Definition tablets_keyed (cm : CatalogManager.t) : Prop :=
  forall table_id table key tablet_id,
    CatalogManager.table_ids_map_ cm !! table_id = Some table ->
    TableInfo.tablet_map_ table !! key = Some tablet_id ->
    exists tab,
      CatalogManager.tablet_map_ cm !! tablet_id = Some tab
      /\ partition_key_start (SysTabletsEntryPB.partition (TabletInfo.metadata_ tab)) = key.

(** The catalogs that CreateTable, DeleteTable, AlterTable,
    ProcessTabletReport and the passes of ProcessPendingAssignments over
    distinct tablets reach from an empty directory, whatever the requests,
    the reports, the live servers, the outcome of the writes and the state
    of the catalog manager. *)
Inductive reachable `{Externals} `{Placement} : CatalogManager.t -> Prop :=
| reachable_empty state reserved sys_catalog oid :
    reachable {| CatalogManager.state_ := state;
                 CatalogManager.table_ids_map_ := ∅;
                 CatalogManager.table_names_map_ := ∅;
                 CatalogManager.tablet_map_ := ∅;
                 CatalogManager.reserved_table_names_ := reserved;
                 CatalogManager.sys_catalog_ := sys_catalog;
                 CatalogManager.oid_generator_ := oid |}
| reachable_CreateTable cm req num_live_tservers s resp rpcs cm' :
    reachable cm ->
    CreateTable req num_live_tservers cm = Returned s resp rpcs cm' ->
    reachable cm'
| reachable_DeleteTable cm req s resp rpcs cm' :
    reachable cm ->
    DeleteTable req cm = Returned s resp rpcs cm' ->
    reachable cm'
| reachable_AlterTable cm req s resp rpcs cm' :
    reachable cm ->
    AlterTable req cm = Returned s resp rpcs cm' ->
    reachable cm'
| reachable_ProcessTabletReport cm ts_uuid full_report s resp rpcs cm' :
    reachable cm ->
    ProcessTabletReport ts_uuid full_report cm = Returned s resp rpcs cm' ->
    reachable cm'
| reachable_ProcessPendingAssignments cm since_create_ms ts_descs rng tablets
    s resp rpcs cm' :
    reachable cm ->
    NoDup tablets ->
    ProcessPendingAssignments since_create_ms ts_descs rng tablets cm
    = Returned s resp rpcs cm' ->
    reachable cm'.

(** ** Sample collaborators and states

    A concrete choice of the collaborators, with the default flags, and a
    few catalog states, on which the theorems below are run. *)

Fixpoint sample_oid (n : nat) : string :=
  match n with
  | O => "id"
  | S k => "#" +:+ sample_oid k
  end.

#[local] Instance sample_externals : Externals := {|
  FLAGS := default_flags;
  kInvalidOpIdIndex := -1;
  table_is_running := fun pb =>
    bool_decide (SysTablesEntryPB.state pb = SysTablesEntryPB.RUNNING)
    || bool_decide (SysTablesEntryPB.state pb = SysTablesEntryPB.ALTERING);
  tablet_is_deleted := fun pb =>
    bool_decide (SysTabletsEntryPB.state pb = SysTabletsEntryPB.DELETED);
  oid_Next := sample_oid;
  LocalTimeAsString := "2017-01-01 00:00:00";
  PrepareCreateTable := fun req =>
    if bool_decide (create_name req = "") then
      (InvalidArgument, Some (MasterErrorPB.INVALID_SCHEMA, InvalidArgument), ([], "", []))
    else
      (OK, None,
       (create_schema req, create_partition_schema req,
        [ {| partition_key_start := ""; partition_key_end := "a" |};
          {| partition_key_start := "a"; partition_key_end := "" |} ]));
  max_col_id := fun schema => Z.of_nat (length schema) - 1;
  ApplyAlterSchemaSteps := fun pb steps =>
    (OK, (SysTablesEntryPB.schema pb
         ++ ((fun st => {| column_name := AlterTableRequestPB.step_arg st;
                           column_id := None |}) <$> steps),
         SysTablesEntryPB.next_column_id pb + Z.of_nat (length steps)));
  ValidateClientSchema := fun _ => OK;
  SchemaFromPB := fun _ => OK;
  ValidateIdentifier := fun n => if bool_decide (n = "") then InvalidArgument else OK;
  PartitionSchema_FromPB := fun _ _ => OK;
  CreateRangePartitions := fun pb schema step =>
    if bool_decide (AlterTableRequestPB.step_arg step = "") then (InvalidArgument, [])
    else
      (OK, [ {| partition_key_start := AlterTableRequestPB.step_arg step;
                 partition_key_end := AlterTableRequestPB.step_arg step +:+ "~" |} ]);
  IsRaftConfigMember := IsRaftConfigMember_of_spec;
  CountVoters := fun config =>
    Z.of_nat (length (filter (fun p => RaftPeerPB.member_type p = RaftPeerPB.VOTER)
                        (RaftConfigPB.peers config)));
  ShouldEvictReplica := fun _ _ _ _ => None;
  ShouldAddReplica := fun _ _ _ => false;
|}.

(** A running catalog manager with an empty directory and a system catalog
    whose next writes end as [script] says. *)
Definition sample_cm (script : list Status) : CatalogManager.t :=
  {| CatalogManager.state_ := CatalogManager.kRunning;
     CatalogManager.table_ids_map_ := ∅;
     CatalogManager.table_names_map_ := ∅;
     CatalogManager.tablet_map_ := ∅;
     CatalogManager.reserved_table_names_ := ∅;
     CatalogManager.sys_catalog_ :=
       {| SysCatalogTable.tables_ := ∅; SysCatalogTable.tablets_ := ∅;
          SysCatalogTable.write_script_ := script;
          SysCatalogTable.writes_ok_ := 0; SysCatalogTable.writes_failed_ := 0 |};
     CatalogManager.oid_generator_ := 0 |}.

Definition sample_create (n : option Z) : CreateTableRequestPB :=
  {| create_name := "t";
     create_schema := [ {| column_name := "key"; column_id := None |} ];
     create_split_rows_range_bounds := "a";
     create_partition_schema := "range(key)";
     create_num_replicas := n |}.

(** The catalog a handler leaves. *)
Definition catalog_after {R : Type} (o : Outcome R) : CatalogManager.t :=
  match o with
  | Returned _ _ _ cm => cm
  | Crashed => sample_cm []
  end.

(** The catalog after the table "t" is created with three replicas and two
    tablets. *)
Definition sample_created (script : list Status) : CatalogManager.t :=
  catalog_after (CreateTable (sample_create (Some 3)) 3 (sample_cm script)).

Definition by_name (n : string) : TableIdentifierPB :=
  {| ident_table_id := None; ident_table_name := Some n |}.


Definition sample_peer (t : RaftPeerPB.MemberType) (uuid : string) : RaftPeerPB.t :=
  {| RaftPeerPB.permanent_uuid := uuid; RaftPeerPB.member_type := t;
     RaftPeerPB.health_report := None |}.

Definition sample_cstate (term : Z) (leader : string) (index : Z)
    (peers : list RaftPeerPB.t) : ConsensusStatePB.t :=
  {| ConsensusStatePB.current_term := term;
     ConsensusStatePB.leader_uuid := leader;
     ConsensusStatePB.committed_config :=
       {| RaftConfigPB.opid_index_field := Some index; RaftConfigPB.peers := peers |};
     ConsensusStatePB.pending_config := None |}.

(** The table "t" with the single tablet "#id". *)
Definition sample_table (st : SysTablesEntryPB.State) (version : Z)
    (fully_applied : option SchemaPB) : TableInfo.t :=
  {| TableInfo.table_id_ := "id";
     TableInfo.metadata_ :=
       {| SysTablesEntryPB.name := "t";
          SysTablesEntryPB.version := version;
          SysTablesEntryPB.schema := [ {| column_name := "key"; column_id := Some 0 |} ];
          SysTablesEntryPB.fully_applied_schema := fully_applied;
          SysTablesEntryPB.partition_schema := "range(key)";
          SysTablesEntryPB.next_column_id := 1;
          SysTablesEntryPB.num_replicas := 3;
          SysTablesEntryPB.state := st;
          SysTablesEntryPB.state_msg := "" |};
     TableInfo.tablet_map_ := {[ "" := "#id" ]};
     TableInfo.schema_version_counts_ := {[ NOT_YET_REPORTED := 1%nat ]} |}.

Definition sample_tablet (st : SysTabletsEntryPB.State)
    (cstate : option ConsensusStatePB.t) : TabletInfo.t :=
  {| TabletInfo.tablet_id_ := "#id";
     TabletInfo.table_ := "id";
     TabletInfo.metadata_ :=
       {| SysTabletsEntryPB.partition :=
            {| partition_key_start := ""; partition_key_end := "" |};
          SysTabletsEntryPB.consensus_state_field := cstate;
          SysTabletsEntryPB.state := st;
          SysTabletsEntryPB.state_msg := "";
          SysTabletsEntryPB.table_id := "id" |};
     TabletInfo.reported_schema_version_ := NOT_YET_REPORTED |}.

Definition sample_report (cstate : option ConsensusStatePB.t)
    (schema_version : option Z) : ReportedTabletPB.t :=
  {| ReportedTabletPB.tablet_id := "#id";
     ReportedTabletPB.state := tablet.RUNNING;
     ReportedTabletPB.tablet_data_state := tablet.TABLET_DATA_READY;
     ReportedTabletPB.consensus_state := cstate;
     ReportedTabletPB.error := None;
     ReportedTabletPB.schema_version := schema_version |}.

Definition sample_voters (uuids : list string) : list RaftPeerPB.t :=
  sample_peer RaftPeerPB.VOTER <$> uuids.


(** What a handler leaves besides its response: the status, the tasks
    started and the catalog. *)
Definition outcome_effects {R : Type} (o : Outcome R)
    : option (Status * list RpcTask * CatalogManager.t) :=
  match o with
  | Returned s _ rpcs cm => Some (s, rpcs, cm)
  | Crashed => None
  end.

Definition outcome_response {R : Type} (o : Outcome R) : option R :=
  match o with
  | Returned _ resp _ _ => Some resp
  | Crashed => None
  end.

(** A running catalog manager whose directory holds one table and its one
    tablet. *)
Definition sample_catalog (table : TableInfo.t) (tab : TabletInfo.t)
    (script : list Status) : CatalogManager.t :=
  {| CatalogManager.state_ := CatalogManager.kRunning;
     CatalogManager.table_ids_map_ := {[ TableInfo.table_id_ table := table ]};
     CatalogManager.table_names_map_ :=
       {[ SysTablesEntryPB.name (TableInfo.metadata_ table) := TableInfo.table_id_ table ]};
     CatalogManager.tablet_map_ := {[ TabletInfo.tablet_id_ tab := tab ]};
     CatalogManager.reserved_table_names_ := ∅;
     CatalogManager.sys_catalog_ :=
       {| SysCatalogTable.tables_ :=
            {[ TableInfo.table_id_ table := TableInfo.metadata_ table ]};
          SysCatalogTable.tablets_ :=
            {[ TabletInfo.tablet_id_ tab := TabletInfo.metadata_ tab ]};
          SysCatalogTable.write_script_ := script;
          SysCatalogTable.writes_ok_ := 0; SysCatalogTable.writes_failed_ := 0 |};
     CatalogManager.oid_generator_ := 2 |}.

(** The table "t" running, its tablet running under the leader A. *)
Definition sample_running (script : list Status) : CatalogManager.t :=
  sample_catalog (sample_table SysTablesEntryPB.RUNNING 0 None)
    (sample_tablet SysTabletsEntryPB.RUNNING
       (Some (sample_cstate 1 "A" 1 (sample_voters ["A"; "B"; "C"])))) script.

(** The table "t" running with a tablet that covers the keys below "k"
    only, running under the leader A. *)
Definition sample_partial (script : list Status) : CatalogManager.t :=
  sample_catalog (sample_table SysTablesEntryPB.RUNNING 0 None)
    {| TabletInfo.tablet_id_ := "#id";
       TabletInfo.table_ := "id";
       TabletInfo.metadata_ :=
         {| SysTabletsEntryPB.partition :=
              {| partition_key_start := ""; partition_key_end := "k" |};
            SysTabletsEntryPB.consensus_state_field :=
              Some (sample_cstate 1 "A" 1 (sample_voters ["A"; "B"; "C"]));
            SysTabletsEntryPB.state := SysTabletsEntryPB.RUNNING;
            SysTabletsEntryPB.state_msg := "";
            SysTabletsEntryPB.table_id := "id" |};
       TabletInfo.reported_schema_version_ := NOT_YET_REPORTED |} script.

(** Requests to alter the table "t": a rename, and one step. *)
Definition sample_rename (new_name : string) : AlterTableRequestPB.t :=
  {| AlterTableRequestPB.table := by_name "t";
     AlterTableRequestPB.alter_schema_steps := [];
     AlterTableRequestPB.new_table_name := Some new_name;
     AlterTableRequestPB.schema := [] |}.

Definition sample_alter (step : AlterTableRequestPB.StepType) (arg : string)
    : AlterTableRequestPB.t :=
  {| AlterTableRequestPB.table := by_name "t";
     AlterTableRequestPB.alter_schema_steps :=
       [ {| AlterTableRequestPB.step_type := step;
            AlterTableRequestPB.step_arg := arg |} ];
     AlterTableRequestPB.new_table_name := None;
     AlterTableRequestPB.schema := [] |}.

(** The table "t" in ALTERING at version 1, its tablet running under the
    leader A and with no schema version reported yet. *)
Definition sample_altering (script : list Status) : CatalogManager.t :=
  sample_catalog
    (sample_table SysTablesEntryPB.ALTERING 1
       (Some [ {| column_name := "key"; column_id := Some 0 |} ]))
    (sample_tablet SysTabletsEntryPB.RUNNING
       (Some (sample_cstate 1 "A" 1 (sample_voters ["A"; "B"; "C"])))) script.

(** The report of the tablet "#id" at schema version 1, its committed
    config one operation further. *)
Definition sample_version_report : list ReportedTabletPB.t :=
  [ sample_report (Some (sample_cstate 1 "A" 2 (sample_voters ["A"; "B"; "C"]))) (Some 1) ].

(** A random source that counts its draws; a sample takes the first servers
    that are not excluded. *)
#[local] Instance sample_placement : Placement := {|
  Rng := nat;
  ReservoirSample := fun ts_descs k excluded rng =>
    (take k (filter (fun i => i ∉ excluded) (seq 0 (length ts_descs))), S rng);
  Uniform := fun n rng => (rng mod n, S rng)%nat;
  kMinimumTerm := 0;
  FLAGS_tablet_creation_timeout_ms := 30000;
|}.

(** Live servers with no replica yet. *)
Definition sample_servers (uuids : list string) : list TSDescriptor :=
  (fun uuid => {| permanent_uuid_ := uuid;
                  recent_replica_creations_ := PrimFloat.zero;
                  num_live_replicas_ := 0 |}) <$> uuids.


(** The catalog after a pass of the assignment over the two tablets of the
    table "t", with three live servers. *)
Definition sample_assigned : CatalogManager.t :=
  catalog_after
    (ProcessPendingAssignments (fun _ => 0) (sample_servers ["A"; "B"; "C"]) 0%nat
       ["#id"; "##id"] (sample_created [OK])).


(** * Properties *)

(** Membership in a list of closed terms, decided by evaluation. *)
Ltac list_member := apply list_elem_of_In; vm_compute; tauto.
Ltac list_non_member :=
  let H := fresh "H" in
  intros H; apply list_elem_of_In in H; vm_compute in H; intuition discriminate.

(** Case analysis on every [match] and [if] of the goal, then of the
    hypotheses. *)
Ltac split_cases :=
  repeat match goal with
         | |- context [match ?x with _ => _ end] => destruct x eqn:?
         | H : context [match ?x with _ => _ end] |- _ => destruct x eqn:?
         end.

(** ** C8 *)

Lemma base_delay_capped (a : Z) :
  0 <= a ->
  (if bool_decide (a <= 12) then Z.shiftl 1 (a + 3) else 60 * 1000)
  = Z.min (2 ^ (a + 3)) 60000.
Proof.
  intros Ha. case_bool_decide as Hle.
  - rewrite Z.shiftl_1_l.
    assert (2 ^ (a + 3) <= 2 ^ 15) by (apply Z.pow_le_mono_r; lia).
    change (2 ^ 15) with 32768 in *. lia.
  - assert (2 ^ 16 <= 2 ^ (a + 3)) by (apply Z.pow_le_mono_r; lia).
    change (2 ^ 16) with 65536 in *. lia.
Qed.

(** C8. A task in state RUNNING is rescheduled after
    min(remaining - 10 ms, min(2^(attempt+3), 60000) ms + jitter), the
    jitter being [rand() % 50], between 0 and 49 ms; when that delay is not
    positive nothing is scheduled, the function returns false and the task
    is FAILED. *)
Theorem RescheduleWithBackoffDelay_delay
    (to_deadline_ms rand_value : Z) (t : RetryingTSRpcTask) :
  state_ t = MonitoredTask.kStateRunning ->
  0 <= attempt_ t ->
  0 <= rand_value ->
  let jitter := Z.rem rand_value 50 in
  let delay :=
    Z.min (to_deadline_ms - 10) (Z.min (2 ^ (attempt_ t + 3)) 60000 + jitter) in
  0 <= jitter <= 49 /\
  (delay <= 0 ->
     RescheduleWithBackoffDelay to_deadline_ms rand_value t
     = (false, None,
        {| attempt_ := attempt_ t; state_ := MonitoredTask.kStateFailed |})) /\
  (0 < delay ->
     RescheduleWithBackoffDelay to_deadline_ms rand_value t = (true, Some delay, t)).
Proof.
  intros Hrun Hatt Hrand jitter delay.
  assert (Hj : 0 <= jitter <= 49).
  { subst jitter. pose proof (Z.rem_bound_pos rand_value 50 Hrand). lia. }
  split; [exact Hj|].
  unfold RescheduleWithBackoffDelay.
  rewrite Hrun, bool_decide_eq_true_2 by reflexivity. cbn [negb].
  rewrite (base_delay_capped _ Hatt).
  fold jitter.
  replace (Z.min (Z.min (2 ^ (attempt_ t + 3)) 60000 + jitter) (to_deadline_ms - 10))
    with delay by (subst delay; lia).
  split; intros Hd.
  - rewrite bool_decide_eq_true_2 by exact Hd.
    unfold MarkFailed. rewrite Hrun. rewrite decide_True by reflexivity. reflexivity.
  - rewrite bool_decide_eq_false_2 by lia. reflexivity.
Qed.

Lemma RescheduleWithBackoffDelay_delay_witness :
  RescheduleWithBackoffDelay 5000 1234
    {| attempt_ := 2; state_ := MonitoredTask.kStateRunning |}
  = (true, Some 66, {| attempt_ := 2; state_ := MonitoredTask.kStateRunning |}).
Proof.
  pose proof (RescheduleWithBackoffDelay_delay 5000 1234
    {| attempt_ := 2; state_ := MonitoredTask.kStateRunning |}
    eq_refl ltac:(simpl; lia) ltac:(lia)) as [_ [_ H]].
  apply H. vm_compute. reflexivity.
Defined.

(** ** C6 *)

Lemma CreateTable_rejected `{Externals} req n live cm e schema ps parts c :
  CheckOnline cm = OK ->
  PrepareCreateTable req = (OK, e, (schema, ps, parts)) ->
  create_num_replicas req = Some n ->
  CreateTable_check_replication n (Z.of_nat (length parts)) live
  = Some (c, InvalidArgument) ->
  CreateTable req live cm
  = Returned InvalidArgument
      {| create_error := Some (c, InvalidArgument); create_table_id := None |} [] cm.
Proof.
  intros Honline Hprep Hn Hcheck. unfold CreateTable, CreateTable_prepare.
  rewrite Honline, Hprep, Hn.
  change (negb (ok OK)) with false. cbv iota. cbn [default id]. rewrite Hcheck.
  reflexivity.
Qed.

(** C6 as stated fails: with the unsafe flag off, a CreateTable with
    num_replicas = 0, which is not positive, is rejected with
    EVEN_REPLICATION_FACTOR and not with ILLEGAL_REPLICATION_FACTOR. *)
Lemma CreateTable_zero_replicas_not_illegal :
  ~ (forall (E : Externals) req n live cm e schema ps parts,
       CheckOnline cm = OK ->
       PrepareCreateTable req = (OK, e, (schema, ps, parts)) ->
       create_num_replicas req = Some n ->
       n <= 0 ->
       CreateTable req live cm
       = Returned InvalidArgument
           {| create_error :=
                Some (MasterErrorPB.ILLEGAL_REPLICATION_FACTOR, InvalidArgument);
              create_table_id := None |} [] cm).
Proof.
  intros Hclaim.
  specialize (Hclaim sample_externals (sample_create (Some 0)) 0 3 (sample_cm [])
                _ _ _ _ eq_refl eq_refl eq_refl ltac:(lia)).
  vm_compute in Hclaim. discriminate Hclaim.
Qed.

(** C6 (amended). The checks of an explicit num_replicas run in order and
    the first that fails names the error: an even value with the unsafe
    flag off gives EVEN_REPLICATION_FACTOR, also when it is zero, negative
    or above the maximum; otherwise a value above max_num_replicas gives
    REPLICATION_FACTOR_TOO_HIGH; otherwise a value that is not positive
    gives ILLEGAL_REPLICATION_FACTOR. In each case the status is
    InvalidArgument and the catalog is left as it was. *)
Theorem CreateTable_replication_factor `{Externals} req n live cm e schema ps parts :
  CheckOnline cm = OK ->
  PrepareCreateTable req = (OK, e, (schema, ps, parts)) ->
  create_num_replicas req = Some n ->
  let rejected c :=
    CreateTable req live cm
    = Returned InvalidArgument
        {| create_error := Some (c, InvalidArgument); create_table_id := None |} [] cm in
  let even_refused :=
    Z.rem n 2 = 0 /\ FLAGS_allow_unsafe_replication_factor FLAGS = false in
  (even_refused -> rejected MasterErrorPB.EVEN_REPLICATION_FACTOR) /\
  (~ even_refused -> n > FLAGS_max_num_replicas FLAGS ->
   rejected MasterErrorPB.REPLICATION_FACTOR_TOO_HIGH) /\
  (~ even_refused -> n <= FLAGS_max_num_replicas FLAGS -> n <= 0 ->
   rejected MasterErrorPB.ILLEGAL_REPLICATION_FACTOR).
Proof.
  intros Honline Hprep Hn rejected even_refused.
  assert (Hiff : bool_decide (Z.rem n 2 = 0)
                 && negb (FLAGS_allow_unsafe_replication_factor FLAGS) = true
                 <-> even_refused).
  { unfold even_refused.
    rewrite andb_true_iff, bool_decide_eq_true, negb_true_iff. tauto. }
  repeat split.
  - intros Heven. apply (CreateTable_rejected _ _ _ _ _ _ _ _ _ Honline Hprep Hn).
    unfold CreateTable_check_replication.
    apply Hiff in Heven. rewrite Heven. reflexivity.
  - intros Hodd Hhigh. apply (CreateTable_rejected _ _ _ _ _ _ _ _ _ Honline Hprep Hn).
    unfold CreateTable_check_replication.
    destruct (bool_decide (Z.rem n 2 = 0)
              && negb (FLAGS_allow_unsafe_replication_factor FLAGS)).
    + exfalso. apply Hodd, Hiff. reflexivity.
    + rewrite bool_decide_eq_true_2 by exact Hhigh. reflexivity.
  - intros Hodd Hmax Hneg.
    apply (CreateTable_rejected _ _ _ _ _ _ _ _ _ Honline Hprep Hn).
    unfold CreateTable_check_replication.
    destruct (bool_decide (Z.rem n 2 = 0)
              && negb (FLAGS_allow_unsafe_replication_factor FLAGS)).
    + exfalso. apply Hodd, Hiff. reflexivity.
    + rewrite bool_decide_eq_false_2 by lia.
      rewrite bool_decide_eq_true_2 by exact Hneg. reflexivity.
Qed.

Lemma CreateTable_replication_factor_witness :
  CreateTable (sample_create (Some 0)) 3 (sample_cm [])
  = Returned InvalidArgument
      {| create_error := Some (MasterErrorPB.EVEN_REPLICATION_FACTOR, InvalidArgument);
         create_table_id := None |} [] (sample_cm [])
  /\ CreateTable (sample_create (Some 9)) 3 (sample_cm [])
     = Returned InvalidArgument
         {| create_error :=
              Some (MasterErrorPB.REPLICATION_FACTOR_TOO_HIGH, InvalidArgument);
            create_table_id := None |} [] (sample_cm [])
  /\ CreateTable (sample_create (Some (-1))) 3 (sample_cm [])
     = Returned InvalidArgument
         {| create_error :=
              Some (MasterErrorPB.ILLEGAL_REPLICATION_FACTOR, InvalidArgument);
            create_table_id := None |} [] (sample_cm []).
Proof.
  pose (parts := [ {| partition_key_start := ""; partition_key_end := "a" |};
                   {| partition_key_start := "a"; partition_key_end := "" |} ]).
  split; [|split].
  - apply (@CreateTable_replication_factor sample_externals (sample_create (Some 0)) 0 3
             (sample_cm []) None [ {| column_name := "key"; column_id := None |} ]
             "range(key)" parts eq_refl eq_refl eq_refl).
    split; reflexivity.
  - apply (@CreateTable_replication_factor sample_externals (sample_create (Some 9)) 9 3
             (sample_cm []) None [ {| column_name := "key"; column_id := None |} ]
             "range(key)" parts eq_refl eq_refl eq_refl).
    + intros [Hrem _]. vm_compute in Hrem. discriminate Hrem.
    + vm_compute. reflexivity.
  - apply (@CreateTable_replication_factor sample_externals (sample_create (Some (-1)))
             (-1) 3 (sample_cm []) None
             [ {| column_name := "key"; column_id := None |} ]
             "range(key)" parts eq_refl eq_refl eq_refl).
    + intros [Hrem _]. vm_compute in Hrem. discriminate Hrem.
    + vm_compute. discriminate.
    + lia.
Defined.

(** ** C7 *)

Lemma IsCreateInProgress_false (store : gmap string TabletInfo.t) (table : TableInfo.t) :
  TableInfo.IsCreateInProgress store table = false <->
  forall key tid tab,
    TableInfo.tablet_map_ table !! key = Some tid ->
    store !! tid = Some tab ->
    SysTabletsEntryPB.state (TabletInfo.metadata_ tab) = SysTabletsEntryPB.RUNNING.
Proof.
  unfold TableInfo.IsCreateInProgress. split.
  - intros Hnone key tid tab Hkey Htab.
    destruct (decide (SysTabletsEntryPB.state (TabletInfo.metadata_ tab)
                      = SysTabletsEntryPB.RUNNING)) as [Hrun|Hnot]; [exact Hrun|].
    exfalso. apply not_true_iff_false in Hnone. apply Hnone.
    apply existsb_exists. exists (key, tid). split.
    + apply list_elem_of_In, elem_of_map_to_list. exact Hkey.
    + cbn. rewrite Htab. unfold PersistentTabletInfo.is_running.
      rewrite bool_decide_eq_false_2 by exact Hnot. reflexivity.
  - intros Hall. apply not_true_iff_false. intros Hsome.
    apply existsb_exists in Hsome as [[key tid] [Hin Hbad]].
    apply list_elem_of_In, elem_of_map_to_list in Hin. cbn in Hbad.
    destruct (store !! tid) as [tab|] eqn:Htab; [|discriminate Hbad].
    unfold PersistentTabletInfo.is_running in Hbad.
    rewrite (bool_decide_eq_true_2 _ (Hall key tid tab Hin Htab)) in Hbad.
    discriminate Hbad.
Qed.

(** C7. For a table that exists, is not deleted and is running,
    IsCreateTableDone returns OK with done = true exactly when every tablet
    of the table's tablet map has the committed state RUNNING. *)
Theorem IsCreateTableDone_all_running `{Externals} req cm table :
  CheckOnline cm = OK ->
  FindAndLockTable req cm = (OK, Some table) ->
  PersistentTableInfo.is_deleted (TableInfo.metadata_ table) = false ->
  table_is_running (TableInfo.metadata_ table) = true ->
  exists done,
    IsCreateTableDone req cm
    = Returned OK {| is_create_done_error := None; is_create_done := Some done |} [] cm
    /\ (done = true <->
        forall key tid tab,
          TableInfo.tablet_map_ table !! key = Some tid ->
          CatalogManager.tablet_map_ cm !! tid = Some tab ->
          SysTabletsEntryPB.state (TabletInfo.metadata_ tab)
          = SysTabletsEntryPB.RUNNING).
Proof.
  intros Honline Hfind Hlive Hrun.
  exists (negb (TableInfo.IsCreateInProgress (CatalogManager.tablet_map_ cm) table)).
  split.
  - unfold IsCreateTableDone, CheckIfTableDeletedOrNotRunning.
    rewrite Honline, Hfind, Hlive, Hrun. reflexivity.
  - rewrite negb_true_iff. apply IsCreateInProgress_false.
Qed.

Lemma IsCreateTableDone_all_running_witness :
  exists done,
    IsCreateTableDone (by_name "t") (sample_created [])
    = Returned OK {| is_create_done_error := None; is_create_done := Some done |} []
        (sample_created [])
    /\ (done = true <->
        forall key tid tab,
          TableInfo.tablet_map_
            (default
               {| TableInfo.table_id_ := ""; TableInfo.metadata_ :=
                    CreateTableInfo (sample_create None) 0 [] "";
                  TableInfo.tablet_map_ := ∅; TableInfo.schema_version_counts_ := ∅ |}
               (CatalogManager.table_ids_map_ (sample_created []) !! "id")) !! key
          = Some tid ->
          CatalogManager.tablet_map_ (sample_created []) !! tid = Some tab ->
          SysTabletsEntryPB.state (TabletInfo.metadata_ tab)
          = SysTabletsEntryPB.RUNNING).
Proof.
  apply (@IsCreateTableDone_all_running sample_externals (by_name "t") (sample_created [])).
  - vm_compute. reflexivity.
  - vm_compute. reflexivity.
  - vm_compute. reflexivity.
  - vm_compute. reflexivity.
Defined.

(** ** Tablet reports: the consensus state of a report *)

Lemma disregard_leader_config `{Externals} (c : ConsensusStatePB.t) :
  ConsensusStatePB.committed_config (disregard_leader c)
  = ConsensusStatePB.committed_config c
  /\ ConsensusStatePB.current_term (disregard_leader c) = ConsensusStatePB.current_term c
  /\ ConsensusStatePB.pending_config (disregard_leader c)
     = ConsensusStatePB.pending_config c.
Proof. unfold disregard_leader. case_match; auto. Qed.

Lemma retain_leader_config (c prev c' : ConsensusStatePB.t) :
  retain_leader c prev = Some c' ->
  ConsensusStatePB.committed_config c' = ConsensusStatePB.committed_config c
  /\ ConsensusStatePB.current_term c' = ConsensusStatePB.current_term c
  /\ ConsensusStatePB.pending_config c' = ConsensusStatePB.pending_config c.
Proof.
  unfold retain_leader. intros Hret.
  split_cases; simplify_eq; auto.
Qed.

Lemma insert_member_uuids_spec (ps : list RaftPeerPB.t) (acc : gset string) :
  NoDup (RaftPeerPB.permanent_uuid <$> ps) ->
  (forall p, p ∈ ps -> RaftPeerPB.permanent_uuid p ∉ acc) ->
  insert_member_uuids ps acc
  = Some (list_to_set (RaftPeerPB.permanent_uuid <$> ps) ∪ acc).
Proof.
  revert acc. induction ps as [|p ps IH]; intros acc Hnd Hfresh.
  - cbn. f_equal. set_solver.
  - cbn [insert_member_uuids]. rewrite fmap_cons in Hnd.
    apply NoDup_cons in Hnd as [Hp Hnd].
    rewrite bool_decide_eq_false_2 by (apply Hfresh; left).
    rewrite IH.
    + f_equal. cbn. set_solver.
    + exact Hnd.
    + intros q Hq. rewrite elem_of_union, elem_of_singleton.
      intros [Heq | Hacc].
      * apply Hp. rewrite <- Heq. apply list_elem_of_fmap. exists q. auto.
      * apply (Hfresh q); [right; exact Hq | exact Hacc].
Qed.

Lemma tombstone_evicted_spec (table_id tablet_id : string)
    (cstate prev : ConsensusStatePB.t) :
  NoDup (RaftPeerPB.permanent_uuid
         <$> RaftConfigPB.peers (ConsensusStatePB.committed_config cstate)) ->
  tombstone_evicted table_id tablet_id cstate prev
  = Some ((fun p =>
             AsyncDeleteReplica (RaftPeerPB.permanent_uuid p) table_id tablet_id
               tablet.TABLET_DATA_TOMBSTONED
               (Some (RaftConfigPB.opid_index (ConsensusStatePB.committed_config prev))))
          <$> filter (fun p =>
                        RaftPeerPB.permanent_uuid p
                        ∉ RaftPeerPB.permanent_uuid
                          <$> RaftConfigPB.peers (ConsensusStatePB.committed_config cstate))
                (RaftConfigPB.peers (ConsensusStatePB.committed_config prev))).
Proof.
  intros Hnd. unfold tombstone_evicted.
  rewrite insert_member_uuids_spec by (auto; set_solver). cbn.
  f_equal. f_equal. apply list_filter_iff. intros p.
  rewrite union_empty_r_L, elem_of_list_to_set. reflexivity.
Qed.

Lemma config_change_no_delete `{Externals} ts tid updated rf cstate u t i d cas :
  AsyncDeleteReplica u t i d cas ∉ config_change ts tid updated rf cstate.
Proof.
  unfold config_change. split_cases; set_solver.
Qed.

Lemma alter_schema_if_stale_no_delete table tab report u t i d cas :
  AsyncDeleteReplica u t i d cas ∉ alter_schema_if_stale table tab report.
Proof.
  unfold alter_schema_if_stale. split_cases; set_solver.
Qed.

(** The pass for a report that reaches step 7 with a committed opid index,
    when the update is accepted. *)
Lemma ProcessReportedTablet_accepted `{Externals} ts table tab report reported c' :
  skip_reported_tablet ts table tab report = None ->
  ReportedTabletPB.consensus_state report = Some reported ->
  RaftConfigPB.has_opid_index (ConsensusStatePB.committed_config reported) = true ->
  consensus_state_updated (disregard_leader reported)
    (SysTabletsEntryPB.consensus_state (TabletInfo.metadata_ tab)) = true ->
  retain_leader (disregard_leader reported)
    (SysTabletsEntryPB.consensus_state (TabletInfo.metadata_ tab)) = Some c' ->
  NoDup (RaftPeerPB.permanent_uuid
         <$> RaftConfigPB.peers (ConsensusStatePB.committed_config reported)) ->
  ProcessReportedTablet ts table tab report
  = let pb := TabletInfo.metadata_ tab in
    let prev := SysTabletsEntryPB.consensus_state pb in
    let dirty1 :=
      if ShouldTransitionTabletToRunning pb report (disregard_leader reported)
      then PersistentTabletInfo.set_state SysTabletsEntryPB.RUNNING
             "Tablet reported with an active leader" pb
      else pb in
    Some {| entry_dirty :=
              PersistentTabletInfo.set_consensus_state (strip_health_reports c') dirty1;
            entry_rpcs :=
              (if FLAGS_master_tombstone_evicted_tablet_replicas FLAGS
               then (fun p =>
                       AsyncDeleteReplica (RaftPeerPB.permanent_uuid p)
                         (TableInfo.table_id_ table) (TabletInfo.tablet_id_ tab)
                         tablet.TABLET_DATA_TOMBSTONED
                         (Some (RaftConfigPB.opid_index
                                  (ConsensusStatePB.committed_config prev))))
                    <$> filter (fun p =>
                                  RaftPeerPB.permanent_uuid p
                                  ∉ RaftPeerPB.permanent_uuid
                                    <$> RaftConfigPB.peers
                                          (ConsensusStatePB.committed_config reported))
                          (RaftConfigPB.peers (ConsensusStatePB.committed_config prev))
               else [])
              ++ config_change ts (TabletInfo.tablet_id_ tab) true
                   (SysTablesEntryPB.num_replicas (TableInfo.metadata_ table)) c'
              ++ alter_schema_if_stale table tab report;
            entry_mutated := true;
            entry_state_msg := None |}.
Proof.
  intros Hskip Hcs Hopid Hupd Hret Hnd.
  unfold ProcessReportedTablet. rewrite Hskip, Hcs, Hopid. cbn [negb].
  unfold process_consensus_state. rewrite Hupd, Hret.
  destruct (retain_leader_config _ _ _ Hret) as [Hcfg _].
  destruct (disregard_leader_config reported) as [Hcfg' _].
  destruct (FLAGS_master_tombstone_evicted_tablet_replicas FLAGS).
  - rewrite tombstone_evicted_spec by (rewrite Hcfg, Hcfg'; exact Hnd).
    rewrite Hcfg, Hcfg'. reflexivity.
  - reflexivity.
Qed.

(** ** C2 *)

(** C2 as stated fails: the cached config has opid index 1 and peers A, B
    and C, the leader A reports the committed config of opid index 2 with
    peers A and C; the DeleteTablet scheduled for B carries the index 1 of
    the previous config, not the index 2 of the new one. *)
Lemma tombstone_cas_is_not_new_index :
  ~ (forall (E : Externals) ts table tab report reported r p,
       FLAGS_master_tombstone_evicted_tablet_replicas FLAGS = true ->
       ReportedTabletPB.consensus_state report = Some reported ->
       ProcessReportedTablet ts table tab report = Some r ->
       SysTabletsEntryPB.consensus_state_field (entry_dirty r)
       = Some (strip_health_reports reported) ->
       p ∈ RaftConfigPB.peers
             (ConsensusStatePB.committed_config
                (SysTabletsEntryPB.consensus_state (TabletInfo.metadata_ tab))) ->
       RaftPeerPB.permanent_uuid p
       ∉ RaftPeerPB.permanent_uuid
         <$> RaftConfigPB.peers (ConsensusStatePB.committed_config reported) ->
       AsyncDeleteReplica (RaftPeerPB.permanent_uuid p) (TableInfo.table_id_ table)
         (TabletInfo.tablet_id_ tab) tablet.TABLET_DATA_TOMBSTONED
         (Some (RaftConfigPB.opid_index (ConsensusStatePB.committed_config reported)))
       ∈ entry_rpcs r).
Proof.
  intros Hclaim.
  pose (prev := sample_cstate 1 "A" 1 (sample_voters ["A"; "B"; "C"])).
  pose (new := sample_cstate 1 "A" 2 (sample_voters ["A"; "C"])).
  specialize (Hclaim sample_externals "A"
                (sample_table SysTablesEntryPB.RUNNING 0 None)
                (sample_tablet SysTabletsEntryPB.RUNNING (Some prev))
                (sample_report (Some new) None) new _
                (sample_peer RaftPeerPB.VOTER "B") eq_refl eq_refl eq_refl eq_refl).
  apply list_elem_of_In in Hclaim;
    [vm_compute in Hclaim; intuition discriminate | list_member | list_non_member].
Qed.

(** C2 (amended). When a report reaches step 7 with a committed opid index
    and its consensus state is accepted, then for every peer of the old
    committed config that is absent from the new one the DeleteTablet
    (TOMBSTONED) scheduled carries as CAS opid index the index of the old
    (previously cached) committed config, and no tombstoning DeleteTablet of
    the pass carries another. *)
Theorem ProcessReportedTablet_tombstone_cas `{Externals} ts table tab report reported :
  FLAGS_master_tombstone_evicted_tablet_replicas FLAGS = true ->
  skip_reported_tablet ts table tab report = None ->
  ReportedTabletPB.consensus_state report = Some reported ->
  RaftConfigPB.has_opid_index (ConsensusStatePB.committed_config reported) = true ->
  NoDup (RaftPeerPB.permanent_uuid
         <$> RaftConfigPB.peers (ConsensusStatePB.committed_config reported)) ->
  let prev := SysTabletsEntryPB.consensus_state (TabletInfo.metadata_ tab) in
  let old_index := RaftConfigPB.opid_index (ConsensusStatePB.committed_config prev) in
  consensus_state_updated (disregard_leader reported) prev = true ->
  is_Some (retain_leader (disregard_leader reported) prev) ->
  exists r,
    ProcessReportedTablet ts table tab report = Some r
    /\ (forall p,
          p ∈ RaftConfigPB.peers (ConsensusStatePB.committed_config prev) ->
          RaftPeerPB.permanent_uuid p
          ∉ RaftPeerPB.permanent_uuid
            <$> RaftConfigPB.peers (ConsensusStatePB.committed_config reported) ->
          AsyncDeleteReplica (RaftPeerPB.permanent_uuid p) (TableInfo.table_id_ table)
            (TabletInfo.tablet_id_ tab) tablet.TABLET_DATA_TOMBSTONED (Some old_index)
          ∈ entry_rpcs r)
    /\ (forall u t i cas,
          AsyncDeleteReplica u t i tablet.TABLET_DATA_TOMBSTONED cas ∈ entry_rpcs r ->
          cas = Some old_index).
Proof.
  intros Hflag Hskip Hcs Hopid Hnd prev old_index Hupd [c' Hret].
  eexists. split.
  - apply (ProcessReportedTablet_accepted _ _ _ _ _ _ Hskip Hcs Hopid Hupd Hret Hnd).
  - cbn zeta. cbn [entry_rpcs]. rewrite Hflag. split.
    + intros p Hp Hgone. apply elem_of_app. left.
      apply list_elem_of_fmap. exists p. split; [reflexivity|].
      apply list_elem_of_filter. split; assumption.
    + intros u t i cas Hin.
      apply elem_of_app in Hin as [Hin | Hin].
      * apply list_elem_of_fmap in Hin as [p [Heq _]].
        injection Heq as _ _ _ Hcas. exact Hcas.
      * apply elem_of_app in Hin as [Hin | Hin].
        -- exfalso. revert Hin. apply config_change_no_delete.
        -- exfalso. revert Hin. apply alter_schema_if_stale_no_delete.
Qed.

Lemma ProcessReportedTablet_tombstone_cas_witness :
  exists r,
    ProcessReportedTablet "A" (sample_table SysTablesEntryPB.RUNNING 0 None)
      (sample_tablet SysTabletsEntryPB.RUNNING
         (Some (sample_cstate 1 "A" 1 (sample_voters ["A"; "B"; "C"]))))
      (sample_report (Some (sample_cstate 1 "A" 2 (sample_voters ["A"; "C"]))) None)
    = Some r
    /\ AsyncDeleteReplica "B" "id" "#id" tablet.TABLET_DATA_TOMBSTONED (Some 1)
       ∈ entry_rpcs r.
Proof.
  destruct (@ProcessReportedTablet_tombstone_cas sample_externals "A"
              (sample_table SysTablesEntryPB.RUNNING 0 None)
              (sample_tablet SysTabletsEntryPB.RUNNING
                 (Some (sample_cstate 1 "A" 1 (sample_voters ["A"; "B"; "C"]))))
              (sample_report (Some (sample_cstate 1 "A" 2 (sample_voters ["A"; "C"]))) None)
              (sample_cstate 1 "A" 2 (sample_voters ["A"; "C"]))
              eq_refl eq_refl eq_refl eq_refl)
    as [r [Hr [Hevicted _]]].
  - vm_compute. repeat constructor; set_solver.
  - vm_compute. reflexivity.
  - vm_compute. eexists. reflexivity.
  - exists r. split; [exact Hr|].
    apply (Hevicted (sample_peer RaftPeerPB.VOTER "B")).
    + list_member.
    + list_non_member.
Defined.

(** ** C3 *)

Lemma consensus_state_updated_iff (c prev : ConsensusStatePB.t) :
  consensus_state_updated c prev = true <->
  RaftConfigPB.opid_index (ConsensusStatePB.committed_config c)
  > RaftConfigPB.opid_index (ConsensusStatePB.committed_config prev)
  \/ (ConsensusStatePB.leader_uuid c <> ""
      /\ (ConsensusStatePB.leader_uuid prev = ""
          \/ ConsensusStatePB.current_term c > ConsensusStatePB.current_term prev)).
Proof.
  unfold consensus_state_updated.
  rewrite orb_true_iff, andb_true_iff, orb_true_iff, negb_true_iff,
    bool_decide_eq_false, !bool_decide_eq_true.
  reflexivity.
Qed.

Lemma retain_leader_None_iff (c prev : ConsensusStatePB.t) :
  retain_leader c prev = None <->
  ConsensusStatePB.current_term c = ConsensusStatePB.current_term prev
  /\ ConsensusStatePB.leader_uuid c <> ""
  /\ ConsensusStatePB.leader_uuid prev <> ""
  /\ ConsensusStatePB.leader_uuid c <> ConsensusStatePB.leader_uuid prev.
Proof.
  unfold retain_leader.
  repeat case_bool_decide; cbn; split; intros Hx; try discriminate Hx; tauto.
Qed.

Lemma process_consensus_state_rejected `{Externals} ts table tab report reported :
  consensus_state_updated (disregard_leader reported)
    (SysTabletsEntryPB.consensus_state (TabletInfo.metadata_ tab)) = false
  \/ retain_leader (disregard_leader reported)
       (SysTabletsEntryPB.consensus_state (TabletInfo.metadata_ tab)) = None ->
  exists dirty mutated after,
    process_consensus_state ts table tab report reported
    = Some (dirty, mutated, [], after)
    /\ SysTabletsEntryPB.consensus_state_field dirty
       = SysTabletsEntryPB.consensus_state_field (TabletInfo.metadata_ tab).
Proof.
  intros Hrej. unfold process_consensus_state.
  destruct (consensus_state_updated _ _) eqn:Hupd.
  - destruct Hrej as [Hrej | Hrej]; [discriminate Hrej|]. rewrite Hrej.
    eexists _, _, _. split; [reflexivity|]. destruct (ShouldTransitionTabletToRunning _ _ _);
      reflexivity.
  - eexists _, _, _. split; [reflexivity|]. destruct (ShouldTransitionTabletToRunning _ _ _);
      reflexivity.
Qed.

(** C3 as stated fails: the cached state has term 1, leader A and opid
    index 1; a report of term 2 that names no leader and has the same opid
    index is not accepted, though its term increased. *)
Lemma term_increase_alone_not_accepted :
  ~ (forall (E : Externals) ts table tab report reported r,
       skip_reported_tablet ts table tab report = None ->
       ReportedTabletPB.consensus_state report = Some reported ->
       RaftConfigPB.has_opid_index (ConsensusStatePB.committed_config reported) = true ->
       ProcessReportedTablet ts table tab report = Some r ->
       ConsensusStatePB.current_term reported
       > ConsensusStatePB.current_term
           (SysTabletsEntryPB.consensus_state (TabletInfo.metadata_ tab)) ->
       SysTabletsEntryPB.consensus_state_field (entry_dirty r)
       = Some (strip_health_reports reported)).
Proof.
  intros Hclaim.
  pose (prev := sample_cstate 1 "A" 1 (sample_voters ["A"; "B"; "C"])).
  pose (new := sample_cstate 2 "" 1 (sample_voters ["A"; "B"; "C"])).
  specialize (Hclaim sample_externals "B"
                (sample_table SysTablesEntryPB.RUNNING 0 None)
                (sample_tablet SysTabletsEntryPB.RUNNING (Some prev))
                (sample_report (Some new) None) new _
                eq_refl eq_refl eq_refl eq_refl ltac:(vm_compute; reflexivity)).
  vm_compute in Hclaim. discriminate Hclaim.
Qed.

(** C3 (amended). For a report that reaches step 7 with a committed opid
    index, the new consensus state (its leader disregarded when it is no
    member of the reported config) is accepted as the cached state if and
    only if the committed opid index advanced, or the new state names a
    leader and either the previous state named none or the term increased,
    and the two states do not name different leaders for one term. A term
    increase of a report that names no leader does not count. When it is
    not accepted, the cached consensus state stays as it was. *)
Theorem ProcessReportedTablet_acceptance `{Externals} ts table tab report reported :
  skip_reported_tablet ts table tab report = None ->
  ReportedTabletPB.consensus_state report = Some reported ->
  RaftConfigPB.has_opid_index (ConsensusStatePB.committed_config reported) = true ->
  NoDup (RaftPeerPB.permanent_uuid
         <$> RaftConfigPB.peers (ConsensusStatePB.committed_config reported)) ->
  let prev := SysTabletsEntryPB.consensus_state (TabletInfo.metadata_ tab) in
  let cstate := disregard_leader reported in
  let advanced :=
    RaftConfigPB.opid_index (ConsensusStatePB.committed_config cstate)
    > RaftConfigPB.opid_index (ConsensusStatePB.committed_config prev) in
  let new_leader :=
    ConsensusStatePB.leader_uuid cstate <> ""
    /\ (ConsensusStatePB.leader_uuid prev = ""
        \/ ConsensusStatePB.current_term cstate > ConsensusStatePB.current_term prev) in
  let diverged :=
    ConsensusStatePB.current_term cstate = ConsensusStatePB.current_term prev
    /\ ConsensusStatePB.leader_uuid cstate <> ""
    /\ ConsensusStatePB.leader_uuid prev <> ""
    /\ ConsensusStatePB.leader_uuid cstate <> ConsensusStatePB.leader_uuid prev in
  exists r,
    ProcessReportedTablet ts table tab report = Some r
    /\ ((advanced \/ new_leader) /\ ~ diverged ->
        exists c',
          retain_leader cstate prev = Some c'
          /\ ConsensusStatePB.current_term c' = ConsensusStatePB.current_term reported
          /\ ConsensusStatePB.committed_config c'
             = ConsensusStatePB.committed_config reported
          /\ SysTabletsEntryPB.consensus_state_field (entry_dirty r)
             = Some (strip_health_reports c')
          /\ entry_mutated r = true)
    /\ (~ ((advanced \/ new_leader) /\ ~ diverged) ->
        SysTabletsEntryPB.consensus_state_field (entry_dirty r)
        = SysTabletsEntryPB.consensus_state_field (TabletInfo.metadata_ tab)).
Proof.
  intros Hskip Hcs Hopid Hnd prev cstate advanced new_leader diverged.
  pose proof (consensus_state_updated_iff cstate prev) as Hupd_iff.
  pose proof (retain_leader_None_iff cstate prev) as Hret_iff.
  fold advanced new_leader in Hupd_iff. fold diverged in Hret_iff.
  destruct (consensus_state_updated cstate prev) eqn:Hupd;
    [destruct (retain_leader cstate prev) as [c'|] eqn:Hret|].
  - (* accepted *)
    eexists. split;
      [apply (ProcessReportedTablet_accepted _ _ _ _ _ _ Hskip Hcs Hopid Hupd Hret Hnd)|].
    destruct (retain_leader_config _ _ _ Hret) as [Hcfg [Hterm _]].
    destruct (disregard_leader_config reported) as [Hcfg' [Hterm' _]].
    split.
    + intros _. exists c'. split; [reflexivity|].
      split; [rewrite Hterm; exact Hterm'|].
      split; [rewrite Hcfg; exact Hcfg'|].
      split; reflexivity.
    + intros Hnot. exfalso. apply Hnot. split; [apply Hupd_iff; reflexivity|].
      intros Hdiv. apply Hret_iff in Hdiv. discriminate Hdiv.
  - (* abandoned: two leaders for one term *)
    destruct (process_consensus_state_rejected ts table tab report reported
                (or_intror Hret)) as [dirty [mutated [after [Hproc Hsame]]]].
    unfold ProcessReportedTablet. rewrite Hskip, Hcs, Hopid, Hproc. cbn.
    destruct after as [[c updated]|]; eexists; (split; [reflexivity|]); cbn; split;
      try (intros _; exact Hsame);
      intros [_ Hnd']; exfalso; apply Hnd'; apply Hret_iff; reflexivity.
  - (* not updated *)
    destruct (process_consensus_state_rejected ts table tab report reported
                (or_introl Hupd)) as [dirty [mutated [after [Hproc Hsame]]]].
    unfold ProcessReportedTablet. rewrite Hskip, Hcs, Hopid, Hproc. cbn.
    destruct after as [[c updated]|]; eexists; (split; [reflexivity|]); cbn; split;
      try (intros _; exact Hsame);
      intros [Hcond _]; apply Hupd_iff in Hcond; discriminate Hcond.
Qed.

Lemma ProcessReportedTablet_acceptance_witness :
  exists r,
    ProcessReportedTablet "B" (sample_table SysTablesEntryPB.RUNNING 0 None)
      (sample_tablet SysTabletsEntryPB.RUNNING
         (Some (sample_cstate 1 "A" 1 (sample_voters ["A"; "B"; "C"]))))
      (sample_report (Some (sample_cstate 2 "" 1 (sample_voters ["A"; "B"; "C"]))) None)
    = Some r
    /\ SysTabletsEntryPB.consensus_state_field (entry_dirty r)
       = Some (sample_cstate 1 "A" 1 (sample_voters ["A"; "B"; "C"])).
Proof.
  destruct (@ProcessReportedTablet_acceptance sample_externals "B"
              (sample_table SysTablesEntryPB.RUNNING 0 None)
              (sample_tablet SysTabletsEntryPB.RUNNING
                 (Some (sample_cstate 1 "A" 1 (sample_voters ["A"; "B"; "C"]))))
              (sample_report
                 (Some (sample_cstate 2 "" 1 (sample_voters ["A"; "B"; "C"]))) None)
              (sample_cstate 2 "" 1 (sample_voters ["A"; "B"; "C"]))
              eq_refl eq_refl eq_refl)
    as [r [Hr [_ Hkept]]].
  - vm_compute. repeat constructor; list_non_member.
  - exists r. split; [exact Hr|]. apply Hkept.
    intros [[Hadv | [Hleader _]] _].
    + vm_compute in Hadv. discriminate Hadv.
    + apply Hleader. reflexivity.
Defined.

(** ** The leader of a report *)



(** ** C9 *)

Lemma collect_reports_app tablet_map (l1 l2 : list ReportedTabletPB.t) :
  collect_reports tablet_map (l1 ++ l2)
  = foldl (fun reports report =>
             if bool_decide (is_Some (tablet_map !! ReportedTabletPB.tablet_id report))
             then <[ReportedTabletPB.tablet_id report := report]> reports
             else reports) (collect_reports tablet_map l1) l2.
Proof. unfold collect_reports. apply foldl_app. Qed.

(** An entry that a later entry of the same tablet id follows leaves no
    trace in the collected reports. *)
Lemma collect_overwritten (tablet_map : gmap string TabletInfo.t)
    (r : ReportedTabletPB.t) (l2 : list ReportedTabletPB.t)
    (m : gmap string ReportedTabletPB.t) :
  is_Some (tablet_map !! ReportedTabletPB.tablet_id r) ->
  (exists r', r' ∈ l2 /\ ReportedTabletPB.tablet_id r' = ReportedTabletPB.tablet_id r) ->
  let step := fun (reports : gmap string ReportedTabletPB.t) report =>
    if bool_decide (is_Some (tablet_map !! ReportedTabletPB.tablet_id report))
    then <[ReportedTabletPB.tablet_id report := report]> reports
    else reports in
  foldl step (<[ReportedTabletPB.tablet_id r := r]> m) l2 = foldl step m l2.
Proof.
  intros Hknown Hlater step. revert m.
  induction l2 as [|x l2 IH]; intros m.
  - destruct Hlater as [r' [Hin _]]. inversion Hin.
  - cbn [foldl]. unfold step at 2 4.
    destruct (decide (ReportedTabletPB.tablet_id x = ReportedTabletPB.tablet_id r))
      as [Heq | Hne].
    + rewrite Heq. rewrite bool_decide_eq_true_2 by exact Hknown.
      rewrite insert_insert_eq. reflexivity.
    + assert (Hrest : exists r', r' ∈ l2 /\ ReportedTabletPB.tablet_id r'
                                             = ReportedTabletPB.tablet_id r).
      { destruct Hlater as [r' [Hin Hid]].
        apply elem_of_cons in Hin as [-> | Hin]; [congruence|]. exists r'. auto. }
      case_bool_decide.
      * rewrite insert_insert_ne by congruence. apply IH. exact Hrest.
      * apply IH. exact Hrest.
Qed.

Lemma collect_reports_drop_earlier tablet_map l1 r l2 :
  (exists r', r' ∈ l2 /\ ReportedTabletPB.tablet_id r' = ReportedTabletPB.tablet_id r) ->
  collect_reports tablet_map (l1 ++ r :: l2) = collect_reports tablet_map (l1 ++ l2).
Proof.
  intros Hlater. rewrite !collect_reports_app. cbn [foldl].
  case_bool_decide as Hknown; [|reflexivity].
  apply (collect_overwritten tablet_map r l2 _ Hknown Hlater).
Qed.

(** The entry of a known tablet that no entry of the same id follows is the
    one collected for that id. *)
Lemma collect_reports_last tablet_map l1 r l2 :
  is_Some (tablet_map !! ReportedTabletPB.tablet_id r) ->
  (forall r', r' ∈ l2 -> ReportedTabletPB.tablet_id r' <> ReportedTabletPB.tablet_id r) ->
  collect_reports tablet_map (l1 ++ r :: l2) !! ReportedTabletPB.tablet_id r = Some r.
Proof.
  intros Hknown Hlast. rewrite collect_reports_app. cbn [foldl].
  rewrite bool_decide_eq_true_2 by exact Hknown.
  generalize (collect_reports tablet_map l1). intros m.
  assert (Hgen : forall m0 : gmap string ReportedTabletPB.t,
             m0 !! ReportedTabletPB.tablet_id r = Some r ->
             foldl (fun reports report =>
                      if bool_decide
                           (is_Some (tablet_map !! ReportedTabletPB.tablet_id report))
                      then <[ReportedTabletPB.tablet_id report := report]> reports
                      else reports) m0 l2 !! ReportedTabletPB.tablet_id r = Some r).
  { induction l2 as [|x l2 IH]; intros m0 Hm0; [exact Hm0|].
    cbn [foldl]. apply IH.
    - intros r' Hin. apply Hlast. right. exact Hin.
    - case_bool_decide; [|exact Hm0].
      rewrite lookup_insert_ne; [exact Hm0|]. apply Hlast. left. }
  apply Hgen. apply lookup_insert_eq.
Qed.

Lemma apply_state_msgs_ids updates msgs records :
  ReportedTabletUpdatesPB.tablet_id <$> apply_state_msgs updates msgs records
  = ReportedTabletUpdatesPB.tablet_id <$> records.
Proof.
  unfold apply_state_msgs. revert records.
  induction msgs as [|im msgs IH]; intros records; [reflexivity|].
  cbn [foldl]. rewrite IH. destruct (updates !! im.1) as [i|]; [|reflexivity].
  apply list_eq. intros j. rewrite !list_lookup_fmap.
  destruct (decide (i = j)) as [->|Hne].
  - rewrite list_lookup_alter_eq. destruct (records !! j); reflexivity.
  - rewrite list_lookup_alter_ne by exact Hne. reflexivity.
Qed.

Lemma prepare_updates_ids full_report :
  ReportedTabletUpdatesPB.tablet_id <$> prepare_updates full_report
  = ReportedTabletPB.tablet_id <$> full_report.
Proof.
  unfold prepare_updates. rewrite <- list_fmap_compose. reflexivity.
Qed.

Lemma commit_tablets_lookup_ne rs m id :
  id ∉ rs.*1 -> commit_tablets rs m !! id = m !! id.
Proof.
  unfold commit_tablets. revert m. induction rs as [|r rs IH]; intros m Hid; [done|].
  cbn [foldl]. rewrite IH by set_solver. apply lookup_alter_ne. set_solver.
Qed.

Lemma commit_tablets_lookup_eq rs m id pb tab :
  NoDup rs.*1 -> (id, pb) ∈ rs -> m !! id = Some tab ->
  commit_tablets rs m !! id = Some (TabletInfo.set_metadata pb tab).
Proof.
  unfold commit_tablets. revert m. induction rs as [|r rs IH]; intros m Hnd Hin Hm.
  { inversion Hin. }
  rewrite fmap_cons in Hnd. apply NoDup_cons in Hnd as [Hr Hnd]. cbn [foldl].
  apply elem_of_cons in Hin as [<-|Hin].
  - cbn. fold (commit_tablets rs (alter (TabletInfo.set_metadata pb) id m)).
    rewrite commit_tablets_lookup_ne by done.
    rewrite lookup_alter_eq, Hm. done.
  - apply IH; [done|done|]. rewrite lookup_alter_ne; [done|].
    intros Heq. apply Hr. rewrite Heq. apply list_elem_of_fmap. exists (id, pb). done.
Qed.

Lemma process_reports_None (l : list (string * ReportedTabletPB.t))
    (f : option ReportPass -> string * ReportedTabletPB.t -> option ReportPass) :
  (forall acc e, f acc e = acc ≫= fun pass => f (Some pass) e) ->
  foldl f (None : option ReportPass) l = None.
Proof.
  intros Hf. induction l as [|e l IH]; [reflexivity|].
  cbn [foldl]. rewrite Hf. cbn. exact IH.
Qed.

(** One pass of step 3 over the collected reports [l]: every entry of a
    known tablet is processed, and what its pass leaves is in what the loop
    gathers. *)
Lemma process_reports_entries `{Externals} ts cm (l : list (string * ReportedTabletPB.t))
    (p pass : ReportPass) :
  let step := fun acc (e : string * ReportedTabletPB.t) =>
    acc ≫= fun pass =>
      match CatalogManager.tablet_map_ cm !! e.1
            ≫= fun tab =>
              CatalogManager.table_ids_map_ cm !! TabletInfo.table_ tab
              ≫= fun table => Some (tab, table) with
      | None => Some pass
      | Some (tab, table) =>
          ProcessReportedTablet ts table tab e.2
          ≫= fun r =>
            Some {| pass_dirty := pass_dirty pass ++ [(e.1, entry_dirty r)];
                    pass_rpcs := pass_rpcs pass ++ entry_rpcs r;
                    pass_mutated :=
                      pass_mutated pass
                      ++ (if entry_mutated r then [(e.1, entry_dirty r)] else []);
                    pass_msgs :=
                      pass_msgs pass
                      ++ (match entry_state_msg r with
                          | Some m => [(e.1, m)]
                          | None => []
                          end) |}
      end in
  foldl step (Some p) l = Some pass ->
  (forall x, x ∈ pass_dirty p -> x ∈ pass_dirty pass)
  /\ (forall t, t ∈ pass_rpcs p -> t ∈ pass_rpcs pass)
  /\ (exists ks, (pass_dirty pass).*1 = (pass_dirty p).*1 ++ ks /\ sublist ks l.*1)
  /\ (forall id r tab table,
        (id, r) ∈ l ->
        CatalogManager.tablet_map_ cm !! id = Some tab ->
        CatalogManager.table_ids_map_ cm !! TabletInfo.table_ tab = Some table ->
        exists er,
          ProcessReportedTablet ts table tab r = Some er
          /\ (id, entry_dirty er) ∈ pass_dirty pass
          /\ (forall t, t ∈ entry_rpcs er -> t ∈ pass_rpcs pass)).
Proof.
  intros step. revert p. induction l as [|e l IH]; intros p Hfold.
  { cbn in Hfold. injection Hfold as <-. split; [auto|]. split; [auto|].
    split; [exists []; rewrite app_nil_r; split; [reflexivity | constructor]|].
    intros id r tab table Hin. inversion Hin. }
  cbn [foldl] in Hfold.
  destruct (step (Some p) e) as [p1|] eqn:Hstep.
  2:{ rewrite (process_reports_None l step) in Hfold; [discriminate Hfold|].
      intros [acc|] e0; reflexivity. }
  destruct (IH p1 Hfold) as (Hd1 & Hr1 & Hk1 & Hall1).
  unfold step in Hstep. cbn [mbind option_bind] in Hstep.
  destruct (CatalogManager.tablet_map_ cm !! e.1) as [tab0|] eqn:Htab0.
  2:{ cbn in Hstep. injection Hstep as <-.
      split; [exact Hd1|]. split; [exact Hr1|].
      split. { destruct Hk1 as (ks & Hks & Hsub). exists ks. split; [exact Hks|].
               cbn [fmap list_fmap]. apply sublist_cons. exact Hsub. }
      intros id r tab table Hin Htab Htable.
      apply elem_of_cons in Hin as [<- | Hin]; [cbn in Htab0; congruence|]. eauto. }
  cbn in Hstep.
  destruct (CatalogManager.table_ids_map_ cm !! TabletInfo.table_ tab0) as [table0|]
    eqn:Htable0.
  2:{ cbn in Hstep. injection Hstep as <-.
      split; [exact Hd1|]. split; [exact Hr1|].
      split. { destruct Hk1 as (ks & Hks & Hsub). exists ks. split; [exact Hks|].
               cbn [fmap list_fmap]. apply sublist_cons. exact Hsub. }
      intros id r tab table Hin Htab Htable.
      apply elem_of_cons in Hin as [<- | Hin]; [cbn in Htab0; congruence|]. eauto. }
  cbn in Hstep.
  destruct (ProcessReportedTablet ts table0 tab0 e.2) as [er|] eqn:Her;
    [|discriminate Hstep].
  cbn in Hstep. injection Hstep as <-. cbn in Hd1, Hr1, Hk1.
  split. { intros x Hx. apply Hd1. set_solver. }
  split. { intros t Ht. apply Hr1. set_solver. }
  split. { destruct Hk1 as (ks & Hks & Hsub). exists (e.1 :: ks).
           rewrite Hks, fmap_app, <- app_assoc. split; [reflexivity|].
           cbn [fmap list_fmap]. apply sublist_skip. exact Hsub. }
  intros id r tab table Hin Htab Htable.
  apply elem_of_cons in Hin as [<- | Hin]; [|eauto].
  cbn in Htab0, Htable0, Her. rewrite Htab in Htab0. injection Htab0 as <-.
  rewrite Htable in Htable0. injection Htable0 as <-.
  exists er. split; [exact Her|]. split; [apply Hd1; set_solver|].
  intros t Ht. apply Hr1. set_solver.
Qed.

Lemma process_reports_processes `{Externals} ts cm reports pass id r tab table :
  process_reports ts cm reports = Some pass ->
  reports !! id = Some r ->
  CatalogManager.tablet_map_ cm !! id = Some tab ->
  CatalogManager.table_ids_map_ cm !! TabletInfo.table_ tab = Some table ->
  NoDup (pass_dirty pass).*1
  /\ exists er,
       ProcessReportedTablet ts table tab r = Some er
       /\ (id, entry_dirty er) ∈ pass_dirty pass
       /\ (forall t, t ∈ entry_rpcs er -> t ∈ pass_rpcs pass).
Proof.
  unfold process_reports. intros Hpass Hr Htab Htable.
  apply process_reports_entries in Hpass as (_ & _ & (ks & Hks & Hsub) & Hall).
  split.
  - rewrite Hks. cbn. eapply sublist_NoDup; [|exact Hsub].
    apply NoDup_fst_map_to_list.
  - apply (Hall id r tab table); [|exact Htab | exact Htable].
    apply elem_of_map_to_list. exact Hr.
Qed.

Lemma set_reported_schema_version_metadata tablet_id version cm id :
  TabletInfo.metadata_
  <$> CatalogManager.tablet_map_ (set_reported_schema_version tablet_id version cm) !! id
  = TabletInfo.metadata_ <$> CatalogManager.tablet_map_ cm !! id.
Proof.
  unfold set_reported_schema_version.
  destruct (CatalogManager.tablet_map_ cm !! tablet_id) as [tab|] eqn:Htab; [|reflexivity].
  destruct (bool_decide _); [reflexivity|].
  destruct (CatalogManager.table_ids_map_ cm !! TabletInfo.table_ tab); [|reflexivity].
  destruct (negb _); [reflexivity|]. cbn.
  destruct (decide (tablet_id = id)) as [<- | Hne].
  - rewrite lookup_insert_eq, Htab. reflexivity.
  - rewrite lookup_insert_ne by exact Hne. reflexivity.
Qed.

Lemma HandleTabletSchemaVersionReport_metadata `{Externals} tablet_id version cm id :
  TabletInfo.metadata_
  <$> CatalogManager.tablet_map_ (HandleTabletSchemaVersionReport tablet_id version cm) !! id
  = TabletInfo.metadata_ <$> CatalogManager.tablet_map_ cm !! id.
Proof.
  unfold HandleTabletSchemaVersionReport.
  pose proof (set_reported_schema_version_metadata tablet_id version cm id) as Hset.
  destruct (_ ≫= _) as [table|]; [|exact Hset].
  destruct (_ || _); [exact Hset|].
  destruct (TableInfo.IsAlterInProgress _ _); [exact Hset|].
  destruct (SysCatalogTable.Write _ _) as [s0 sc0].
  destruct (negb (ok s0)); exact Hset.
Qed.

Lemma handle_schema_versions_metadata `{Externals} reports cm id :
  TabletInfo.metadata_
  <$> CatalogManager.tablet_map_ (handle_schema_versions reports cm) !! id
  = TabletInfo.metadata_ <$> CatalogManager.tablet_map_ cm !! id.
Proof.
  unfold handle_schema_versions. generalize (map_to_list reports). intros l.
  revert cm. induction l as [|e l IH]; intros cm; [reflexivity|].
  cbn [foldl]. rewrite IH.
  destruct (ReportedTabletPB.schema_version e.2); [|reflexivity].
  apply HandleTabletSchemaVersionReport_metadata.
Qed.

(** C9. Of the entries of a tablet report that name one known tablet, the
    last is the one processed: the handler dies when the pass over that
    entry dies, and when it returns OK the tasks of that pass are among the
    tasks started and the record that pass left is the committed record of
    the tablet. An earlier entry of the same tablet id has no effect: the
    status, the tasks and the catalog are those of the report without it.
    Every entry of the report, also an earlier one, has its update record in
    the response. *)
Theorem ProcessTabletReport_last_duplicate_wins `{Externals} ts l1 r l2 cm tab table :
  CatalogManager.tablet_map_ cm !! ReportedTabletPB.tablet_id r = Some tab ->
  CatalogManager.table_ids_map_ cm !! TabletInfo.table_ tab = Some table ->
  (forall r', r' ∈ l2 -> ReportedTabletPB.tablet_id r' <> ReportedTabletPB.tablet_id r) ->
  (ProcessReportedTablet ts table tab r = None ->
   ProcessTabletReport ts (l1 ++ r :: l2) cm = Crashed)
  /\ (forall s resp rpcs cm',
        ProcessTabletReport ts (l1 ++ r :: l2) cm = Returned s resp rpcs cm' ->
        exists er,
          ProcessReportedTablet ts table tab r = Some er
          /\ (s = OK ->
              (forall t, t ∈ entry_rpcs er -> t ∈ rpcs)
              /\ exists tab',
                   CatalogManager.tablet_map_ cm' !! ReportedTabletPB.tablet_id r = Some tab'
                   /\ TabletInfo.metadata_ tab' = entry_dirty er)
          /\ ReportedTabletUpdatesPB.tablet_id <$> resp
             = ReportedTabletPB.tablet_id <$> (l1 ++ r :: l2))
  /\ (forall l0 r0 l1',
        l1 = l0 ++ r0 :: l1' ->
        ReportedTabletPB.tablet_id r0 = ReportedTabletPB.tablet_id r ->
        outcome_effects (ProcessTabletReport ts (l1 ++ r :: l2) cm)
        = outcome_effects (ProcessTabletReport ts (l0 ++ l1' ++ r :: l2) cm)).
Proof.
  intros Htab Htable Hlast.
  pose proof (collect_reports_last (CatalogManager.tablet_map_ cm) l1 r l2
                ltac:(eauto) Hlast) as Hkept.
  assert (Hpass : forall pass,
            process_reports ts cm
              (collect_reports (CatalogManager.tablet_map_ cm) (l1 ++ r :: l2)) = Some pass ->
            NoDup (pass_dirty pass).*1
            /\ exists er,
                 ProcessReportedTablet ts table tab r = Some er
                 /\ (ReportedTabletPB.tablet_id r, entry_dirty er) ∈ pass_dirty pass
                 /\ (forall t, t ∈ entry_rpcs er -> t ∈ pass_rpcs pass)).
  { intros pass Hp.
    exact (process_reports_processes _ _ _ _ _ _ _ _ Hp Hkept Htab Htable). }
  split; [|split].
  - intros Hdies. unfold ProcessTabletReport.
    destruct (process_reports ts cm _) as [pass|]; [|reflexivity].
    destruct (Hpass pass eq_refl) as (_ & er & Her & _). congruence.
  - unfold ProcessTabletReport. intros s resp rpcs cm' Hret.
    destruct (process_reports ts cm _) as [pass|]; [|discriminate Hret].
    destruct (Hpass pass eq_refl) as (Hnodup & er & Her & Hdirty & Hrpcs).
    exists er. split; [exact Her|].
    destruct (SysCatalogTable.Write _ _) as [s0 sc0].
    destruct (negb (ok s0)) eqn:Hs0.
    + injection Hret as <- <- _ _. split.
      * intros ->. vm_compute in Hs0. discriminate Hs0.
      * rewrite apply_state_msgs_ids. apply prepare_updates_ids.
    + injection Hret as <- <- <- <-. split.
      * intros _. split; [exact Hrpcs|].
        pose proof (handle_schema_versions_metadata
                      (collect_reports (CatalogManager.tablet_map_ cm) (l1 ++ r :: l2))
                      (CatalogManager.set_maps
                         (CatalogManager.table_ids_map_ (CatalogManager.set_sys_catalog sc0 cm))
                         (CatalogManager.table_names_map_
                            (CatalogManager.set_sys_catalog sc0 cm))
                         (commit_tablets (pass_dirty pass)
                            (CatalogManager.tablet_map_
                               (CatalogManager.set_sys_catalog sc0 cm)))
                         (CatalogManager.set_sys_catalog sc0 cm))
                      (ReportedTabletPB.tablet_id r)) as Hmeta.
        cbn [CatalogManager.set_maps CatalogManager.tablet_map_
             CatalogManager.set_sys_catalog] in Hmeta.
        rewrite (commit_tablets_lookup_eq _ _ _ _ _ Hnodup Hdirty Htab) in Hmeta.
        destruct (CatalogManager.tablet_map_ (handle_schema_versions _ _)
                  !! ReportedTabletPB.tablet_id r) as [tab'|];
          [|discriminate Hmeta].
        injection Hmeta as Hmeta. exists tab'. split; [reflexivity | exact Hmeta].
      * rewrite apply_state_msgs_ids. apply prepare_updates_ids.
  - clear Hpass Hkept. intros l0 r0 l1' -> Hsame. unfold ProcessTabletReport.
    rewrite <- (app_assoc l0 (r0 :: l1') (r :: l2)). cbn [app].
    rewrite (collect_reports_drop_earlier _ l0 r0 (l1' ++ r :: l2)).
    2:{ exists r. split; [|auto]. apply elem_of_app. right. left. }
    destruct (process_reports ts cm _) as [pass|]; [|reflexivity].
    destruct (SysCatalogTable.Write _ _) as [s sc].
    destruct (ok s); reflexivity.
Qed.

Lemma ProcessTabletReport_last_duplicate_wins_witness :
  exists s resp cm',
    ProcessTabletReport "A" ([sample_report None None] ++ sample_report None (Some 7) :: [])
      (sample_running [])
    = Returned s resp [AsyncAlterTable "#id"] cm'
    /\ ReportedTabletUpdatesPB.tablet_id <$> resp = ["#id"; "#id"]
    /\ outcome_effects
         (ProcessTabletReport "A"
            ([sample_report None None] ++ sample_report None (Some 7) :: [])
            (sample_running []))
       = outcome_effects
           (ProcessTabletReport "A" ([] ++ [] ++ sample_report None (Some 7) :: [])
              (sample_running [])).
Proof.
  destruct (@ProcessTabletReport_last_duplicate_wins sample_externals "A"
              [sample_report None None] (sample_report None (Some 7)) [] (sample_running [])
              (sample_tablet SysTabletsEntryPB.RUNNING
                 (Some (sample_cstate 1 "A" 1 (sample_voters ["A"; "B"; "C"]))))
              (sample_table SysTablesEntryPB.RUNNING 0 None))
    as (_ & Hprocessed & Hearlier).
  - vm_compute. reflexivity.
  - vm_compute. reflexivity.
  - intros r' Hr'. inversion Hr'.
  - destruct (ProcessTabletReport "A"
                ([sample_report None None] ++ sample_report None (Some 7) :: [])
                (sample_running [])) as [s resp rpcs cm'|] eqn:Hrun;
      [|vm_compute in Hrun; discriminate Hrun].
    destruct (Hprocessed s resp rpcs cm' eq_refl) as (er & _ & _ & Hresp).
    exists s, resp, cm'. split.
    + vm_compute in Hrun. injection Hrun as _ _ <- _. reflexivity.
    + split; [exact Hresp|].
      apply (Hearlier [] (sample_report None None) []); reflexivity.
Defined.

(** ** Maps filled by a loop *)

Section fold_insert.
Context {K : Type} `{Countable K} {A V : Type} (key : A -> K) (val : A -> V).

Lemma foldl_insert_lookup_ne (l : list A) (m : gmap K V) (k : K) :
  (forall x, x ∈ l -> key x <> k) ->
  foldl (fun acc x => <[key x := val x]> acc) m l !! k = m !! k.
Proof.
  revert m. induction l as [|x l IH]; intros m Hne; [reflexivity|].
  cbn [foldl]. rewrite IH by (intros y Hy; apply Hne; right; exact Hy).
  apply lookup_insert_ne. apply Hne. left.
Qed.

Lemma foldl_insert_lookup (l : list A) (m : gmap K V) (x : A) :
  NoDup (key <$> l) -> x ∈ l ->
  foldl (fun acc x => <[key x := val x]> acc) m l !! key x = Some (val x).
Proof.
  revert m. induction l as [|y l IH]; intros m Hnd Hin; [inversion Hin|].
  rewrite fmap_cons in Hnd. apply NoDup_cons in Hnd as [Hy Hnd].
  cbn [foldl]. apply elem_of_cons in Hin as [-> | Hin].
  - rewrite foldl_insert_lookup_ne; [apply lookup_insert_eq|].
    intros z Hz Heq. apply Hy. rewrite <- Heq. apply list_elem_of_fmap. eauto.
  - apply IH; assumption.
Qed.

Lemma foldl_insert_lookup_inv (l : list A) (m : gmap K V) (k : K) (v : V) :
  foldl (fun acc x => <[key x := val x]> acc) m l !! k = Some v ->
  m !! k = Some v \/ exists x, x ∈ l /\ key x = k /\ val x = v.
Proof.
  revert m. induction l as [|y l IH]; intros m Hl; [left; exact Hl|].
  cbn [foldl] in Hl. apply IH in Hl as [Hl | [x [Hx [Hk Hv]]]].
  - destruct (decide (key y = k)) as [Heq | Hne].
    + rewrite Heq, lookup_insert_eq in Hl. right. exists y.
      split; [left|]. split; congruence.
    + rewrite lookup_insert_ne in Hl by exact Hne. left. exact Hl.
  - right. exists x. split; [right; exact Hx|]. auto.
Qed.
End fold_insert.

Lemma foldl_InsertOrDie_None {A V : Type} (key : A -> string) (val : A -> V) (l : list A) :
  foldl (fun acc x => InsertOrDie (key x) (val x) acc) None l = None.
Proof. induction l as [|x l IH]; [reflexivity | exact IH]. Qed.

(** [InsertOrDie] over a list survives exactly on keys that are new and
    distinct, and then it is the plain insertion. *)
Lemma foldl_InsertOrDie_Some {A V : Type} (key : A -> string) (val : A -> V)
    (l : list A) (m tm : gmap string V) :
  foldl (fun acc x => InsertOrDie (key x) (val x) acc) (Some m) l = Some tm <->
  NoDup (key <$> l) /\ (forall x, x ∈ l -> m !! key x = None)
  /\ tm = foldl (fun acc x => <[key x := val x]> acc) m l.
Proof.
  revert m. induction l as [|x l IH]; intros m.
  - cbn. split.
    + intros [= ->]. split; [constructor|]. split; [intros x Hx; inversion Hx|reflexivity].
    + intros [_ [_ ->]]. reflexivity.
  - cbn [foldl]. unfold InsertOrDie at 2. cbn [mbind option_bind].
    destruct (m !! key x) as [v|] eqn:Hx.
    + rewrite foldl_InsertOrDie_None. split; [discriminate|].
      intros [_ [Hfresh _]]. specialize (Hfresh x ltac:(left)). congruence.
    + rewrite IH. rewrite fmap_cons, NoDup_cons. split.
      * intros [Hnd [Hfresh ->]]. split; [split; [|exact Hnd]|split; [|reflexivity]].
        -- intros Hin. apply list_elem_of_fmap in Hin as [y [Hk Hy]].
           specialize (Hfresh y Hy). rewrite <- Hk, lookup_insert_eq in Hfresh.
           discriminate Hfresh.
        -- intros y Hy. apply elem_of_cons in Hy as [-> | Hy]; [exact Hx|].
           specialize (Hfresh y Hy).
           destruct (decide (key x = key y)) as [Heq | Hne].
           ++ rewrite Heq, lookup_insert_eq in Hfresh. discriminate Hfresh.
           ++ rewrite lookup_insert_ne in Hfresh by exact Hne. exact Hfresh.
      * intros [[Hnew Hnd] [Hfresh ->]]. split; [exact Hnd|]. split; [|reflexivity].
        intros y Hy. rewrite lookup_insert_ne.
        -- apply Hfresh. right. exact Hy.
        -- intros Heq. apply Hnew. rewrite Heq. apply list_elem_of_fmap. eauto.
Qed.

Lemma publish_tablets_Some (ts : list TabletInfo.t) (m tm : gmap string TabletInfo.t) :
  publish_tablets ts m = Some tm <->
  NoDup (TabletInfo.tablet_id_ <$> ts)
  /\ (forall t, t ∈ ts -> m !! TabletInfo.tablet_id_ t = None)
  /\ tm = with_tablets ts m.
Proof.
  unfold publish_tablets, with_tablets.
  apply (foldl_InsertOrDie_Some TabletInfo.tablet_id_ (fun t => t)).
Qed.

(** ** C10 *)

Lemma add_tablets_map store (ts : list TabletInfo.t) (m : gmap string string)
    (c : gmap Z nat) :
  (foldl (fun acc tab => TableInfo.add_tablet store tab acc) (m, c) ts).1
  = foldl (fun acc tab =>
             <[partition_key_start
                 (SysTabletsEntryPB.partition (TabletInfo.metadata_ tab))
               := TabletInfo.tablet_id_ tab]> acc) m ts.
Proof.
  revert m c. induction ts as [|t ts IH]; intros m c; [reflexivity|].
  cbn [foldl]. unfold TableInfo.add_tablet at 2. apply IH.
Qed.

Lemma AddRemoveTablets_add_only store ts table :
  exists counts,
    TableInfo.AddRemoveTablets store ts [] table
    = Some (TableInfo.set_tablets
              (foldl (fun acc tab =>
                        <[partition_key_start
                            (SysTabletsEntryPB.partition (TabletInfo.metadata_ tab))
                          := TabletInfo.tablet_id_ tab]> acc)
                 (TableInfo.tablet_map_ table) ts) counts table).
Proof.
  unfold TableInfo.AddRemoveTablets. cbn [foldl mbind option_bind].
  pose proof (add_tablets_map store ts (TableInfo.tablet_map_ table)
                (TableInfo.schema_version_counts_ table)) as Hmap.
  destruct (foldl _ _ ts) as [m c]. cbn in Hmap. subst m.
  exists c. reflexivity.
Qed.

Lemma CreateTable_check_replication_status `{Externals} n parts live c s :
  CreateTable_check_replication n parts live = Some (c, s) -> s = InvalidArgument.
Proof.
  unfold CreateTable_check_replication. split_cases; intros Heq; congruence.
Qed.

Lemma CreateTable_prepare_refuses `{Externals} req live cm s resp rpcs cm' :
  CreateTable_prepare req live cm = inl (Returned s resp rpcs cm') ->
  s <> OK /\ rpcs = [] /\ cm' = cm.
Proof.
  unfold CreateTable_prepare, ok.
  destruct (PrepareCreateTable req) as [[s0 e] [[schema ps] parts]].
  unfold GenerateId.
  destruct (CreateTabletInfos _ _ _) as [tablets cm3].
  split_cases; intros Heq; simplify_eq; split; auto;
    try discriminate;
    match goal with
    | Hb : negb (bool_decide _) = true |- _ =>
        apply negb_true_iff, bool_decide_eq_false in Hb; exact Hb
    | Hc : CreateTable_check_replication _ _ _ = Some _ |- _ =>
        apply CreateTable_check_replication_status in Hc; subst; discriminate
    end.
Qed.

Lemma CreateTable_prepare_plan `{Externals} req live cm plan cm1 :
  CreateTable_prepare req live cm = inr (plan, cm1) ->
  plan_name plan = create_name req
  /\ CatalogManager.directory cm1 = CatalogManager.directory cm
  /\ CatalogManager.sys_catalog_ cm1 = CatalogManager.sys_catalog_ cm
  /\ CatalogManager.reserved_table_names_ cm1
     = ({[create_name req]} ∪ CatalogManager.reserved_table_names_ cm)
  /\ (create_name req ∉ CatalogManager.reserved_table_names_ cm)
  /\ CatalogManager.table_names_map_ cm !! create_name req = None
  /\ SysTablesEntryPB.fully_applied_schema (plan_table plan) = None.
Proof.
  unfold CreateTable_prepare.
  destruct (PrepareCreateTable req) as [[s0 e] [[schema ps] parts]].
  unfold GenerateId.
  assert (Hinfos : forall parts0 tid cm0,
             CatalogManager.directory (CreateTabletInfos tid parts0 cm0).2
             = CatalogManager.directory cm0
             /\ CatalogManager.sys_catalog_ (CreateTabletInfos tid parts0 cm0).2
                = CatalogManager.sys_catalog_ cm0
             /\ CatalogManager.reserved_table_names_ (CreateTabletInfos tid parts0 cm0).2
                = CatalogManager.reserved_table_names_ cm0).
  { induction parts0 as [|p ps0 IH]; intros tid cm0; [auto|].
    cbn [CreateTabletInfos]. unfold GenerateId.
    specialize (IH tid (CatalogManager.set_oid (S (CatalogManager.oid_generator_ cm0)) cm0)).
    destruct (CreateTabletInfos tid ps0 _) as [rest cm2]. cbn in *. exact IH. }
  match goal with
  | |- context [CreateTabletInfos ?tid ?ps ?c] =>
      specialize (Hinfos ps tid c); destruct (CreateTabletInfos tid ps c) as [tablets cm3]
  end.
  cbn in Hinfos. destruct Hinfos as [Hdir [Hsys Hres]].
  split_cases; intros Heq; simplify_eq. cbn.
  repeat split; try assumption; try reflexivity.
  - unfold CatalogManager.directory. congruence.
  - match goal with
    | Hb : bool_decide (_ ∈ _) = false |- _ => apply bool_decide_eq_false in Hb; exact Hb
    end.
Qed.

Lemma Write_outcome (a : Actions.t) (sc : SysCatalogTable.t) :
  (ok (SysCatalogTable.next_outcome sc) = true
   /\ (SysCatalogTable.Write a sc).1 = OK
   /\ SysCatalogTable.tables_ (SysCatalogTable.Write a sc).2
      = SysCatalogTable.put_table (Actions.table_to_update a)
          (SysCatalogTable.put_table (Actions.table_to_add a) (SysCatalogTable.tables_ sc))
   /\ SysCatalogTable.tablets_ (SysCatalogTable.Write a sc).2
      = SysCatalogTable.put_tablets (Actions.tablets_to_update a)
          (SysCatalogTable.put_tablets (Actions.tablets_to_add a)
             (SysCatalogTable.tablets_ sc))
   /\ SysCatalogTable.writes_ok_ (SysCatalogTable.Write a sc).2
      = S (SysCatalogTable.writes_ok_ sc)
   /\ SysCatalogTable.writes_failed_ (SysCatalogTable.Write a sc).2
      = SysCatalogTable.writes_failed_ sc)
  \/ (ok (SysCatalogTable.next_outcome sc) = false
      /\ (SysCatalogTable.Write a sc).1 = SysCatalogTable.next_outcome sc
      /\ SysCatalogTable.tables_ (SysCatalogTable.Write a sc).2 = SysCatalogTable.tables_ sc
      /\ SysCatalogTable.tablets_ (SysCatalogTable.Write a sc).2
         = SysCatalogTable.tablets_ sc
      /\ SysCatalogTable.writes_ok_ (SysCatalogTable.Write a sc).2
         = SysCatalogTable.writes_ok_ sc
      /\ SysCatalogTable.writes_failed_ (SysCatalogTable.Write a sc).2
         = S (SysCatalogTable.writes_failed_ sc)).
Proof.
  unfold SysCatalogTable.Write.
  destruct (ok (SysCatalogTable.next_outcome sc)); [left | right]; cbn; auto 10.
Qed.

Lemma ok_true (s : Status) : ok s = true <-> s = OK.
Proof. unfold ok. apply bool_decide_eq_true. Qed.

Lemma ok_false (s : Status) : ok s = false <-> s <> OK.
Proof. unfold ok. apply bool_decide_eq_false. Qed.

(** What a CreateTable that gets through leaves. *)
Lemma CreateTable_apply_OK (plan : CreatePlan) (cm : CatalogManager.t) s resp rpcs cm' :
  CreateTable_apply plan cm = Returned s resp rpcs cm' ->
  ok s = true ->
  let dirty := table_pb_set_state SysTablesEntryPB.RUNNING (plan_table plan) in
  let objs := new_TabletInfo (plan_table_id plan) <$> plan_tablets plan in
  let sc := (SysCatalogTable.Write
               {| Actions.table_to_add := Some (plan_table_id plan, dirty);
                  Actions.table_to_update := None;
                  Actions.tablets_to_add := plan_tablets plan;
                  Actions.tablets_to_update := [] |}
               (CatalogManager.sys_catalog_ cm)).2 in
  ok (SysCatalogTable.next_outcome (CatalogManager.sys_catalog_ cm)) = true
  /\ (forall r, r ∈ plan_tablets plan ->
        SysTabletsEntryPB.state r.2 = SysTabletsEntryPB.PREPARING)
  /\ NoDup ((plan_tablets plan).*1)
  /\ (forall r, r ∈ plan_tablets plan -> CatalogManager.tablet_map_ cm !! r.1 = None)
  /\ resp = {| create_error := None; create_table_id := Some (plan_table_id plan) |}
  /\ rpcs = []
  /\ exists counts,
       cm' = release_name (plan_name plan)
               (CatalogManager.set_maps
                  (<[plan_table_id plan :=
                       {| TableInfo.table_id_ := plan_table_id plan;
                          TableInfo.metadata_ := dirty;
                          TableInfo.tablet_map_ :=
                            foldl (fun acc tab =>
                                     <[partition_key_start
                                         (SysTabletsEntryPB.partition
                                            (TabletInfo.metadata_ tab))
                                       := TabletInfo.tablet_id_ tab]> acc) ∅ objs;
                          TableInfo.schema_version_counts_ := counts |}]>
                     (CatalogManager.table_ids_map_ cm))
                  (<[plan_name plan := plan_table_id plan]>
                     (CatalogManager.table_names_map_ cm))
                  (with_tablets objs (CatalogManager.tablet_map_ cm))
                  (CatalogManager.set_sys_catalog sc cm)).
Proof.
  unfold CreateTable_apply. intros Happly Hok. cbv zeta.
  destruct (bool_decide (SysTablesEntryPB.state (plan_table plan)
                         = SysTablesEntryPB.PREPARING)
            && forallb _ (plan_tablets plan)) eqn:Hsane; [|discriminate Happly].
  cbn [negb] in Happly.
  apply andb_true_iff in Hsane as [_ Hprep].
  rewrite forallb_forall in Hprep.
  set (dirty := table_pb_set_state SysTablesEntryPB.RUNNING (plan_table plan)) in *.
  set (objs := new_TabletInfo (plan_table_id plan) <$> plan_tablets plan) in *.
  set (actions := {| Actions.table_to_add := Some (plan_table_id plan, dirty);
                     Actions.table_to_update := None;
                     Actions.tablets_to_add := plan_tablets plan;
                     Actions.tablets_to_update := [] |}) in *.
  pose proof (Write_outcome actions (CatalogManager.sys_catalog_ cm)) as Hwrite.
  destruct (SysCatalogTable.Write actions (CatalogManager.sys_catalog_ cm))
    as [s0 sc0].
  cbn [fst snd] in Hwrite |- *.
  destruct Hwrite as [[Hnext [Hs0 _]] | [Hnext [Hs0 _]]]; subst s0.
  - change (negb (ok OK)) with false in Happly. cbv iota in Happly.
    destruct (AddRemoveTablets_add_only
                (with_tablets objs (CatalogManager.tablet_map_
                                      (CatalogManager.set_sys_catalog sc0 cm)))
                objs
                {| TableInfo.table_id_ := plan_table_id plan;
                   TableInfo.metadata_ := dirty;
                   TableInfo.tablet_map_ := ∅;
                   TableInfo.schema_version_counts_ := ∅ |}) as [counts Hadd].
    rewrite Hadd in Happly.
    destruct (publish_tablets objs _) as [tm|] eqn:Hpub; [|discriminate Happly].
    apply publish_tablets_Some in Hpub as [Hnd [Hfresh ->]].
    injection Happly as <- <- <- <-.
    split; [exact Hnext|]. split.
    { intros r Hr. apply list_elem_of_In in Hr. apply Hprep in Hr.
      apply bool_decide_eq_true in Hr. exact Hr. }
    split.
    { unfold objs in Hnd. rewrite <- list_fmap_compose in Hnd. exact Hnd. }
    split.
    { intros r Hr. apply (Hfresh (new_TabletInfo (plan_table_id plan) r)).
      apply list_elem_of_fmap. eauto. }
    split; [reflexivity|]. split; [reflexivity|].
    exists counts. reflexivity.
  - rewrite Hnext in Happly. cbn [negb] in Happly.
    injection Happly as <- _ _ _. rewrite Hok in Hnext. discriminate Hnext.
Qed.

(** C10. A CreateTable that succeeds persists and publishes the record of
    the new table in state RUNNING: the sanity check finds PREPARING on the
    dirty copy and the state is set to RUNNING before the write, so every
    table record that CreateTable writes or makes visible is RUNNING. Each
    tablet of the new table is persisted and published in state
    PREPARING. *)
Theorem CreateTable_persists_running `{Externals} req live cm resp rpcs cm' :
  CreateTable req live cm = Returned OK resp rpcs cm' ->
  exists table_id table,
    create_table_id resp = Some table_id
    /\ CatalogManager.table_ids_map_ cm' !! table_id = Some table
    /\ CatalogManager.table_names_map_ cm' !! create_name req = Some table_id
    /\ SysTablesEntryPB.state (TableInfo.metadata_ table) = SysTablesEntryPB.RUNNING
    /\ SysCatalogTable.tables_ (CatalogManager.sys_catalog_ cm') !! table_id
       = Some (TableInfo.metadata_ table)
    /\ (forall key tid,
          TableInfo.tablet_map_ table !! key = Some tid ->
          exists tab,
            CatalogManager.tablet_map_ cm' !! tid = Some tab
            /\ TabletInfo.table_ tab = table_id
            /\ SysTabletsEntryPB.state (TabletInfo.metadata_ tab)
               = SysTabletsEntryPB.PREPARING
            /\ SysCatalogTable.tablets_ (CatalogManager.sys_catalog_ cm') !! tid
               = Some (TabletInfo.metadata_ tab))
    /\ (forall id pb,
          SysCatalogTable.tables_ (CatalogManager.sys_catalog_ cm') !! id = Some pb ->
          SysCatalogTable.tables_ (CatalogManager.sys_catalog_ cm) !! id = Some pb
          \/ SysTablesEntryPB.state pb = SysTablesEntryPB.RUNNING)
    /\ (forall id ti,
          CatalogManager.table_ids_map_ cm' !! id = Some ti ->
          CatalogManager.table_ids_map_ cm !! id = Some ti
          \/ SysTablesEntryPB.state (TableInfo.metadata_ ti) = SysTablesEntryPB.RUNNING).
Proof.
  unfold CreateTable. intros Hcreate.
  destruct (CreateTable_prepare req live cm) as [refused | [plan cm1]] eqn:Hprep.
  { subst refused. apply CreateTable_prepare_refuses in Hprep as [Hs _]. congruence. }
  apply CreateTable_prepare_plan in Hprep
    as [Hname [Hdir [Hsys _]]].
  apply CreateTable_apply_OK in Hcreate; [|reflexivity].
  cbv zeta in Hcreate.
  destruct Hcreate as [Hnext [Hprep [Hnd [Hfresh [-> [-> [counts ->]]]]]]].
  pose proof (Write_outcome
                {| Actions.table_to_add :=
                     Some (plan_table_id plan,
                           table_pb_set_state SysTablesEntryPB.RUNNING (plan_table plan));
                   Actions.table_to_update := None;
                   Actions.tablets_to_add := plan_tablets plan;
                   Actions.tablets_to_update := [] |}
                (CatalogManager.sys_catalog_ cm1)) as [Hw | Hw];
    [|destruct Hw as [Hbad _]; rewrite Hnext in Hbad; discriminate Hbad].
  destruct Hw as [_ [_ [Htables [Htablets _]]]].
  cbn [Actions.table_to_add Actions.table_to_update Actions.tablets_to_add
         Actions.tablets_to_update SysCatalogTable.put_table] in Htables, Htablets.
  unfold CatalogManager.directory in Hdir. injection Hdir as Hids Hnames Htm.
  eexists (plan_table_id plan), _.
  cbn [create_table_id release_name CatalogManager.set_reserved
         CatalogManager.set_maps CatalogManager.set_sys_catalog
         CatalogManager.table_ids_map_ CatalogManager.table_names_map_
         CatalogManager.tablet_map_ CatalogManager.sys_catalog_].
  split; [reflexivity|].
  split; [apply lookup_insert_eq|].
  split; [rewrite Hname; apply lookup_insert_eq|].
  cbn [TableInfo.metadata_ TableInfo.tablet_map_].
  split; [reflexivity|].
  split; [rewrite Htables; apply lookup_insert_eq|].
  split; [|split].
  - intros key tid Hchild.
    apply (foldl_insert_lookup_inv
             (fun tab => partition_key_start
                           (SysTabletsEntryPB.partition (TabletInfo.metadata_ tab)))
             TabletInfo.tablet_id_) in Hchild as [Hchild | [tab [Hin [_ Htid]]]];
      [rewrite lookup_empty in Hchild; discriminate Hchild|].
    exists tab. subst tid.
    assert (Hnd' : NoDup (TabletInfo.tablet_id_
                          <$> (new_TabletInfo (plan_table_id plan) <$> plan_tablets plan))).
    { rewrite <- list_fmap_compose. exact Hnd. }
    split.
    { unfold with_tablets.
      apply (foldl_insert_lookup TabletInfo.tablet_id_ (fun t => t) _ _ tab Hnd' Hin). }
    apply list_elem_of_fmap in Hin as [r [-> Hr]]. cbn.
    split; [reflexivity|]. split; [apply Hprep; exact Hr|].
    rewrite Htablets. unfold SysCatalogTable.put_tablets. cbn [foldl].
    apply (foldl_insert_lookup fst snd _ _ r Hnd Hr).
  - intros id pb Hpb. rewrite Htables in Hpb.
    destruct (decide (plan_table_id plan = id)) as [<- | Hne].
    + rewrite lookup_insert_eq in Hpb. injection Hpb as <-. right. reflexivity.
    + rewrite lookup_insert_ne in Hpb by exact Hne. left. rewrite <- Hsys. exact Hpb.
  - intros id ti Hti.
    destruct (decide (plan_table_id plan = id)) as [<- | Hne].
    + rewrite lookup_insert_eq in Hti. injection Hti as <-. right. reflexivity.
    + rewrite lookup_insert_ne in Hti by exact Hne. left. rewrite <- Hids. exact Hti.
Qed.

Lemma CreateTable_persists_running_witness :
  exists table_id table,
    CatalogManager.table_ids_map_ (sample_created []) !! table_id = Some table
    /\ SysTablesEntryPB.state (TableInfo.metadata_ table) = SysTablesEntryPB.RUNNING
    /\ SysCatalogTable.tables_ (CatalogManager.sys_catalog_ (sample_created []))
       !! table_id = Some (TableInfo.metadata_ table)
    /\ size (TableInfo.tablet_map_ table) = 2%nat.
Proof.
  destruct (@CreateTable_persists_running sample_externals (sample_create (Some 3)) 3
              (sample_cm [])
              {| create_error := None; create_table_id := Some "id" |} []
              (sample_created []))
    as [table_id [table [Hid [Htable [_ [Hstate [Hrow _]]]]]]].
  - vm_compute. reflexivity.
  - exists table_id, table. injection Hid as <-.
    repeat split; try assumption.
    vm_compute in Htable. injection Htable as <-. vm_compute. reflexivity.
Defined.

(** ** C4 *)

Lemma CreateTabletInfos_frame `{Externals} tid parts cm :
  CatalogManager.directory (CreateTabletInfos tid parts cm).2
  = CatalogManager.directory cm
  /\ CatalogManager.sys_catalog_ (CreateTabletInfos tid parts cm).2
     = CatalogManager.sys_catalog_ cm
  /\ CatalogManager.reserved_table_names_ (CreateTabletInfos tid parts cm).2
     = CatalogManager.reserved_table_names_ cm
  /\ CatalogManager.state_ (CreateTabletInfos tid parts cm).2 = CatalogManager.state_ cm.
Proof.
  revert cm. induction parts as [|p ps IH]; intros cm; [auto|].
  cbn [CreateTabletInfos]. unfold GenerateId.
  specialize (IH (CatalogManager.set_oid (S (CatalogManager.oid_generator_ cm)) cm)).
  destruct (CreateTabletInfos tid ps _) as [rest cm2]. cbn in *. exact IH.
Qed.

Lemma ordered_entries_elem {V : Type} (m : gmap string V) (e : string * V) :
  e ∈ ordered_entries m <-> m !! e.1 = Some e.2.
Proof.
  unfold ordered_entries. rewrite merge_sort_Permutation.
  destruct e as [k v]. apply elem_of_map_to_list.
Qed.

Lemma ordered_entries_NoDup {V : Type} (m : gmap string V) :
  NoDup (ordered_entries m).*1.
Proof.
  unfold ordered_entries.
  rewrite (fmap_Permutation fst _ _ (merge_sort_Permutation key_order (map_to_list m))).
  apply NoDup_fst_map_to_list.
Qed.

Lemma find_elem {A : Type} (f : A -> bool) (l : list A) (x : A) :
  List.find f l = Some x -> x ∈ l /\ f x = true.
Proof.
  intros Hfind. apply find_some in Hfind as [Hin Hf].
  split; [apply list_elem_of_In; exact Hin | exact Hf].
Qed.

Lemma lower_bound_elem {V : Type} (k : string) (m : gmap string V) (e : string * V) :
  lower_bound k m = Some e -> m !! e.1 = Some e.2.
Proof.
  unfold lower_bound. intros Hfind. apply find_elem in Hfind as [Hin _].
  apply ordered_entries_elem. exact Hin.
Qed.

Lemma emplace_lookup {V : Type} (k : string) (v : V) (m : gmap string V) (j : string)
    (w : V) :
  emplace k v m !! j = Some w -> m !! j = Some w \/ (j = k /\ w = v /\ m !! k = None).
Proof.
  unfold emplace. destruct (m !! k) eqn:Hk; [auto|].
  destruct (decide (k = j)) as [<- | Hne].
  - rewrite lookup_insert_eq. intros [= <-]. auto.
  - rewrite lookup_insert_ne by exact Hne. auto.
Qed.

Section partitioning.
Context `{Externals} (table : TableInfo.t) (cm0 : CatalogManager.t).

Lemma add_range_partition_invariant p st cm s st1 cm1 :
  add_range_partition (TableInfo.table_id_ table) p st cm = (s, st1, cm1) ->
  partitioning_invariant table cm0 st cm -> partitioning_invariant table cm0 st1 cm1.
Proof.
  unfold add_range_partition. intros Hadd Hinv.
  destruct (range_conflicts _ _ _ (existing_tablets st)); [injection Hadd as _ <- <-; exact Hinv|].
  destruct (range_conflicts _ _ _ (new_tablets st)); [injection Hadd as _ <- <-; exact Hinv|].
  cbn [GenerateId] in Hadd. injection Hadd as _ <- <-.
  destruct Hinv as (Hdir & Hsys & Hres & Hstate & Hoid & Hex & Hdrop & Hnew & Hdistinct).
  unfold partitioning_invariant.
  cbn [existing_tablets new_tablets dropped_tablets CatalogManager.set_oid
       CatalogManager.oid_generator_ CatalogManager.sys_catalog_
       CatalogManager.reserved_table_names_ CatalogManager.state_].
  split; [exact Hdir|]. split; [exact Hsys|]. split; [exact Hres|].
  split; [exact Hstate|]. split; [lia|]. split; [exact Hex|]. split; [exact Hdrop|].
  split.
  - intros k r Hr. apply emplace_lookup in Hr as [Hold | (-> & -> & _)].
    + destruct (Hnew k r Hold) as (i & p0 & Hi & Hr & Hk). exists i, p0.
      split; [lia | auto].
    + exists (CatalogManager.oid_generator_ cm), p. split; [lia | auto].
  - intros Hinj k1 k2 r1 r2 Hr1 Hr2 Hid.
    apply emplace_lookup in Hr1 as [Hold1 | (-> & -> & Hfree1)];
      apply emplace_lookup in Hr2 as [Hold2 | (-> & -> & Hfree2)].
    + exact (Hdistinct Hinj k1 k2 r1 r2 Hold1 Hold2 Hid).
    + destruct (Hnew k1 r1 Hold1) as (i & p0 & Hi & -> & _). cbn in Hid.
      apply Hinj in Hid; lia.
    + destruct (Hnew k2 r2 Hold2) as (i & p0 & Hi & -> & _). cbn in Hid.
      apply Hinj in Hid; lia.
    + reflexivity.
Qed.

Lemma add_range_partitions_invariant ps st cm s st1 cm1 :
  add_range_partitions (TableInfo.table_id_ table) ps st cm = (s, st1, cm1) ->
  partitioning_invariant table cm0 st cm -> partitioning_invariant table cm0 st1 cm1.
Proof.
  revert st cm. induction ps as [|p ps IH]; intros st cm Hadd Hinv.
  { injection Hadd as _ <- <-. exact Hinv. }
  cbn [add_range_partitions] in Hadd.
  destruct (add_range_partition _ p st cm) as [[s0 st0] cm2] eqn:Hone.
  pose proof (add_range_partition_invariant _ _ _ _ _ _ Hone Hinv) as Hinv0.
  destruct (negb (ok s0)); [injection Hadd as _ <- <-; exact Hinv0|].
  exact (IH _ _ Hadd Hinv0).
Qed.

Lemma drop_range_partition_invariant p st cm s st1 :
  drop_range_partition p st = (s, st1) ->
  partitioning_invariant table cm0 st cm -> partitioning_invariant table cm0 st1 cm.
Proof.
  unfold drop_range_partition. intros Hdrop Hinv.
  destruct Hinv as (Hdir & Hsys & Hres & Hstate & Hoid & Hex & (ks & Hnodup & Hks)
                    & Hnew & Hdistinct).
  destruct (lower_bound (partition_key_start p) (existing_tablets st)) as [e|] eqn:Hlb.
  - destruct (_ && _).
    + injection Hdrop as _ <-. apply lower_bound_elem in Hlb.
      unfold partitioning_invariant. cbn [existing_tablets new_tablets dropped_tablets].
      split; [exact Hdir|]. split; [exact Hsys|]. split; [exact Hres|].
      split; [exact Hstate|]. split; [exact Hoid|]. split.
      { intros k tab Hk. apply lookup_delete_Some in Hk as [_ Hk]. eauto. }
      split; [|split; [exact Hnew | exact Hdistinct]].
      exists (ks ++ [e.1]). split.
      * apply NoDup_app. split; [exact Hnodup|]. split; [|apply NoDup_singleton].
        intros k Hk Hk'. apply list_elem_of_singleton in Hk' as ->.
        apply list_elem_of_lookup in Hk as [n Hn].
        destruct (Forall2_lookup_l _ _ _ _ _ Hks Hn) as (tab & _ & Hnone & _).
        congruence.
      * apply Forall2_app.
        -- eapply Forall2_impl; [exact Hks|]. intros k tab [Hnone Hid]. split; [|exact Hid].
           apply lookup_delete_None. auto.
        -- constructor; [|constructor]. split; [apply lookup_delete_eq|]. eauto.
    + clear Hlb.
      destruct (lower_bound (partition_key_start p) (new_tablets st)) as [e'|] eqn:Hlb'.
      * destruct (_ && _); injection Hdrop as _ <-.
        -- unfold partitioning_invariant.
           cbn [existing_tablets new_tablets dropped_tablets].
           split; [exact Hdir|]. split; [exact Hsys|]. split; [exact Hres|].
           split; [exact Hstate|]. split; [exact Hoid|]. split; [exact Hex|].
           split; [eauto|]. split.
           ++ intros k r Hr. apply lookup_delete_Some in Hr as [_ Hr]. eauto.
           ++ intros Hinj k1 k2 r1 r2 Hr1 Hr2.
              apply lookup_delete_Some in Hr1 as [_ Hr1].
              apply lookup_delete_Some in Hr2 as [_ Hr2]. eauto.
        -- unfold partitioning_invariant. eauto 12.
      * injection Hdrop as _ <-. unfold partitioning_invariant. eauto 12.
  - destruct (lower_bound (partition_key_start p) (new_tablets st)) as [e'|] eqn:Hlb'.
    + destruct (_ && _); injection Hdrop as _ <-.
      * unfold partitioning_invariant.
        cbn [existing_tablets new_tablets dropped_tablets].
        split; [exact Hdir|]. split; [exact Hsys|]. split; [exact Hres|].
        split; [exact Hstate|]. split; [exact Hoid|]. split; [exact Hex|].
        split; [eauto|]. split.
        -- intros k r Hr. apply lookup_delete_Some in Hr as [_ Hr]. eauto.
        -- intros Hinj k1 k2 r1 r2 Hr1 Hr2.
           apply lookup_delete_Some in Hr1 as [_ Hr1].
           apply lookup_delete_Some in Hr2 as [_ Hr2]. eauto.
      * unfold partitioning_invariant. eauto 12.
    + injection Hdrop as _ <-. unfold partitioning_invariant. eauto 12.
Qed.

Lemma drop_range_partitions_invariant ps st cm s st1 :
  drop_range_partitions ps st = (s, st1) ->
  partitioning_invariant table cm0 st cm -> partitioning_invariant table cm0 st1 cm.
Proof.
  revert st. induction ps as [|p ps IH]; intros st Hdrop Hinv.
  { injection Hdrop as _ <-. exact Hinv. }
  cbn [drop_range_partitions] in Hdrop.
  destruct (drop_range_partition p st) as [s0 st0] eqn:Hone.
  pose proof (drop_range_partition_invariant _ _ _ _ _ Hone Hinv) as Hinv0.
  destruct (negb (ok s0)); [injection Hdrop as _ <-; exact Hinv0|].
  exact (IH _ Hdrop Hinv0).
Qed.

Lemma apply_partitioning_steps_invariant pb schema steps st cm s st1 cm1 :
  apply_partitioning_steps pb (TableInfo.table_id_ table) schema steps st cm
  = Some (s, st1, cm1) ->
  partitioning_invariant table cm0 st cm -> partitioning_invariant table cm0 st1 cm1.
Proof.
  revert st cm. induction steps as [|step steps IH]; intros st cm Hsteps Hinv.
  { injection Hsteps as _ <- <-. exact Hinv. }
  cbn [apply_partitioning_steps] in Hsteps.
  destruct (apply_partitioning_step pb _ schema step st cm) as [[[s0 st0] cm2]|] eqn:Hstep;
    [|discriminate Hsteps].
  assert (Hinv0 : partitioning_invariant table cm0 st0 cm2).
  { unfold apply_partitioning_step in Hstep.
    destruct (AlterTableRequestPB.step_type step); try discriminate Hstep;
      destruct (CreateRangePartitions pb schema step) as [s2 parts];
      destruct (negb (ok s2)); try (injection Hstep as _ <- <-; exact Hinv).
    - injection Hstep as Hstep. exact (add_range_partitions_invariant _ _ _ _ _ _ Hstep Hinv).
    - destruct (drop_range_partitions parts st) as [s3 st3] eqn:Hdrops.
      injection Hstep as _ <- <-.
      exact (drop_range_partitions_invariant _ _ _ _ _ Hdrops Hinv). }
  destruct (negb (ok s0)); [injection Hsteps as _ <- <-; exact Hinv0|].
  exact (IH _ _ Hsteps Hinv0).
Qed.

End partitioning.

Lemma partitioning_invariant_start `{Externals} table cm :
  partitioning_invariant table cm
    {| existing_tablets :=
         omap (fun id => CatalogManager.tablet_map_ cm !! id) (TableInfo.tablet_map_ table);
       new_tablets := ∅;
       dropped_tablets := [] |} cm.
Proof.
  unfold partitioning_invariant. cbn [existing_tablets new_tablets dropped_tablets].
  split; [reflexivity|]. split; [reflexivity|]. split; [reflexivity|].
  split; [reflexivity|]. split; [lia|]. split.
  { intros k tab Hk. apply lookup_omap_Some in Hk as (id & Hid & Hk). eauto. }
  split; [exists []; split; constructor|]. split.
  - intros k r Hr. rewrite lookup_empty in Hr. discriminate Hr.
  - intros _ k1 k2 r1 r2 Hr1. rewrite lookup_empty in Hr1. discriminate Hr1.
Qed.

(** What step 5 of AlterTable leaves: the directory, the system catalog,
    the reserved names and the state as they were and the generator not
    behind; when it fails, an error; otherwise new tablets of the table with
    ids the generator gave in this call, distinct when the generator does
    not repeat itself, and tablets to drop that the map of the table holds
    under distinct keys. *)
Lemma alter_partitioning_spec `{Externals} req dirty table steps cm r :
  alter_partitioning req dirty table steps cm = Some r ->
  let cm1 := match r with inl (_, _, c) => c | inr (_, _, c) => c end in
  CatalogManager.directory cm1 = CatalogManager.directory cm
  /\ CatalogManager.sys_catalog_ cm1 = CatalogManager.sys_catalog_ cm
  /\ CatalogManager.reserved_table_names_ cm1 = CatalogManager.reserved_table_names_ cm
  /\ CatalogManager.state_ cm1 = CatalogManager.state_ cm
  /\ (CatalogManager.oid_generator_ cm <= CatalogManager.oid_generator_ cm1)%nat
  /\ match r with
     | inl (s, _, _) => s <> OK
     | inr (to_add, to_drop, _) =>
         (forall r, r ∈ to_add ->
            exists i p,
              (CatalogManager.oid_generator_ cm <= i < CatalogManager.oid_generator_ cm1)%nat
              /\ r = (oid_Next i, CreateTabletInfo (TableInfo.table_id_ table) p))
         /\ ((forall i j, (CatalogManager.oid_generator_ cm <= i)%nat ->
                          (CatalogManager.oid_generator_ cm <= j)%nat ->
                          oid_Next i = oid_Next j -> i = j) ->
             NoDup to_add.*1)
         /\ (exists ks,
               NoDup ks
               /\ Forall2 (fun k tab =>
                             exists id, TableInfo.tablet_map_ table !! k = Some id
                                        /\ CatalogManager.tablet_map_ cm !! id = Some tab)
                    ks to_drop)
         /\ (steps = [] -> to_add = [] /\ to_drop = [] /\ cm1 = cm)
     end.
Proof.
  unfold alter_partitioning. intros Hpart.
  case_bool_decide as Hsteps; cbn [negb] in Hpart.
  { injection Hpart as <-. cbn. repeat split; try lia.
    - intros r Hr. inversion Hr.
    - intros _. constructor.
    - exists []. split; constructor. }
  destruct (negb (ok (SchemaFromPB _))) eqn:Hschema.
  { injection Hpart as <-. cbn. repeat split; try lia.
    apply ok_false, negb_true_iff. exact Hschema. }
  unfold ApplyAlterPartitioningSteps in Hpart.
  destruct (negb (ok (SchemaFromPB (SysTablesEntryPB.schema dirty)))) eqn:Hs1.
  { rewrite Hs1 in Hpart. injection Hpart as <-. cbn. repeat split; try lia.
    apply ok_false, negb_true_iff. exact Hs1. }
  destruct (negb (ok (PartitionSchema_FromPB _ _))) eqn:Hs2.
  { rewrite Hs2 in Hpart. injection Hpart as <-. cbn. repeat split; try lia.
    apply ok_false, negb_true_iff. exact Hs2. }
  destruct (apply_partitioning_steps _ _ _ _ _ _) as [[[s st] cm2]|] eqn:Hloop;
    [|discriminate Hpart].
  pose proof (apply_partitioning_steps_invariant table cm _ _ _ _ _ _ _ _ Hloop
                (partitioning_invariant_start table cm))
    as (Hdir & Hsys & Hres & Hstate & Hoid & _ & (ks & Hnodup & Hks) & Hnew & Hdistinct).
  destruct (negb (ok s)) eqn:Hs.
  { rewrite Hs in Hpart. injection Hpart as <-. cbn. repeat split; try assumption.
    apply ok_false, negb_true_iff. exact Hs. }
  injection Hpart as <-. cbn. repeat split; try assumption.
  - intros r Hr. apply list_elem_of_fmap in Hr as (e & -> & He).
    apply ordered_entries_elem in He.
    destruct (Hnew _ _ He) as (i & p & Hi & Hr & _). eauto.
  - intros Hinj. rewrite <- list_fmap_compose.
    apply NoDup_fmap_2_strong; [|eapply NoDup_fmap_1, ordered_entries_NoDup].
    intros e1 e2 He1 He2 Hid. apply ordered_entries_elem in He1, He2.
    pose proof (Hdistinct Hinj _ _ _ _ He1 He2 Hid) as Hkey.
    destruct e1 as [k1 r1], e2 as [k2 r2]. cbn in *. subst k2.
    rewrite He1 in He2. injection He2 as <-. reflexivity.
  - exists ks. split; [exact Hnodup|].
    eapply Forall2_impl; [exact Hks|]. intros k tab [_ Hid]. exact Hid.
  - congruence.
  - congruence.
  - congruence.
Qed.

Lemma group_steps_partitioning steps schema_steps partitioning_steps :
  group_steps steps = Some (schema_steps, partitioning_steps) ->
  Forall (fun step =>
            AlterTableRequestPB.step_type step = AlterTableRequestPB.ADD_RANGE_PARTITION
            \/ AlterTableRequestPB.step_type step
               = AlterTableRequestPB.DROP_RANGE_PARTITION) partitioning_steps.
Proof.
  revert schema_steps partitioning_steps.
  induction steps as [|step steps IH]; intros sch par Hgroup.
  { injection Hgroup as <- <-. constructor. }
  cbn [group_steps] in Hgroup.
  destruct (group_steps steps) as [[sch0 par0]|]; cbn in Hgroup.
  - specialize (IH _ _ eq_refl).
    destruct (AlterTableRequestPB.step_type step) eqn:Htype; try discriminate Hgroup;
      injection Hgroup as <- <-; try exact IH; constructor; auto.
  - destruct (AlterTableRequestPB.step_type step); discriminate Hgroup.
Qed.

(** The [CHECK_EQ] on the type of a step holds for the partitioning steps
    that step 1 of AlterTable sets apart. *)
Lemma alter_partitioning_returns `{Externals} req dirty table steps cm :
  Forall (fun step =>
            AlterTableRequestPB.step_type step = AlterTableRequestPB.ADD_RANGE_PARTITION
            \/ AlterTableRequestPB.step_type step
               = AlterTableRequestPB.DROP_RANGE_PARTITION) steps ->
  is_Some (alter_partitioning req dirty table steps cm).
Proof.
  intros Htypes. unfold alter_partitioning.
  destruct (negb (bool_decide (steps = []))); [|eauto].
  destruct (negb (ok (SchemaFromPB (AlterTableRequestPB.schema req)))); [eauto|].
  unfold ApplyAlterPartitioningSteps.
  destruct (negb (ok (SchemaFromPB (SysTablesEntryPB.schema dirty)))) eqn:Hs1;
    [rewrite Hs1; eauto|].
  destruct (negb (ok (PartitionSchema_FromPB _ _))) eqn:Hs2; [rewrite Hs2; eauto|].
  assert (Hloop : forall st cm0,
            is_Some (apply_partitioning_steps dirty (TableInfo.table_id_ table)
                       (AlterTableRequestPB.schema req) steps st cm0)).
  { induction Htypes as [|step steps Htype _ IH]; intros st cm0; [cbn; eauto|].
    cbn [apply_partitioning_steps].
    assert (Hstep : is_Some (apply_partitioning_step dirty (TableInfo.table_id_ table)
                               (AlterTableRequestPB.schema req) step st cm0)).
    { unfold apply_partitioning_step. destruct Htype as [-> | ->];
        destruct (CreateRangePartitions _ _ _) as [s parts];
        destruct (negb (ok s)); eauto.
      destruct (drop_range_partitions parts st). eauto. }
    destruct Hstep as [[[s st1] cm1] ->].
    destruct (negb (ok s)); [eauto | apply IH]. }
  match goal with
  | |- context [apply_partitioning_steps ?a ?b ?c ?d ?st ?cm0] =>
      destruct (Hloop st cm0) as [[[s st1] cm1] ->]
  end.
  destruct (negb (ok s)) eqn:Hs; rewrite ?Hs; eauto.
Qed.

(** What the preparation of an AlterTable leaves: the directory and the
    system catalog as they were, and a dirty record that differs from the
    committed one by the new name at most. *)
Lemma AlterTable_prepare_plan `{Externals} req cm plan cm1 :
  AlterTable_prepare req cm = inr (plan, cm1) ->
  CatalogManager.directory cm1 = CatalogManager.directory cm
  /\ CatalogManager.sys_catalog_ cm1 = CatalogManager.sys_catalog_ cm
  /\ alter_plan_table_name plan
     = SysTablesEntryPB.name (TableInfo.metadata_ (alter_plan_table plan))
  /\ alter_plan_dirty plan
     = match AlterTableRequestPB.new_table_name req with
       | Some n => PersistentTableInfo.set_name n
                     (TableInfo.metadata_ (alter_plan_table plan))
       | None => TableInfo.metadata_ (alter_plan_table plan)
       end
  /\ (exists s, FindAndLockTable (AlterTableRequestPB.table req) cm
                = (s, Some (alter_plan_table plan)))
  /\ PersistentTableInfo.is_deleted (TableInfo.metadata_ (alter_plan_table plan)) = false
  /\ (forall n, AlterTableRequestPB.new_table_name req = Some n ->
        CatalogManager.table_names_map_ cm !! n = None).
Proof.
  unfold AlterTable_prepare. intros Hprep.
  destruct (negb (ok (CheckOnline cm))); [discriminate Hprep|].
  destruct (group_steps _) as [[schema_steps part_steps]|]; [|discriminate Hprep].
  destruct (FindAndLockTable _ cm) as [s [table|]] eqn:Hfind;
    [|destruct (negb (ok s)); discriminate Hprep].
  destruct (negb (ok s)); [discriminate Hprep|].
  destruct (PersistentTableInfo.is_deleted _) eqn:Hdel; [discriminate Hprep|].
  match type of Hprep with
  | match ?sr with _ => _ end = _ => destruct sr as [s1 | [new_schema next_col]]
  end; [discriminate Hprep|].
  match type of Hprep with
  | match ?rn with _ => _ end = _ =>
      destruct rn as [[s2 c] | [dirty cm0]] eqn:Hren
  end; [discriminate Hprep|].
  destruct (alter_partitioning req dirty table part_steps cm0)
    as [[[[s3 e] cm2] | [[to_add to_drop] cm2]]|] eqn:Hpart; try discriminate Hprep.
  apply alter_partitioning_spec in Hpart as (Hdir & Hsys & _).
  cbn [snd] in Hdir, Hsys. injection Hprep as <- <-.
  cbn [alter_plan_table alter_plan_table_name alter_plan_dirty].
  assert (Hrename :
            CatalogManager.directory cm0 = CatalogManager.directory cm
            /\ CatalogManager.sys_catalog_ cm0 = CatalogManager.sys_catalog_ cm
            /\ dirty = match AlterTableRequestPB.new_table_name req with
                       | Some n => PersistentTableInfo.set_name n (TableInfo.metadata_ table)
                       | None => TableInfo.metadata_ table
                       end
            /\ forall n, AlterTableRequestPB.new_table_name req = Some n ->
                         CatalogManager.table_names_map_ cm !! n = None).
  { destruct (AlterTableRequestPB.new_table_name req) as [n|].
    - destruct (negb (ok (ValidateIdentifier n))); [discriminate Hren|].
      case_bool_decide as Hpresent; [discriminate Hren|].
      destruct (bool_decide (n ∈ _)); [discriminate Hren|].
      injection Hren as <- <-. repeat split.
      intros n' [= <-]. apply eq_None_not_Some. exact Hpresent.
    - injection Hren as <- <-. repeat split. intros n' Hn'. discriminate Hn'. }
  destruct Hrename as [Hdir0 [Hsys0 [Hdirty Hfree]]].
  split; [congruence|]. split; [congruence|]. split; [reflexivity|].
  split; [exact Hdirty|]. split; [eauto|]. split; [exact Hdel | exact Hfree].
Qed.

Lemma AlterTable_cleanup_frame req cm :
  CatalogManager.directory (AlterTable_cleanup req cm) = CatalogManager.directory cm
  /\ CatalogManager.sys_catalog_ (AlterTable_cleanup req cm) = CatalogManager.sys_catalog_ cm.
Proof. unfold AlterTable_cleanup. destruct (AlterTableRequestPB.new_table_name req); auto. Qed.

Lemma AlterTable_prepare_refuses `{Externals} req cm s resp rpcs cm' :
  AlterTable_prepare req cm = inl (Returned s resp rpcs cm') ->
  s <> OK /\ rpcs = [] /\ CatalogManager.directory cm' = CatalogManager.directory cm
  /\ CatalogManager.sys_catalog_ cm' = CatalogManager.sys_catalog_ cm.
Proof.
  unfold AlterTable_prepare. intros Hprep.
  destruct (negb (ok (CheckOnline cm))) eqn:Honline.
  { injection Hprep as <- _ <- <-. apply negb_true_iff, ok_false in Honline. auto. }
  destruct (group_steps _) as [[schema_steps part_steps]|];
    [|injection Hprep as <- _ <- <-; split; [discriminate|auto]].
  destruct (FindAndLockTable _ cm) as [s0 [table|]] eqn:Hfind.
  2:{ destruct (negb (ok s0)) eqn:Hs0; injection Hprep as <- _ <- <-.
      - apply negb_true_iff, ok_false in Hs0. auto.
      - split; [discriminate|auto]. }
  destruct (negb (ok s0)) eqn:Hs0.
  { injection Hprep as <- _ <- <-. apply negb_true_iff, ok_false in Hs0. auto. }
  destruct (PersistentTableInfo.is_deleted _);
    [injection Hprep as <- _ <- <-; split; [discriminate|auto]|].
  match type of Hprep with
  | match ?sr with _ => _ end = _ =>
      destruct sr as [s1 | [new_schema next_col]] eqn:Hsr
  end.
  { injection Hprep as <- _ <- <-. split; [|auto].
    destruct (negb (bool_decide (schema_steps = []))); [|discriminate Hsr].
    destruct (ApplyAlterSchemaSteps _ _) as [s2 [new_schema next_col]].
    destruct (negb (ok s2)) eqn:Hs2.
    { injection Hsr as <-. apply negb_true_iff, ok_false in Hs2. exact Hs2. }
    destruct (negb (ok (ValidateClientSchema new_schema))) eqn:Hv; [|discriminate Hsr].
    injection Hsr as <-. apply negb_true_iff, ok_false in Hv. exact Hv. }
  clear Hsr.
  match type of Hprep with
  | match ?rn with _ => _ end = _ =>
      destruct rn as [[s2 c] | [dirty cm0]] eqn:Hren
  end.
  { injection Hprep as <- _ <- <-. split; [|auto].
    destruct (AlterTableRequestPB.new_table_name req) as [n|]; [|discriminate Hren].
    destruct (negb (ok (ValidateIdentifier n))) eqn:Hn.
    { injection Hren as <- _. apply negb_true_iff, ok_false in Hn. exact Hn. }
    destruct (bool_decide (is_Some _)); [injection Hren as <- _; discriminate|].
    destruct (bool_decide (n ∈ _)); [injection Hren as <- _; discriminate|].
    discriminate Hren. }
  assert (Hrename : CatalogManager.directory cm0 = CatalogManager.directory cm
                    /\ CatalogManager.sys_catalog_ cm0 = CatalogManager.sys_catalog_ cm).
  { destruct (AlterTableRequestPB.new_table_name req) as [n|].
    - destruct (negb (ok (ValidateIdentifier n))); [discriminate Hren|].
      destruct (bool_decide (is_Some _)); [discriminate Hren|].
      destruct (bool_decide (n ∈ _)); [discriminate Hren|].
      injection Hren as _ <-. auto.
    - injection Hren as _ <-. auto. }
  destruct Hrename as [Hdir0 Hsys0].
  destruct (alter_partitioning req dirty table part_steps cm0)
    as [[[[s3 e] cm2] | [[to_add to_drop] cm2]]|] eqn:Hpart; try discriminate Hprep.
  apply alter_partitioning_spec in Hpart as (Hdir & Hsys & _ & _ & _ & Hs3).
  cbn in Hdir, Hsys. injection Hprep as <- _ <- <-.
  destruct (AlterTable_cleanup_frame req cm2) as [Hd Hs].
  split; [exact Hs3|]. split; [reflexivity|]. split; congruence.
Qed.


Lemma AddRemoveTablets_metadata store adds drops table table1 :
  TableInfo.AddRemoveTablets store adds drops table = Some table1 ->
  TableInfo.metadata_ table1 = TableInfo.metadata_ table
  /\ TableInfo.table_id_ table1 = TableInfo.table_id_ table.
Proof.
  unfold TableInfo.AddRemoveTablets. intros Hadd.
  destruct (foldl _ _ drops) as [dropped|]; [|discriminate Hadd].
  cbn in Hadd. destruct (foldl _ dropped adds) as [m c].
  injection Hadd as <-. auto.
Qed.

(** What an AlterTable that gets through leaves: nothing for an empty
    request; otherwise the write succeeded and the table of the directory
    carries the dirty record of step 6 when the table record was written,
    and its record of before when only tablets were dropped. *)
Lemma AlterTable_apply_OK `{Externals} req plan cm s resp rpcs cm' :
  AlterTable_apply req plan cm = Returned s resp rpcs cm' ->
  ok s = true ->
  (has_metadata_changes req plan = false /\ has_partitioning_changes plan = false
   /\ cm' = AlterTable_cleanup req cm /\ rpcs = [])
  \/ ((has_metadata_changes req plan = true \/ has_partitioning_changes plan = true)
      /\ ok (SysCatalogTable.next_outcome (CatalogManager.sys_catalog_ cm)) = true
      /\ exists table',
           CatalogManager.table_ids_map_ cm'
           !! TableInfo.table_id_ (alter_plan_table plan) = Some table'
           /\ TableInfo.metadata_ table'
              = (if negb (bool_decide (tablets_to_add plan = []))
                    || has_metadata_changes req plan
                 then AlterTable_dirty req plan
                 else TableInfo.metadata_ (alter_plan_table plan))).
Proof.
  unfold AlterTable_apply. intros Happly Hok.
  destruct (negb (has_metadata_changes req plan) && negb (has_partitioning_changes plan))
    eqn:Hskip.
  { left. apply andb_true_iff in Hskip as [Hm Hp].
    apply negb_true_iff in Hm, Hp. injection Happly as _ _ <- <-. auto. }
  right. split.
  { apply andb_false_iff in Hskip as [Hm | Hp]; [left | right];
      apply negb_false_iff; assumption. }
  match type of Happly with
  | context [SysCatalogTable.Write ?a ?sc] =>
      pose proof (Write_outcome a sc) as Hwrite;
      destruct (SysCatalogTable.Write a sc) as [s0 sc0]
  end.
  cbn [fst snd] in Hwrite.
  destruct Hwrite as [[Hnext [Hs0 _]] | [Hnext [Hs0 _]]]; subst s0.
  2:{ rewrite Hnext in Happly. cbn [negb] in Happly. injection Happly as <- _ _ _.
      rewrite Hok in Hnext. discriminate Hnext. }
  split; [exact Hnext|].
  change (negb (ok OK)) with false in Happly. cbv iota in Happly.
  match type of Happly with
  | match ?x with _ => _ end = _ => destruct x as [names|]
  end; [|discriminate Happly].
  destruct (publish_tablets _ _) as [published|]; [|discriminate Happly].
  destruct (TableInfo.AddRemoveTablets _ _ _ _) as [table1|] eqn:Hadd;
    [|discriminate Happly].
  apply AddRemoveTablets_metadata in Hadd as [Hmeta Hid].
  injection Happly as _ _ _ <-.
  destruct (AlterTable_cleanup_frame req
              (CatalogManager.set_maps
                 (<[TableInfo.table_id_ (alter_plan_table plan) :=
                      if negb (bool_decide (tablets_to_add plan = []))
                         || has_metadata_changes req plan
                      then TableInfo.set_metadata (AlterTable_dirty req plan) table1
                      else table1]>
                    (CatalogManager.table_ids_map_ (CatalogManager.set_sys_catalog sc0 cm)))
                 names
                 (commit_tablets
                    ((fun tab =>
                        (TabletInfo.tablet_id_ tab,
                         PersistentTabletInfo.set_state SysTabletsEntryPB.DELETED
                           ("Partition dropped at " +:+ LocalTimeAsString)
                           (TabletInfo.metadata_ tab))) <$> tablets_to_drop plan)
                    published)
                 (CatalogManager.set_sys_catalog sc0 cm))) as [Hdir _].
  unfold CatalogManager.directory in Hdir. injection Hdir as Hids _ _.
  rewrite Hids. cbn [CatalogManager.set_maps CatalogManager.table_ids_map_].
  eexists. split; [apply lookup_insert_eq|].
  destruct (negb (bool_decide (tablets_to_add plan = [])) || has_metadata_changes req plan);
    [reflexivity | exact Hmeta].
Qed.

Lemma AlterTable_update_record_spec `{Externals} sc mc fe ta new_schema next_col pb :
  let pb' := AlterTable_update_record sc mc fe ta new_schema next_col pb in
  SysTablesEntryPB.state pb'
  = (if ta || fe then SysTablesEntryPB.ALTERING else SysTablesEntryPB.state pb)
  /\ SysTablesEntryPB.fully_applied_schema pb'
     = (if fe then Some (default (SysTablesEntryPB.schema pb)
                           (SysTablesEntryPB.fully_applied_schema pb))
        else SysTablesEntryPB.fully_applied_schema pb)
  /\ SysTablesEntryPB.schema pb' = (if sc then new_schema else SysTablesEntryPB.schema pb)
  /\ SysTablesEntryPB.version pb'
     = (if mc then SysTablesEntryPB.version pb + 1 else SysTablesEntryPB.version pb)
  /\ SysTablesEntryPB.name pb' = SysTablesEntryPB.name pb.
Proof.
  unfold AlterTable_update_record.
  destruct sc, mc, fe, ta, (SysTablesEntryPB.fully_applied_schema pb) eqn:Hfas;
    cbn; rewrite ?Hfas; auto.
Qed.

(** C4 as stated fails: an AlterTable that only renames the running table
    "t", which has a tablet, leaves it in ALTERING with a
    fully_applied_schema equal to its schema. *)
Lemma rename_leaves_equal_fully_applied_schema :
  ~ (forall (E : Externals) req cm resp rpcs cm' id ti,
       AlterTable req cm = Returned OK resp rpcs cm' ->
       CatalogManager.table_ids_map_ cm' !! id = Some ti ->
       SysTablesEntryPB.state (TableInfo.metadata_ ti) = SysTablesEntryPB.ALTERING ->
       exists fully_applied,
         SysTablesEntryPB.fully_applied_schema (TableInfo.metadata_ ti)
         = Some fully_applied
         /\ fully_applied <> SysTablesEntryPB.schema (TableInfo.metadata_ ti)).
Proof.
  intros Hclaim.
  destruct (Hclaim sample_externals (sample_rename "u") (sample_running [])
              _ _ _ "id" _ eq_refl eq_refl eq_refl) as [fully_applied [Hsome Hdiff]].
  vm_compute in Hsome. injection Hsome as <-. apply Hdiff. reflexivity.
Qed.

(** The other way C4 fails: an AlterTable that only adds a range partition,
    from "m" on, to a table whose tablet ends at "k" leaves the table in
    ALTERING without a fully_applied_schema. *)
Lemma add_partition_leaves_no_fully_applied_schema :
  exists resp rpcs cm' ti,
    AlterTable (sample_alter AlterTableRequestPB.ADD_RANGE_PARTITION "m") (sample_partial [])
    = Returned OK resp rpcs cm'
    /\ CatalogManager.table_ids_map_ cm' !! "id" = Some ti
    /\ SysTablesEntryPB.state (TableInfo.metadata_ ti) = SysTablesEntryPB.ALTERING
    /\ SysTablesEntryPB.fully_applied_schema (TableInfo.metadata_ ti) = None.
Proof.
  eexists _, _, _, _. split; [vm_compute; reflexivity|].
  split; [vm_compute; reflexivity|]. split; reflexivity.
Qed.

(** The record of the table after an AlterTable that returned OK, for the
    plan the first steps of the handler made. *)
Lemma AlterTable_record_after `{Externals} req cm plan cm1 resp rpcs cm' :
  AlterTable_prepare req cm = inr (plan, cm1) ->
  AlterTable req cm = Returned OK resp rpcs cm' ->
  let old := TableInfo.metadata_ (alter_plan_table plan) in
  (has_metadata_changes_for_existing_tablets req plan = true ->
   exists table',
     CatalogManager.table_ids_map_ cm' !! TableInfo.table_id_ (alter_plan_table plan)
     = Some table'
     /\ SysTablesEntryPB.state (TableInfo.metadata_ table') = SysTablesEntryPB.ALTERING
     /\ SysTablesEntryPB.fully_applied_schema (TableInfo.metadata_ table')
        = Some (default (SysTablesEntryPB.schema old)
                  (SysTablesEntryPB.fully_applied_schema old))
     /\ SysTablesEntryPB.schema (TableInfo.metadata_ table')
        = (if has_schema_changes plan then alter_plan_new_schema plan
           else SysTablesEntryPB.schema old))
  /\ (has_metadata_changes req plan = false ->
      tablets_to_add plan <> [] ->
      has_partitioning_changes plan = true ->
      exists table',
        CatalogManager.table_ids_map_ cm' !! TableInfo.table_id_ (alter_plan_table plan)
        = Some table'
        /\ SysTablesEntryPB.state (TableInfo.metadata_ table') = SysTablesEntryPB.ALTERING
        /\ SysTablesEntryPB.fully_applied_schema (TableInfo.metadata_ table')
           = SysTablesEntryPB.fully_applied_schema old
        /\ SysTablesEntryPB.schema (TableInfo.metadata_ table')
           = SysTablesEntryPB.schema old).
Proof.
  intros Hprep Halter old. unfold AlterTable in Halter. rewrite Hprep in Halter.
  apply AlterTable_prepare_plan in Hprep as [_ [_ [_ [Hdirty _]]]].
  apply AlterTable_apply_OK in Halter; [|reflexivity].
  assert (Hsame : SysTablesEntryPB.state (alter_plan_dirty plan) = SysTablesEntryPB.state old
                  /\ SysTablesEntryPB.fully_applied_schema (alter_plan_dirty plan)
                     = SysTablesEntryPB.fully_applied_schema old
                  /\ SysTablesEntryPB.schema (alter_plan_dirty plan)
                     = SysTablesEntryPB.schema old).
  { rewrite Hdirty. destruct (AlterTableRequestPB.new_table_name req); auto. }
  destruct Hsame as [Hstate [Hfas Hschema]].
  pose proof (AlterTable_update_record_spec (has_schema_changes plan)
                (has_metadata_changes req plan)
                (has_metadata_changes_for_existing_tablets req plan)
                (negb (bool_decide (tablets_to_add plan = [])))
                (alter_plan_new_schema plan) (alter_plan_next_col_id plan)
                (alter_plan_dirty plan)) as Hrec.
  cbv zeta in Hrec. fold (AlterTable_dirty req plan) in Hrec.
  destruct Hrec as [Hst [Hf [Hsc _]]].
  split.
  - intros Hfor.
    assert (Hmeta : has_metadata_changes req plan = true).
    { unfold has_metadata_changes_for_existing_tablets in Hfor.
      apply andb_true_iff in Hfor as [Hm _]. exact Hm. }
    destruct Halter as [[Hno _] | [_ [_ [table' [Hlookup Hrecord]]]]];
      [congruence|].
    exists table'. split; [exact Hlookup|].
    rewrite Hmeta, orb_true_r in Hrecord. rewrite Hrecord.
    rewrite Hst, Hf, Hsc, Hfor, orb_true_r, Hfas, Hschema. auto.
  - intros Hmeta Hadded Hpart.
    destruct Halter as [[_ [Hno _]] | [_ [_ [table' [Hlookup Hrecord]]]]];
      [congruence|].
    exists table'. split; [exact Hlookup|].
    assert (Hfor : has_metadata_changes_for_existing_tablets req plan = false).
    { unfold has_metadata_changes_for_existing_tablets. rewrite Hmeta. reflexivity. }
    assert (Hta : negb (bool_decide (tablets_to_add plan = [])) = true).
    { apply negb_true_iff, bool_decide_eq_false. exact Hadded. }
    rewrite Hta in Hrecord. cbn [orb] in Hrecord. rewrite Hrecord.
    rewrite Hst, Hf, Hsc, Hfor, Hta, Hfas, Hschema.
    assert (Hnosc : has_schema_changes plan = false).
    { unfold has_metadata_changes in Hmeta. apply orb_false_iff in Hmeta as [Hs _].
      exact Hs. }
    rewrite Hnosc. auto.
Qed.

(** ** C1 *)

Lemma single_write_outcome_frame cm0 cm s rpcs cm' :
  CatalogManager.directory cm = CatalogManager.directory cm0 ->
  CatalogManager.sys_catalog_ cm = CatalogManager.sys_catalog_ cm0 ->
  single_write_outcome cm s rpcs cm' -> single_write_outcome cm0 s rpcs cm'.
Proof.
  unfold single_write_outcome. intros Hdir Hsys. rewrite Hdir, Hsys. tauto.
Qed.

(** A handler whose every return is a [single_write_outcome] keeps the
    order of write and commit. *)
Lemma single_write_discipline {R : Type} (handler : CatalogManager.t -> Outcome R) :
  (forall cm s resp rpcs cm',
     handler cm = Returned s resp rpcs cm' -> single_write_outcome cm s rpcs cm') ->
  failed_write_returns_error handler
  /\ commit_follows_write handler
  /\ no_error_after_write handler.
Proof.
  intros Hsingle.
  unfold failed_write_returns_error, commit_follows_write, no_error_after_write.
  split; [|split]; intros cm s resp rpcs cm' Hret Hcond;
    destruct (Hsingle _ _ _ _ _ Hret)
      as [[Hsys [Hrpcs Hdir]]
         | [[Hnext [Hs [Hrpcs [Hdir [Hoks Hfails]]]]]
           | [Hnext [Hs [Hoks Hfails]]]]];
    try (rewrite Hsys in Hcond); try congruence; try lia; auto.
  split; [exact Hs|]. split; [|auto]. subst s. apply ok_false. exact Hnext.
Qed.

(** Case analysis on the write a handler makes: it succeeded or it
    failed, with what [Write_outcome] says of the system catalog after. *)
Ltac case_write H :=
  match type of H with
  | context [SysCatalogTable.Write ?a ?sc] =>
      let Hw := fresh "Hwrite" in
      let s0 := fresh "s0" in
      let sc0 := fresh "sc0" in
      pose proof (Write_outcome a sc) as Hw;
      destruct (SysCatalogTable.Write a sc) as [s0 sc0];
      cbn [fst snd] in Hw;
      destruct Hw as [[?Hnext [?Hs0 [?Htables [?Htablets [?Hoks ?Hfails]]]]]
                     | [?Hnext [?Hs0 [?Htables [?Htablets [?Hoks ?Hfails]]]]]];
      subst s0
  end.

Lemma CreateTable_apply_single_write plan cm s resp rpcs cm' :
  CreateTable_apply plan cm = Returned s resp rpcs cm' ->
  single_write_outcome cm s rpcs cm'.
Proof.
  unfold CreateTable_apply. intros Happly.
  destruct (negb _); [discriminate Happly|].
  case_write Happly.
  - change (negb (ok OK)) with false in Happly. cbv iota in Happly.
    destruct (TableInfo.AddRemoveTablets _ _ _ _); [|discriminate Happly].
    destruct (publish_tablets _ _); [|discriminate Happly].
    injection Happly as <- _ <- <-. right. right. cbn. auto.
  - rewrite Hnext in Happly. cbn [negb] in Happly.
    injection Happly as <- _ <- <-. right. left. cbn. auto 10.
Qed.

Lemma CreateTable_single_write `{Externals} req live cm s resp rpcs cm' :
  CreateTable req live cm = Returned s resp rpcs cm' ->
  single_write_outcome cm s rpcs cm'.
Proof.
  unfold CreateTable. intros Hcreate.
  destruct (CreateTable_prepare req live cm) as [refused | [plan cm1]] eqn:Hprep.
  - subst refused. apply CreateTable_prepare_refuses in Hprep as [_ [-> ->]].
    left. auto.
  - apply CreateTable_prepare_plan in Hprep as [_ [Hdir [Hsys _]]].
    apply (single_write_outcome_frame cm cm1 _ _ _ Hdir Hsys).
    apply (CreateTable_apply_single_write _ _ _ _ _ _ Hcreate).
Qed.

Lemma DeleteTable_apply_single_write `{Externals} table cm s resp rpcs cm' :
  DeleteTable_apply table cm = Returned s resp rpcs cm' ->
  single_write_outcome cm s rpcs cm'.
Proof.
  unfold DeleteTable_apply. intros Happly.
  case_write Happly.
  - change (negb (ok OK)) with false in Happly. cbv iota in Happly.
    destruct (CatalogManager.table_names_map_ _ !! _); [|discriminate Happly].
    injection Happly as <- _ _ <-. right. right. cbn. auto.
  - rewrite Hnext in Happly. cbn [negb] in Happly.
    injection Happly as <- _ <- <-. right. left. cbn. auto 10.
Qed.

Lemma DeleteTable_prepare_refuses req cm s resp rpcs cm' :
  DeleteTable_prepare req cm = inl (Returned s resp rpcs cm') ->
  s <> OK /\ rpcs = [] /\ cm' = cm.
Proof.
  unfold DeleteTable_prepare. intros Hprep.
  destruct (negb (ok (CheckOnline cm))) eqn:Honline.
  { injection Hprep as <- _ <- <-. apply negb_true_iff, ok_false in Honline. auto. }
  destruct (FindAndLockTable req cm) as [s0 [table|]].
  - destruct (negb (ok s0)) eqn:Hs0.
    { injection Hprep as <- _ <- <-. apply negb_true_iff, ok_false in Hs0. auto. }
    destruct (PersistentTableInfo.is_deleted _); [|discriminate Hprep].
    injection Hprep as <- _ <- <-. split; [discriminate|auto].
  - destruct (negb (ok s0)) eqn:Hs0; injection Hprep as <- _ <- <-.
    + apply negb_true_iff, ok_false in Hs0. auto.
    + split; [discriminate|auto].
Qed.

Lemma DeleteTable_single_write `{Externals} req cm s resp rpcs cm' :
  DeleteTable req cm = Returned s resp rpcs cm' ->
  single_write_outcome cm s rpcs cm'.
Proof.
  unfold DeleteTable. intros Hdelete.
  destruct (DeleteTable_prepare req cm) as [refused | table] eqn:Hprep.
  - subst refused. apply DeleteTable_prepare_refuses in Hprep as [_ [-> ->]].
    left. auto.
  - apply (DeleteTable_apply_single_write _ _ _ _ _ _ Hdelete).
Qed.

Lemma AlterTable_apply_single_write `{Externals} req plan cm s resp rpcs cm' :
  AlterTable_apply req plan cm = Returned s resp rpcs cm' ->
  single_write_outcome cm s rpcs cm'.
Proof.
  unfold AlterTable_apply. intros Happly.
  destruct (negb (has_metadata_changes req plan) && negb (has_partitioning_changes plan)).
  { injection Happly as _ _ <- <-. left.
    destruct (AlterTable_cleanup_frame req cm) as [Hdir Hsys]. auto. }
  case_write Happly.
  - change (negb (ok OK)) with false in Happly. cbv iota in Happly.
    match type of Happly with
    | match ?x with _ => _ end = _ => destruct x as [names|]
    end; [|discriminate Happly].
    destruct (publish_tablets _ _) as [published|]; [|discriminate Happly].
    destruct (TableInfo.AddRemoveTablets _ _ _ _) as [table1|]; [|discriminate Happly].
    injection Happly as <- _ _ <-. right. right.
    match goal with
    | |- context [AlterTable_cleanup req ?c] =>
        destruct (AlterTable_cleanup_frame req c) as [_ Hsys]; rewrite Hsys
    end.
    cbn. auto.
  - rewrite Hnext in Happly. cbn [negb] in Happly.
    injection Happly as <- _ <- <-. right. left.
    match goal with
    | |- context [AlterTable_cleanup req ?c] =>
        destruct (AlterTable_cleanup_frame req c) as [Hdir Hsys]; rewrite Hdir, Hsys
    end.
    cbn. auto 10.
Qed.

Lemma AlterTable_single_write `{Externals} req cm s resp rpcs cm' :
  AlterTable req cm = Returned s resp rpcs cm' ->
  single_write_outcome cm s rpcs cm'.
Proof.
  unfold AlterTable. intros Halter.
  destruct (AlterTable_prepare req cm) as [refused | [plan cm1]] eqn:Hprep.
  - subst refused. apply AlterTable_prepare_refuses in Hprep as [_ [-> [Hdir Hsys]]].
    left. auto.
  - apply AlterTable_prepare_plan in Hprep as [Hdir [Hsys _]].
    apply (single_write_outcome_frame cm cm1 _ _ _ Hdir Hsys).
    apply (AlterTable_apply_single_write _ _ _ _ _ _ _ Halter).
Qed.

Lemma set_reported_schema_version_sys tablet_id version cm :
  CatalogManager.sys_catalog_ (set_reported_schema_version tablet_id version cm)
  = CatalogManager.sys_catalog_ cm.
Proof.
  unfold set_reported_schema_version. split_cases; reflexivity.
Qed.

Lemma HandleTabletSchemaVersionReport_writes `{Externals} tablet_id version cm :
  (SysCatalogTable.writes_ok_ (CatalogManager.sys_catalog_ cm)
   <= SysCatalogTable.writes_ok_
        (CatalogManager.sys_catalog_
           (HandleTabletSchemaVersionReport tablet_id version cm)))%nat.
Proof.
  unfold HandleTabletSchemaVersionReport.
  pose proof (set_reported_schema_version_sys tablet_id version cm) as Hsys.
  destruct (_ ≫= _) as [table|]; [|rewrite Hsys; lia].
  destruct (_ || _); [rewrite Hsys; lia|].
  destruct (TableInfo.IsAlterInProgress _ _); [rewrite Hsys; lia|].
  match goal with
  | |- context [SysCatalogTable.Write ?a ?sc] =>
      pose proof (Write_outcome a sc) as Hw;
      destruct (SysCatalogTable.Write a sc) as [s0 sc0]
  end.
  cbn [fst snd] in Hw. rewrite Hsys in Hw.
  destruct Hw as [[_ [-> [_ [_ [Hoks _]]]]] | [Hnext [-> [_ [_ [Hoks _]]]]]].
  - change (negb (ok OK)) with false. cbn. lia.
  - rewrite Hnext. cbn. lia.
Qed.

Lemma handle_schema_versions_writes `{Externals} reports cm :
  (SysCatalogTable.writes_ok_ (CatalogManager.sys_catalog_ cm)
   <= SysCatalogTable.writes_ok_
        (CatalogManager.sys_catalog_ (handle_schema_versions reports cm)))%nat.
Proof.
  unfold handle_schema_versions. generalize (map_to_list reports). intros l.
  revert cm. induction l as [|e l IH]; intros cm; [cbn; lia|].
  cbn [foldl]. etransitivity; [|apply IH].
  destruct (ReportedTabletPB.schema_version e.2); [|lia].
  apply HandleTabletSchemaVersionReport_writes.
Qed.

(** How a ProcessTabletReport may end: with the batched write of the
    tablets failed, its status returned, no task started and the directory
    as it was; or with that write done and the status OK. *)
Lemma ProcessTabletReport_batch_write `{Externals} ts full_report cm s resp rpcs cm' :
  ProcessTabletReport ts full_report cm = Returned s resp rpcs cm' ->
  (ok (SysCatalogTable.next_outcome (CatalogManager.sys_catalog_ cm)) = false
   /\ s = SysCatalogTable.next_outcome (CatalogManager.sys_catalog_ cm)
   /\ rpcs = []
   /\ CatalogManager.directory cm' = CatalogManager.directory cm
   /\ SysCatalogTable.writes_ok_ (CatalogManager.sys_catalog_ cm')
      = SysCatalogTable.writes_ok_ (CatalogManager.sys_catalog_ cm)
   /\ SysCatalogTable.writes_failed_ (CatalogManager.sys_catalog_ cm')
      = S (SysCatalogTable.writes_failed_ (CatalogManager.sys_catalog_ cm)))
  \/ (ok (SysCatalogTable.next_outcome (CatalogManager.sys_catalog_ cm)) = true
      /\ s = OK
      /\ (S (SysCatalogTable.writes_ok_ (CatalogManager.sys_catalog_ cm))
          <= SysCatalogTable.writes_ok_ (CatalogManager.sys_catalog_ cm'))%nat).
Proof.
  unfold ProcessTabletReport. intros Hreport.
  destruct (process_reports ts cm _) as [pass|]; [|discriminate Hreport].
  case_write Hreport.
  - change (negb (ok OK)) with false in Hreport. cbv iota in Hreport.
    injection Hreport as <- _ _ <-. right. split; [exact Hnext|]. split; [reflexivity|].
    etransitivity; [|apply handle_schema_versions_writes]. cbn. lia.
  - rewrite Hnext in Hreport. cbn [negb] in Hreport.
    injection Hreport as <- _ <- <-. left. cbn. auto 10.
Qed.

Lemma ProcessTabletReport_discipline `{Externals} ts full_report :
  failed_first_write_returns_error (ProcessTabletReport ts full_report)
  /\ commit_follows_write (ProcessTabletReport ts full_report)
  /\ no_error_after_write (ProcessTabletReport ts full_report).
Proof.
  unfold failed_first_write_returns_error, commit_follows_write, no_error_after_write.
  split; [|split]; intros cm s resp rpcs cm' Hret Hcond;
    destruct (ProcessTabletReport_batch_write _ _ _ _ _ _ _ Hret)
      as [[Hnext [Hs [Hrpcs [Hdir [Hoks Hfails]]]]] | [Hnext [Hs Hoks]]];
    try congruence; try lia; auto.
  split; [exact Hs|]. split; [subst s; apply ok_false; exact Hnext|].
  split; [exact Hrpcs|]. split; [exact Hdir|]. lia.
Qed.

(** ** The commit completes *)

Lemma CreateTabletInfos_ids `{Externals} tid parts cm :
  (CreateTabletInfos tid parts cm).1.*1
  = oid_Next <$> seq (CatalogManager.oid_generator_ cm) (length parts)
  /\ (forall r, r ∈ (CreateTabletInfos tid parts cm).1 ->
        SysTabletsEntryPB.state r.2 = SysTabletsEntryPB.PREPARING).
Proof.
  revert cm. induction parts as [|p ps IH]; intros cm.
  { split; [reflexivity|]. intros r Hr. cbn in Hr. inversion Hr. }
  cbn [CreateTabletInfos GenerateId length seq fmap list_fmap].
  specialize (IH (CatalogManager.set_oid (S (CatalogManager.oid_generator_ cm)) cm)).
  destruct (CreateTabletInfos tid ps _) as [rest cm2]. cbn [fst snd] in *.
  destruct IH as [Hids Hstates]. split.
  - cbn. f_equal. exact Hids.
  - intros r Hr. apply elem_of_cons in Hr as [-> | Hr]; [reflexivity | auto].
Qed.

Lemma fresh_ids_tablets `{Externals} cm (k n : nat) (m : gmap string TabletInfo.t) tid
    (rs : list (string * SysTabletsEntryPB.t)) :
  fresh_ids cm ->
  (CatalogManager.oid_generator_ cm <= k)%nat ->
  m = CatalogManager.tablet_map_ cm ->
  rs.*1 = oid_Next <$> seq k n ->
  is_Some (publish_tablets (new_TabletInfo tid <$> rs) m).
Proof.
  intros [Hinj Hfresh] Hk -> Hids.
  exists (with_tablets (new_TabletInfo tid <$> rs) (CatalogManager.tablet_map_ cm)).
  apply publish_tablets_Some.
  assert (Hmap : TabletInfo.tablet_id_ <$> (new_TabletInfo tid <$> rs) = rs.*1).
  { rewrite <- list_fmap_compose. reflexivity. }
  split; [|split; [|reflexivity]].
  - rewrite Hmap, Hids. apply NoDup_fmap_2_strong; [|apply NoDup_seq].
    intros i j Hi Hj Heq. apply elem_of_seq in Hi, Hj. apply Hinj; [lia | lia | exact Heq].
  - intros t Ht. apply list_elem_of_fmap in Ht as [r [-> Hr]]. cbn.
    assert (Hin : r.1 ∈ rs.*1) by (apply list_elem_of_fmap; eauto).
    rewrite Hids in Hin. apply list_elem_of_fmap in Hin as [i [-> Hi]].
    apply elem_of_seq in Hi. apply Hfresh. lia.
Qed.

Lemma forallb_PREPARING (rs : list (string * SysTabletsEntryPB.t)) :
  (forall r, r ∈ rs -> SysTabletsEntryPB.state r.2 = SysTabletsEntryPB.PREPARING) ->
  forallb (fun r => bool_decide (SysTabletsEntryPB.state r.2
                                 = SysTabletsEntryPB.PREPARING)) rs = true.
Proof.
  intros Hall. apply forallb_forall. intros r Hr. apply bool_decide_eq_true.
  apply Hall, list_elem_of_In, Hr.
Qed.

(** CreateTable returns when the ids of the generator are fresh. *)
Lemma CreateTable_returns `{Externals} req live cm :
  fresh_ids cm -> never_dies (CreateTable req live) cm.
Proof.
  intros Hfresh. unfold never_dies, CreateTable.
  destruct (CreateTable_prepare req live cm) as [refused | [plan cm1]] eqn:Hprep.
  { unfold CreateTable_prepare in Hprep. cbv zeta in Hprep.
    repeat match type of Hprep with
           | (if ?c then _ else _) = _ => destruct c
           | (let '(_, _) := ?x in _) = _ => destruct x as [? ?]
           | match ?x with _ => _ end = _ => destruct x
           end; try discriminate Hprep; injection Hprep as <-; eauto. }
  unfold CreateTable_prepare in Hprep. cbv zeta in Hprep.
  destruct (negb (ok (CheckOnline cm))); [discriminate Hprep|].
  destruct (PrepareCreateTable req) as [[s0 e0] [[schema pschema] partitions]].
  destruct (negb (ok s0)); [discriminate Hprep|].
  destruct (CreateTable_check_replication _ _ _) as [[c s1]|]; [discriminate Hprep|].
  destruct (CatalogManager.table_names_map_ cm !! create_name req); [discriminate Hprep|].
  destruct (bool_decide _); [discriminate Hprep|].
  cbn [GenerateId] in Hprep.
  pose proof (CreateTabletInfos_ids (oid_Next (CatalogManager.oid_generator_ cm)) partitions
                (CatalogManager.set_oid (S (CatalogManager.oid_generator_ cm))
                   (CatalogManager.set_reserved
                      ({[create_name req]} ∪ CatalogManager.reserved_table_names_ cm) cm)))
    as [Hids Hstates].
  pose proof (CreateTabletInfos_frame (oid_Next (CatalogManager.oid_generator_ cm)) partitions
                (CatalogManager.set_oid (S (CatalogManager.oid_generator_ cm))
                   (CatalogManager.set_reserved
                      ({[create_name req]} ∪ CatalogManager.reserved_table_names_ cm) cm)))
    as [Hdir _].
  destruct (CreateTabletInfos _ partitions _) as [tablets cm3].
  cbn [fst snd] in Hids, Hstates, Hdir. injection Hprep as <- <-.
  unfold CreateTable_apply. cbn [plan_name plan_table_id plan_table plan_tablets].
  rewrite (forallb_PREPARING _ Hstates).
  change (SysTablesEntryPB.state (CreateTableInfo _ _ _ _)) with SysTablesEntryPB.PREPARING.
  rewrite bool_decide_eq_true_2 by reflexivity. cbn [andb negb].
  destruct (SysCatalogTable.Write _ _) as [s sc].
  destruct (negb (ok s)); [eauto|].
  match goal with
  | |- context [TableInfo.AddRemoveTablets ?st ?ts [] ?t] =>
      destruct (AddRemoveTablets_add_only st ts t) as [counts ->]
  end.
  destruct (fresh_ids_tablets cm (S (CatalogManager.oid_generator_ cm)) (length partitions)
              (CatalogManager.tablet_map_ cm3)
              (oid_Next (CatalogManager.oid_generator_ cm)) tablets Hfresh)
    as [published Hpub]; [lia | | exact Hids |].
  { unfold CatalogManager.directory in Hdir. cbn in Hdir. congruence. }
  cbn [CatalogManager.set_sys_catalog CatalogManager.tablet_map_].
  rewrite Hpub. eauto.
Qed.

Lemma FindAndLockTable_found ident cm s table :
  FindAndLockTable ident cm = (s, Some table) ->
  exists id, CatalogManager.table_ids_map_ cm !! id = Some table.
Proof.
  unfold FindAndLockTable. intros Hfind.
  repeat match type of Hfind with
         | (if ?c then _ else _) = _ => destruct c
         | match ?x ≫= ?f with _ => _ end = _ => destruct (x ≫= f) as [?|] eqn:?
         | match ?x with _ => _ end = _ => destruct x as [?|] eqn:?
         end; try discriminate Hfind; injection Hfind as _ <-;
    match goal with
    | Hb : ?x ≫= _ = Some ?t |- _ =>
        destruct x as [id|]; [|discriminate Hb]; cbn in Hb; exists id; exact Hb
    end.
Qed.

(** DeleteTable returns when the tables are in the by-name map. *)
Lemma DeleteTable_returns `{Externals} req cm :
  names_consistent cm -> never_dies (DeleteTable req) cm.
Proof.
  intros Hnames. unfold never_dies, DeleteTable.
  destruct (DeleteTable_prepare req cm) as [refused | table] eqn:Hprep.
  { unfold DeleteTable_prepare in Hprep. cbv zeta in Hprep.
    repeat match type of Hprep with
           | (if ?c then _ else _) = _ => destruct c
           | match ?x with _ => _ end = _ => destruct x
           end; try discriminate Hprep; injection Hprep as <-; eauto. }
  unfold DeleteTable_prepare in Hprep. cbv zeta in Hprep.
  destruct (negb (ok (CheckOnline cm))); [discriminate Hprep|].
  destruct (FindAndLockTable req cm) as [s0 [found|]] eqn:Hfind.
  2:{ destruct (negb (ok s0)); discriminate Hprep. }
  destruct (negb (ok s0)); [discriminate Hprep|].
  destruct (PersistentTableInfo.is_deleted (TableInfo.metadata_ found)) eqn:Hdel;
    [discriminate Hprep|].
  injection Hprep as <-.
  apply FindAndLockTable_found in Hfind as [id Hid].
  destruct (Hnames id found Hid Hdel) as [tid Hname].
  unfold DeleteTable_apply. cbv zeta.
  destruct (SysCatalogTable.Write _ _) as [s sc].
  destruct (negb (ok s)); [eauto|].
  cbn [CatalogManager.set_sys_catalog CatalogManager.table_names_map_
       PersistentTableInfo.set_state SysTablesEntryPB.name].
  rewrite Hname. eauto.
Qed.

Lemma drop_tablets_Some (drops : list TabletInfo.t) (m : gmap string string)
    (c : gmap Z nat) :
  let starts :=
    (fun tab => partition_key_start
                  (SysTabletsEntryPB.partition (TabletInfo.metadata_ tab))) <$> drops in
  NoDup starts -> (forall k, k ∈ starts -> is_Some (m !! k)) ->
  is_Some (foldl (fun acc tab => TableInfo.drop_tablet tab acc) (Some (m, c)) drops).
Proof.
  cbv zeta. revert m c.
  induction drops as [|tab drops IH]; intros m c Hnodup Hin; [cbn; eauto|].
  cbn [foldl fmap list_fmap] in *. apply NoDup_cons in Hnodup as [Hnotin Hnodup].
  unfold TableInfo.drop_tablet at 2. cbn [mbind option_bind].
  destruct (Hin _ (list_elem_of_here _ _)) as [tid ->].
  apply IH; [exact Hnodup|].
  intros k Hk. rewrite lookup_delete_ne; [apply Hin; right; exact Hk|].
  intros <-. exact (Hnotin Hk).
Qed.

Lemma AddRemoveTablets_returns store adds drops table :
  drops_of_table table drops ->
  is_Some (TableInfo.AddRemoveTablets store adds drops table).
Proof.
  intros [Hnodup Hin]. unfold TableInfo.AddRemoveTablets.
  destruct (drop_tablets_Some drops (TableInfo.tablet_map_ table)
              (TableInfo.schema_version_counts_ table) Hnodup Hin) as [dropped ->].
  cbn [mbind option_bind]. destruct (foldl _ dropped adds) as [m c]. eauto.
Qed.

(** The partitioning step behind a plan of AlterTable: the catalog it ran
    on has the directory, the system catalog, the state and the generator
    of the catalog of the request. *)
Lemma AlterTable_prepare_partitioning `{Externals} req cm plan cm1 :
  AlterTable_prepare req cm = inr (plan, cm1) ->
  exists schema_steps steps cm0,
    group_steps (AlterTableRequestPB.alter_schema_steps req) = Some (schema_steps, steps)
    /\ CatalogManager.directory cm0 = CatalogManager.directory cm
    /\ CatalogManager.sys_catalog_ cm0 = CatalogManager.sys_catalog_ cm
    /\ CatalogManager.state_ cm0 = CatalogManager.state_ cm
    /\ CatalogManager.oid_generator_ cm0 = CatalogManager.oid_generator_ cm
    /\ has_schema_changes plan = negb (bool_decide (schema_steps = []))
    /\ has_partitioning_changes plan = negb (bool_decide (steps = []))
    /\ alter_partitioning req (alter_plan_dirty plan) (alter_plan_table plan) steps cm0
       = Some (inr (tablets_to_add plan, tablets_to_drop plan, cm1)).
Proof.
  unfold AlterTable_prepare. intros Hprep.
  destruct (negb (ok (CheckOnline cm))); [discriminate Hprep|].
  destruct (group_steps _) as [[schema_steps part_steps]|]; [|discriminate Hprep].
  destruct (FindAndLockTable _ cm) as [s [table|]] eqn:Hfind;
    [|destruct (negb (ok s)); discriminate Hprep].
  destruct (negb (ok s)); [discriminate Hprep|].
  destruct (PersistentTableInfo.is_deleted _) eqn:Hdel; [discriminate Hprep|].
  match type of Hprep with
  | match ?sr with _ => _ end = _ => destruct sr as [s1 | [new_schema next_col]]
  end; [discriminate Hprep|].
  match type of Hprep with
  | match ?rn with _ => _ end = _ =>
      destruct rn as [[s2 c] | [dirty cm0]] eqn:Hren
  end; [discriminate Hprep|].
  assert (Hframe : CatalogManager.directory cm0 = CatalogManager.directory cm
                   /\ CatalogManager.sys_catalog_ cm0 = CatalogManager.sys_catalog_ cm
                   /\ CatalogManager.state_ cm0 = CatalogManager.state_ cm
                   /\ CatalogManager.oid_generator_ cm0 = CatalogManager.oid_generator_ cm).
  { destruct (AlterTableRequestPB.new_table_name req) as [n|].
    - destruct (negb (ok (ValidateIdentifier n))); [discriminate Hren|].
      destruct (bool_decide (is_Some _)); [discriminate Hren|].
      destruct (bool_decide (n ∈ _)); [discriminate Hren|].
      injection Hren as _ <-. auto.
    - injection Hren as _ <-. auto. }
  destruct (alter_partitioning req dirty table part_steps cm0)
    as [[[[s3 e] cm2] | [[to_add to_drop] cm2]]|] eqn:Hpart; try discriminate Hprep.
  injection Hprep as <- <-. exists schema_steps, part_steps, cm0.
  cbn [alter_plan_dirty alter_plan_table tablets_to_add tablets_to_drop
       has_partitioning_changes has_schema_changes].
  destruct Hframe as (? & ? & ? & ?). auto 10.
Qed.

Lemma AlterTable_prepare_returns `{Externals} req cm :
  AlterTable_prepare req cm <> inl Crashed.
Proof.
  unfold AlterTable_prepare. intros Hprep.
  destruct (negb (ok (CheckOnline cm))); [discriminate Hprep|].
  destruct (group_steps _) as [[schema_steps part_steps]|] eqn:Hgroup; [|discriminate Hprep].
  destruct (FindAndLockTable _ cm) as [s [table|]] eqn:Hfind;
    [|destruct (negb (ok s)); discriminate Hprep].
  destruct (negb (ok s)); [discriminate Hprep|].
  destruct (PersistentTableInfo.is_deleted _) eqn:Hdel; [discriminate Hprep|].
  match type of Hprep with
  | match ?sr with _ => _ end = _ => destruct sr as [s1 | [new_schema next_col]]
  end; [discriminate Hprep|].
  match type of Hprep with
  | match ?rn with _ => _ end = _ =>
      destruct rn as [[s2 c] | [dirty cm0]] eqn:Hren
  end; [discriminate Hprep|].
  destruct (alter_partitioning_returns req dirty table part_steps cm0
              (group_steps_partitioning _ _ _ Hgroup)) as [r Hr].
  rewrite Hr in Hprep. destruct r as [[[s3 e] cm2] | [[to_add to_drop] cm2]];
    discriminate Hprep.
Qed.

(** The ids of the new tablets of a plan are ids the generator gave in the
    call, each to one tablet when the generator does not repeat itself. *)
Lemma AlterTable_prepare_ids `{Externals} req cm plan cm1 :
  AlterTable_prepare req cm = inr (plan, cm1) ->
  (CatalogManager.oid_generator_ cm <= CatalogManager.oid_generator_ cm1)%nat
  /\ (forall r, r ∈ tablets_to_add plan ->
        exists i p,
          (CatalogManager.oid_generator_ cm <= i < CatalogManager.oid_generator_ cm1)%nat
          /\ r = (oid_Next i,
                  CreateTabletInfo (TableInfo.table_id_ (alter_plan_table plan)) p))
  /\ ((forall i j, (CatalogManager.oid_generator_ cm <= i)%nat ->
                   (CatalogManager.oid_generator_ cm <= j)%nat ->
                   oid_Next i = oid_Next j -> i = j) ->
      NoDup (tablets_to_add plan).*1).
Proof.
  intros Hprep.
  apply AlterTable_prepare_partitioning in Hprep
    as (schema_steps & steps & cm0 & _ & _ & _ & _ & Hoid & _ & _ & Hpart).
  apply alter_partitioning_spec in Hpart
    as (_ & _ & _ & _ & Hle & Hids & Hnodup & _).
  cbn in Hle, Hids, Hnodup. rewrite Hoid in Hle, Hids, Hnodup. auto.
Qed.

(** The tablets a plan of AlterTable drops are tablets of the table, each
    under its own key of the map of the table. *)
Lemma AlterTable_prepare_to_drop `{Externals} req cm plan cm1 :
  AlterTable_prepare req cm = inr (plan, cm1) ->
  exists ks,
    NoDup ks
    /\ Forall2 (fun k tab =>
                  exists id, TableInfo.tablet_map_ (alter_plan_table plan) !! k = Some id
                             /\ CatalogManager.tablet_map_ cm !! id = Some tab)
         ks (tablets_to_drop plan).
Proof.
  intros Hprep.
  apply AlterTable_prepare_partitioning in Hprep
    as (schema_steps & steps & cm0 & _ & Hdir & _ & _ & _ & _ & _ & Hpart).
  apply alter_partitioning_spec in Hpart as (_ & _ & _ & _ & _ & _ & _ & Hdrops & _).
  unfold CatalogManager.directory in Hdir. injection Hdir as _ _ Htablets.
  rewrite Htablets in Hdrops. exact Hdrops.
Qed.

Lemma fresh_ids_publish `{Externals} cm (m : gmap string TabletInfo.t) tid
    (rs : list (string * SysTabletsEntryPB.t)) :
  fresh_ids cm ->
  m = CatalogManager.tablet_map_ cm ->
  NoDup rs.*1 ->
  (forall r, r ∈ rs -> exists i, (CatalogManager.oid_generator_ cm <= i)%nat
                                 /\ r.1 = oid_Next i) ->
  is_Some (publish_tablets (new_TabletInfo tid <$> rs) m).
Proof.
  intros [Hinj Hfresh] -> Hnodup Hids.
  exists (with_tablets (new_TabletInfo tid <$> rs) (CatalogManager.tablet_map_ cm)).
  apply publish_tablets_Some.
  assert (Hmap : TabletInfo.tablet_id_ <$> (new_TabletInfo tid <$> rs) = rs.*1).
  { rewrite <- list_fmap_compose. reflexivity. }
  split; [|split; [|reflexivity]].
  - rewrite Hmap. exact Hnodup.
  - intros t Ht. apply list_elem_of_fmap in Ht as [r [-> Hr]]. cbn.
    destruct (Hids r Hr) as (i & Hi & ->). apply Hfresh. exact Hi.
Qed.

(** AlterTable returns when the ids of the generator are fresh, the tables
    are in the by-name map and the tablets to drop are tablets of the
    table. *)
Lemma AlterTable_returns `{Externals} req cm :
  fresh_ids cm -> names_consistent cm ->
  (forall plan cm1, AlterTable_prepare req cm = inr (plan, cm1) ->
     drops_of_table (alter_plan_table plan) (tablets_to_drop plan)) ->
  never_dies (AlterTable req) cm.
Proof.
  intros Hfresh Hnames Hdrops. unfold never_dies, AlterTable.
  destruct (AlterTable_prepare req cm) as [[s resp rpcs cm' |] | [plan cm1]] eqn:Hprep.
  { eauto. }
  { exfalso. exact (AlterTable_prepare_returns req cm Hprep). }
  specialize (Hdrops plan cm1 eq_refl).
  destruct (AlterTable_prepare_ids _ _ _ _ Hprep) as (_ & Hids & Hnodup).
  destruct (AlterTable_prepare_plan _ _ _ _ Hprep)
    as [Hdir [_ [Hname [_ [[s0 Hfind] [Hdel Hfree]]]]]].
  apply FindAndLockTable_found in Hfind as [id Hid].
  destruct (Hnames id _ Hid Hdel) as [tid Hold].
  unfold CatalogManager.directory in Hdir.
  assert (Hnames1 : CatalogManager.table_names_map_ cm1 = CatalogManager.table_names_map_ cm)
    by congruence.
  assert (Htablets1 : CatalogManager.tablet_map_ cm1 = CatalogManager.tablet_map_ cm)
    by congruence.
  unfold AlterTable_apply. cbv zeta.
  destruct (negb (has_metadata_changes req plan) && negb (has_partitioning_changes plan));
    [eauto|].
  destruct (SysCatalogTable.Write _ _) as [s sc].
  destruct (negb (ok s)); [eauto|].
  cbn [CatalogManager.set_sys_catalog CatalogManager.table_names_map_
       CatalogManager.tablet_map_].
  rewrite Hnames1, Hname, Hold.
  assert (Hinsert :
            is_Some (match AlterTableRequestPB.new_table_name req with
                     | Some n0 =>
                         InsertOrDie n0 (TableInfo.table_id_ (alter_plan_table plan))
                           (Some (delete (SysTablesEntryPB.name
                                            (TableInfo.metadata_ (alter_plan_table plan)))
                                    (CatalogManager.table_names_map_ cm)))
                     | None => Some (CatalogManager.table_names_map_ cm)
                     end)).
  { destruct (AlterTableRequestPB.new_table_name req) as [n0|]; [|eauto].
    unfold InsertOrDie. cbn [mbind option_bind].
    rewrite (proj2 (lookup_delete_None _ _ _)); [eauto | right; auto]. }
  destruct Hinsert as [names ->].
  destruct (fresh_ids_publish cm (CatalogManager.tablet_map_ cm1)
              (TableInfo.table_id_ (alter_plan_table plan)) (tablets_to_add plan) Hfresh)
    as [published ->]; [exact Htablets1 | exact (Hnodup (proj1 Hfresh)) | |].
  { intros r Hr. destruct (Hids r Hr) as (i & p & Hi & ->). exists i. split; [lia|auto]. }
  destruct (AddRemoveTablets_returns published
              (new_TabletInfo (TableInfo.table_id_ (alter_plan_table plan))
               <$> tablets_to_add plan) (tablets_to_drop plan) (alter_plan_table plan) Hdrops)
    as [table1 ->].
  eauto.
Qed.

(** ProcessTabletReport dies only in the loop over the entries of the
    report, before the write. *)
Lemma ProcessTabletReport_returns `{Externals} ts full_report cm :
  is_Some (process_reports ts cm
             (collect_reports (CatalogManager.tablet_map_ cm) full_report))
  <-> never_dies (ProcessTabletReport ts full_report) cm.
Proof.
  unfold never_dies, ProcessTabletReport. split.
  - intros [pass ->]. destruct (SysCatalogTable.Write _ _) as [s sc].
    destruct (negb (ok s)); eauto.
  - intros [s [resp [rpcs [cm' Hret]]]].
    destruct (process_reports _ _ _) as [pass|]; [eauto | discriminate Hret].
Qed.

(** ** C1: the write comes before the commit *)

Lemma sample_oid_length n : String.length (sample_oid n) = S (S n).
Proof.
  induction n as [|n IH]; [reflexivity|].
  change (String.length (sample_oid (S n))) with (S (String.length (sample_oid n))).
  rewrite IH. reflexivity.
Qed.

Lemma sample_oid_inj i j : sample_oid i = sample_oid j -> i = j.
Proof.
  intros Heq. apply (f_equal String.length) in Heq.
  rewrite !sample_oid_length in Heq. lia.
Qed.

(** C1 as stated fails for ProcessTabletReport: the tablet "#id" reports the
    schema version that completes the alter of the table "t"; the write of
    the tablets succeeds, the write of the table record fails, and the
    handler returns OK. *)
Lemma ProcessTabletReport_failed_table_write_returns_OK :
  ~ (forall (E : Externals) ts full_report cm s resp rpcs cm',
       ProcessTabletReport ts full_report cm = Returned s resp rpcs cm' ->
       SysCatalogTable.writes_failed_ (CatalogManager.sys_catalog_ cm')
       <> SysCatalogTable.writes_failed_ (CatalogManager.sys_catalog_ cm) ->
       s <> OK /\ CatalogManager.directory cm' = CatalogManager.directory cm).
Proof.
  intros Hclaim.
  destruct (Hclaim sample_externals "A" sample_version_report (sample_altering [OK; IOError])
              _ _ _ _ eq_refl) as [Herror _].
  - vm_compute. discriminate.
  - apply Herror. reflexivity.
Qed.

(** * Further properties *)

(** ** The fully applied schema *)

Lemma CreateTable_keeps_fully_applied `{Externals} req live cm s resp rpcs cm' :
  CreateTable req live cm = Returned s resp rpcs cm' ->
  fully_applied_while_altering cm -> fully_applied_while_altering cm'.
Proof.
  unfold CreateTable. intros Hcreate Hinv.
  destruct (CreateTable_prepare req live cm) as [refused | [plan cm1]] eqn:Hprep.
  { subst refused. apply CreateTable_prepare_refuses in Hprep as [_ [_ ->]]. exact Hinv. }
  apply CreateTable_prepare_plan in Hprep as [_ [Hdir [_ [_ [_ [_ Hfas]]]]]].
  assert (Hids : CatalogManager.table_ids_map_ cm1 = CatalogManager.table_ids_map_ cm).
  { unfold CatalogManager.directory in Hdir. congruence. }
  unfold CreateTable_apply in Hcreate.
  destruct (negb _); [discriminate Hcreate|].
  destruct (SysCatalogTable.Write _ _) as [s0 sc0].
  destruct (negb (ok s0)).
  { injection Hcreate as _ _ _ <-. intros id table fa Hid. cbn in Hid.
    rewrite Hids in Hid. eauto. }
  destruct (TableInfo.AddRemoveTablets _ _ _ _) as [table1|] eqn:Hadd;
    [|discriminate Hcreate].
  apply AddRemoveTablets_metadata in Hadd as [Hmeta _]. cbn in Hmeta.
  destruct (publish_tablets _ _); [|discriminate Hcreate].
  injection Hcreate as _ _ _ <-. intros id table fa Hid Hfa. cbn in Hid.
  destruct (decide (plan_table_id plan = id)) as [<- | Hne].
  - rewrite lookup_insert_eq in Hid. injection Hid as <-.
    rewrite Hmeta in Hfa. cbn in Hfa. congruence.
  - rewrite lookup_insert_ne in Hid by exact Hne. rewrite Hids in Hid. eauto.
Qed.

Lemma DeleteTable_keeps_fully_applied `{Externals} req cm s resp rpcs cm' :
  DeleteTable req cm = Returned s resp rpcs cm' ->
  fully_applied_while_altering cm -> fully_applied_while_altering cm'.
Proof.
  unfold DeleteTable. intros Hdelete Hinv.
  destruct (DeleteTable_prepare req cm) as [refused | found] eqn:Hprep.
  { subst refused. apply DeleteTable_prepare_refuses in Hprep as [_ [_ ->]]. exact Hinv. }
  unfold DeleteTable_apply in Hdelete.
  destruct (SysCatalogTable.Write _ _) as [s0 sc0].
  destruct (negb (ok s0)).
  { injection Hdelete as _ _ _ <-. exact Hinv. }
  destruct (CatalogManager.table_names_map_ _ !! _); [|discriminate Hdelete].
  injection Hdelete as _ _ _ <-. intros id table fa Hid Hfa. cbn in Hid.
  destruct (decide (TableInfo.table_id_ found = id)) as [<- | Hne].
  - rewrite lookup_insert_eq in Hid. injection Hid as <-. right. reflexivity.
  - rewrite lookup_insert_ne in Hid by exact Hne. eauto.
Qed.

Lemma AlterTable_keeps_fully_applied `{Externals} req cm s resp rpcs cm' :
  AlterTable req cm = Returned s resp rpcs cm' ->
  fully_applied_while_altering cm -> fully_applied_while_altering cm'.
Proof.
  unfold AlterTable. intros Halter Hinv.
  destruct (AlterTable_prepare req cm) as [refused | [plan cm1]] eqn:Hprep.
  { subst refused. apply AlterTable_prepare_refuses in Hprep as [_ [_ [Hdir _]]].
    unfold CatalogManager.directory in Hdir.
    intros id table fa Hid. apply (Hinv id table fa). congruence. }
  apply AlterTable_prepare_plan in Hprep
    as [Hdir [_ [_ [Hdirty [[s1 Hfind] [Hdel _]]]]]].
  apply FindAndLockTable_found in Hfind as [tid Htid].
  assert (Hids : CatalogManager.table_ids_map_ cm1 = CatalogManager.table_ids_map_ cm).
  { unfold CatalogManager.directory in Hdir. congruence. }
  assert (Hold : forall fa,
             SysTablesEntryPB.fully_applied_schema (TableInfo.metadata_ (alter_plan_table plan))
             = Some fa ->
             SysTablesEntryPB.state (TableInfo.metadata_ (alter_plan_table plan))
             = SysTablesEntryPB.ALTERING).
  { intros fa Hfa. destruct (Hinv _ _ _ Htid Hfa) as [Hst | Hst]; [exact Hst|].
    unfold PersistentTableInfo.is_deleted in Hdel.
    apply bool_decide_eq_false in Hdel. contradiction. }
  assert (Hsame :
            SysTablesEntryPB.state (alter_plan_dirty plan)
            = SysTablesEntryPB.state (TableInfo.metadata_ (alter_plan_table plan))
            /\ SysTablesEntryPB.fully_applied_schema (alter_plan_dirty plan)
               = SysTablesEntryPB.fully_applied_schema
                   (TableInfo.metadata_ (alter_plan_table plan))).
  { rewrite Hdirty. destruct (AlterTableRequestPB.new_table_name req); auto. }
  destruct Hsame as [Hstate Hfas].
  unfold AlterTable_apply in Halter.
  destruct (negb (has_metadata_changes req plan) && negb (has_partitioning_changes plan)).
  { injection Halter as _ _ _ <-. intros id table fa Hid.
    destruct (AlterTable_cleanup_frame req cm1) as [Hd _].
    unfold CatalogManager.directory in Hd. apply (Hinv id table fa). congruence. }
  destruct (SysCatalogTable.Write _ _) as [s0 sc0].
  destruct (negb (ok s0)).
  { injection Halter as _ _ _ <-. intros id table fa Hid.
    match type of Hid with
    | context [AlterTable_cleanup req ?c] =>
        destruct (AlterTable_cleanup_frame req c) as [Hd _]
    end.
    unfold CatalogManager.directory in Hd. apply (Hinv id table fa).
    cbn in Hd. congruence. }
  match type of Halter with
  | match ?x with _ => _ end = _ => destruct x as [names|]
  end; [|discriminate Halter].
  destruct (publish_tablets _ _) as [published|]; [|discriminate Halter].
  destruct (TableInfo.AddRemoveTablets _ _ _ _) as [table1|] eqn:Hadd;
    [|discriminate Halter].
  apply AddRemoveTablets_metadata in Hadd as [Hmeta _].
  injection Halter as _ _ _ <-. intros id table fa Hid Hfa.
  match type of Hid with
  | context [AlterTable_cleanup req ?c] =>
      destruct (AlterTable_cleanup_frame req c) as [Hd _]
  end.
  unfold CatalogManager.directory in Hd. cbn in Hd.
  assert (Hid' : (<[TableInfo.table_id_ (alter_plan_table plan) :=
                      if negb (bool_decide (tablets_to_add plan = []))
                         || has_metadata_changes req plan
                      then TableInfo.set_metadata (AlterTable_dirty req plan) table1
                      else table1]> (CatalogManager.table_ids_map_ cm1)) !! id = Some table)
    by congruence.
  clear Hid Hd.
  destruct (decide (TableInfo.table_id_ (alter_plan_table plan) = id)) as [<- | Hne].
  2:{ rewrite lookup_insert_ne in Hid' by exact Hne. rewrite Hids in Hid'. eauto. }
  rewrite lookup_insert_eq in Hid'. injection Hid' as <-.
  pose proof (AlterTable_update_record_spec (has_schema_changes plan)
                (has_metadata_changes req plan)
                (has_metadata_changes_for_existing_tablets req plan)
                (negb (bool_decide (tablets_to_add plan = [])))
                (alter_plan_new_schema plan) (alter_plan_next_col_id plan)
                (alter_plan_dirty plan)) as Hrec.
  cbv zeta in Hrec. fold (AlterTable_dirty req plan) in Hrec.
  destruct Hrec as [Hst [Hf _]].
  destruct (negb (bool_decide (tablets_to_add plan = [])) || has_metadata_changes req plan)
    eqn:Hwritten.
  - cbn in Hfa |- *. rewrite Hst.
    destruct (has_metadata_changes_for_existing_tablets req plan).
    + rewrite orb_true_r. left. reflexivity.
    + rewrite Hfa in Hf. rewrite orb_false_r.
      destruct (negb (bool_decide (tablets_to_add plan = []))); [left; reflexivity|].
      left. rewrite Hstate. apply (Hold fa). congruence.
  - rewrite Hmeta in Hfa |- *. left. exact (Hold fa Hfa).
Qed.

Lemma set_reported_schema_version_keeps_fully_applied tablet_id version cm :
  fully_applied_while_altering cm ->
  fully_applied_while_altering (set_reported_schema_version tablet_id version cm).
Proof.
  intros Hinv. unfold set_reported_schema_version.
  destruct (CatalogManager.tablet_map_ cm !! tablet_id) as [tab|]; [|exact Hinv].
  destruct (bool_decide _); [exact Hinv|].
  destruct (CatalogManager.table_ids_map_ cm !! TabletInfo.table_ tab) as [table|] eqn:Htable;
    [|exact Hinv].
  destruct (negb _); [exact Hinv|].
  intros id t fa Hid Hfa. cbn in Hid.
  destruct (decide (TableInfo.table_id_ table = id)) as [<- | Hne].
  - rewrite lookup_insert_eq in Hid. injection Hid as <-. cbn in Hfa |- *. eauto.
  - rewrite lookup_insert_ne in Hid by exact Hne. eauto.
Qed.

Lemma HandleTabletSchemaVersionReport_keeps_fully_applied `{Externals} tablet_id version cm :
  fully_applied_while_altering cm ->
  fully_applied_while_altering (HandleTabletSchemaVersionReport tablet_id version cm).
Proof.
  intros Hinv.
  apply (set_reported_schema_version_keeps_fully_applied tablet_id version) in Hinv.
  unfold HandleTabletSchemaVersionReport.
  destruct (_ ≫= _) as [table|]; [|exact Hinv].
  destruct (_ || _); [exact Hinv|].
  destruct (TableInfo.IsAlterInProgress _ _); [exact Hinv|].
  destruct (SysCatalogTable.Write _ _) as [s0 sc0].
  destruct (negb (ok s0)); [exact Hinv|].
  intros id t fa Hid Hfa. cbn in Hid.
  destruct (decide (TableInfo.table_id_ table = id)) as [<- | Hne].
  - rewrite lookup_insert_eq in Hid. injection Hid as <-. cbn in Hfa. discriminate Hfa.
  - rewrite lookup_insert_ne in Hid by exact Hne. eauto.
Qed.

Lemma handle_schema_versions_keeps_fully_applied `{Externals} reports cm :
  fully_applied_while_altering cm ->
  fully_applied_while_altering (handle_schema_versions reports cm).
Proof.
  unfold handle_schema_versions. generalize (map_to_list reports). intros l.
  revert cm. induction l as [|e l IH]; intros cm Hinv; [exact Hinv|].
  cbn [foldl]. apply IH.
  destruct (ReportedTabletPB.schema_version e.2); [|exact Hinv].
  apply HandleTabletSchemaVersionReport_keeps_fully_applied, Hinv.
Qed.

Lemma ProcessTabletReport_keeps_fully_applied `{Externals} ts full_report cm s resp rpcs cm' :
  ProcessTabletReport ts full_report cm = Returned s resp rpcs cm' ->
  fully_applied_while_altering cm -> fully_applied_while_altering cm'.
Proof.
  unfold ProcessTabletReport. intros Hreport Hinv.
  destruct (process_reports ts cm _) as [pass|]; [|discriminate Hreport].
  destruct (SysCatalogTable.Write _ _) as [s0 sc0].
  destruct (negb (ok s0)).
  { injection Hreport as _ _ _ <-. exact Hinv. }
  injection Hreport as _ _ _ <-.
  apply handle_schema_versions_keeps_fully_applied. exact Hinv.
Qed.

(** X1. A table record has a fully_applied_schema only while the table is
    ALTERING, or REMOVED after it was deleted in that state: CreateTable,
    DeleteTable, AlterTable and ProcessTabletReport each keep this true of
    every table of the by-id map. *)
Theorem handlers_keep_fully_applied_while_altering `{Externals} cm cm' :
  fully_applied_while_altering cm ->
  (forall req live s resp rpcs,
     CreateTable req live cm = Returned s resp rpcs cm' -> fully_applied_while_altering cm')
  /\ (forall req s resp rpcs,
        DeleteTable req cm = Returned s resp rpcs cm' -> fully_applied_while_altering cm')
  /\ (forall req s resp rpcs,
        AlterTable req cm = Returned s resp rpcs cm' -> fully_applied_while_altering cm')
  /\ (forall ts full_report s resp rpcs,
        ProcessTabletReport ts full_report cm = Returned s resp rpcs cm' ->
        fully_applied_while_altering cm').
Proof.
  intros Hinv. split; [|split; [|split]].
  - intros req live s resp rpcs Hrun. exact (CreateTable_keeps_fully_applied _ _ _ _ _ _ _ Hrun Hinv).
  - intros req s resp rpcs Hrun. exact (DeleteTable_keeps_fully_applied _ _ _ _ _ _ Hrun Hinv).
  - intros req s resp rpcs Hrun. exact (AlterTable_keeps_fully_applied _ _ _ _ _ _ Hrun Hinv).
  - intros ts full_report s resp rpcs Hrun.
    exact (ProcessTabletReport_keeps_fully_applied _ _ _ _ _ _ _ Hrun Hinv).
Qed.





(** ** Name reservations *)

Lemma release_reserved (name : string) (reserved : gset string) :
  name ∉ reserved -> ({[name]} ∪ reserved) ∖ {[name]} = reserved.
Proof. set_solver. Qed.

Lemma CreateTable_releases_name `{Externals} req live cm s resp rpcs cm' :
  CreateTable req live cm = Returned s resp rpcs cm' ->
  CatalogManager.reserved_table_names_ cm' = CatalogManager.reserved_table_names_ cm.
Proof.
  unfold CreateTable. intros Hcreate.
  destruct (CreateTable_prepare req live cm) as [refused | [plan cm1]] eqn:Hprep.
  { subst refused. apply CreateTable_prepare_refuses in Hprep as [_ [_ ->]]. reflexivity. }
  apply CreateTable_prepare_plan in Hprep as [Hname [_ [_ [Hres [Hfree _]]]]].
  unfold CreateTable_apply in Hcreate.
  destruct (negb _); [discriminate Hcreate|].
  destruct (SysCatalogTable.Write _ _) as [s0 sc0].
  destruct (negb (ok s0)).
  { injection Hcreate as _ _ _ <-. cbn. rewrite Hres, Hname.
    apply release_reserved, Hfree. }
  destruct (TableInfo.AddRemoveTablets _ _ _ _); [|discriminate Hcreate].
  destruct (publish_tablets _ _); [|discriminate Hcreate].
  injection Hcreate as _ _ _ <-. cbn. rewrite Hres, Hname.
  apply release_reserved, Hfree.
Qed.

Lemma AlterTable_cleanup_reserved req cm :
  CatalogManager.reserved_table_names_ (AlterTable_cleanup req cm)
  = match AlterTableRequestPB.new_table_name req with
    | Some n => CatalogManager.reserved_table_names_ cm ∖ {[n]}
    | None => CatalogManager.reserved_table_names_ cm
    end.
Proof. unfold AlterTable_cleanup. destruct (AlterTableRequestPB.new_table_name req); reflexivity. Qed.

(** What step 4 of AlterTable leaves of the reserved names: what the scoped
    cleanup takes away again. *)
Lemma AlterTable_prepare_reserved `{Externals} req cm :
  match AlterTable_prepare req cm with
  | inl (Returned _ _ _ cm') =>
      CatalogManager.reserved_table_names_ cm' = CatalogManager.reserved_table_names_ cm
  | inl Crashed => True
  | inr (_, cm1) =>
      forall cm2,
        CatalogManager.reserved_table_names_ cm2 = CatalogManager.reserved_table_names_ cm1 ->
        CatalogManager.reserved_table_names_ (AlterTable_cleanup req cm2)
        = CatalogManager.reserved_table_names_ cm
  end.
Proof.
  unfold AlterTable_prepare.
  destruct (negb (ok (CheckOnline cm))); [reflexivity|].
  destruct (group_steps _) as [[schema_steps part_steps]|]; [|reflexivity].
  destruct (FindAndLockTable _ cm) as [s [table|]];
    [|destruct (negb (ok s)); reflexivity].
  destruct (negb (ok s)); [reflexivity|].
  destruct (PersistentTableInfo.is_deleted _); [reflexivity|].
  match goal with
  | |- match (match ?sr with _ => _ end) with _ => _ end =>
      destruct sr as [s1 | [new_schema next_col]]
  end; [reflexivity|].
  match goal with
  | |- match (match ?rn with _ => _ end) with _ => _ end =>
      assert (Hren :
                match rn with
                | inl _ => True
                | inr (_, cm0) =>
                    forall cm2,
                      CatalogManager.reserved_table_names_ cm2
                      = CatalogManager.reserved_table_names_ cm0 ->
                      CatalogManager.reserved_table_names_ (AlterTable_cleanup req cm2)
                      = CatalogManager.reserved_table_names_ cm
                end);
      [|destruct rn as [[s2 c] | [dirty cm0]]]
  end.
  { destruct (AlterTableRequestPB.new_table_name req) as [n|] eqn:Hnew.
    - destruct (negb (ok (ValidateIdentifier n))); [exact I|].
      destruct (bool_decide (is_Some _)); [exact I|].
      case_bool_decide as Hres; [exact I|].
      intros cm2 Hcm2. rewrite AlterTable_cleanup_reserved, Hnew, Hcm2. cbn.
      apply release_reserved, Hres.
    - intros cm2 Hcm2. rewrite AlterTable_cleanup_reserved, Hnew, Hcm2. reflexivity. }
  { reflexivity. }
  destruct (alter_partitioning req dirty table part_steps cm0)
    as [[[[s3 e] cm2] | [[to_add to_drop] cm2]]|] eqn:Hpart; [| |exact I];
    apply alter_partitioning_spec in Hpart as (_ & _ & Hres & _); cbn in Hres.
  - apply Hren. exact Hres.
  - intros cm3 Hcm3. apply Hren. congruence.
Qed.

Lemma AlterTable_releases_name `{Externals} req cm s resp rpcs cm' :
  AlterTable req cm = Returned s resp rpcs cm' ->
  CatalogManager.reserved_table_names_ cm' = CatalogManager.reserved_table_names_ cm.
Proof.
  unfold AlterTable. intros Halter.
  pose proof (AlterTable_prepare_reserved req cm) as Hprep.
  destruct (AlterTable_prepare req cm) as [refused | [plan cm1]].
  { subst refused. exact Hprep. }
  unfold AlterTable_apply in Halter.
  destruct (negb (has_metadata_changes req plan) && negb (has_partitioning_changes plan)).
  { injection Halter as _ _ _ <-. apply Hprep. reflexivity. }
  destruct (SysCatalogTable.Write _ _) as [s0 sc0].
  destruct (negb (ok s0)).
  { injection Halter as _ _ _ <-. apply Hprep. reflexivity. }
  match type of Halter with
  | match ?x with _ => _ end = _ => destruct x as [names|]
  end; [|discriminate Halter].
  destruct (publish_tablets _ _) as [published|]; [|discriminate Halter].
  destruct (TableInfo.AddRemoveTablets _ _ _ _) as [table1|]; [|discriminate Halter].
  injection Halter as _ _ _ <-. apply Hprep. reflexivity.
Qed.

(** X3. CreateTable and AlterTable leave no name reserved: on every return,
    with or without an error, the set of reserved table names is the one
    the handler found. *)
Theorem reserved_names_are_released `{Externals} cm s rpcs cm' :
  (forall req live resp,
     CreateTable req live cm = Returned s resp rpcs cm' ->
     CatalogManager.reserved_table_names_ cm' = CatalogManager.reserved_table_names_ cm)
  /\ (forall req resp,
        AlterTable req cm = Returned s resp rpcs cm' ->
        CatalogManager.reserved_table_names_ cm' = CatalogManager.reserved_table_names_ cm).
Proof.
  split.
  - intros req live resp. apply CreateTable_releases_name.
  - intros req resp. apply AlterTable_releases_name.
Qed.

Lemma reserved_names_are_released_witness :
  CatalogManager.reserved_table_names_
    (catalog_after (CreateTable (sample_create (Some 3)) 3 (sample_cm [IOError])))
  = ∅
  /\ CatalogManager.reserved_table_names_
       (catalog_after (AlterTable (sample_rename "u") (sample_running [OK])))
     = ∅.
Proof.
  split.
  - refine (proj1 (@reserved_names_are_released sample_externals (sample_cm [IOError])
                     IOError [] _) (sample_create (Some 3)) 3 _ _).
    vm_compute. reflexivity.
  - refine (proj2 (@reserved_names_are_released sample_externals (sample_running [OK])
                     OK _ _) (sample_rename "u") _ _).
    vm_compute. reflexivity.
Defined.

(** ** Column defaults *)

(** X4. ProcessColumnPBDefaults succeeds exactly when the column has no
    write default or one equal to its read default. On success the read
    default is kept, the write default is the read default, and a second
    pass changes nothing; on failure the status is InvalidArgument and the
    column is left as it was. *)
Theorem ProcessColumnPBDefaults_propagates_read_default (col : ColumnDefaultsPB) :
  let s := (ProcessColumnPBDefaults col).1 in
  let col' := (ProcessColumnPBDefaults col).2 in
  (s = OK <-> write_default_value col = None
              \/ write_default_value col = read_default_value col)
  /\ (s = OK ->
      read_default_value col' = read_default_value col
      /\ write_default_value col' = read_default_value col
      /\ ProcessColumnPBDefaults col' = (OK, col'))
  /\ (s <> OK -> s = InvalidArgument /\ col' = col).
Proof.
  destruct col as [[r|] [w|]]; cbn; [destruct (decide (r = w)) as [-> | Hne]|..];
    rewrite ?bool_decide_eq_true_2 by reflexivity;
    rewrite ?bool_decide_eq_false_2 by assumption; cbn;
    rewrite ?bool_decide_eq_true_2 by reflexivity; cbn;
    (split; [split; [intros Hs | intros [Hw | Hw]] | split; [intros Hs | intros Hs]]);
    try discriminate; try congruence; auto.
Qed.

(** ** The consistency of the directory *)

Lemma CreateTabletInfos_oid `{Externals} tid parts cm :
  CatalogManager.oid_generator_ (CreateTabletInfos tid parts cm).2
  = (CatalogManager.oid_generator_ cm + length parts)%nat
  /\ length (CreateTabletInfos tid parts cm).1 = length parts
  /\ (forall r, r ∈ (CreateTabletInfos tid parts cm).1 ->
        SysTabletsEntryPB.table_id r.2 = tid).
Proof.
  revert cm. induction parts as [|p ps IH]; intros cm.
  { cbn. split; [lia|]. split; [reflexivity|]. intros r Hr. inversion Hr. }
  cbn [CreateTabletInfos GenerateId length].
  specialize (IH (CatalogManager.set_oid (S (CatalogManager.oid_generator_ cm)) cm)).
  destruct (CreateTabletInfos tid ps _) as [rest cm2]. cbn [fst snd] in *.
  destruct IH as [Hoid [Hlen Htid]]. cbn in Hoid. split; [lia|]. split; [cbn; lia|].
  intros r Hr. apply elem_of_cons in Hr as [-> | Hr]; [reflexivity | auto].
Qed.

Lemma CreateTable_prepare_ids `{Externals} req live cm plan cm1 :
  CreateTable_prepare req live cm = inr (plan, cm1) ->
  plan_table_id plan = oid_Next (CatalogManager.oid_generator_ cm)
  /\ (plan_tablets plan).*1
     = oid_Next <$> seq (S (CatalogManager.oid_generator_ cm)) (length (plan_tablets plan))
  /\ CatalogManager.oid_generator_ cm1
     = (S (CatalogManager.oid_generator_ cm) + length (plan_tablets plan))%nat
  /\ CatalogManager.state_ cm1 = CatalogManager.state_ cm
  /\ SysTablesEntryPB.name (plan_table plan) = create_name req
  /\ SysTablesEntryPB.state (plan_table plan) = SysTablesEntryPB.PREPARING.
Proof.
  unfold CreateTable_prepare. cbv zeta. intros Hprep.
  destruct (negb (ok (CheckOnline cm))); [discriminate Hprep|].
  destruct (PrepareCreateTable req) as [[s0 e0] [[schema pschema] partitions]].
  destruct (negb (ok s0)); [discriminate Hprep|].
  destruct (CreateTable_check_replication _ _ _) as [[c s1]|]; [discriminate Hprep|].
  destruct (CatalogManager.table_names_map_ cm !! create_name req); [discriminate Hprep|].
  destruct (bool_decide _); [discriminate Hprep|].
  cbn [GenerateId] in Hprep.
  match type of Hprep with
  | context [CreateTabletInfos ?tid ?ps ?c] =>
      pose proof (CreateTabletInfos_ids tid ps c) as [Hids _];
      pose proof (CreateTabletInfos_oid tid ps c) as [Hoid [Hlen _]];
      pose proof (CreateTabletInfos_frame tid ps c) as [_ [_ [_ Hstate]]];
      destruct (CreateTabletInfos tid ps c) as [tablets cm3]
  end.
  cbn [fst snd] in Hids, Hoid, Hlen, Hstate. injection Hprep as <- <-.
  cbn [plan_table_id plan_tablets plan_table]. cbn in Hids, Hoid, Hstate.
  rewrite Hlen. split; [reflexivity|]. split; [exact Hids|]. split; [exact Hoid|].
  split; [exact Hstate|]. split; reflexivity.
Qed.

Lemma directory_consistent_frame `{Externals} cm cm' :
  CatalogManager.directory cm' = CatalogManager.directory cm ->
  (CatalogManager.oid_generator_ cm <= CatalogManager.oid_generator_ cm')%nat ->
  directory_consistent cm -> directory_consistent cm'.
Proof.
  unfold CatalogManager.directory, directory_consistent.
  intros [= -> -> ->] Hoid (Hkey & Hnamed & Hnames & Htablets & Hinj & Hfresh).
  split; [exact Hkey|]. split; [exact Hnamed|]. split; [exact Hnames|].
  split; [exact Htablets|]. split.
  - intros i j Hi Hj. apply Hinj; lia.
  - intros i Hi. apply Hfresh. lia.
Qed.

Lemma with_new_tablets_lookup (tid : string) (rs : list (string * SysTabletsEntryPB.t))
    (m : gmap string TabletInfo.t) (id : string) (tab : TabletInfo.t) :
  with_tablets (new_TabletInfo tid <$> rs) m !! id = Some tab ->
  m !! id = Some tab
  \/ (TabletInfo.tablet_id_ tab = id /\ TabletInfo.table_ tab = tid /\ id ∈ rs.*1).
Proof.
  unfold with_tablets. intros Hlookup.
  apply (foldl_insert_lookup_inv TabletInfo.tablet_id_ (fun t => t)) in Hlookup
    as [Hold | (x & Hx & Hid & ->)]; [left; exact Hold|].
  right. apply list_elem_of_fmap in Hx as [r [-> Hr]]. cbn in Hid |- *.
  split; [exact Hid|]. split; [reflexivity|]. subst id. apply list_elem_of_fmap. eauto.
Qed.

Lemma with_new_tablets_lookup_ne (tid : string) (rs : list (string * SysTabletsEntryPB.t))
    (m : gmap string TabletInfo.t) (id : string) :
  id ∉ rs.*1 -> with_tablets (new_TabletInfo tid <$> rs) m !! id = m !! id.
Proof.
  intros Hnotin. unfold with_tablets. apply foldl_insert_lookup_ne.
  intros x Hx <-. apply Hnotin. apply list_elem_of_fmap in Hx as [r [-> Hr]].
  apply list_elem_of_fmap. eauto.
Qed.

Lemma generated_id_later `{Externals} (oid k n i : nat) :
  (forall a b, (oid <= a)%nat -> (oid <= b)%nat -> oid_Next a = oid_Next b -> a = b) ->
  (oid <= k)%nat -> (k + n <= i)%nat ->
  oid_Next i ∉ oid_Next <$> seq k n.
Proof.
  intros Hinj Hk Hi Hin. apply list_elem_of_fmap in Hin as [j [Heq Hj]].
  apply elem_of_seq in Hj. apply Hinj in Heq; lia.
Qed.

Lemma CreateTable_keeps_consistent `{Externals} req live cm s resp rpcs cm' :
  CreateTable req live cm = Returned s resp rpcs cm' ->
  directory_consistent cm -> directory_consistent cm'.
Proof.
  unfold CreateTable. intros Hcreate Hinv.
  destruct (CreateTable_prepare req live cm) as [refused | [plan cm1]] eqn:Hprep.
  { subst refused. apply CreateTable_prepare_refuses in Hprep as [_ [_ ->]]. exact Hinv. }
  pose proof (CreateTable_prepare_ids _ _ _ _ _ Hprep)
    as (Htid & Hids & Hoid & _ & Hpname & _).
  apply CreateTable_prepare_plan in Hprep as (Hname & Hdir & _ & _ & _ & Hfree & _).
  unfold CreateTable_apply in Hcreate.
  destruct (negb _); [discriminate Hcreate|].
  destruct (SysCatalogTable.Write _ _) as [s0 sc0].
  destruct (negb (ok s0)).
  { injection Hcreate as _ _ _ <-.
    apply (directory_consistent_frame cm); [exact Hdir | cbn; lia | exact Hinv]. }
  destruct (TableInfo.AddRemoveTablets _ _ _ _) as [table1|] eqn:Hadd;
    [|discriminate Hcreate].
  apply AddRemoveTablets_metadata in Hadd as [Hmeta Hid1]. cbn in Hmeta, Hid1.
  destruct (publish_tablets _ _) as [published|] eqn:Hpub; [|discriminate Hcreate].
  apply publish_tablets_Some in Hpub as (_ & _ & ->).
  injection Hcreate as _ _ _ <-.
  unfold CatalogManager.directory in Hdir. injection Hdir as Hids1 Hnames1 Htm1.
  destruct Hinv as (Hkey & Hnamed & Hnames & Htablets & Hinj & Hfresh).
  assert (Htid_fresh : CatalogManager.table_ids_map_ cm !! plan_table_id plan = None).
  { rewrite Htid. apply Hfresh. lia. }
  rewrite Hname in *.
  unfold directory_consistent. cbn. rewrite Hids1, Hnames1, Htm1.
  split; [|split; [|split; [|split; [|split]]]].
  - intros id table Hlookup.
    destruct (decide (plan_table_id plan = id)) as [<- | Hne].
    + rewrite lookup_insert_eq in Hlookup. injection Hlookup as <-. exact Hid1.
    + rewrite lookup_insert_ne in Hlookup by exact Hne. eauto.
  - intros id table Hlookup Hdel.
    destruct (decide (plan_table_id plan = id)) as [<- | Hne].
    + rewrite lookup_insert_eq in Hlookup. injection Hlookup as <-.
      rewrite Hmeta. cbn. rewrite Hpname. apply lookup_insert_eq.
    + rewrite lookup_insert_ne in Hlookup by exact Hne.
      rewrite lookup_insert_ne; [eauto|].
      intros Heq. specialize (Hnamed _ _ Hlookup Hdel). congruence.
  - intros name id Hlookup.
    destruct (decide (create_name req = name)) as [<- | Hne].
    + rewrite lookup_insert_eq in Hlookup. injection Hlookup as <-.
      exists table1. rewrite lookup_insert_eq, Hmeta. cbn. auto.
    + rewrite lookup_insert_ne in Hlookup by exact Hne.
      destruct (Hnames _ _ Hlookup) as (table & Hid & Hn & Hdel).
      exists table. rewrite lookup_insert_ne; [auto|]. congruence.
  - intros id tab Hlookup.
    apply with_new_tablets_lookup in Hlookup as [Hold | (Hid & Htable & _)].
    + destruct (Htablets _ _ Hold) as [Hid [table Htable]]. split; [exact Hid|].
      destruct (decide (plan_table_id plan = TabletInfo.table_ tab)) as [<- | Hne].
      * rewrite lookup_insert_eq. eauto.
      * rewrite lookup_insert_ne by exact Hne. eauto.
    + split; [exact Hid|]. rewrite Htable, lookup_insert_eq. eauto.
  - intros i j Hi Hj. apply Hinj; lia.
  - intros i Hi. split.
    + rewrite lookup_insert_ne; [apply Hfresh; lia|].
      rewrite Htid. intros Heq. apply Hinj in Heq; lia.
    + rewrite with_new_tablets_lookup_ne; [apply Hfresh; lia|].
      rewrite Hids. apply (generated_id_later (CatalogManager.oid_generator_ cm));
        [exact Hinj | lia | lia].
Qed.

Lemma commit_tablets_lookup (rs : list (string * SysTabletsEntryPB.t))
    (m : gmap string TabletInfo.t) (id : string) :
  match commit_tablets rs m !! id with
  | Some tab =>
      exists tab0, m !! id = Some tab0
                   /\ TabletInfo.tablet_id_ tab = TabletInfo.tablet_id_ tab0
                   /\ TabletInfo.table_ tab = TabletInfo.table_ tab0
                   /\ TabletInfo.reported_schema_version_ tab
                      = TabletInfo.reported_schema_version_ tab0
  | None => m !! id = None
  end.
Proof.
  unfold commit_tablets. revert m. induction rs as [|r rs IH]; intros m.
  { cbn. destruct (m !! id); eauto. }
  cbn [foldl]. specialize (IH (alter (TabletInfo.set_metadata r.2) r.1 m)).
  destruct (foldl _ _ rs !! id) as [tab|].
  - destruct IH as (tab0 & Hlookup & Hid & Htable & Hversion).
    destruct (decide (r.1 = id)) as [<- | Hne].
    + rewrite lookup_alter_eq in Hlookup.
      destruct (m !! r.1) as [tab1|]; [|discriminate Hlookup].
      injection Hlookup as <-. exists tab1. auto.
    + rewrite lookup_alter_ne in Hlookup by exact Hne. eauto.
  - destruct (decide (r.1 = id)) as [<- | Hne].
    + rewrite lookup_alter_eq in IH. destruct (m !! r.1); [discriminate IH | reflexivity].
    + rewrite lookup_alter_ne in IH by exact Hne. exact IH.
Qed.

Lemma commit_tablets_consistent (rs : list (string * SysTabletsEntryPB.t))
    (m : gmap string TabletInfo.t) (ids ids' : gmap string TableInfo.t) :
  (forall id, is_Some (ids !! id) -> is_Some (ids' !! id)) ->
  (forall id tab, m !! id = Some tab ->
     TabletInfo.tablet_id_ tab = id /\ is_Some (ids !! TabletInfo.table_ tab)) ->
  forall id tab, commit_tablets rs m !! id = Some tab ->
    TabletInfo.tablet_id_ tab = id /\ is_Some (ids' !! TabletInfo.table_ tab).
Proof.
  intros Hsub Hm id tab Hlookup. pose proof (commit_tablets_lookup rs m id) as Hc.
  rewrite Hlookup in Hc. destruct Hc as (tab0 & Hold & Hid & Htable & _).
  destruct (Hm _ _ Hold) as [Hid0 Hsome]. rewrite Hid, Htable. auto.
Qed.

Lemma DeleteTable_keeps_consistent `{Externals} req cm s resp rpcs cm' :
  DeleteTable req cm = Returned s resp rpcs cm' ->
  directory_consistent cm -> directory_consistent cm'.
Proof.
  unfold DeleteTable. intros Hdelete Hinv.
  destruct (DeleteTable_prepare req cm) as [refused | found] eqn:Hprep.
  { subst refused. apply DeleteTable_prepare_refuses in Hprep as [_ [_ ->]]. exact Hinv. }
  assert (Hfound : exists id, CatalogManager.table_ids_map_ cm !! id = Some found
                              /\ PersistentTableInfo.is_deleted (TableInfo.metadata_ found)
                                 = false).
  { unfold DeleteTable_prepare in Hprep.
    destruct (negb (ok (CheckOnline cm))); [discriminate Hprep|].
    destruct (FindAndLockTable req cm) as [s0 [t|]] eqn:Hfind.
    2:{ destruct (negb (ok s0)); discriminate Hprep. }
    destruct (negb (ok s0)); [discriminate Hprep|].
    destruct (PersistentTableInfo.is_deleted (TableInfo.metadata_ t)) eqn:Hdel;
      [discriminate Hprep|].
    injection Hprep as <-. apply FindAndLockTable_found in Hfind as [id Hid]. eauto. }
  destruct Hfound as (fid & Hfid & Hfdel).
  unfold DeleteTable_apply in Hdelete.
  destruct (SysCatalogTable.Write _ _) as [s0 sc0].
  destruct (negb (ok s0)).
  { injection Hdelete as _ _ _ <-.
    apply (directory_consistent_frame cm); [reflexivity | cbn; lia | exact Hinv]. }
  destruct (CatalogManager.table_names_map_ _ !! _); [|discriminate Hdelete].
  injection Hdelete as _ _ _ <-.
  destruct Hinv as (Hkey & Hnamed & Hnames & Htablets & Hinj & Hfresh).
  pose proof (Hkey _ _ Hfid) as Hfkey. subst fid.
  pose proof (Hnamed _ _ Hfid Hfdel) as Hfname.
  unfold directory_consistent. cbn.
  split; [|split; [|split; [|split; [|split]]]].
  - intros id table Hlookup.
    destruct (decide (TableInfo.table_id_ found = id)) as [<- | Hne].
    + rewrite lookup_insert_eq in Hlookup. injection Hlookup as <-. reflexivity.
    + rewrite lookup_insert_ne in Hlookup by exact Hne. eauto.
  - intros id table Hlookup Hdel.
    destruct (decide (TableInfo.table_id_ found = id)) as [<- | Hne].
    + rewrite lookup_insert_eq in Hlookup. injection Hlookup as <-. discriminate Hdel.
    + rewrite lookup_insert_ne in Hlookup by exact Hne.
      rewrite lookup_delete_ne; [eauto|].
      intros Heq. specialize (Hnamed _ _ Hlookup Hdel). congruence.
  - intros name id Hlookup.
    apply lookup_delete_Some in Hlookup as [Hne Hlookup].
    destruct (Hnames _ _ Hlookup) as (table & Hid & Hn & Hdel).
    exists table. rewrite lookup_insert_ne; [auto|].
    intros <-. rewrite Hfid in Hid. injection Hid as <-. contradiction.
  - apply (commit_tablets_consistent _ _ (CatalogManager.table_ids_map_ cm));
      [|exact Htablets].
    intros id [t Ht].
    destruct (decide (TableInfo.table_id_ found = id)) as [<- | Hne].
    + rewrite lookup_insert_eq. eauto.
    + rewrite lookup_insert_ne by exact Hne. eauto.
  - exact Hinj.
  - intros i Hi. destruct (Hfresh i Hi) as [Hid Htab]. split.
    + rewrite lookup_insert_ne; [exact Hid|]. intros Heq. rewrite <- Heq, Hfid in Hid.
      discriminate Hid.
    + pose proof (commit_tablets_lookup
                    ((fun tab =>
                        (TabletInfo.tablet_id_ tab,
                         PersistentTabletInfo.set_state SysTabletsEntryPB.DELETED
                           ("Table deleted at " +:+ LocalTimeAsString)
                           (TabletInfo.metadata_ tab)))
                     <$> resolve_tablets (CatalogManager.tablet_map_ cm)
                           (TableInfo.GetAllTablets found))
                    (CatalogManager.tablet_map_ cm) (oid_Next i)) as Hc.
      destruct (commit_tablets _ _ !! oid_Next i) as [tab|]; [|reflexivity].
      destruct Hc as (tab0 & Hold & _). congruence.
Qed.

Lemma AlterTable_cleanup_oid req cm :
  CatalogManager.oid_generator_ (AlterTable_cleanup req cm) = CatalogManager.oid_generator_ cm
  /\ CatalogManager.state_ (AlterTable_cleanup req cm) = CatalogManager.state_ cm.
Proof. unfold AlterTable_cleanup. destruct (AlterTableRequestPB.new_table_name req); auto. Qed.

(** The ids AlterTable takes from the generator: the generator never goes
    back, and the ids of the new tablets of a plan are ids it gave in this
    call. *)
Lemma AlterTable_prepare_oid `{Externals} req cm :
  match AlterTable_prepare req cm with
  | inl (Returned _ _ _ cm') =>
      (CatalogManager.oid_generator_ cm <= CatalogManager.oid_generator_ cm')%nat
  | inl Crashed => True
  | inr (plan, cm1) =>
      (CatalogManager.oid_generator_ cm <= CatalogManager.oid_generator_ cm1)%nat
      /\ forall id, id ∈ (tablets_to_add plan).*1 ->
           exists i,
             (CatalogManager.oid_generator_ cm <= i < CatalogManager.oid_generator_ cm1)%nat
             /\ id = oid_Next i
  end.
Proof.
  destruct (AlterTable_prepare req cm) as [[s resp rpcs cm'|] | [plan cm1]] eqn:Hprep;
    [|exact I|].
  2:{ destruct (AlterTable_prepare_ids _ _ _ _ Hprep) as (Hle & Hids & _).
      split; [exact Hle|]. intros id Hid. apply list_elem_of_fmap in Hid as (r & -> & Hr).
      destruct (Hids r Hr) as (i & p & Hi & ->). eauto. }
  unfold AlterTable_prepare in Hprep.
  destruct (negb (ok (CheckOnline cm))); [injection Hprep as _ _ _ <-; lia|].
  destruct (group_steps _) as [[schema_steps part_steps]|];
    [|injection Hprep as _ _ _ <-; lia].
  destruct (FindAndLockTable _ cm) as [s0 [table|]];
    [|destruct (negb (ok s0)); injection Hprep as _ _ _ <-; lia].
  destruct (negb (ok s0)); [injection Hprep as _ _ _ <-; lia|].
  destruct (PersistentTableInfo.is_deleted _); [injection Hprep as _ _ _ <-; lia|].
  match type of Hprep with
  | match ?sr with _ => _ end = _ => destruct sr as [s1 | [new_schema next_col]]
  end; [injection Hprep as _ _ _ <-; lia|].
  match type of Hprep with
  | match ?rn with _ => _ end = _ =>
      destruct rn as [[s2 c] | [dirty cm0]] eqn:Hren
  end; [injection Hprep as _ _ _ <-; lia|].
  assert (Hoid : CatalogManager.oid_generator_ cm0 = CatalogManager.oid_generator_ cm).
  { destruct (AlterTableRequestPB.new_table_name req) as [n|].
    - destruct (negb (ok (ValidateIdentifier n))); [discriminate Hren|].
      destruct (bool_decide (is_Some _)); [discriminate Hren|].
      destruct (bool_decide (n ∈ _)); [discriminate Hren|].
      injection Hren as _ <-. reflexivity.
    - injection Hren as _ <-. reflexivity. }
  destruct (alter_partitioning req dirty table part_steps cm0)
    as [[[[s3 e] cm2] | [[to_add to_drop] cm2]]|] eqn:Hpart; try discriminate Hprep.
  apply alter_partitioning_spec in Hpart as (_ & _ & _ & _ & Hle & _). cbn in Hle.
  injection Hprep as _ _ _ <-.
  rewrite (proj1 (AlterTable_cleanup_oid req cm2)). lia.
Qed.

Lemma AlterTable_record_kept `{Externals} req plan :
  alter_plan_dirty plan
  = match AlterTableRequestPB.new_table_name req with
    | Some n => PersistentTableInfo.set_name n (TableInfo.metadata_ (alter_plan_table plan))
    | None => TableInfo.metadata_ (alter_plan_table plan)
    end ->
  PersistentTableInfo.is_deleted (TableInfo.metadata_ (alter_plan_table plan)) = false ->
  PersistentTableInfo.is_deleted (AlterTable_dirty req plan) = false
  /\ SysTablesEntryPB.name (AlterTable_dirty req plan)
     = default (SysTablesEntryPB.name (TableInfo.metadata_ (alter_plan_table plan)))
         (AlterTableRequestPB.new_table_name req).
Proof.
  intros Hdirty Hdel.
  pose proof (AlterTable_update_record_spec (has_schema_changes plan)
                (has_metadata_changes req plan)
                (has_metadata_changes_for_existing_tablets req plan)
                (negb (bool_decide (tablets_to_add plan = [])))
                (alter_plan_new_schema plan) (alter_plan_next_col_id plan)
                (alter_plan_dirty plan)) as Hrec.
  cbv zeta in Hrec. fold (AlterTable_dirty req plan) in Hrec.
  destruct Hrec as (Hst & _ & _ & _ & Hname).
  unfold PersistentTableInfo.is_deleted in *. rewrite Hst, Hname, Hdirty. split.
  - destruct (_ || _); [reflexivity|].
    destruct (AlterTableRequestPB.new_table_name req); exact Hdel.
  - destruct (AlterTableRequestPB.new_table_name req); reflexivity.
Qed.

Lemma AlterTable_keeps_consistent `{Externals} req cm s resp rpcs cm' :
  AlterTable req cm = Returned s resp rpcs cm' ->
  directory_consistent cm -> directory_consistent cm'.
Proof.
  unfold AlterTable. intros Halter Hinv.
  pose proof (AlterTable_prepare_oid req cm) as Hoids.
  destruct (AlterTable_prepare req cm) as [refused | [plan cm1]] eqn:Hprep.
  { subst refused. apply AlterTable_prepare_refuses in Hprep as (_ & _ & Hdir & _).
    apply (directory_consistent_frame cm); [exact Hdir | lia | exact Hinv]. }
  destruct Hoids as [Hoid Hids].
  apply AlterTable_prepare_plan in Hprep
    as (Hdir & _ & Hname & Hdirty & [s1 Hfind] & Hdel & Hfree).
  apply FindAndLockTable_found in Hfind as [tid Htid].
  destruct (AlterTable_record_kept req plan Hdirty Hdel) as [Hdel' Hname'].
  unfold AlterTable_apply in Halter.
  destruct (negb (has_metadata_changes req plan) && negb (has_partitioning_changes plan)).
  { injection Halter as _ _ _ <-.
    destruct (AlterTable_cleanup_frame req cm1) as [Hd _].
    destruct (AlterTable_cleanup_oid req cm1) as [Ho _].
    apply (directory_consistent_frame cm); [congruence | lia | exact Hinv]. }
  destruct (SysCatalogTable.Write _ _) as [s0 sc0].
  destruct (negb (ok s0)).
  { injection Halter as _ _ _ <-.
    match goal with
    | |- directory_consistent (AlterTable_cleanup req ?c) =>
        destruct (AlterTable_cleanup_frame req c) as [Hd _];
        destruct (AlterTable_cleanup_oid req c) as [Ho _]
    end.
    apply (directory_consistent_frame cm);
      [rewrite Hd; exact Hdir | rewrite Ho; cbn; lia | exact Hinv]. }
  match type of Halter with
  | match ?x with _ => _ end = _ => destruct x as [names|] eqn:Hnames'
  end; [|discriminate Halter].
  destruct (publish_tablets _ _) as [published|] eqn:Hpub; [|discriminate Halter].
  apply publish_tablets_Some in Hpub as (_ & _ & ->).
  destruct (TableInfo.AddRemoveTablets _ _ _ _) as [table1|] eqn:Hadd;
    [|discriminate Halter].
  apply AddRemoveTablets_metadata in Hadd as [Hmeta Hid1].
  injection Halter as _ _ _ <-.
  match goal with
  | |- directory_consistent (AlterTable_cleanup req ?c) =>
      destruct (AlterTable_cleanup_frame req c) as [Hd _];
      destruct (AlterTable_cleanup_oid req c) as [Ho _];
      apply (directory_consistent_frame c); [exact Hd | lia |]
  end.
  clear Hd Ho.
  unfold CatalogManager.directory in Hdir. injection Hdir as Hids1 Hnames1 Htm1.
  destruct Hinv as (Hkey & Hnamed & Hnames & Htablets & Hinj & Hfresh).
  pose proof (Hkey _ _ Htid) as Hfkey. subst tid.
  pose proof (Hnamed _ _ Htid Hdel) as Hfname.
  cbn [CatalogManager.set_sys_catalog CatalogManager.table_names_map_
       CatalogManager.tablet_map_ CatalogManager.table_ids_map_] in *.
  rewrite Hnames1, Hname in Hnames'. rewrite Hfname in Hnames'. rewrite Hids1, Htm1.
  set (table := alter_plan_table plan) in *.
  set (table2 := if negb (bool_decide (tablets_to_add plan = []))
                    || has_metadata_changes req plan
                 then TableInfo.set_metadata (AlterTable_dirty req plan) table1
                 else table1).
  assert (Htable2 : TableInfo.table_id_ table2 = TableInfo.table_id_ table
                    /\ PersistentTableInfo.is_deleted (TableInfo.metadata_ table2) = false
                    /\ SysTablesEntryPB.name (TableInfo.metadata_ table2)
                       = default (SysTablesEntryPB.name (TableInfo.metadata_ table))
                           (AlterTableRequestPB.new_table_name req)).
  { subst table2. unfold has_metadata_changes.
    destruct (AlterTableRequestPB.new_table_name req) as [n|] eqn:Hnew.
    - rewrite (bool_decide_eq_true_2 (is_Some (Some n))) by (eexists; reflexivity).
      rewrite !orb_true_r. cbn. auto.
    - destruct (_ || _); cbn; [auto|]. rewrite Hmeta. auto. }
  destruct Htable2 as (Hid2 & Hdel2 & Hname2).
  assert (Hnames2 :
            forall name,
              names !! name
              = if decide (name = SysTablesEntryPB.name (TableInfo.metadata_ table2))
                then Some (TableInfo.table_id_ table)
                else if decide (name = SysTablesEntryPB.name (TableInfo.metadata_ table))
                     then None
                     else CatalogManager.table_names_map_ cm !! name).
  { intros name. rewrite Hname2.
    destruct (AlterTableRequestPB.new_table_name req) as [n|] eqn:Hnew; cbn.
    - specialize (Hfree n eq_refl). unfold InsertOrDie in Hnames'. cbn in Hnames'.
      rewrite lookup_delete_ne in Hnames' by congruence. rewrite Hfree in Hnames'.
      injection Hnames' as <-.
      destruct (decide (name = n)) as [-> | Hne]; [apply lookup_insert_eq|].
      rewrite lookup_insert_ne by congruence.
      destruct (decide (name = _)) as [-> | Hne']; [apply lookup_delete_eq|].
      apply lookup_delete_ne. congruence.
    - injection Hnames' as <-. destruct (decide (name = _)) as [-> | Hne]; [exact Hfname|].
      reflexivity. }
  unfold directory_consistent. cbn.
  split; [|split; [|split; [|split; [|split]]]].
  - intros id t Hlookup.
    destruct (decide (TableInfo.table_id_ table = id)) as [<- | Hne].
    + rewrite lookup_insert_eq in Hlookup. injection Hlookup as <-. exact Hid2.
    + rewrite lookup_insert_ne in Hlookup by exact Hne. eauto.
  - intros id t Hlookup Hdelt. rewrite Hnames2.
    destruct (decide (TableInfo.table_id_ table = id)) as [<- | Hne].
    + rewrite lookup_insert_eq in Hlookup. injection Hlookup as <-.
      rewrite decide_True by reflexivity. reflexivity.
    + rewrite lookup_insert_ne in Hlookup by exact Hne.
      specialize (Hnamed _ _ Hlookup Hdelt).
      rewrite decide_False.
      * rewrite decide_False; [exact Hnamed|]. intros Heq. congruence.
      * rewrite Hname2. intros Heq.
        destruct (AlterTableRequestPB.new_table_name req) as [n|] eqn:Hnew; cbn in Heq.
        -- specialize (Hfree n eq_refl). congruence.
        -- congruence.
  - intros name id Hlookup. rewrite Hnames2 in Hlookup.
    destruct (decide (name = _)) as [-> | Hne].
    + injection Hlookup as <-. exists table2. rewrite lookup_insert_eq. auto.
    + destruct (decide (name = _)) as [-> | Hne']; [discriminate Hlookup|].
      destruct (Hnames _ _ Hlookup) as (t & Hid & Hn & Hdelt).
      exists t. rewrite lookup_insert_ne; [auto|].
      intros <-. rewrite Htid in Hid. injection Hid as <-. congruence.
  - apply (commit_tablets_consistent _ _ (CatalogManager.table_ids_map_ cm)).
    + intros id [t Ht].
      destruct (decide (TableInfo.table_id_ table = id)) as [<- | Hne].
      * rewrite lookup_insert_eq. eauto.
      * rewrite lookup_insert_ne by exact Hne. eauto.
    + intros id tab Hlookup.
      apply with_new_tablets_lookup in Hlookup as [Hold | (Hid & Htable & _)];
        [eauto|].
      split; [exact Hid|]. rewrite Htable. eauto.
  - intros i j Hi Hj. apply Hinj; lia.
  - intros i Hi. destruct (Hfresh i ltac:(lia)) as [Hfid Hftab]. split.
    + rewrite lookup_insert_ne; [exact Hfid|]. intros Heq. rewrite <- Heq, Htid in Hfid.
      discriminate Hfid.
    + match goal with
      | |- commit_tablets ?rs ?m !! ?k = None =>
          pose proof (commit_tablets_lookup rs m k) as Hc;
          destruct (commit_tablets rs m !! k) as [tab|]; [|reflexivity]
      end.
      destruct Hc as (tab0 & Hold & _).
      rewrite with_new_tablets_lookup_ne in Hold; [congruence|].
      intros Hin. destruct (Hids _ Hin) as (j & Hj & Heq).
      apply Hinj in Heq; lia.
Qed.

Lemma same_entries_refl cm : same_entries cm cm.
Proof.
  split; [reflexivity|]. split; [reflexivity|]. split; intros id.
  - destruct (CatalogManager.table_ids_map_ cm !! id) as [t|]; eauto.
  - destruct (CatalogManager.tablet_map_ cm !! id) as [t|]; eauto.
Qed.

Lemma same_entries_consistent `{Externals} cm cm' :
  same_entries cm cm' -> directory_consistent cm -> directory_consistent cm'.
Proof.
  intros (Hoid & Hnm & Htables & Htabs) (Hkey & Hnamed & Hnames & Htablets & Hinj & Hfresh).
  unfold directory_consistent. rewrite Hoid, Hnm.
  split; [|split; [|split; [|split; [|split]]]].
  - intros id t' Hlookup. specialize (Htables id). rewrite Hlookup in Htables.
    destruct Htables as (t & Ht & Hid & _). rewrite Hid. eauto.
  - intros id t' Hlookup Hdel. specialize (Htables id). rewrite Hlookup in Htables.
    destruct Htables as (t & Ht & _ & Hn & Hd). rewrite Hn. apply Hnamed; congruence.
  - intros name id Hlookup. destruct (Hnames _ _ Hlookup) as (t & Ht & Hn & Hd).
    specialize (Htables id).
    destruct (CatalogManager.table_ids_map_ cm' !! id) as [t'|]; [|congruence].
    destruct Htables as (t0 & Ht0 & _ & Hn0 & Hd0).
    exists t'. split; [reflexivity|]. split; congruence.
  - intros id tab' Hlookup. specialize (Htabs id). rewrite Hlookup in Htabs.
    destruct Htabs as (tab & Htab & Hid & Htable).
    destruct (Htablets _ _ Htab) as [Hid0 [t1 Ht1]]. split; [congruence|].
    rewrite Htable. specialize (Htables (TabletInfo.table_ tab)).
    destruct (CatalogManager.table_ids_map_ cm' !! TabletInfo.table_ tab); [eauto|].
    congruence.
  - exact Hinj.
  - intros i Hi. destruct (Hfresh i Hi) as [Hid Htab]. split.
    + specialize (Htables (oid_Next i)).
      destruct (CatalogManager.table_ids_map_ cm' !! oid_Next i); [|reflexivity].
      destruct Htables as (t0 & Ht0 & _). congruence.
    + specialize (Htabs (oid_Next i)).
      destruct (CatalogManager.tablet_map_ cm' !! oid_Next i); [|reflexivity].
      destruct Htabs as (t0 & Ht0 & _). congruence.
Qed.

Lemma set_reported_schema_version_entries `{Externals} tablet_id version cm :
  directory_consistent cm ->
  same_entries cm (set_reported_schema_version tablet_id version cm).
Proof.
  intros (Hkey & _). unfold set_reported_schema_version.
  destruct (CatalogManager.tablet_map_ cm !! tablet_id) as [tab|] eqn:Htab;
    [|apply same_entries_refl].
  destruct (bool_decide _); [apply same_entries_refl|].
  destruct (CatalogManager.table_ids_map_ cm !! TabletInfo.table_ tab) as [table|] eqn:Htable;
    [|apply same_entries_refl].
  destruct (negb _); [apply same_entries_refl|].
  pose proof (Hkey _ _ Htable) as Hid.
  split; [reflexivity|]. split; [reflexivity|]. cbn. split; intros id.
  - destruct (decide (TableInfo.table_id_ table = id)) as [<- | Hne].
    + rewrite lookup_insert_eq. exists table. rewrite Hid. auto.
    + rewrite lookup_insert_ne by exact Hne.
      destruct (CatalogManager.table_ids_map_ cm !! id); eauto.
  - destruct (decide (tablet_id = id)) as [<- | Hne].
    + rewrite lookup_insert_eq. exists tab. auto.
    + rewrite lookup_insert_ne by exact Hne.
      destruct (CatalogManager.tablet_map_ cm !! id); eauto.
Qed.

Lemma HandleTabletSchemaVersionReport_keeps_consistent `{Externals} tablet_id version cm :
  directory_consistent cm ->
  directory_consistent (HandleTabletSchemaVersionReport tablet_id version cm).
Proof.
  intros Hinv.
  pose proof (same_entries_consistent _ _
                (set_reported_schema_version_entries tablet_id version cm Hinv) Hinv) as Hinv1.
  unfold HandleTabletSchemaVersionReport.
  set (cm1 := set_reported_schema_version tablet_id version cm) in *.
  destruct (CatalogManager.tablet_map_ cm1 !! tablet_id) as [tab|]; [|exact Hinv1].
  cbn [mbind option_bind].
  destruct (CatalogManager.table_ids_map_ cm1 !! TabletInfo.table_ tab) as [table|] eqn:Htable;
    [|exact Hinv1].
  destruct (PersistentTableInfo.is_deleted (TableInfo.metadata_ table)) eqn:Hdel;
    [exact Hinv1|]. cbn [orb].
  destruct (negb _); [exact Hinv1|].
  destruct (TableInfo.IsAlterInProgress _ _); [exact Hinv1|].
  destruct (SysCatalogTable.Write _ _) as [s0 sc0].
  destruct (negb (ok s0)).
  { apply (directory_consistent_frame cm1); [reflexivity | cbn; lia | exact Hinv1]. }
  apply (same_entries_consistent cm1); [|exact Hinv1].
  destruct Hinv1 as (Hkey & _). pose proof (Hkey _ _ Htable) as Hid.
  split; [reflexivity|]. split; [reflexivity|]. cbn. split; intros id.
  - destruct (decide (TableInfo.table_id_ table = id)) as [<- | Hne].
    + rewrite lookup_insert_eq. exists table. rewrite Hid. cbn. rewrite Hdel. auto.
    + rewrite lookup_insert_ne by exact Hne.
      destruct (CatalogManager.table_ids_map_ cm1 !! id); eauto.
  - destruct (CatalogManager.tablet_map_ cm1 !! id); eauto.
Qed.

Lemma ProcessTabletReport_keeps_consistent `{Externals} ts full_report cm s resp rpcs cm' :
  ProcessTabletReport ts full_report cm = Returned s resp rpcs cm' ->
  directory_consistent cm -> directory_consistent cm'.
Proof.
  unfold ProcessTabletReport. intros Hreport Hinv.
  destruct (process_reports ts cm _) as [pass|]; [|discriminate Hreport].
  destruct (SysCatalogTable.Write _ _) as [s0 sc0].
  destruct (negb (ok s0)).
  { injection Hreport as _ _ _ <-.
    apply (directory_consistent_frame cm); [reflexivity | cbn; lia | exact Hinv]. }
  injection Hreport as _ _ _ <-.
  unfold handle_schema_versions.
  match goal with
  | |- directory_consistent (foldl _ ?c0 _) =>
      assert (Hinv0 : directory_consistent c0)
  end.
  { apply (same_entries_consistent cm); [|exact Hinv].
    split; [reflexivity|]. split; [reflexivity|]. cbn. split; intros id.
    - destruct (CatalogManager.table_ids_map_ cm !! id); eauto.
    - pose proof (commit_tablets_lookup (pass_dirty pass) (CatalogManager.tablet_map_ cm) id)
        as Hc.
      destruct (commit_tablets _ _ !! id); [|exact Hc].
      destruct Hc as (tab0 & Hold & Hid & Htable & _). eauto. }
  revert Hinv0. generalize (map_to_list (collect_reports (CatalogManager.tablet_map_ cm)
                                           full_report)).
  intros l.
  match goal with
  | |- directory_consistent ?c0 -> _ => generalize c0
  end.
  induction l as [|e l IH]; intros c0 Hc0; [exact Hc0|].
  cbn [foldl]. apply IH.
  destruct (ReportedTabletPB.schema_version e.2); [|exact Hc0].
  apply HandleTabletSchemaVersionReport_keeps_consistent, Hc0.
Qed.

(** X5. The consistency of the directory is kept by CreateTable,
    DeleteTable, AlterTable and ProcessTabletReport, on every return: each
    table stays in the by-id map under its own id; the by-name map holds
    the tables that are not deleted, each under its name, and nothing else;
    each tablet stays in the tablet map under its own id with its table in
    the by-id map; and the ids the generator has yet to hand out stay
    unused. *)
Theorem handlers_keep_directory_consistent `{Externals} cm cm' :
  directory_consistent cm ->
  (forall req live s resp rpcs,
     CreateTable req live cm = Returned s resp rpcs cm' -> directory_consistent cm')
  /\ (forall req s resp rpcs,
        DeleteTable req cm = Returned s resp rpcs cm' -> directory_consistent cm')
  /\ (forall req s resp rpcs,
        AlterTable req cm = Returned s resp rpcs cm' -> directory_consistent cm')
  /\ (forall ts full_report s resp rpcs,
        ProcessTabletReport ts full_report cm = Returned s resp rpcs cm' ->
        directory_consistent cm').
Proof.
  intros Hinv. split; [|split; [|split]].
  - intros req live s resp rpcs Hrun.
    exact (CreateTable_keeps_consistent _ _ _ _ _ _ _ Hrun Hinv).
  - intros req s resp rpcs Hrun. exact (DeleteTable_keeps_consistent _ _ _ _ _ _ Hrun Hinv).
  - intros req s resp rpcs Hrun. exact (AlterTable_keeps_consistent _ _ _ _ _ _ Hrun Hinv).
  - intros ts full_report s resp rpcs Hrun.
    exact (ProcessTabletReport_keeps_consistent _ _ _ _ _ _ _ Hrun Hinv).
Qed.

Lemma sample_cm_consistent script : @directory_consistent sample_externals (sample_cm script).
Proof.
  unfold directory_consistent. cbn.
  split; [|split; [|split; [|split; [|split]]]];
    try (intros ? ? Hlookup; rewrite lookup_empty in Hlookup; discriminate Hlookup).
  - intros i j _ _. apply sample_oid_inj.
  - intros i _. split; apply lookup_empty.
Qed.

Lemma handlers_keep_directory_consistent_witness :
  @directory_consistent sample_externals (sample_created [OK])
  /\ @directory_consistent sample_externals
       (catalog_after (DeleteTable (by_name "t") (sample_created [OK; OK]))).
Proof.
  assert (Hcreated : forall script,
             @directory_consistent sample_externals (sample_created (OK :: script))).
  { intros script.
    refine (proj1 (@handlers_keep_directory_consistent sample_externals
                     (sample_cm (OK :: script)) _ (sample_cm_consistent _))
              (sample_create (Some 3)) 3 OK _ _ _).
    vm_compute. reflexivity. }
  split; [apply Hcreated|].
  refine (proj1 (proj2 (@handlers_keep_directory_consistent sample_externals
                          (sample_created [OK; OK]) _ (Hcreated _)))
            (by_name "t") OK _ _ _).
  vm_compute. reflexivity.
Defined.

Lemma handlers_keep_fully_applied_while_altering_witness :
  fully_applied_while_altering
    (catalog_after (AlterTable (sample_rename "u") (sample_running [OK])))
  /\ fully_applied_while_altering
       (catalog_after (ProcessTabletReport "A" sample_version_report
                         (sample_altering [OK; OK]))).
Proof.
  split.
  - refine (proj1 (proj2 (proj2 (@handlers_keep_fully_applied_while_altering
                                   sample_externals (sample_running [OK]) _ _)))
              (sample_rename "u") OK _ _ _).
    + intros id table fa Hid Hfa. cbn in Hid.
      apply lookup_singleton_Some in Hid as [_ <-]. discriminate Hfa.
    + vm_compute. reflexivity.
  - refine (proj2 (proj2 (proj2 (@handlers_keep_fully_applied_while_altering
                                   sample_externals (sample_altering [OK; OK]) _ _)))
              "A" sample_version_report OK _ _ _).
    + intros id table fa Hid Hfa. cbn in Hid.
      apply lookup_singleton_Some in Hid as [_ <-]. left. reflexivity.
    + vm_compute. reflexivity.
Defined.

(** X6. In a consistent directory the commit of CreateTable and of
    DeleteTable cannot fail: both handlers return, whatever the request and
    whatever the outcome of the write; so does AlterTable when the tablets
    it is to drop are tablets of the table, no two starting at one key. *)
Theorem consistent_directory_handlers_return `{Externals} cm :
  directory_consistent cm ->
  (forall req live, never_dies (CreateTable req live) cm)
  /\ (forall req, never_dies (DeleteTable req) cm)
  /\ (forall req,
        (forall plan cm1, AlterTable_prepare req cm = inr (plan, cm1) ->
           drops_of_table (alter_plan_table plan) (tablets_to_drop plan)) ->
        never_dies (AlterTable req) cm).
Proof.
  intros (Hkey & Hnamed & Hnames & Htablets & Hinj & Hfresh).
  assert (Hfresh_ids : fresh_ids cm).
  { split; [exact Hinj|]. intros i Hi. apply Hfresh, Hi. }
  assert (Hnc : names_consistent cm).
  { intros id table Hid Hdel. rewrite (Hnamed _ _ Hid Hdel). eauto. }
  split; [|split].
  - intros req live. apply CreateTable_returns, Hfresh_ids.
  - intros req. apply DeleteTable_returns, Hnc.
  - intros req Hdrops. apply AlterTable_returns; assumption.
Qed.

Lemma consistent_directory_handlers_return_witness :
  never_dies (DeleteTable (by_name "t")) (sample_created [OK; IOError])
  /\ never_dies (CreateTable (sample_create (Some 3)) 3) (sample_created [OK; OK])
  /\ never_dies (AlterTable (sample_rename "u")) (sample_created [OK; OK]).
Proof.
  assert (Hcreated : forall script,
             @directory_consistent sample_externals (sample_created (OK :: script))).
  { intros script.
    refine (CreateTable_keeps_consistent (sample_create (Some 3)) 3
              (sample_cm (OK :: script)) OK _ _ _ _ (sample_cm_consistent _)).
    vm_compute. reflexivity. }
  split; [|split].
  - apply (@consistent_directory_handlers_return sample_externals), Hcreated.
  - apply (@consistent_directory_handlers_return sample_externals), Hcreated.
  - apply (@consistent_directory_handlers_return sample_externals); [apply Hcreated|].
    intros plan cm1 Hprep. vm_compute in Hprep. injection Hprep as <- _.
    split; [constructor | intros k Hk; inversion Hk].
Defined.

(** ** One request after another *)

Lemma CheckOnline_state cm cm' :
  CatalogManager.state_ cm' = CatalogManager.state_ cm -> CheckOnline cm' = CheckOnline cm.
Proof. unfold CheckOnline. intros ->. reflexivity. Qed.

(** What a CreateTable that returns OK leaves of the catalog. *)
Lemma CreateTable_OK_catalog `{Externals} req live cm resp rpcs cm' :
  CreateTable req live cm = Returned OK resp rpcs cm' ->
  exists plan table,
    CatalogManager.state_ cm' = CatalogManager.state_ cm
    /\ CatalogManager.table_names_map_ cm !! create_name req = None
    /\ CatalogManager.table_names_map_ cm'
       = <[create_name req := plan_table_id plan]> (CatalogManager.table_names_map_ cm)
    /\ CatalogManager.table_ids_map_ cm'
       = <[plan_table_id plan := table]> (CatalogManager.table_ids_map_ cm)
    /\ TableInfo.table_id_ table = plan_table_id plan
    /\ TableInfo.metadata_ table
       = table_pb_set_state SysTablesEntryPB.RUNNING (plan_table plan)
    /\ SysTablesEntryPB.name (plan_table plan) = create_name req
    /\ create_table_id resp = Some (plan_table_id plan)
    /\ CreateTable_prepare req live cm
       = inr (plan, CatalogManager.set_reserved
                      ({[create_name req]} ∪ CatalogManager.reserved_table_names_ cm)
                      (CatalogManager.set_oid
                         (S (CatalogManager.oid_generator_ cm) + length (plan_tablets plan))
                         cm)).
Proof.
  unfold CreateTable. intros Hcreate.
  destruct (CreateTable_prepare req live cm) as [refused | [plan cm1]] eqn:Hprep.
  { subst refused. apply CreateTable_prepare_refuses in Hprep as [Hs _]. congruence. }
  pose proof (CreateTable_prepare_ids _ _ _ _ _ Hprep)
    as (_ & _ & Hoid & Hstate & Hpname & _).
  pose proof (CreateTable_prepare_plan _ _ _ _ _ Hprep)
    as (Hname & Hdir & Hsys & Hres & _ & Hfree & _).
  unfold CatalogManager.directory in Hdir. injection Hdir as Hids1 Hnames1 Htm1.
  apply CreateTable_apply_OK in Hcreate; [|reflexivity].
  cbv zeta in Hcreate.
  destruct Hcreate as (_ & _ & _ & _ & -> & _ & counts & ->).
  eexists plan, _. cbn. rewrite Hname, Hids1, Hnames1.
  split; [exact Hstate|]. split; [exact Hfree|]. split; [reflexivity|].
  split; [reflexivity|]. cbn. split; [reflexivity|]. split; [reflexivity|].
  split; [exact Hpname|]. split; [reflexivity|].
  f_equal. f_equal. destruct cm1, cm. cbn in *.
  unfold CatalogManager.set_reserved, CatalogManager.set_oid. cbn. congruence.
Qed.

(** X7. After a CreateTable that returned OK the name of the table exists,
    which it did not before; the table is found by that name and by the id
    of the response; and the same request made again is refused with
    AlreadyPresent and TABLE_ALREADY_PRESENT and changes nothing. *)
Theorem CreateTable_then_found `{Externals} req live cm resp rpcs cm' :
  CreateTable req live cm = Returned OK resp rpcs cm' ->
  exists table_id table,
    create_table_id resp = Some table_id
    /\ TableInfo.table_id_ table = table_id
    /\ TableNameExists (create_name req) cm = (OK, Some false)
    /\ TableNameExists (create_name req) cm' = (OK, Some true)
    /\ FindAndLockTable (by_name (create_name req)) cm' = (OK, Some table)
    /\ FindAndLockTable {| ident_table_id := Some table_id; ident_table_name := None |} cm'
       = (OK, Some table)
    /\ CreateTable req live cm'
       = Returned AlreadyPresent
           {| create_error := Some (MasterErrorPB.TABLE_ALREADY_PRESENT, AlreadyPresent);
              create_table_id := None |} [] cm'.
Proof.
  intros Hcreate.
  destruct (CreateTable_OK_catalog _ _ _ _ _ _ Hcreate)
    as (plan & table & Hstate & Hfree & Hnames & Hids & Hid & Hmeta & Hpname & Hresp & Hprep).
  assert (Honline : CheckOnline cm = OK).
  { unfold CreateTable_prepare in Hprep.
    destruct (negb (ok (CheckOnline cm))) eqn:Hon; [discriminate Hprep|].
    apply negb_false_iff, ok_true in Hon. exact Hon. }
  exists (plan_table_id plan), table.
  split; [exact Hresp|]. split; [exact Hid|].
  unfold TableNameExists. rewrite (CheckOnline_state cm cm' Hstate), Honline.
  change (negb (ok OK)) with false. cbv iota.
  split. { rewrite Hfree. rewrite bool_decide_eq_false_2; [reflexivity|]. intros [x Hx]. discriminate Hx. }
  split. { rewrite Hnames, lookup_insert_eq. rewrite bool_decide_eq_true_2 by eauto. reflexivity. }
  split.
  { unfold FindAndLockTable, by_name. cbn.
    rewrite Hnames, Hids, lookup_insert_eq. cbn. rewrite lookup_insert_eq. cbn.
    rewrite lookup_insert_eq. rewrite Hmeta. cbn. rewrite Hpname.
    rewrite bool_decide_eq_false_2; [reflexivity|]. intros Hne. apply Hne. reflexivity. }
  split.
  { unfold FindAndLockTable. cbn. rewrite Hids, lookup_insert_eq. cbn.
    rewrite lookup_insert_eq. reflexivity. }
  unfold CreateTable, CreateTable_prepare in *. cbv zeta in *.
  rewrite (CheckOnline_state cm cm' Hstate).
  destruct (negb (ok (CheckOnline cm))); [discriminate Hprep|].
  destruct (PrepareCreateTable req) as [[s0 e0] [[schema pschema] partitions]].
  destruct (negb (ok s0)); [discriminate Hprep|].
  destruct (CreateTable_check_replication _ _ _) as [[c s1]|]; [discriminate Hprep|].
  rewrite Hnames, lookup_insert_eq. reflexivity.
Qed.

Lemma CreateTable_then_found_witness :
  exists table_id table,
    TableInfo.table_id_ table = table_id
    /\ FindAndLockTable (by_name "t") (sample_created [OK]) = (OK, Some table)
    /\ CreateTable (sample_create (Some 3)) 3 (sample_created [OK])
       = Returned AlreadyPresent
           {| create_error := Some (MasterErrorPB.TABLE_ALREADY_PRESENT, AlreadyPresent);
              create_table_id := None |} [] (sample_created [OK]).
Proof.
  destruct (@CreateTable_then_found sample_externals (sample_create (Some 3)) 3
              (sample_cm [OK])
              {| create_error := None; create_table_id := Some "id" |} []
              (sample_created [OK]))
    as (table_id & table & _ & Hid & _ & _ & Hfind & _ & Hagain).
  { vm_compute. reflexivity. }
  exists table_id, table. auto.
Defined.

(** How FindAndLockTable found the table it returns. *)
Lemma FindAndLockTable_Some ident cm s table :
  FindAndLockTable ident cm = (s, Some table) ->
  s = OK
  /\ ((exists id, ident_table_id ident = Some id /\ ident_table_name ident = None
                  /\ CatalogManager.table_ids_map_ cm !! id = Some table)
      \/ (exists n, ident_table_name ident = Some n
                    /\ SysTablesEntryPB.name (TableInfo.metadata_ table) = n
                    /\ match ident_table_id ident with
                       | Some id => CatalogManager.table_ids_map_ cm !! id = Some table
                       | None =>
                           exists id, CatalogManager.table_names_map_ cm !! n = Some id
                                      /\ CatalogManager.table_ids_map_ cm !! id = Some table
                       end)).
Proof.
  unfold FindAndLockTable. destruct ident as [[id|] [n|]]; cbn.
  - destruct (bool_decide _); [intros [= _ ?]; discriminate|].
    destruct (CatalogManager.table_ids_map_ cm !! id) as [t|] eqn:Hid; cbn;
      [|intros [= _ ?]; discriminate].
    rewrite Hid. case_bool_decide as Hn; [intros [= _ ?]; discriminate|].
    intros [= <- <-]. split; [reflexivity|]. right. exists n.
    split; [reflexivity|]. split; [|reflexivity].
    destruct (decide (n = SysTablesEntryPB.name (TableInfo.metadata_ t))); congruence.
  - destruct (CatalogManager.table_ids_map_ cm !! id) as [t|] eqn:Hid; cbn;
      [|intros [= _ ?]; discriminate].
    rewrite Hid. intros [= <- <-]. split; [reflexivity|]. left. eauto.
  - destruct (CatalogManager.table_names_map_ cm !! n) as [id|] eqn:Hn; cbn;
      [|intros [= _ ?]; discriminate].
    destruct (CatalogManager.table_ids_map_ cm !! id) as [t|] eqn:Hid; cbn;
      [|intros [= _ ?]; discriminate].
    rewrite Hid. case_bool_decide as Hname; [intros [= _ ?]; discriminate|].
    intros [= <- <-]. split; [reflexivity|]. right. exists n.
    split; [reflexivity|]. split; [|eauto].
    destruct (decide (n = SysTablesEntryPB.name (TableInfo.metadata_ t))); congruence.
  - intros Heq. discriminate Heq.
Qed.

(** What a DeleteTable that returns OK leaves of the catalog. *)
Lemma DeleteTable_OK_catalog `{Externals} req cm resp rpcs cm' :
  DeleteTable req cm = Returned OK resp rpcs cm' ->
  exists s0 table,
    let deletion_msg := "Table deleted at " +:+ LocalTimeAsString in
    let dirty_tablets :=
      (fun tab => (TabletInfo.tablet_id_ tab,
                   PersistentTabletInfo.set_state SysTabletsEntryPB.DELETED deletion_msg
                     (TabletInfo.metadata_ tab)))
      <$> resolve_tablets (CatalogManager.tablet_map_ cm) (TableInfo.GetAllTablets table) in
    let table' :=
      TableInfo.set_metadata
        (PersistentTableInfo.set_state SysTablesEntryPB.REMOVED deletion_msg
           (TableInfo.metadata_ table)) table in
    CheckOnline cm = OK
    /\ FindAndLockTable req cm = (s0, Some table)
    /\ PersistentTableInfo.is_deleted (TableInfo.metadata_ table) = false
    /\ CatalogManager.state_ cm' = CatalogManager.state_ cm
    /\ CatalogManager.table_names_map_ cm'
       = delete (SysTablesEntryPB.name (TableInfo.metadata_ table))
           (CatalogManager.table_names_map_ cm)
    /\ CatalogManager.table_ids_map_ cm'
       = <[TableInfo.table_id_ table := table']> (CatalogManager.table_ids_map_ cm)
    /\ CatalogManager.tablet_map_ cm'
       = commit_tablets dirty_tablets (CatalogManager.tablet_map_ cm)
    /\ rpcs = SendDeleteTableRequest (CatalogManager.tablet_map_ cm') table'.
Proof.
  unfold DeleteTable. intros Hdelete.
  destruct (DeleteTable_prepare req cm) as [refused | found] eqn:Hprep.
  { subst refused. apply DeleteTable_prepare_refuses in Hprep as [Hs _]. congruence. }
  unfold DeleteTable_prepare in Hprep.
  destruct (negb (ok (CheckOnline cm))) eqn:Hon; [discriminate Hprep|].
  apply negb_false_iff, ok_true in Hon.
  destruct (FindAndLockTable req cm) as [s0 [t|]] eqn:Hfind.
  2:{ destruct (negb (ok s0)); discriminate Hprep. }
  destruct (negb (ok s0)); [discriminate Hprep|].
  destruct (PersistentTableInfo.is_deleted (TableInfo.metadata_ t)) eqn:Hdel;
    [discriminate Hprep|].
  injection Hprep as <-. exists s0, t. cbv zeta.
  unfold DeleteTable_apply in Hdelete.
  destruct (SysCatalogTable.Write _ _) as [s1 sc1].
  destruct (negb (ok s1)) eqn:Hs1.
  { injection Hdelete as Hs _ _ _. apply negb_true_iff, ok_false in Hs1. congruence. }
  destruct (CatalogManager.table_names_map_ _ !! _); [|discriminate Hdelete].
  injection Hdelete as _ <- <-. cbn. auto 10.
Qed.

Lemma commit_tablets_state (st : SysTabletsEntryPB.State)
    (rs : list (string * SysTabletsEntryPB.t)) (m : gmap string TabletInfo.t)
    (id : string) (tab : TabletInfo.t) :
  (forall r, r ∈ rs -> SysTabletsEntryPB.state r.2 = st) ->
  m !! id = Some tab ->
  id ∈ rs.*1 \/ SysTabletsEntryPB.state (TabletInfo.metadata_ tab) = st ->
  exists tab', commit_tablets rs m !! id = Some tab'
               /\ SysTabletsEntryPB.state (TabletInfo.metadata_ tab') = st.
Proof.
  unfold commit_tablets. revert m tab.
  induction rs as [|r rs IH]; intros m tab Hall Hlookup Hin.
  { destruct Hin as [Hin | Hst]; [inversion Hin|]. cbn. eauto. }
  cbn [foldl].
  assert (Hall' : forall r0, r0 ∈ rs -> SysTabletsEntryPB.state r0.2 = st).
  { intros r0 Hr0. apply Hall. right. exact Hr0. }
  destruct (decide (r.1 = id)) as [Heq | Hne].
  - apply (IH _ (TabletInfo.set_metadata r.2 tab) Hall').
    + rewrite <- Heq, lookup_alter_eq, Heq, Hlookup. reflexivity.
    + right. cbn. apply Hall. left.
  - apply (IH _ tab Hall').
    + rewrite lookup_alter_ne by exact Hne. exact Hlookup.
    + destruct Hin as [Hin | Hst]; [|right; exact Hst].
      rewrite fmap_cons in Hin. apply elem_of_cons in Hin as [Heq | Hin];
        [congruence | left; exact Hin].
Qed.

(** X8. After a DeleteTable that returned OK in a consistent directory the
    table is still in the by-id map, with state REMOVED; its name no longer
    exists; each of its tablets is DELETED; and the same request made again
    is answered NotFound with TABLE_NOT_FOUND and changes nothing. *)
Theorem DeleteTable_then_not_found `{Externals} req cm resp rpcs cm' :
  directory_consistent cm ->
  DeleteTable req cm = Returned OK resp rpcs cm' ->
  exists s0 table table',
    FindAndLockTable req cm = (s0, Some table)
    /\ CatalogManager.table_ids_map_ cm' !! TableInfo.table_id_ table = Some table'
    /\ SysTablesEntryPB.state (TableInfo.metadata_ table') = SysTablesEntryPB.REMOVED
    /\ TableNameExists (SysTablesEntryPB.name (TableInfo.metadata_ table)) cm'
       = (OK, Some false)
    /\ (forall key tid tab,
          TableInfo.tablet_map_ table !! key = Some tid ->
          CatalogManager.tablet_map_ cm !! tid = Some tab ->
          exists tab',
            CatalogManager.tablet_map_ cm' !! tid = Some tab'
            /\ SysTabletsEntryPB.state (TabletInfo.metadata_ tab')
               = SysTabletsEntryPB.DELETED)
    /\ DeleteTable req cm'
       = Returned NotFound
           {| delete_error := Some (MasterErrorPB.TABLE_NOT_FOUND, NotFound) |} [] cm'.
Proof.
  intros (Hkey & _ & _ & Htablets & _) Hdelete.
  destruct (DeleteTable_OK_catalog _ _ _ _ _ Hdelete) as (s0 & table & Hok).
  cbv zeta in Hok.
  destruct Hok as (Honline & Hfind & Hdel & Hstate & Hnames & Hids & Htm & _).
  eexists s0, table, _. split; [exact Hfind|].
  split; [rewrite Hids; apply lookup_insert_eq|]. split; [reflexivity|].
  pose proof (CheckOnline_state cm cm' Hstate) as Honline'. rewrite Honline in Honline'.
  split.
  { unfold TableNameExists. rewrite Honline'. change (negb (ok OK)) with false. cbv iota.
    rewrite Hnames, lookup_delete_eq. rewrite bool_decide_eq_false_2; [reflexivity|].
    intros [x Hx]. discriminate Hx. }
  split.
  { intros key tid tab Hchild Htab. rewrite Htm.
    apply (commit_tablets_state SysTabletsEntryPB.DELETED _ _ _ tab).
    - intros r Hr. apply list_elem_of_fmap in Hr as [t [-> _]]. reflexivity.
    - exact Htab.
    - left. apply list_elem_of_fmap. eexists (tid, _). split; [reflexivity|].
      apply list_elem_of_fmap. exists tab. destruct (Htablets _ _ Htab) as [<- _].
      split; [reflexivity|]. unfold resolve_tablets. apply list_elem_of_omap.
      exists (TabletInfo.tablet_id_ tab). split; [|exact Htab].
      unfold TableInfo.GetAllTablets. apply list_elem_of_fmap. exists (key, TabletInfo.tablet_id_ tab).
      split; [reflexivity|]. apply elem_of_map_to_list. exact Hchild. }
  apply FindAndLockTable_Some in Hfind as [-> Hhow].
  unfold DeleteTable, DeleteTable_prepare. rewrite Honline'.
  change (negb (ok OK)) with false. cbv iota.
  assert (Hnot : FindAndLockTable req cm' = (OK, None)
                 \/ exists t, FindAndLockTable req cm' = (OK, Some t)
                              /\ PersistentTableInfo.is_deleted (TableInfo.metadata_ t) = true).
  { unfold FindAndLockTable.
    destruct Hhow as [(id & Hid & Hn & Hlookup) | (n & Hn & Hname & Hhow)].
    - right. rewrite Hid, Hn. pose proof (Hkey _ _ Hlookup) as Hidt. subst id.
      rewrite Hids, lookup_insert_eq. cbn. rewrite lookup_insert_eq. eauto.
    - left. rewrite Hn. rewrite Hnames, Hname, lookup_delete_eq.
      destruct (ident_table_id req) as [id|]; [|reflexivity].
      cbn. assert (Hsome : is_Some (CatalogManager.table_ids_map_ cm' !! id)).
      { rewrite Hids. apply lookup_insert_is_Some'. right. eauto. }
      destruct Hsome as [t' ->]. reflexivity. }
  destruct Hnot as [-> | (t & -> & Hdelt)]; [reflexivity|].
  change (negb (ok OK)) with false. cbv iota. rewrite Hdelt. reflexivity.
Qed.

Lemma DeleteTable_then_not_found_witness :
  DeleteTable (by_name "t") (catalog_after (DeleteTable (by_name "t") (sample_created [OK; OK])))
  = Returned NotFound
      {| delete_error := Some (MasterErrorPB.TABLE_NOT_FOUND, NotFound) |} []
      (catalog_after (DeleteTable (by_name "t") (sample_created [OK; OK]))).
Proof.
  destruct (@DeleteTable_then_not_found sample_externals (by_name "t")
              (sample_created [OK; OK]) {| delete_error := None |} []
              (catalog_after (DeleteTable (by_name "t") (sample_created [OK; OK]))))
    as (s0 & table & table' & _ & _ & _ & _ & _ & Hagain).
  - refine (CreateTable_keeps_consistent (sample_create (Some 3)) 3
              (sample_cm [OK; OK]) OK _ _ _ _ (sample_cm_consistent _)).
    vm_compute. reflexivity.
  - vm_compute. reflexivity.
  - exact Hagain.
Defined.

(** What steps 1 to 5 of AlterTable read off the request. *)
Lemma AlterTable_prepare_steps `{Externals} req cm plan cm1 :
  AlterTable_prepare req cm = inr (plan, cm1) ->
  CheckOnline cm = OK
  /\ CatalogManager.state_ cm1 = CatalogManager.state_ cm
  /\ exists schema_steps partitioning_steps,
       group_steps (AlterTableRequestPB.alter_schema_steps req)
       = Some (schema_steps, partitioning_steps)
       /\ has_schema_changes plan = negb (bool_decide (schema_steps = []))
       /\ has_partitioning_changes plan = negb (bool_decide (partitioning_steps = []))
       /\ (partitioning_steps = [] ->
           tablets_to_add plan = [] /\ tablets_to_drop plan = []).
Proof.
  intros Hprep.
  assert (Hon : CheckOnline cm = OK).
  { unfold AlterTable_prepare in Hprep.
    destruct (negb (ok (CheckOnline cm))) eqn:Hon; [discriminate Hprep|].
    apply negb_false_iff, ok_true in Hon. exact Hon. }
  split; [exact Hon|].
  apply AlterTable_prepare_partitioning in Hprep
    as (schema_steps & steps & cm0 & Hgroup & _ & _ & Hstate0 & _ & Hsc & Hpc & Hpart).
  apply alter_partitioning_spec in Hpart
    as (_ & _ & _ & Hstate & _ & _ & _ & _ & Hempty).
  cbn in Hstate, Hempty. split; [congruence|]. exists schema_steps, steps.
  split; [exact Hgroup|]. split; [exact Hsc|]. split; [exact Hpc|].
  intros Hnil. destruct (Hempty Hnil) as (-> & -> & _). auto.
Qed.

(** What an AlterTable that returns OK leaves of the catalog. *)
Lemma AlterTable_OK_catalog `{Externals} req cm resp rpcs cm' :
  AlterTable req cm = Returned OK resp rpcs cm' ->
  exists plan cm1,
    let table := alter_plan_table plan in
    AlterTable_prepare req cm = inr (plan, cm1)
    /\ CatalogManager.state_ cm' = CatalogManager.state_ cm
    /\ alter_table_id resp = Some (TableInfo.table_id_ table)
    /\ ((has_metadata_changes req plan = false /\ has_partitioning_changes plan = false
         /\ CatalogManager.directory cm' = CatalogManager.directory cm)
        \/ ((has_metadata_changes req plan = true \/ has_partitioning_changes plan = true)
            /\ exists table2,
                 CatalogManager.table_ids_map_ cm'
                 = <[TableInfo.table_id_ table := table2]> (CatalogManager.table_ids_map_ cm)
                 /\ TableInfo.table_id_ table2 = TableInfo.table_id_ table
                 /\ TableInfo.metadata_ table2
                    = (if negb (bool_decide (tablets_to_add plan = []))
                          || has_metadata_changes req plan
                       then AlterTable_dirty req plan
                       else TableInfo.metadata_ table)
                 /\ CatalogManager.table_names_map_ cm'
                    = match AlterTableRequestPB.new_table_name req with
                      | Some n =>
                          <[n := TableInfo.table_id_ table]>
                            (delete (SysTablesEntryPB.name (TableInfo.metadata_ table))
                               (CatalogManager.table_names_map_ cm))
                      | None => CatalogManager.table_names_map_ cm
                      end)).
Proof.
  unfold AlterTable. intros Halter.
  destruct (AlterTable_prepare req cm) as [refused | [plan cm1]] eqn:Hprep.
  { subst refused. apply AlterTable_prepare_refuses in Hprep as [Hs _]. congruence. }
  exists plan, cm1. cbv zeta. split; [reflexivity|].
  pose proof (AlterTable_prepare_steps _ _ _ _ Hprep) as (_ & Hstate & _).
  apply AlterTable_prepare_plan in Hprep as (Hdir & _ & Hname & _ & _ & _ & Hfree).
  unfold CatalogManager.directory in Hdir. injection Hdir as Hids1 Hnames1 Htm1.
  unfold AlterTable_apply in Halter.
  destruct (negb (has_metadata_changes req plan) && negb (has_partitioning_changes plan))
    eqn:Hskip.
  { injection Halter as <- _ <-. apply andb_true_iff in Hskip as [Hm Hp].
    apply negb_true_iff in Hm, Hp.
    destruct (AlterTable_cleanup_frame req cm1) as [Hd _].
    destruct (AlterTable_cleanup_oid req cm1) as [_ Hst].
    split; [congruence|]. split; [reflexivity|]. left. split; [exact Hm|].
    split; [exact Hp|]. rewrite Hd. unfold CatalogManager.directory. congruence. }
  destruct (SysCatalogTable.Write _ _) as [s0 sc0].
  destruct (negb (ok s0)) eqn:Hs0.
  { injection Halter as Hs _ _ _. apply negb_true_iff, ok_false in Hs0. congruence. }
  match type of Halter with
  | match ?x with _ => _ end = _ => destruct x as [names|] eqn:Hnames'
  end; [|discriminate Halter].
  destruct (publish_tablets _ _) as [published|]; [|discriminate Halter].
  destruct (TableInfo.AddRemoveTablets _ _ _ _) as [table1|] eqn:Hadd;
    [|discriminate Halter].
  apply AddRemoveTablets_metadata in Hadd as [Hmeta Hid1].
  injection Halter as <- _ <-.
  match goal with
  | |- context [AlterTable_cleanup req ?c] =>
      destruct (AlterTable_cleanup_frame req c) as [Hd _];
      destruct (AlterTable_cleanup_oid req c) as [_ Hst]
  end.
  unfold CatalogManager.directory in Hd. cbn in Hd, Hst. injection Hd as Hids' Hnm' Htm'.
  split; [congruence|]. split; [reflexivity|]. right.
  split.
  { apply andb_false_iff in Hskip as [Hm | Hp]; [left | right];
      apply negb_false_iff; assumption. }
  eexists. rewrite Hids', Hnm'. cbn. rewrite ?Hids1. split; [reflexivity|].
  split; [destruct (_ || _); cbn; exact Hid1|].
  split; [destruct (_ || _); [reflexivity | exact Hmeta]|].
  cbn in Hnames'. rewrite Hnames1, Hname in Hnames'.
  destruct (AlterTableRequestPB.new_table_name req) as [n|].
  - destruct (CatalogManager.table_names_map_ cm !! _) as [tid|]; [|discriminate Hnames'].
    unfold InsertOrDie in Hnames'. cbn in Hnames'.
    destruct (delete _ _ !! n); [discriminate Hnames'|]. congruence.
  - congruence.
Qed.

(** X9. After an AlterTable that renamed a table of a consistent directory
    and returned OK, the old name no longer exists and finds no table; the
    new name exists and finds the table, which has kept its id, carries the
    new name and is one schema version further. *)
Theorem AlterTable_rename_moves_name `{Externals} req cm resp rpcs cm' new_name :
  directory_consistent cm ->
  AlterTable req cm = Returned OK resp rpcs cm' ->
  AlterTableRequestPB.new_table_name req = Some new_name ->
  exists s0 table table2,
    FindAndLockTable (AlterTableRequestPB.table req) cm = (s0, Some table)
    /\ new_name <> SysTablesEntryPB.name (TableInfo.metadata_ table)
    /\ TableNameExists (SysTablesEntryPB.name (TableInfo.metadata_ table)) cm'
       = (OK, Some false)
    /\ TableNameExists new_name cm' = (OK, Some true)
    /\ FindAndLockTable (by_name (SysTablesEntryPB.name (TableInfo.metadata_ table))) cm'
       = (OK, None)
    /\ FindAndLockTable (by_name new_name) cm' = (OK, Some table2)
    /\ TableInfo.table_id_ table2 = TableInfo.table_id_ table
    /\ SysTablesEntryPB.name (TableInfo.metadata_ table2) = new_name
    /\ SysTablesEntryPB.version (TableInfo.metadata_ table2)
       = SysTablesEntryPB.version (TableInfo.metadata_ table) + 1.
Proof.
  intros (_ & Hnamed & _) Halter Hnew.
  destruct (AlterTable_OK_catalog _ _ _ _ _ Halter) as (plan & cm1 & Hok).
  cbv zeta in Hok. destruct Hok as (Hprep & Hstate & _ & Hcases).
  pose proof (AlterTable_prepare_steps _ _ _ _ Hprep) as (Honline & _).
  apply AlterTable_prepare_plan in Hprep
    as (_ & _ & _ & Hdirty & [s0 Hfind] & Hdel & Hfree).
  assert (Hmeta : has_metadata_changes req plan = true).
  { unfold has_metadata_changes. rewrite Hnew.
    rewrite (bool_decide_eq_true_2 (is_Some (Some new_name))) by (eexists; reflexivity).
    apply orb_true_r. }
  destruct Hcases as [(Hno & _) | (_ & table2 & Hids & Hid2 & Hmeta2 & Hnames)];
    [congruence|].
  rewrite Hmeta, orb_true_r in Hmeta2. rewrite Hnew in Hnames.
  set (table := alter_plan_table plan) in *.
  pose proof (FindAndLockTable_found _ _ _ _ Hfind) as [tid Htid].
  pose proof (Hnamed _ _ Htid Hdel) as Hold.
  specialize (Hfree _ Hnew).
  assert (Hne : new_name <> SysTablesEntryPB.name (TableInfo.metadata_ table))
    by congruence.
  destruct (AlterTable_record_kept req plan Hdirty Hdel) as [Hdel2 Hname2].
  rewrite Hnew in Hname2. cbn in Hname2.
  pose proof (CheckOnline_state cm cm' Hstate) as Honline'. rewrite Honline in Honline'.
  exists s0, table, table2. split; [exact Hfind|]. split; [exact Hne|].
  unfold TableNameExists. rewrite Honline'. change (negb (ok OK)) with false. cbv iota.
  split.
  { rewrite Hnames, lookup_insert_ne by exact Hne. rewrite lookup_delete_eq.
    rewrite bool_decide_eq_false_2; [reflexivity|]. intros [x Hx]. discriminate Hx. }
  split.
  { rewrite Hnames, lookup_insert_eq. rewrite bool_decide_eq_true_2 by eauto. reflexivity. }
  split.
  { unfold FindAndLockTable, by_name. cbn.
    rewrite Hnames, lookup_insert_ne by exact Hne. rewrite lookup_delete_eq. reflexivity. }
  split.
  { unfold FindAndLockTable, by_name. cbn.
    rewrite Hnames, lookup_insert_eq. cbn. rewrite Hids, lookup_insert_eq. cbn.
    rewrite lookup_insert_eq. rewrite Hmeta2, Hname2.
    rewrite bool_decide_eq_false_2; [reflexivity|]. intros Hx. apply Hx. reflexivity. }
  split; [exact Hid2|]. rewrite Hmeta2. split; [exact Hname2|].
  pose proof (AlterTable_update_record_spec (has_schema_changes plan)
                (has_metadata_changes req plan)
                (has_metadata_changes_for_existing_tablets req plan)
                (negb (bool_decide (tablets_to_add plan = [])))
                (alter_plan_new_schema plan) (alter_plan_next_col_id plan)
                (alter_plan_dirty plan)) as Hrec.
  cbv zeta in Hrec. fold (AlterTable_dirty req plan) in Hrec.
  destruct Hrec as (_ & _ & _ & Hversion & _).
  rewrite Hversion, Hmeta, Hdirty, Hnew. reflexivity.
Qed.

Lemma AlterTable_rename_moves_name_witness :
  exists table2,
    FindAndLockTable (by_name "t") (catalog_after (AlterTable (sample_rename "u")
                                                     (sample_created [OK; OK])))
    = (OK, None)
    /\ FindAndLockTable (by_name "u") (catalog_after (AlterTable (sample_rename "u")
                                                        (sample_created [OK; OK])))
       = (OK, Some table2)
    /\ SysTablesEntryPB.version (TableInfo.metadata_ table2) = 1.
Proof.
  destruct (@AlterTable_rename_moves_name sample_externals (sample_rename "u")
              (sample_created [OK; OK])
              {| alter_error := None; alter_table_id := Some "id" |}
              (match AlterTable (sample_rename "u") (sample_created [OK; OK]) with
               | Returned _ _ tasks _ => tasks
               | Crashed => []
               end)
              (catalog_after (AlterTable (sample_rename "u") (sample_created [OK; OK])))
              "u")
    as (s0 & table & table2 & Hfind & _ & _ & _ & Hold & Hnew & _ & _ & Hversion).
  - refine (CreateTable_keeps_consistent (sample_create (Some 3)) 3
              (sample_cm [OK; OK]) OK _ _ _ _ (sample_cm_consistent _)).
    vm_compute. reflexivity.
  - vm_compute. reflexivity.
  - reflexivity.
  - exists table2. vm_compute in Hfind. injection Hfind as _ <-.
    vm_compute in Hold. split; [exact Hold|]. split; [exact Hnew|]. exact Hversion.
Defined.

(** X10. While a schema change is in progress readers see the old schema:
    after an AlterTable with schema steps and no partitioning step returned
    OK for a table that has a tablet, GetTableSchema by the id of the
    response gives the schema the table had before (its fully applied
    schema, if it was already being altered), and IsAlterTableDone says not
    done at the old version plus one. The record of an ALTERING table is
    taken to count as running. *)
Theorem AlterTable_schema_change_pending `{Externals} req cm resp rpcs cm'
    s0 table schema_steps :
  AlterTable req cm = Returned OK resp rpcs cm' ->
  FindAndLockTable (AlterTableRequestPB.table req) cm = (s0, Some table) ->
  group_steps (AlterTableRequestPB.alter_schema_steps req) = Some (schema_steps, []) ->
  schema_steps <> [] ->
  TableInfo.tablet_map_ table <> ∅ ->
  (forall pb, SysTablesEntryPB.state pb = SysTablesEntryPB.ALTERING ->
              table_is_running pb = true) ->
  let by_id := {| ident_table_id := Some (TableInfo.table_id_ table);
                  ident_table_name := None |} in
  alter_table_id resp = Some (TableInfo.table_id_ table)
  /\ (exists schema_resp,
        GetTableSchema by_id cm' = Returned OK schema_resp [] cm'
        /\ get_schema_schema schema_resp
           = Some (default (SysTablesEntryPB.schema (TableInfo.metadata_ table))
                     (SysTablesEntryPB.fully_applied_schema (TableInfo.metadata_ table))))
  /\ IsAlterTableDone by_id cm'
     = Returned OK
         {| is_alter_done_error := None;
            is_alter_done_schema_version :=
              Some (SysTablesEntryPB.version (TableInfo.metadata_ table) + 1);
            is_alter_done := Some false |} [] cm'.
Proof.
  intros Halter Hfind Hsteps Hsome Htablets Hrunning by_id. subst by_id.
  destruct (AlterTable_OK_catalog _ _ _ _ _ Halter) as (plan & cm1 & Hok).
  cbv zeta in Hok. destruct Hok as (Hprep & Hstate & Hresp & Hcases).
  pose proof (AlterTable_prepare_steps _ _ _ _ Hprep)
    as (Honline & _ & sch & par & Hgroup & Hsch & Hpar & Hnone).
  rewrite Hsteps in Hgroup. injection Hgroup as <- <-.
  destruct (Hnone eq_refl) as [Hadd Hdrop].
  apply AlterTable_prepare_plan in Hprep
    as (_ & _ & _ & Hdirty & [s1 Hfind1] & Hdel & _).
  rewrite Hfind in Hfind1. injection Hfind1 as _ Htable. subst table.
  assert (Hmeta : has_metadata_changes req plan = true).
  { unfold has_metadata_changes. rewrite Hsch.
    rewrite bool_decide_eq_false_2 by exact Hsome. reflexivity. }
  assert (Hfor : has_metadata_changes_for_existing_tablets req plan = true).
  { unfold has_metadata_changes_for_existing_tablets. rewrite Hmeta, Hdrop. cbn.
    apply bool_decide_eq_true. apply map_size_non_empty_iff in Htablets. lia. }
  destruct Hcases as [(Hno & _) | (_ & table2 & Hids & Hid2 & Hmeta2 & _)];
    [congruence|].
  rewrite Hmeta, orb_true_r in Hmeta2.
  destruct (AlterTable_record_kept req plan Hdirty Hdel) as [Hdel2 _].
  pose proof (AlterTable_update_record_spec (has_schema_changes plan)
                (has_metadata_changes req plan)
                (has_metadata_changes_for_existing_tablets req plan)
                (negb (bool_decide (tablets_to_add plan = [])))
                (alter_plan_new_schema plan) (alter_plan_next_col_id plan)
                (alter_plan_dirty plan)) as Hrec.
  cbv zeta in Hrec. fold (AlterTable_dirty req plan) in Hrec.
  destruct Hrec as (Hst & Hfas & _ & Hversion & _).
  rewrite Hfor, orb_true_r in Hst. rewrite Hfor in Hfas. rewrite Hmeta in Hversion.
  assert (Hsame : SysTablesEntryPB.schema (alter_plan_dirty plan)
                  = SysTablesEntryPB.schema (TableInfo.metadata_ (alter_plan_table plan))
                  /\ SysTablesEntryPB.fully_applied_schema (alter_plan_dirty plan)
                     = SysTablesEntryPB.fully_applied_schema (TableInfo.metadata_ (alter_plan_table plan))
                  /\ SysTablesEntryPB.version (alter_plan_dirty plan)
                     = SysTablesEntryPB.version (TableInfo.metadata_ (alter_plan_table plan))).
  { rewrite Hdirty. destruct (AlterTableRequestPB.new_table_name req); auto. }
  destruct Hsame as (Hschema0 & Hfas0 & Hversion0).
  rewrite Hschema0, Hfas0 in Hfas. rewrite Hversion0 in Hversion.
  pose proof (CheckOnline_state cm cm' Hstate) as Honline'. rewrite Honline in Honline'.
  assert (Hfind' : FindAndLockTable
                     {| ident_table_id := Some (TableInfo.table_id_ (alter_plan_table plan));
                        ident_table_name := None |} cm' = (OK, Some table2)).
  { unfold FindAndLockTable. cbn. rewrite Hids, lookup_insert_eq. cbn.
    rewrite lookup_insert_eq. reflexivity. }
  split; [exact Hresp|]. split.
  - unfold GetTableSchema. rewrite Honline', Hfind'.
    change (negb (ok OK)) with false. cbv iota.
    unfold CheckIfTableDeletedOrNotRunning. rewrite Hmeta2, Hdel2.
    rewrite (Hrunning _ Hst). cbn [negb]. rewrite Hfas, Hst.
    rewrite bool_decide_eq_true_2 by reflexivity. cbn [negb].
    eexists. split; reflexivity.
  - unfold IsAlterTableDone. rewrite Honline', Hfind'.
    change (negb (ok OK)) with false. cbv iota.
    unfold CheckIfTableDeletedOrNotRunning. rewrite Hmeta2, Hdel2.
    rewrite (Hrunning _ Hst). cbn [negb]. rewrite Hst, Hversion.
    rewrite bool_decide_eq_true_2 by reflexivity. reflexivity.
Qed.

Lemma AlterTable_schema_change_pending_witness :
  exists schema_resp,
    GetTableSchema {| ident_table_id := Some "id"; ident_table_name := None |}
      (catalog_after (AlterTable (sample_alter AlterTableRequestPB.ADD_COLUMN "v")
                        (sample_running [OK])))
    = Returned OK schema_resp []
        (catalog_after (AlterTable (sample_alter AlterTableRequestPB.ADD_COLUMN "v")
                          (sample_running [OK])))
    /\ get_schema_schema schema_resp
       = Some [ {| column_name := "key"; column_id := Some 0 |} ].
Proof.
  destruct (@AlterTable_schema_change_pending sample_externals
              (sample_alter AlterTableRequestPB.ADD_COLUMN "v") (sample_running [OK])
              {| alter_error := None; alter_table_id := Some "id" |}
              [AsyncAlterTable "#id"]
              (catalog_after (AlterTable (sample_alter AlterTableRequestPB.ADD_COLUMN "v")
                                (sample_running [OK])))
              OK (sample_table SysTablesEntryPB.RUNNING 0 None)
              [ {| AlterTableRequestPB.step_type := AlterTableRequestPB.ADD_COLUMN;
                   AlterTableRequestPB.step_arg := "v" |} ])
    as (_ & Hschema & _).
  - vm_compute. reflexivity.
  - vm_compute. reflexivity.
  - reflexivity.
  - discriminate.
  - cbn. intros Hempty. apply (f_equal (fun m => m !! "")) in Hempty.
    rewrite lookup_singleton_eq, lookup_empty in Hempty. discriminate Hempty.
  - intros pb Hst. cbn. rewrite Hst. reflexivity.
  - exact Hschema.
Defined.

(** ** The life of a task *)

Lemma Mark_terminal (t : RetryingTSRpcTask) :
  state_ t <> MonitoredTask.kStateRunning ->
  MarkComplete t = t /\ MarkAborted t = t /\ MarkFailed t = t.
Proof.
  intros Hstate. unfold MarkComplete, MarkAborted, MarkFailed.
  destruct (decide (state_ t = MonitoredTask.kStateRunning)); [contradiction | auto].
Qed.

Lemma HandleResponse_terminal type resp t :
  state_ t <> MonitoredTask.kStateRunning -> HandleResponse type resp t = t.
Proof.
  intros Hstate. destruct (Mark_terminal t Hstate) as (Hc & Ha & Hf).
  unfold HandleResponse.
  destruct type, resp as [[[] s]|]; rewrite ?Hc, ?Hf; try reflexivity;
    destruct (bool_decide _); reflexivity.
Qed.

Lemma HandleResponse_state type resp t :
  attempt_ (HandleResponse type resp t) = attempt_ t
  /\ (state_ (HandleResponse type resp t) = state_ t
      \/ (state_ t = MonitoredTask.kStateRunning
          /\ state_ (HandleResponse type resp t) <> MonitoredTask.kStateRunning)).
Proof.
  unfold HandleResponse, MarkComplete, MarkFailed.
  destruct type, resp as [[[] s]|]; try destruct (bool_decide _);
    try destruct (decide (state_ t = MonitoredTask.kStateRunning)) as [Hrun | Hrun];
    cbn; split; auto; right; split; auto; discriminate.
Qed.

Lemma Reschedule_outcome to_deadline_ms rand_value t :
  match RescheduleWithBackoffDelay to_deadline_ms rand_value t with
  | (true, Some delay, t') =>
      t' = t /\ state_ t = MonitoredTask.kStateRunning
      /\ 0 < delay <= to_deadline_ms - 10
  | (false, None, t') =>
      attempt_ t' = attempt_ t /\ state_ t' <> MonitoredTask.kStateRunning
      /\ (state_ t <> MonitoredTask.kStateRunning -> t' = t)
      /\ (state_ t = MonitoredTask.kStateRunning ->
          state_ t' = MonitoredTask.kStateFailed)
  | _ => False
  end.
Proof.
  unfold RescheduleWithBackoffDelay.
  case_bool_decide as Hrun; cbn [negb].
  2:{ split; [reflexivity|]. split; [exact Hrun|]. split; [reflexivity|]. contradiction. }
  cbv zeta. case_bool_decide as Hdelay.
  - unfold MarkFailed. rewrite decide_True by exact Hrun. cbn.
    split; [reflexivity|]. split; [discriminate|]. split; [contradiction | reflexivity].
  - split; [reflexivity|]. split; [exact Hrun|]. lia.
Qed.

(** X11. A task that has left kStateRunning stays in the state it is in:
    no response, callback, delayed run or run changes the state, the
    callback schedules no retry and unregisters the task, and the run
    schedules no retry. The run still sends the request of a tablet task
    when the proxy is reset, whatever the state. *)
Theorem finished_task_stays_finished type rpc_status resp timer fail_ts_rpcs reset
    latest_index task_index replacement_found to_deadline_ms rand_value t :
  state_ t <> MonitoredTask.kStateRunning ->
  let callback := RpcCallback type rpc_status resp to_deadline_ms rand_value t in
  let run := Run type fail_ts_rpcs reset latest_index task_index replacement_found
               to_deadline_ms rand_value t in
  let delayed := RunDelayedTask type timer fail_ts_rpcs reset latest_index task_index
                   replacement_found to_deadline_ms rand_value t in
  HandleResponse type resp t = t
  /\ step_task callback = t
  /\ step_retry_in callback = None /\ step_unregistered callback = true
  /\ state_ (step_task run) = state_ t /\ step_retry_in run = None
  /\ state_ (step_task delayed) = state_ t /\ step_retry_in delayed = None
  /\ (fail_ts_rpcs = false -> reset = OK ->
      type = CreateTabletTask \/ type = DeleteTabletTask \/ type = AlterTableTask ->
      step_sent run = true /\ attempt_ (step_task run) = attempt_ t + 1).
Proof.
  intros Hstate callback run delayed.
  pose proof (HandleResponse_terminal type resp t Hstate) as Hhandle.
  destruct (Mark_terminal t Hstate) as (_ & Habort & Hfail).
  assert (Hresched : forall t0, state_ t0 = state_ t ->
             RescheduleWithBackoffDelay to_deadline_ms rand_value t0 = (false, None, t0)).
  { intros t0 Ht0. unfold RescheduleWithBackoffDelay.
    rewrite bool_decide_eq_false_2 by congruence. reflexivity. }
  assert (Hcallback : callback = {| step_status := OK; step_retry_in := None;
                                    step_sent := false; step_unregistered := true;
                                    step_task := t |}).
  { subst callback. unfold RpcCallback. rewrite Hhandle.
    assert (Hsame : (if negb (ok rpc_status) then t
                     else if negb (bool_decide (state_ t = MonitoredTask.kStateAborted))
                          then t else t) = t).
    { destruct (negb _); [reflexivity|]. destruct (negb _); reflexivity. }
    rewrite Hsame, (Hresched t eq_refl). reflexivity. }
  assert (Hrun : state_ (step_task run) = state_ t /\ step_retry_in run = None
                 /\ (fail_ts_rpcs = false -> reset = OK ->
                     type = CreateTabletTask \/ type = DeleteTabletTask
                     \/ type = AlterTableTask ->
                     step_sent run = true /\ attempt_ (step_task run) = attempt_ t + 1)).
  { subst run. unfold Run. destruct fail_ts_rpcs.
    { cbn. rewrite Hfail. split; [reflexivity|]. split; [reflexivity|]. discriminate. }
    destruct (ok reset) eqn:Hreset.
    2:{ rewrite (Hresched t eq_refl). cbn. rewrite Hfail.
        split; [reflexivity|]. split; [reflexivity|].
        intros _ ->. discriminate Hreset. }
    set (t1 := {| attempt_ := attempt_ t + 1; state_ := state_ t |}).
    assert (Ht1 : state_ t1 <> MonitoredTask.kStateRunning) by exact Hstate.
    destruct (Mark_terminal t1 Ht1) as (_ & Habort1 & Hfail1).
    assert (Hsend : exists sent,
               SendRequest type latest_index task_index replacement_found t1 = (sent, t1)
               /\ (type = CreateTabletTask \/ type = DeleteTabletTask
                   \/ type = AlterTableTask -> sent = true)).
    { unfold SendRequest, CheckOpIdIndex. rewrite Habort1.
      destruct type; try (exists true; split; [reflexivity | auto]).
      - destruct (bool_decide _); cbn; eexists; (split; [reflexivity|]);
          intros [Hx | [Hx | Hx]]; discriminate Hx.
      - destruct (bool_decide _); cbn; eexists; (split; [reflexivity|]);
          intros [Hx | [Hx | Hx]]; discriminate Hx. }
    destruct Hsend as (sent & -> & Hsent). destruct sent.
    - cbn. split; [reflexivity|]. split; [reflexivity|]. auto.
    - rewrite (Hresched t1 eq_refl). cbn. rewrite Hfail1.
      split; [reflexivity|]. split; [reflexivity|].
      intros _ _ Htype. specialize (Hsent Htype). discriminate Hsent. }
  rewrite Hcallback. cbn.
  split; [exact Hhandle|]. split; [reflexivity|]. split; [reflexivity|].
  split; [reflexivity|].
  destruct Hrun as (Hrun1 & Hrun2 & Hrun3).
  split; [exact Hrun1|]. split; [exact Hrun2|].
  subst delayed. unfold RunDelayedTask. destruct (negb (ok timer)); cbn; auto.
Qed.

Lemma finished_task_stays_finished_witness :
  step_sent (Run DeleteTabletTask false OK 0 0 false 1000 7
               {| attempt_ := 2; state_ := MonitoredTask.kStateAborted |}) = true
  /\ state_ (step_task (RpcCallback DeleteTabletTask OK None 1000 7
                          {| attempt_ := 2; state_ := MonitoredTask.kStateAborted |}))
     = MonitoredTask.kStateAborted.
Proof.
  destruct (finished_task_stays_finished DeleteTabletTask OK None OK false OK 0 0 false
              1000 7 {| attempt_ := 2; state_ := MonitoredTask.kStateAborted |})
    as (_ & Hcb & _ & _ & _ & _ & _ & _ & Hsent).
  { discriminate. }
  split.
  - apply Hsent; auto.
  - rewrite Hcb. reflexivity.
Defined.

Lemma HandleResponse_running type resp t :
  state_ (HandleResponse type resp t) = MonitoredTask.kStateRunning ->
  HandleResponse type resp t = t.
Proof.
  destruct (decide (state_ t = MonitoredTask.kStateRunning)) as [Hrun | Hrun];
    [|intros _; apply HandleResponse_terminal, Hrun].
  unfold HandleResponse, MarkComplete, MarkFailed.
  destruct type, resp as [[[] s]|]; try destruct (bool_decide _);
    rewrite ?decide_True by exact Hrun; cbn; intros Hstate;
    try reflexivity; discriminate Hstate.
Qed.

(** X12. After the callback of an RPC a task is either still running, with
    a retry scheduled after a delay that is positive and leaves 10 ms
    before the deadline, and then nothing of it has changed; or it has left
    kStateRunning and unregistered itself. A running task whose RPC went
    through and got a response without error is complete; the attempt count
    is never changed by the callback. *)
Theorem RpcCallback_retries_or_unregisters type rpc_status resp to_deadline_ms rand_value t :
  let callback := RpcCallback type rpc_status resp to_deadline_ms rand_value t in
  attempt_ (step_task callback) = attempt_ t
  /\ match step_retry_in callback with
     | Some delay =>
         step_unregistered callback = false /\ step_task callback = t
         /\ state_ t = MonitoredTask.kStateRunning
         /\ 0 < delay <= to_deadline_ms - 10
     | None =>
         step_unregistered callback = true
         /\ state_ (step_task callback) <> MonitoredTask.kStateRunning
     end
  /\ (state_ t = MonitoredTask.kStateRunning -> rpc_status = OK -> resp = None ->
      state_ (step_task callback) = MonitoredTask.kStateComplete
      /\ step_retry_in callback = None)
  /\ (state_ t = MonitoredTask.kStateRunning -> rpc_status <> OK ->
      state_ (step_task callback)
      = if step_unregistered callback then MonitoredTask.kStateFailed
        else MonitoredTask.kStateRunning).
Proof.
  cbv zeta. unfold RpcCallback.
  set (t1 := if negb (ok rpc_status) then t
             else if negb (bool_decide (state_ t = MonitoredTask.kStateAborted))
                  then HandleResponse type resp t
                  else t).
  assert (Ht1 : attempt_ t1 = attempt_ t
                /\ (state_ t1 = MonitoredTask.kStateRunning -> t1 = t)).
  { subst t1. destruct (negb (ok rpc_status)); [auto|].
    destruct (negb _); [|auto].
    split; [apply HandleResponse_state | apply HandleResponse_running]. }
  destruct Ht1 as [Hattempt Hsame].
  pose proof (Reschedule_outcome to_deadline_ms rand_value t1) as Hres.
  destruct (RescheduleWithBackoffDelay to_deadline_ms rand_value t1)
    as [[[] [delay|]] t2]; try contradiction; cbn.
  - destruct Hres as (-> & Hrun & Hdelay). specialize (Hsame Hrun).
    split; [exact Hattempt|]. split.
    { split; [reflexivity|]. split; [exact Hsame|]. split; [congruence | exact Hdelay]. }
    split.
    + intros Hrunning -> ->. subst t1. cbn in Hrun.
      rewrite bool_decide_eq_false_2 in Hrun by congruence. cbn in Hrun.
      unfold HandleResponse, MarkComplete in Hrun.
      destruct type; rewrite decide_True in Hrun by exact Hrunning; discriminate Hrun.
    + intros _ _. exact Hrun.
  - destruct Hres as (Hattempt2 & Hstate2 & Hkeep & Hfailed).
    split; [congruence|]. split; [auto|]. split.
    + intros Hrunning -> ->. split; [|reflexivity].
      assert (Hdone : state_ (HandleResponse type None t) = MonitoredTask.kStateComplete).
      { unfold HandleResponse, MarkComplete.
        destruct type; rewrite decide_True by exact Hrunning; reflexivity. }
      assert (Heq : t1 = HandleResponse type None t).
      { subst t1. change (negb (ok OK)) with false. cbv iota.
        rewrite bool_decide_eq_false_2 by congruence. reflexivity. }
      rewrite Hkeep; rewrite Heq, Hdone; [reflexivity | discriminate].
    + intros Hrunning Hbad. apply Hfailed. subst t1.
      apply ok_false in Hbad. rewrite Hbad. exact Hrunning.
Qed.

Lemma RpcCallback_retries_or_unregisters_witness :
  state_ (step_task (RpcCallback AlterTableTask OK None 1000 7
                       {| attempt_ := 1; state_ := MonitoredTask.kStateRunning |}))
  = MonitoredTask.kStateComplete
  /\ state_ (step_task (RpcCallback AlterTableTask NetworkError None 5 7
                          {| attempt_ := 1; state_ := MonitoredTask.kStateRunning |}))
     = MonitoredTask.kStateFailed.
Proof.
  split.
  - apply (RpcCallback_retries_or_unregisters AlterTableTask OK None 1000 7
             {| attempt_ := 1; state_ := MonitoredTask.kStateRunning |}); reflexivity.
  - apply (RpcCallback_retries_or_unregisters AlterTableTask NetworkError None 5 7
             {| attempt_ := 1; state_ := MonitoredTask.kStateRunning |});
      [reflexivity | discriminate].
Defined.

Lemma SendRequest_outcome type latest_index task_index replacement_found t :
  let sent := (SendRequest type latest_index task_index replacement_found t).1 in
  let t' := (SendRequest type latest_index task_index replacement_found t).2 in
  attempt_ t' = attempt_ t
  /\ (sent = true -> t' = t)
  /\ (t' = t \/ (state_ t = MonitoredTask.kStateRunning
                 /\ state_ t' = MonitoredTask.kStateAborted))
  /\ (type = AddReplicaTask \/ type = EvictReplicaTask -> latest_index > task_index ->
      sent = false /\ t' = MarkAborted t).
Proof.
  cbv zeta. unfold SendRequest, CheckOpIdIndex.
  assert (Haborted : attempt_ (MarkAborted t) = attempt_ t
                     /\ (MarkAborted t = t
                         \/ (state_ t = MonitoredTask.kStateRunning
                             /\ state_ (MarkAborted t) = MonitoredTask.kStateAborted))).
  { unfold MarkAborted. destruct (decide (state_ t = MonitoredTask.kStateRunning)); auto. }
  destruct Haborted as [Hattempt Hstate].
  destruct type; cbn [fst snd];
    try (split; [reflexivity|]; split; [auto|]; split; [auto|];
         intros [Hx | Hx]; discriminate Hx).
  - case_bool_decide as Hstale; cbn [negb fst snd].
    + split; [exact Hattempt|]. split; [discriminate|]. split; [exact Hstate|]. auto.
    + split; [reflexivity|]. split; [auto|]. split; [auto|]. intros _ Hold. lia.
  - case_bool_decide as Hstale; cbn [negb fst snd].
    + split; [exact Hattempt|]. split; [discriminate|]. split; [exact Hstate|]. auto.
    + split; [reflexivity|]. split; [auto|]. split; [auto|]. intros _ Hold. lia.
Qed.

(** X13. A run of a task adds one to the attempt count exactly when the
    proxy was reset, and returns the status of that reset, so OK also when
    the request then was not sent. When the request is sent nothing else
    happens; when it is not, either a retry is scheduled for the task,
    which is still running, or the task has left kStateRunning and
    unregistered itself. A change of config whose consensus state is older
    than the committed config of the tablet is aborted and not sent. *)
Theorem Run_sends_or_retries type fail_ts_rpcs reset latest_index task_index
    replacement_found to_deadline_ms rand_value t :
  let run := Run type fail_ts_rpcs reset latest_index task_index replacement_found
               to_deadline_ms rand_value t in
  attempt_ (step_task run)
  = (if negb fail_ts_rpcs && ok reset then attempt_ t + 1 else attempt_ t)
  /\ step_status run = (if fail_ts_rpcs then RuntimeError else reset)
  /\ (step_sent run = true ->
      fail_ts_rpcs = false /\ reset = OK /\ step_retry_in run = None
      /\ step_unregistered run = false /\ state_ (step_task run) = state_ t)
  /\ (step_sent run = false ->
      match step_retry_in run with
      | Some delay =>
          step_unregistered run = false
          /\ state_ (step_task run) = MonitoredTask.kStateRunning
          /\ state_ t = MonitoredTask.kStateRunning
          /\ 0 < delay <= to_deadline_ms - 10
      | None =>
          step_unregistered run = true
          /\ state_ (step_task run) <> MonitoredTask.kStateRunning
      end)
  /\ (type = AddReplicaTask \/ type = EvictReplicaTask ->
      fail_ts_rpcs = false -> reset = OK -> latest_index > task_index ->
      state_ t = MonitoredTask.kStateRunning ->
      step_sent run = false /\ step_unregistered run = true
      /\ state_ (step_task run) = MonitoredTask.kStateAborted).
Proof.
  cbv zeta. unfold Run. destruct fail_ts_rpcs; cbn [negb andb].
  { cbn. split; [unfold MarkFailed; destruct (decide _); reflexivity|].
    split; [reflexivity|]. split; [discriminate|]. split.
    - intros _. split; [reflexivity|]. unfold MarkFailed.
      destruct (decide (state_ t = MonitoredTask.kStateRunning)) as [Hrun | Hrun];
        [discriminate | exact Hrun].
    - intros _ Hx. discriminate Hx. }
  destruct (ok reset) eqn:Hreset.
  2:{ pose proof (Reschedule_outcome to_deadline_ms rand_value t) as Hres.
      destruct (RescheduleWithBackoffDelay to_deadline_ms rand_value t)
        as [[[] [delay|]] t2]; try contradiction; cbn.
      - destruct Hres as (-> & Hrun & Hdelay).
        split; [reflexivity|]. split; [reflexivity|]. split; [discriminate|].
        split; [auto|]. intros _ _ ->. discriminate Hreset.
      - destruct Hres as (Hattempt & Hstate & Hkeep & Hfailed).
        assert (Hfail : MarkFailed t2 = t2).
        { apply Mark_terminal, Hstate. }
        rewrite Hfail. split; [exact Hattempt|]. split; [reflexivity|].
        split; [discriminate|]. split; [auto|]. intros _ _ ->. discriminate Hreset. }
  apply ok_true in Hreset. subst reset.
  set (t1 := {| attempt_ := attempt_ t + 1; state_ := state_ t |}).
  pose proof (SendRequest_outcome type latest_index task_index replacement_found t1)
    as Hsend. cbv zeta in Hsend.
  destruct (SendRequest type latest_index task_index replacement_found t1) as [sent t1'].
  cbn [fst snd] in Hsend. destruct Hsend as (Hattempt1 & Hsent & Hstate1 & Hstale).
  destruct sent.
  { specialize (Hsent eq_refl). subst t1'. cbn.
    split; [reflexivity|]. split; [reflexivity|]. split; [auto|].
    split; [discriminate|]. intros Htype _ _ Hold _.
    destruct (Hstale Htype Hold) as [Hx _]. discriminate Hx. }
  pose proof (Reschedule_outcome to_deadline_ms rand_value t1') as Hres.
  destruct (RescheduleWithBackoffDelay to_deadline_ms rand_value t1')
    as [[[] [delay|]] t2]; try contradiction; cbn.
  - destruct Hres as (-> & Hrun & Hdelay).
    split; [exact Hattempt1|]. split; [reflexivity|]. split; [discriminate|].
    split.
    + intros _. split; [reflexivity|]. split; [exact Hrun|]. split; [|exact Hdelay].
      destruct Hstate1 as [-> | [Hr _]]; [exact Hrun | exact Hr].
    + intros Htype _ _ Hold Hrunning. destruct (Hstale Htype Hold) as [_ Ht1].
      rewrite Ht1 in Hrun. unfold MarkAborted in Hrun.
      rewrite decide_True in Hrun by exact Hrunning. discriminate Hrun.
  - destruct Hres as (Hattempt & Hstate & Hkeep & Hfailed).
    assert (Hfail : MarkFailed t2 = t2).
    { apply Mark_terminal, Hstate. }
    rewrite Hfail. split; [rewrite Hattempt, Hattempt1; reflexivity|].
    split; [reflexivity|]. split; [discriminate|].
    split; [auto|]. intros Htype _ _ Hold Hrunning.
    destruct (Hstale Htype Hold) as [_ Ht1].
    split; [reflexivity|]. split; [reflexivity|].
    assert (Haborted : state_ t1' = MonitoredTask.kStateAborted).
    { rewrite Ht1. unfold MarkAborted. rewrite decide_True by exact Hrunning. reflexivity. }
    rewrite Hkeep; [exact Haborted|]. rewrite Haborted. discriminate.
Qed.

Lemma Run_sends_or_retries_witness :
  state_ (step_task (Run EvictReplicaTask false OK 5 4 true 1000 7
                       {| attempt_ := 0; state_ := MonitoredTask.kStateRunning |}))
  = MonitoredTask.kStateAborted
  /\ step_status (Run EvictReplicaTask false OK 5 4 true 1000 7
                    {| attempt_ := 0; state_ := MonitoredTask.kStateRunning |}) = OK.
Proof.
  pose proof (Run_sends_or_retries EvictReplicaTask false OK 5 4 true 1000 7
                {| attempt_ := 0; state_ := MonitoredTask.kStateRunning |}) as Hrun.
  cbv zeta in Hrun. destruct Hrun as (_ & Hstatus & _ & _ & Hstale).
  split; [|exact Hstatus].
  apply Hstale; [right; reflexivity | reflexivity | reflexivity | lia | reflexivity].
Defined.

(** ** Placement of replicas *)

Lemma sample_placement_contract : sampler_contract.
Proof.
  split.
  - intros ts_descs k excluded rng sample candidates. subst sample candidates. cbn.
    split; [|split].
    + eapply sublist_NoDup; [|apply sublist_take]. apply NoDup_filter, NoDup_seq.
    + intros i Hi. eapply subseteq_take; exact Hi.
    + apply length_take.
  - intros n rng Hn. cbn. apply Nat.mod_upper_bound. lia.
Qed.

Section placement.
Context `{Placement}.
Hypothesis contract : sampler_contract.

Lemma SelectReplica_finds ts_descs excluded rng :
  (forall i, i ∈ excluded -> (i < length ts_descs)%nat) ->
  (size excluded < length ts_descs)%nat ->
  exists i d, (SelectReplica ts_descs excluded rng).1 = Some i
              /\ ts_descs !! i = Some d /\ i ∉ excluded.
Proof.
  intros Hvalid Hsize. destruct contract as [Hsample Huniform].
  unfold SelectReplica.
  specialize (Hsample ts_descs 2%nat excluded rng). cbv zeta in Hsample.
  destruct (ReservoirSample ts_descs 2 excluded rng) as [two_choices rng1].
  cbn [fst] in Hsample. destruct Hsample as (_ & Hin & Hlen).
  assert (Hcand : forall i, i ∈ two_choices ->
                    exists d, ts_descs !! i = Some d /\ i ∉ excluded).
  { intros i Hi. apply Hin in Hi. apply list_elem_of_filter in Hi as [Hex Hseq].
    apply elem_of_seq in Hseq. destruct (lookup_lt_is_Some_2 ts_descs i) as [d Hd]; [lia|].
    eauto. }
  assert (Hne : (0 < length (filter (fun i => i ∉ excluded) (seq 0 (length ts_descs))))%nat).
  { destruct (filter _ _) as [|x l] eqn:Hf; [|cbn; lia]. exfalso.
    assert (Hsub : (set_seq 0 (length ts_descs) : gset nat) ⊆ excluded).
    { intros i Hi. apply elem_of_set_seq in Hi.
      destruct (decide (i ∈ excluded)) as [|Hni]; [done|].
      assert (Hi' : i ∈ filter (fun i => i ∉ excluded) (seq 0 (length ts_descs))).
      { apply list_elem_of_filter. split; [done|]. apply elem_of_seq. lia. }
      rewrite Hf in Hi'. inversion Hi'. }
    apply subseteq_size in Hsub. rewrite size_set_seq in Hsub. lia. }
  set (n := length (filter _ _)) in *. clearbody n.
  destruct two_choices as [|a [|b [|c rest]]]; cbn [length] in Hlen; try lia.
  - destruct (Hcand a) as (d & Hd & Hex); [set_solver|].
    exists a, d. cbn. rewrite Hd. cbn. done.
  - destruct (Hcand a) as (da & Hda & Hexa); [set_solver|].
    destruct (Hcand b) as (db & Hdb & Hexb); [set_solver|].
    unfold PickBetterReplicaLocation. rewrite Hda, Hdb. cbv zeta.
    destruct (PrimFloat.ltb (load da) (load db)); [exists a, da; done|].
    destruct (PrimFloat.ltb (load db) (load da)); [exists b, db; done|].
    specialize (Huniform 2%nat rng1 ltac:(lia)).
    destruct (Uniform 2 rng1) as [i rng2]. cbn in Huniform. cbn [fst].
    destruct i as [|[|i]]; [exists a, da; done|exists b, db; done|lia].
Qed.

Lemma SelectReplicas_places n : forall ts_descs already peers rng,
  (forall i, i ∈ already -> (i < length ts_descs)%nat) ->
  (size already + n <= length ts_descs)%nat ->
  exists ts_descs' already' new rng' chosen,
    SelectReplicas n ts_descs already peers rng
    = Some (ts_descs', already', peers ++ new, rng')
    /\ already' = list_to_set chosen ∪ already
    /\ NoDup chosen /\ length chosen = n
    /\ (forall i, i ∈ chosen -> i ∉ already)
    /\ Forall2 (fun i p => exists d, ts_descs !! i = Some d /\ p = new_peer d) chosen new
    /\ length ts_descs' = length ts_descs
    /\ (forall i, ts_descs' !! i
                  = if decide (i ∈ chosen)
                    then IncrementRecentReplicaCreations <$> ts_descs !! i
                    else ts_descs !! i).
Proof.
  induction n as [|n IH]; intros ts_descs already peers rng Hvalid Hsize.
  - exists ts_descs, already, [], rng, []. cbn. rewrite app_nil_r.
    split; [done|]. split; [set_solver|]. split; [constructor|].
    split; [done|]. split; [set_solver|]. split; [constructor|]. split; [done|].
    intros i. rewrite decide_False by set_solver. done.
  - destruct (SelectReplica_finds ts_descs already rng Hvalid ltac:(lia))
      as (i & d & Hsel & Hd & Hex).
    cbn [SelectReplicas]. destruct (SelectReplica ts_descs already rng) as [ts rng1].
    cbn [fst] in Hsel. subst ts. cbn. rewrite Hd. cbn.
    rewrite bool_decide_eq_false_2 by done.
    assert (Hi : (i < length ts_descs)%nat) by (eapply lookup_lt_Some; exact Hd).
    destruct (IH (<[i := IncrementRecentReplicaCreations d]> ts_descs)
                 ({[i]} ∪ already) (peers ++ [new_peer d]) rng1)
      as (ts' & already' & new & rng' & chosen & Heq & Hset & Hnd & Hlen & Hfresh
          & Hpeers & Hlength & Hts).
    { intros j Hj. rewrite length_insert. apply elem_of_union in Hj as [Hj|Hj].
      - apply elem_of_singleton in Hj. lia.
      - auto. }
    { rewrite length_insert, size_union by set_solver. rewrite size_singleton. lia. }
    exists ts', already', (new_peer d :: new), rng', (i :: chosen).
    split. { rewrite Heq. rewrite <- app_assoc. done. }
    split. { rewrite Hset. set_solver. }
    split. { constructor; [|done]. intros Hin. apply Hfresh in Hin. set_solver. }
    split. { cbn. lia. }
    split. { intros j Hj. apply elem_of_cons in Hj as [->|Hj]; [done|].
             apply Hfresh in Hj. set_solver. }
    split. { constructor; [eauto|]. eapply Forall2_impl; [exact Hpeers|].
             intros j p (d' & Hd' & ->).
             destruct (decide (j = i)) as [->|Hne].
             - rewrite list_lookup_insert_eq in Hd' by done.
               injection Hd' as <-. exists d. done.
             - rewrite list_lookup_insert_ne in Hd' by done. exists d'. done. }
    split. { rewrite Hlength, length_insert. done. }
    intros j. rewrite Hts.
    destruct (decide (j = i)) as [->|Hne].
    + rewrite decide_False by (intros Hin; apply Hfresh in Hin; set_solver).
      rewrite decide_True by set_solver.
      rewrite list_lookup_insert_eq by done. rewrite Hd. done.
    + rewrite list_lookup_insert_ne by done.
      destruct (decide (j ∈ chosen)) as [Hin|Hnin].
      * rewrite decide_True by set_solver. done.
      * rewrite decide_False by set_solver. done.
Qed.
End placement.

Lemma SelectReplicasForTablet_outcome `{Externals} `{Placement} ts_descs table dirty rng :
  sampler_contract ->
  NoDup (permanent_uuid_ <$> ts_descs) ->
  0 <= SysTablesEntryPB.num_replicas table < 2 ^ 31 ->
  exists s dirty' ts_descs' rng',
    SelectReplicasForTablet ts_descs table dirty rng = Some (s, dirty', ts_descs', rng')
    /\ permanent_uuid_ <$> ts_descs' = permanent_uuid_ <$> ts_descs
    /\ if decide (Z.of_nat (length ts_descs) < SysTablesEntryPB.num_replicas table)
       then s = InvalidArgument /\ dirty' = dirty /\ ts_descs' = ts_descs
       else
         s = OK
         /\ replicas_placed (permanent_uuid_ <$> ts_descs)
              (SysTablesEntryPB.num_replicas table) dirty dirty'
         /\ (forall i d, ts_descs !! i = Some d ->
               ts_descs' !! i
               = Some (if decide (permanent_uuid_ d
                                  ∈ RaftPeerPB.permanent_uuid
                                    <$> drop (length (RaftConfigPB.peers
                                                (ConsensusStatePB.committed_config
                                                   (SysTabletsEntryPB.consensus_state dirty))))
                                          (RaftConfigPB.peers
                                             (ConsensusStatePB.committed_config
                                                (SysTabletsEntryPB.consensus_state dirty'))))
                       then IncrementRecentReplicaCreations d else d)).
Proof.
  intros Hcontract Huuids Hn. unfold SelectReplicasForTablet. cbv zeta.
  rewrite (Z.mod_small (SysTablesEntryPB.num_replicas table)) by lia.
  destruct (decide (Z.of_nat (length ts_descs) < SysTablesEntryPB.num_replicas table))
    as [Hlt|Hge].
  { rewrite (proj2 (Z.ltb_lt _ _)) by done. eauto 10. }
  rewrite (proj2 (Z.ltb_ge _ _)) by lia.
  destruct (SelectReplicas_places Hcontract
              (Z.to_nat (SysTablesEntryPB.num_replicas table)) ts_descs ∅
              (RaftConfigPB.peers
                 (ConsensusStatePB.committed_config (SysTabletsEntryPB.consensus_state dirty)))
              rng)
    as (ts' & already' & new & rng' & chosen & Heq & _ & Hnd & Hlen & _ & Hpeers
        & Hlength & Hts).
  { set_solver. }
  { rewrite size_empty. lia. }
  rewrite Heq. eexists _, _, _, _. split; [reflexivity|].
  split.
  { apply list_eq. intros i. rewrite !list_lookup_fmap, Hts.
    destruct (decide (i ∈ chosen)); [|done]. destruct (ts_descs !! i); done. }
  split; [done|].
  assert (Hnew : forall p, p ∈ new ->
            exists i d, i ∈ chosen /\ ts_descs !! i = Some d /\ p = new_peer d).
  { intros p Hp. apply list_elem_of_lookup in Hp as [k Hk].
    destruct (Forall2_lookup_r _ _ _ _ _ Hpeers Hk) as (i & Hi & d & Hd & ->).
    exists i, d. split; [|done]. eapply list_elem_of_lookup_2; exact Hi. }
  assert (Hinj : forall i j d d', ts_descs !! i = Some d -> ts_descs !! j = Some d' ->
                   permanent_uuid_ d = permanent_uuid_ d' -> i = j).
  { intros i j d d' Hi Hj Heq'. eapply NoDup_lookup; [exact Huuids| |].
    - rewrite list_lookup_fmap, Hi. reflexivity.
    - rewrite list_lookup_fmap, Hj, Heq'. reflexivity. }
  split.
  { unfold replicas_placed. cbn.
    split; [done|]. split; [done|]. split; [done|]. split; [done|]. split; [done|].
    split; [done|].
    exists new. split; [done|].
    split. { apply Forall2_length in Hpeers. lia. }
    split.
    { apply NoDup_alt. intros k1 k2 u Hk1 Hk2.
      rewrite list_lookup_fmap in Hk1, Hk2.
      destruct (new !! k1) as [p1|] eqn:Hp1; [|done].
      destruct (new !! k2) as [p2|] eqn:Hp2; [|done].
      cbn in Hk1, Hk2.
      destruct (Forall2_lookup_r _ _ _ _ _ Hpeers Hp1) as (i1 & Hi1 & d1 & Hd1 & ->).
      destruct (Forall2_lookup_r _ _ _ _ _ Hpeers Hp2) as (i2 & Hi2 & d2 & Hd2 & ->).
      cbn in Hk1, Hk2.
      assert (i1 = i2) by (eapply Hinj; eauto; congruence). subst i2.
      eapply NoDup_lookup; eauto. }
    intros p Hp. destruct (Hnew p Hp) as (i & d & _ & Hd & ->). split; [done|].
    cbn. apply list_elem_of_fmap. exists d. split; [done|].
    eapply list_elem_of_lookup_2; exact Hd. }
  intros i d Hd. rewrite Hts, Hd. cbn. rewrite drop_app_length.
  destruct (decide (i ∈ chosen)) as [Hin|Hnin].
  - rewrite decide_True; [done|].
    apply list_elem_of_lookup in Hin as [k Hk].
    destruct (Forall2_lookup_l _ _ _ _ _ Hpeers Hk) as (p & Hp & d' & Hd' & ->).
    apply list_elem_of_fmap. exists (new_peer d'). split; [cbn; congruence|].
    eapply list_elem_of_lookup_2; exact Hp.
  - rewrite decide_False; [done|]. intros Hin.
    apply list_elem_of_fmap in Hin as (p & Hu & Hp).
    destruct (Hnew p Hp) as (j & d' & Hj & Hd' & ->). cbn in Hu.
    assert (i = j) by (eapply Hinj; eauto). subst j. done.
Qed.

(** X14. With a random source that keeps its contract and live servers of
    distinct uuids, SelectReplicasForTablet always returns. When fewer
    servers are live than the table has replicas it returns InvalidArgument
    and changes neither the record nor the servers. Otherwise it returns OK
    and the record has as many new peers as the table has replicas, all
    voters, on distinct live servers, behind the peers it had, with the
    first term and no config index; the count of recent creations of each
    chosen server is one higher and the other servers are as they were. *)
Theorem SelectReplicasForTablet_places_replicas `{Externals} `{Placement}
    ts_descs table dirty rng :
  sampler_contract ->
  NoDup (permanent_uuid_ <$> ts_descs) ->
  0 <= SysTablesEntryPB.num_replicas table < 2 ^ 31 ->
  exists s dirty' ts_descs' rng',
    SelectReplicasForTablet ts_descs table dirty rng = Some (s, dirty', ts_descs', rng')
    /\ permanent_uuid_ <$> ts_descs' = permanent_uuid_ <$> ts_descs
    /\ if decide (Z.of_nat (length ts_descs) < SysTablesEntryPB.num_replicas table)
       then s = InvalidArgument /\ dirty' = dirty /\ ts_descs' = ts_descs
       else
         s = OK
         /\ replicas_placed (permanent_uuid_ <$> ts_descs)
              (SysTablesEntryPB.num_replicas table) dirty dirty'
         /\ (forall i d, ts_descs !! i = Some d ->
               ts_descs' !! i
               = Some (if decide (permanent_uuid_ d
                                  ∈ RaftPeerPB.permanent_uuid
                                    <$> drop (length (RaftConfigPB.peers
                                                (ConsensusStatePB.committed_config
                                                   (SysTabletsEntryPB.consensus_state dirty))))
                                          (RaftConfigPB.peers
                                             (ConsensusStatePB.committed_config
                                                (SysTabletsEntryPB.consensus_state dirty'))))
                       then IncrementRecentReplicaCreations d else d)).
Proof. apply SelectReplicasForTablet_outcome. Qed.

Lemma SelectReplicasForTablet_places_replicas_witness :
  exists dirty' ts_descs' rng',
    @SelectReplicasForTablet sample_externals sample_placement
      (sample_servers ["A"; "B"; "C"])
      (TableInfo.metadata_ (sample_table SysTablesEntryPB.RUNNING 0 None))
      (TabletInfo.metadata_ (sample_tablet SysTabletsEntryPB.CREATING None)) 0%nat
    = Some (OK, dirty', ts_descs', rng')
    /\ @replicas_placed sample_externals sample_placement ["A"; "B"; "C"] 3
         (TabletInfo.metadata_ (sample_tablet SysTabletsEntryPB.CREATING None)) dirty'.
Proof.
  destruct (@SelectReplicasForTablet_places_replicas sample_externals sample_placement
              (sample_servers ["A"; "B"; "C"])
              (TableInfo.metadata_ (sample_table SysTablesEntryPB.RUNNING 0 None))
              (TabletInfo.metadata_ (sample_tablet SysTabletsEntryPB.CREATING None)) 0%nat)
    as (s & dirty' & ts' & rng' & Heq & _ & Hcase).
  - exact sample_placement_contract.
  - apply (bool_decide_unpack _). vm_compute. exact I.
  - cbn. lia.
  - exists dirty', ts', rng'. destruct (decide _) as [Hlt|_] in Hcase.
    + exfalso. vm_compute in Hlt. discriminate Hlt.
    + destruct Hcase as (-> & Hplaced & _). split; [exact Heq|exact Hplaced].
Defined.

(** ** Assignment of tablets *)

Section assignment.
Context `{Externals} `{Placement}.
Variable since_create_ms : string -> Z.
Variable cm : CatalogManager.t.

Lemma handle_assignment_cases pass id :
  (exists tab table, to_create cm id tab table
     /\ handle_assignment since_create_ms cm pass id
        = HandleAssignPreparingTablet id tab pass)
  \/ (exists tab table, to_replace since_create_ms cm id tab table
        /\ handle_assignment since_create_ms cm pass id
           = HandleAssignCreatingTablet id tab table (since_create_ms id) pass)
  \/ ((forall tab table, ~ to_create cm id tab table)
      /\ (forall tab table, ~ to_replace since_create_ms cm id tab table)
      /\ handle_assignment since_create_ms cm pass id = pass).
Proof.
  unfold handle_assignment, to_create, to_replace, pending_tablet.
  destruct (CatalogManager.tablet_map_ cm !! id) as [tab|] eqn:Htab; cbn.
  2: { right. right. split; [|split]; [intros ? ? [[? ?] ?]|intros ? ? [[? ?] ?]|]; done. }
  destruct (CatalogManager.table_ids_map_ cm !! TabletInfo.table_ tab) as [table|] eqn:Htable;
    cbn.
  2: { right. right. split; [|split];
       [intros ? ? [[[= <-] ?] ?]|intros ? ? [[[= <-] ?] ?]|]; congruence. }
  destruct (SysTabletsEntryPB.state (TabletInfo.metadata_ tab)) eqn:Hstate.
  all: try (right; right; split; [|split];
            [intros ? ? [[[= <-] ?] ?]|intros ? ? [[[= <-] ?] [? ?]]|]; congruence).
  - left. exists tab, table. done.
  - destruct (decide (FLAGS_tablet_creation_timeout_ms - since_create_ms id <= 0))
      as [Hout|Hin].
    + right. left. exists tab, table. done.
    + right. right. split; [|split].
      * intros ? ? [[[= <-] ?] ?]. congruence.
      * intros ? ? [[[= <-] ?] [? ?]]. lia.
      * unfold HandleAssignCreatingTablet. cbv zeta.
        rewrite (proj2 (Z.ltb_lt _ _)) by lia. done.
Qed.

Lemma handle_assignments_snoc tablets id :
  handle_assignments since_create_ms (tablets ++ [id]) cm
  = handle_assignment since_create_ms cm (handle_assignments since_create_ms tablets cm) id.
Proof. unfold handle_assignments. rewrite foldl_snoc. reflexivity. Qed.

Lemma to_create_unique id tab table tab' table' :
  to_create cm id tab table -> to_create cm id tab' table' -> tab' = tab /\ table' = table.
Proof. intros [[? ?] ?] [[? ?] ?]. split; congruence. Qed.

Lemma to_replace_unique id tab table tab' table' :
  to_replace since_create_ms cm id tab table ->
  to_replace since_create_ms cm id tab' table' -> tab' = tab /\ table' = table.
Proof. intros [[? ?] ?] [[? ?] ?]. split; congruence. Qed.

Lemma to_create_not_replace id tab table tab' table' :
  to_create cm id tab table -> to_replace since_create_ms cm id tab' table' -> False.
Proof. intros [[? ?] ?] [[? ?] [? ?]]. congruence. Qed.

Hypothesis fresh_inj :
  forall i j, (CatalogManager.oid_generator_ cm <= i)%nat ->
              (CatalogManager.oid_generator_ cm <= j)%nat ->
              oid_Next i = oid_Next j -> i = j.
Hypothesis fresh_tablets :
  forall i, (CatalogManager.oid_generator_ cm <= i)%nat ->
            CatalogManager.tablet_map_ cm !! oid_Next i = None.

Lemma handle_assignments_spec tablets :
  NoDup tablets ->
  let pass := handle_assignments since_create_ms tablets cm in
  let deferred := assign_deferred pass in
  let new_id := fun j : nat => oid_Next (CatalogManager.oid_generator_ cm + j) in
  exists olds : list (string * TabletInfo.t * TableInfo.t),
    assign_cm pass
    = CatalogManager.set_oid (CatalogManager.oid_generator_ cm + length olds) cm
    /\ assign_new pass = imap (fun j o => (new_id j, TabletInfo.table_ o.1.2)) olds
    /\ DeferredAssignmentActions.tablets_to_add deferred = (assign_new pass).*1
    /\ NoDup ((fun o => o.1.1) <$> olds)
    /\ (forall id tab table,
          (id, tab, table) ∈ olds
          <-> id ∈ tablets /\ to_replace since_create_ms cm id tab table)
    /\ (forall id,
          id ∈ DeferredAssignmentActions.tablets_to_update deferred
          <-> id ∈ tablets
              /\ exists tab table, to_create cm id tab table
                                   \/ to_replace since_create_ms cm id tab table)
    /\ (forall id,
          id ∈ DeferredAssignmentActions.needs_create_rpc deferred
          <-> (id ∈ tablets /\ exists tab table, to_create cm id tab table)
              \/ id ∈ (assign_new pass).*1)
    /\ NoDup (DeferredAssignmentActions.tablets_to_update deferred)
    /\ NoDup (DeferredAssignmentActions.needs_create_rpc deferred)
    /\ (forall id tab table,
          id ∈ tablets -> to_create cm id tab table ->
          assign_dirty pass !! id
          = Some (PersistentTabletInfo.set_state SysTabletsEntryPB.CREATING
                    "Sending initial creation of tablet" (TabletInfo.metadata_ tab)))
    /\ (forall j id tab table,
          olds !! j = Some (id, tab, table) ->
          assign_dirty pass !! id
          = Some (PersistentTabletInfo.set_state SysTabletsEntryPB.REPLACED
                    ("Replaced by " +:+ new_id j +:+ " at " +:+ LocalTimeAsString)
                    (TabletInfo.metadata_ tab))
          /\ assign_dirty pass !! new_id j
             = Some (PersistentTabletInfo.set_state SysTabletsEntryPB.CREATING
                       ("Replacement for " +:+ TabletInfo.tablet_id_ tab)
                       (CreateTabletInfo (TableInfo.table_id_ table)
                          (SysTabletsEntryPB.partition (TabletInfo.metadata_ tab)))))
    /\ (forall id, is_Some (assign_dirty pass !! id) ->
          id ∈ DeferredAssignmentActions.tablets_to_update deferred
          \/ id ∈ (assign_new pass).*1).
Proof.
  induction tablets as [|id tablets IH] using rev_ind; intros Hnodup; cbv zeta.
  { exists []. cbn. rewrite Nat.add_0_r.
    split. { destruct cm; reflexivity. }
    split; [done|]. split; [done|]. split; [constructor|].
    split. { intros. split; [intros Hin; inversion Hin|intros [Hin _]; inversion Hin]. }
    split. { intros. split; [intros Hin; inversion Hin|intros [Hin _]; inversion Hin]. }
    split. { intros. split; [intros Hin; inversion Hin|].
             intros [[Hin _]|Hin]; inversion Hin. }
    split; [constructor|]. split; [constructor|].
    split. { intros ? ? ? Hin. inversion Hin. }
    split. { intros ? ? ? ? Hin. done. }
    intros id [pb Hpb]. rewrite lookup_empty in Hpb. done. }
  apply NoDup_app in Hnodup as (Hnd & Hnotin & _).
  assert (Hid : id ∉ tablets). { intros Hin. apply (Hnotin id Hin). set_solver. }
  destruct (IH Hnd) as (olds & Hcm & Hnew & Hadd & Holds_nd & Holds & Hupd & Hneeds
                        & Hupd_nd & Hneeds_nd & Hcreate & Hrepl & Hdom).
  clear IH. rewrite handle_assignments_snoc.
  set (pass := handle_assignments since_create_ms tablets cm) in *.
  assert (Hnew_ids : forall n, n ∈ (assign_new pass).*1 ->
            exists j, (j < length olds)%nat
                      /\ n = oid_Next (CatalogManager.oid_generator_ cm + j)).
  { intros n Hn. rewrite Hnew in Hn. apply list_elem_of_fmap in Hn as ([n' t] & -> & Hn).
    apply list_elem_of_lookup in Hn as [j Hj]. rewrite list_lookup_imap in Hj.
    destruct (olds !! j) as [o|] eqn:Ho; [|done]. cbn in Hj. injection Hj as <- <-.
    exists j. split; [|done]. eapply lookup_lt_Some; exact Ho. }
  assert (Hnot_new : forall tab, CatalogManager.tablet_map_ cm !! id = Some tab ->
            id ∉ (assign_new pass).*1).
  { intros tab Htab Hin. destruct (Hnew_ids _ Hin) as (j & _ & ->).
    rewrite fresh_tablets in Htab by lia. done. }
  assert (Hclean : forall tab table, pending_tablet cm id tab table ->
            assign_dirty pass !! id = None).
  { intros tab table [Htab _].
    destruct (assign_dirty pass !! id) eqn:Hd; [|done]. exfalso.
    destruct (Hdom id ltac:(eauto)) as [Hin|Hin].
    - apply Hupd in Hin as [Hin _]. done.
    - eapply Hnot_new; eauto. }
  assert (Hfresh_ne : forall j, id <> oid_Next (CatalogManager.oid_generator_ cm + j) \/
                                 CatalogManager.tablet_map_ cm !! id = None).
  { intros j. destruct (CatalogManager.tablet_map_ cm !! id) eqn:Htab; [left|right; done].
    intros ->. rewrite fresh_tablets in Htab by lia. done. }
  destruct (handle_assignment_cases pass id)
    as [(tab & table & Hc & ->)|[(tab & table & Hr & ->)|(Hnc & Hnr & ->)]].
  - (* a tablet to create *)
    pose proof Hc as [[Htab Htable] Hstate].
    assert (Hne_new : forall j, id <> oid_Next (CatalogManager.oid_generator_ cm + j)).
    { intros j. destruct (Hfresh_ne j); congruence. }
    exists olds. unfold HandleAssignPreparingTablet. cbn.
    unfold mutable_dirty. rewrite (Hclean tab table) by (split; done). cbn.
    split; [done|]. split; [done|]. split; [done|]. split; [done|].
    split.
    { intros id' tab' table'. rewrite Holds. split.
      - intros [Hin Hrep]. split; [set_solver|done].
      - intros [Hin Hrep]. split; [|done].
        apply elem_of_app in Hin as [Hin|Hin]; [done|].
        apply list_elem_of_singleton in Hin as ->.
        exfalso. eapply to_create_not_replace; eauto. }
    split.
    { intros id'. rewrite elem_of_app, Hupd, list_elem_of_singleton. split.
      - intros [[Hin Hex]| ->]; [split; [set_solver|done]|].
        split; [set_solver|]. exists tab, table. left. done.
      - intros [Hin Hex]. apply elem_of_app in Hin as [Hin|Hin]; [left; done|].
        apply list_elem_of_singleton in Hin. right. done. }
    split.
    { intros id'. rewrite elem_of_app, Hneeds, list_elem_of_singleton. split.
      - intros [[[Hin Hex]|Hin]| ->].
        + left. split; [set_solver|done].
        + right. done.
        + left. split; [set_solver|]. exists tab, table. done.
      - intros [[Hin Hex]|Hin]; [|left; right; done].
        apply elem_of_app in Hin as [Hin|Hin]; [left; left; done|].
        apply list_elem_of_singleton in Hin. right. done. }
    split.
    { apply NoDup_app. split; [done|]. split; [|apply NoDup_singleton].
      intros id' Hin Hin'. apply list_elem_of_singleton in Hin' as ->.
      apply Hupd in Hin as [Hin _]. done. }
    split.
    { apply NoDup_app. split; [done|]. split; [|apply NoDup_singleton].
      intros id' Hin Hin'. apply list_elem_of_singleton in Hin' as ->.
      apply Hneeds in Hin as [[Hin _]|Hin]; [done|].
      eapply Hnot_new; eauto. }
    split.
    { intros id' tab' table' Hin Hc'.
      apply elem_of_app in Hin as [Hin|Hin].
      - rewrite lookup_insert_ne by congruence. eauto.
      - apply list_elem_of_singleton in Hin as ->.
        destruct (to_create_unique _ _ _ _ _ Hc Hc') as [-> ->].
        rewrite lookup_insert_eq. done. }
    split.
    { intros j id' tab' table' Hj.
      assert (id' ∈ tablets).
      { apply (Holds id' tab' table'). eapply list_elem_of_lookup_2; exact Hj. }
      rewrite !lookup_insert_ne by (try apply Hne_new; congruence). eauto. }
    intros id' Hsome. destruct (decide (id' = id)) as [->|Hne].
    + left. set_solver.
    + rewrite lookup_insert_ne in Hsome by done.
      destruct (Hdom id' Hsome); [left; set_solver|right; done].
  - (* a tablet to replace *)
    pose proof Hr as [[Htab Htable] [Hstate Htimeout]].
    assert (Hne_new : forall j, id <> oid_Next (CatalogManager.oid_generator_ cm + j)).
    { intros j. destruct (Hfresh_ne j); congruence. }
    exists (olds ++ [(id, tab, table)]). unfold HandleAssignCreatingTablet. cbv zeta.
    rewrite (proj2 (Z.ltb_ge _ _)) by lia.
    rewrite Hcm. unfold GenerateId. cbn.
    unfold mutable_dirty. rewrite (Hclean tab table) by (split; done). cbn.
    rewrite length_app. cbn.
    split. { unfold CatalogManager.set_oid. cbn. f_equal. lia. }
    split. { rewrite imap_app. cbn. rewrite Nat.add_0_r, Hnew. done. }
    split. { rewrite fmap_app. cbn. rewrite Hadd. done. }
    split.
    { rewrite fmap_app. apply NoDup_app. split; [done|]. split; [|apply NoDup_singleton].
      intros id' Hin Hin'. cbn in Hin'. apply list_elem_of_singleton in Hin' as ->.
      apply list_elem_of_fmap in Hin as ([[id' tab'] table'] & -> & Hin).
      apply Holds in Hin as [Hin _]. done. }
    split.
    { intros id' tab' table'. rewrite elem_of_app, Holds, list_elem_of_singleton. split.
      - intros [[Hin Hrep]|Heq]; [split; [set_solver|done]|].
        injection Heq as -> -> ->. split; [set_solver|done].
      - intros [Hin Hrep]. apply elem_of_app in Hin as [Hin|Hin]; [left; done|].
        apply list_elem_of_singleton in Hin as ->.
        destruct (to_replace_unique _ _ _ _ _ Hr Hrep) as [-> ->]. right. done. }
    split.
    { intros id'. rewrite elem_of_app, Hupd, list_elem_of_singleton. split.
      - intros [[Hin Hex]| ->]; [split; [set_solver|done]|].
        split; [set_solver|]. exists tab, table. right. done.
      - intros [Hin Hex]. apply elem_of_app in Hin as [Hin|Hin]; [left; done|].
        apply list_elem_of_singleton in Hin. right. done. }
    split.
    { intros id'. rewrite fmap_app, !elem_of_app, Hneeds. cbn.
      rewrite !list_elem_of_singleton. split.
      - intros [[[Hin Hex]|Hin]| ->].
        + left. split; [left; done|done].
        + right. left. done.
        + right. right. done.
      - intros [[Hin Hex]|[Hin|Hin]]; [|left; right; done|right; done].
        destruct Hin as [Hin|Hin]; [left; left; done|]. subst id'.
        destruct Hex as (tab' & table' & Hc'). exfalso.
        eapply to_create_not_replace; eauto. }
    split.
    { apply NoDup_app. split; [done|]. split; [|apply NoDup_singleton].
      intros id' Hin Hin'. apply list_elem_of_singleton in Hin' as ->.
      apply Hupd in Hin as [Hin _]. done. }
    split.
    { apply NoDup_app. split; [done|]. split; [|apply NoDup_singleton].
      intros id' Hin Hin'. apply list_elem_of_singleton in Hin'. subst id'.
      apply Hneeds in Hin as [[_ Hex]|Hin].
      - destruct Hex as (tab' & table' & [[Htab' _] _]).
        rewrite fresh_tablets in Htab' by lia. done.
      - destruct (Hnew_ids _ Hin) as (j & Hj & Heq).
        apply fresh_inj in Heq; lia. }
    set (nid := oid_Next (CatalogManager.oid_generator_ cm + length olds)) in *.
    assert (Hnid : CatalogManager.tablet_map_ cm !! nid = None).
    { apply fresh_tablets. lia. }
    split.
    { intros id' tab' table' Hin Hc'.
      assert (id' <> id).
      { intros ->. eapply (to_create_not_replace id tab' table' tab table); eauto. }
      assert (id' <> nid). { intros ->. destruct Hc' as [[Htab' _] _]. congruence. }
      rewrite !lookup_insert_ne by congruence.
      apply (Hcreate id' tab' table'); [set_solver|done]. }
    split.
    { intros j id' tab' table' Hj.
      apply lookup_app_Some in Hj as [Hj|[Hlen Hj]].
      - assert (Hin' : id' ∈ tablets /\ to_replace since_create_ms cm id' tab' table').
        { apply (Holds id' tab' table'). eapply list_elem_of_lookup_2; exact Hj. }
        destruct Hin' as [Hin' [[Htab' _] _]].
        assert (j < length olds)%nat by (eapply lookup_lt_Some; exact Hj).
        destruct (Hrepl j id' tab' table' Hj) as [Hd1 Hd2].
        assert (id' <> nid) by congruence.
        assert (id' <> id) by congruence.
        assert (oid_Next (CatalogManager.oid_generator_ cm + j) <> nid).
        { intros Heq. apply fresh_inj in Heq; lia. }
        assert (oid_Next (CatalogManager.oid_generator_ cm + j) <> id).
        { intros Heq. eapply Hne_new. symmetry. exact Heq. }
        rewrite !lookup_insert_ne by congruence. done.
      - destruct (j - length olds)%nat as [|k] eqn:Hk; cbn in Hj; [|done].
        injection Hj as <- <- <-.
        assert (j = length olds) by lia. subst j.
        fold nid. split.
        + rewrite lookup_insert_ne by (apply not_eq_sym; apply Hne_new).
          rewrite lookup_insert_eq. done.
        + rewrite lookup_insert_eq. done. }
    intros id' Hsome. destruct (decide (id' = nid)) as [->|Hne1].
    { right. rewrite fmap_app. cbn. set_solver. }
    destruct (decide (id' = id)) as [->|Hne2].
    { left. set_solver. }
    rewrite !lookup_insert_ne in Hsome by done.
    destruct (Hdom id' Hsome); [left; set_solver|right].
    rewrite fmap_app. set_solver.
  - (* nothing to do for the tablet *)
    exists olds.
    split; [done|]. split; [done|]. split; [done|]. split; [done|].
    split.
    { intros id' tab' table'. rewrite Holds. split.
      - intros [Hin Hrep]. split; [set_solver|done].
      - intros [Hin Hrep]. split; [|done].
        apply elem_of_app in Hin as [Hin|Hin]; [done|].
        apply list_elem_of_singleton in Hin as ->. exfalso. eapply Hnr; eauto. }
    split.
    { intros id'. rewrite Hupd. split.
      - intros [Hin Hex]. split; [set_solver|done].
      - intros [Hin Hex]. split; [|done].
        apply elem_of_app in Hin as [Hin|Hin]; [done|].
        apply list_elem_of_singleton in Hin as ->. exfalso.
        destruct Hex as (tab' & table' & [Hc'|Hr']); [eapply Hnc|eapply Hnr]; eauto. }
    split.
    { intros id'. rewrite Hneeds. split.
      - intros [[Hin Hex]|Hin]; [left; split; [set_solver|done]|right; done].
      - intros [[Hin Hex]|Hin]; [|right; done]. left. split; [|done].
        apply elem_of_app in Hin as [Hin|Hin]; [done|].
        apply list_elem_of_singleton in Hin as ->. exfalso.
        destruct Hex as (tab' & table' & Hc'). eapply Hnc; eauto. }
    split; [done|]. split; [done|].
    split.
    { intros id' tab' table' Hin Hc'. apply (Hcreate id' tab' table'); [|done].
      apply elem_of_app in Hin as [Hin|Hin]; [done|].
      apply list_elem_of_singleton in Hin as ->. exfalso. eapply Hnc; eauto. }
    split; [done|]. done.
Qed.
End assignment.

Lemma select_replicas_for_tablets_outcome `{Externals} `{Placement} cm new needs :
  sampler_contract ->
  forall dirty ts_descs rng,
  NoDup (permanent_uuid_ <$> ts_descs) ->
  NoDup needs ->
  (forall id, id ∈ needs ->
     exists table pb,
       table_of_assigned cm new id = Some table /\ dirty !! id = Some pb
       /\ 0 <= SysTablesEntryPB.num_replicas (TableInfo.metadata_ table) < 2 ^ 31) ->
  exists s dirty' ts_descs' rng',
    select_replicas_for_tablets cm new needs dirty ts_descs rng
    = Some (s, dirty', ts_descs', rng')
    /\ permanent_uuid_ <$> ts_descs' = permanent_uuid_ <$> ts_descs
    /\ ((forall id table, id ∈ needs -> table_of_assigned cm new id = Some table ->
           SysTablesEntryPB.num_replicas (TableInfo.metadata_ table)
           <= Z.of_nat (length ts_descs)) -> s = OK)
    /\ (s <> OK ->
        s = InvalidArgument
        /\ exists id table, id ∈ needs /\ table_of_assigned cm new id = Some table
             /\ Z.of_nat (length ts_descs)
                < SysTablesEntryPB.num_replicas (TableInfo.metadata_ table))
    /\ (s = OK ->
        (forall id, id ∉ needs -> dirty' !! id = dirty !! id)
        /\ (forall id table pb, id ∈ needs ->
              table_of_assigned cm new id = Some table -> dirty !! id = Some pb ->
              exists pb', dirty' !! id = Some pb'
                /\ replicas_placed (permanent_uuid_ <$> ts_descs)
                     (SysTablesEntryPB.num_replicas (TableInfo.metadata_ table)) pb pb')).
Proof.
  intros Hcontract. induction needs as [|id rest IH]; intros dirty ts_descs rng Huuids Hnd Hok.
  { cbn. eexists _, _, _, _. split; [reflexivity|]. split; [done|]. split; [done|].
    split; [done|]. intros _. split; [done|]. intros ? ? ? Hin. inversion Hin. }
  apply NoDup_cons in Hnd as [Hnotin Hnd].
  destruct (Hok id ltac:(set_solver)) as (table & pb & Htable & Hpb & Hn).
  cbn [select_replicas_for_tablets]. rewrite Htable, Hpb.
  destruct (SelectReplicasForTablet_outcome ts_descs (TableInfo.metadata_ table) pb rng
              Hcontract Huuids Hn)
    as (s1 & pb1 & ts1 & rng1 & Heq & Hu1 & Hcase).
  rewrite Heq.
  destruct (decide (Z.of_nat (length ts_descs)
                    < SysTablesEntryPB.num_replicas (TableInfo.metadata_ table)))
    as [Hlt|Hge].
  { destruct Hcase as (-> & -> & ->). cbn.
    eexists _, _, _, _. split; [reflexivity|]. split; [done|].
    split. { intros Hall. specialize (Hall id table ltac:(set_solver) Htable). lia. }
    split. { intros _. split; [done|]. exists id, table. split; [set_solver|done]. }
    done. }
  destruct Hcase as (-> & Hplaced & _). cbn.
  assert (Hlen1 : length ts1 = length ts_descs).
  { rewrite <- (length_fmap permanent_uuid_ ts1), Hu1, length_fmap. done. }
  destruct (IH (<[id := pb1]> dirty) ts1 rng1) as (s & dirty' & ts' & rng' & Heq' & Hu' & Hs
                                                   & Herr & Hres).
  { rewrite Hu1. done. }
  { done. }
  { intros id' Hin. destruct (Hok id' ltac:(set_solver)) as (table' & pb' & ? & ? & ?).
    exists table', pb'. rewrite lookup_insert_ne by (intros ->; done). done. }
  rewrite Heq'. eexists _, _, _, _. split; [reflexivity|].
  split. { rewrite Hu', Hu1. done. }
  split. { intros Hall. apply Hs. intros id' table' Hin Ht. rewrite Hlen1.
           apply (Hall id' table'); [set_solver|done]. }
  split. { intros Hne. destruct (Herr Hne) as (-> & id' & table' & Hin & Ht & Hlt).
           split; [done|]. exists id', table'. split; [set_solver|]. split; [done|]. lia. }
  intros ->. destruct (Hres eq_refl) as [Hother Hin'].
  split.
  { intros id' Hnotin'. rewrite Hother by set_solver.
    rewrite lookup_insert_ne by set_solver. done. }
  intros id' table' pb' Hin Ht Hpb'. apply elem_of_cons in Hin as [->|Hin].
  - exists pb1. rewrite Hother by done. rewrite lookup_insert_eq.
    split; [done|]. congruence.
  - destruct (Hin' id' table' pb' Hin Ht) as (pb'' & Hd & Hp).
    { rewrite lookup_insert_ne by (intros ->; done). done. }
    exists pb''. rewrite <- Hu1. done.
Qed.

Lemma dirty_records_elem dirty ids id pb :
  (id, pb) ∈ dirty_records dirty ids <-> id ∈ ids /\ dirty !! id = Some pb.
Proof.
  unfold dirty_records. rewrite list_elem_of_omap. split.
  - intros (id' & Hin & Heq). destruct (dirty !! id') as [pb'|] eqn:Hd; [|done].
    cbn in Heq. injection Heq as <- <-. done.
  - intros [Hin Hd]. exists id. rewrite Hd. done.
Qed.

Lemma dirty_records_ids dirty ids :
  (forall id, id ∈ ids -> is_Some (dirty !! id)) -> (dirty_records dirty ids).*1 = ids.
Proof.
  unfold dirty_records. induction ids as [|id ids IH]; intros Hall; [done|].
  cbn. destruct (Hall id ltac:(set_solver)) as [pb Hpb]. rewrite Hpb. cbn.
  rewrite IH by (intros; apply Hall; set_solver). done.
Qed.

Lemma put_tablets_lookup_ne rs m id :
  id ∉ rs.*1 -> SysCatalogTable.put_tablets rs m !! id = m !! id.
Proof.
  unfold SysCatalogTable.put_tablets. revert m.
  induction rs as [|r rs IH]; intros m Hid; [done|].
  cbn [foldl]. rewrite IH by set_solver. apply lookup_insert_ne. set_solver.
Qed.

Lemma put_tablets_lookup_eq rs m id pb :
  NoDup rs.*1 -> (id, pb) ∈ rs -> SysCatalogTable.put_tablets rs m !! id = Some pb.
Proof.
  unfold SysCatalogTable.put_tablets. revert m. induction rs as [|r rs IH]; intros m Hnd Hin.
  { inversion Hin. }
  rewrite fmap_cons in Hnd. apply NoDup_cons in Hnd as [Hr Hnd]. cbn [foldl].
  apply elem_of_cons in Hin as [<-|Hin].
  - cbn. fold (SysCatalogTable.put_tablets rs (<[id := pb]> m)).
    rewrite put_tablets_lookup_ne by done. apply lookup_insert_eq.
  - apply IH; done.
Qed.

(** The tables after the new tablets joined them. *)
Lemma publish_tables store (objects : list TabletInfo.t) :
  forall (ids : gmap string TableInfo.t) tid,
  let ids' :=
    foldl (fun ids t =>
             match ids !! TabletInfo.table_ t with
             | Some table =>
                 match TableInfo.AddRemoveTablets store [t] [] table with
                 | Some table' => <[TabletInfo.table_ t := table']> ids
                 | None => ids
                 end
             | None => ids
             end) ids objects in
  match ids !! tid with
  | Some table =>
      exists table',
        ids' !! tid = Some table'
        /\ TableInfo.metadata_ table' = TableInfo.metadata_ table
        /\ TableInfo.table_id_ table' = TableInfo.table_id_ table
        /\ TableInfo.tablet_map_ table'
           = foldl (fun m t =>
                      <[partition_key_start
                          (SysTabletsEntryPB.partition (TabletInfo.metadata_ t))
                        := TabletInfo.tablet_id_ t]> m)
               (TableInfo.tablet_map_ table)
               (filter (fun t => TabletInfo.table_ t = tid) objects)
  | None => ids' !! tid = None
  end.
Proof.
  induction objects as [|t objects IH]; intros ids tid; cbv zeta.
  { cbn. destruct (ids !! tid); eauto. }
  cbn [foldl].
  destruct (ids !! TabletInfo.table_ t) as [table0|] eqn:Ht0.
  2: { specialize (IH ids tid). cbv zeta in IH.
       destruct (ids !! tid) as [table|] eqn:Htid; [|done].
       rewrite filter_cons_False by congruence. done. }
  destruct (AddRemoveTablets_add_only store [t] table0) as [counts Hadd].
  rewrite Hadd. cbn [foldl].
  set (table1 := TableInfo.set_tablets _ counts table0).
  specialize (IH (<[TabletInfo.table_ t := table1]> ids) tid). cbv zeta in IH.
  destruct (decide (TabletInfo.table_ t = tid)) as [Heq|Hne].
  - rewrite Heq in *. rewrite lookup_insert_eq in IH. rewrite Ht0.
    rewrite filter_cons_True by done. cbn [foldl].
    destruct IH as (table' & Hl & Hm & Hi & Hmap). exists table'. done.
  - rewrite lookup_insert_ne in IH by done.
    destruct (ids !! tid) as [table|] eqn:Htid; [|done].
    rewrite filter_cons_False by done. done.
Qed.

Lemma replacement_objects_elem (dirty : gmap string SysTabletsEntryPB.t)
    (new : list (string * string)) t :
  t ∈ omap (fun e => (fun pb => new_TabletInfo e.2 (e.1, pb)) <$> dirty !! e.1) new
  <-> exists nid tbl pb, (nid, tbl) ∈ new /\ dirty !! nid = Some pb
                         /\ t = new_TabletInfo tbl (nid, pb).
Proof.
  rewrite list_elem_of_omap. split.
  - intros ([nid tbl] & Hin & Heq). cbn in Heq.
    destruct (dirty !! nid) as [pb|] eqn:Hd; [|done]. injection Heq as <-.
    exists nid, tbl, pb. done.
  - intros (nid & tbl & pb & Hin & Hd & ->). exists (nid, tbl). cbn. rewrite Hd. done.
Qed.

Lemma replacement_objects_ids (dirty : gmap string SysTabletsEntryPB.t)
    (new : list (string * string)) :
  NoDup new.*1 ->
  NoDup (TabletInfo.tablet_id_
           <$> omap (fun e => (fun pb => new_TabletInfo e.2 (e.1, pb)) <$> dirty !! e.1) new).
Proof.
  induction new as [|[nid tbl] new IH]; intros Hnd; [constructor|].
  rewrite fmap_cons in Hnd. apply NoDup_cons in Hnd as [Hnid Hnd]. cbn.
  destruct (dirty !! nid) as [pb|]; cbn; [|auto].
  apply NoDup_cons. split; [|auto].
  intros Hin. apply list_elem_of_fmap in Hin as (t & Heq & Hin).
  apply replacement_objects_elem in Hin as (nid' & tbl' & pb' & Hin & _ & ->).
  cbn in Heq. subst nid'. apply Hnid. apply list_elem_of_fmap. exists (nid, tbl'). done.
Qed.

Lemma publish_replacements_tablets dirty new cm id :
  NoDup new.*1 ->
  CatalogManager.tablet_map_ (publish_replacements dirty new cm) !! id
  = match list_find (fun e => e.1 = id) new with
    | Some (_, e) =>
        match dirty !! id with
        | Some pb => Some (new_TabletInfo e.2 (id, pb))
        | None => CatalogManager.tablet_map_ cm !! id
        end
    | None => CatalogManager.tablet_map_ cm !! id
    end.
Proof.
  intros Hnd. unfold publish_replacements. cbn.
  set (objects := omap _ new).
  destruct (list_find (fun e => e.1 = id) new) as [[j e]|] eqn:Hfind.
  - apply list_find_Some in Hfind as (Hj & He & _).
    destruct e as [nid tbl]. cbn in He. subst nid. cbn.
    destruct (dirty !! id) as [pb|] eqn:Hd.
    + assert (Hin : new_TabletInfo tbl (id, pb) ∈ objects).
      { apply replacement_objects_elem. exists id, tbl, pb.
        split; [eapply list_elem_of_lookup_2; exact Hj|done]. }
      apply (foldl_insert_lookup TabletInfo.tablet_id_ (fun t => t) objects
               (CatalogManager.tablet_map_ cm) _ (replacement_objects_ids dirty new Hnd) Hin).
    + apply (foldl_insert_lookup_ne TabletInfo.tablet_id_ (fun t => t)).
      intros t Ht Heq. apply replacement_objects_elem in Ht
        as (nid' & tbl' & pb' & Hin & Hd' & ->). cbn in Heq. congruence.
  - apply (foldl_insert_lookup_ne TabletInfo.tablet_id_ (fun t => t)).
    intros t Ht Heq. apply replacement_objects_elem in Ht
      as (nid' & tbl' & pb' & Hin & Hd' & ->). cbn in Heq. subst nid'.
    apply list_find_None in Hfind. rewrite Forall_forall in Hfind.
    apply (Hfind (id, tbl') Hin). done.
Qed.

Lemma handle_assignments_frame `{Externals} `{Placement} since_create_ms tablets cm :
  exists k, (CatalogManager.oid_generator_ cm <= k)%nat
            /\ assign_cm (handle_assignments since_create_ms tablets cm)
               = CatalogManager.set_oid k cm.
Proof.
  induction tablets as [|id tablets IH] using rev_ind.
  { exists (CatalogManager.oid_generator_ cm). split; [lia|]. destruct cm; reflexivity. }
  destruct IH as (k & Hk & Heq). rewrite handle_assignments_snoc.
  destruct (handle_assignment_cases since_create_ms cm
              (handle_assignments since_create_ms tablets cm) id)
    as [(tab & table & _ & ->)|[(tab & table & Hr & ->)|(_ & _ & ->)]].
  - exists k. done.
  - destruct Hr as (_ & _ & Htimeout). unfold HandleAssignCreatingTablet. cbv zeta.
    rewrite (proj2 (Z.ltb_ge _ _)) by lia. rewrite Heq. cbn.
    exists (S k). split; [lia|]. reflexivity.
  - exists k. done.
Qed.

(** X15. ProcessPendingAssignments makes at most one write. With no write
    it starts no task, sends no create request and leaves the directory as
    it was; when the write fails it returns the status of the write and does
    the same; when the write succeeded it returns OK. It sends create
    requests only after a write that succeeded, and never touches the
    by-name map or the reserved names. *)
Theorem ProcessPendingAssignments_write_discipline `{Externals} `{Placement}
    since_create_ms ts_descs rng tablets cm s resp rpcs cm' :
  ProcessPendingAssignments since_create_ms ts_descs rng tablets cm
  = Returned s resp rpcs cm' ->
  single_write_outcome cm s rpcs cm'
  /\ (s = OK \/ create_tablet_requests resp = [])
  /\ (SysCatalogTable.writes_ok_ (CatalogManager.sys_catalog_ cm')
      = SysCatalogTable.writes_ok_ (CatalogManager.sys_catalog_ cm) ->
      create_tablet_requests resp = [])
  /\ CatalogManager.table_names_map_ cm' = CatalogManager.table_names_map_ cm
  /\ CatalogManager.reserved_table_names_ cm' = CatalogManager.reserved_table_names_ cm
  /\ CatalogManager.state_ cm' = CatalogManager.state_ cm.
Proof.
  unfold ProcessPendingAssignments. cbv zeta.
  destruct (handle_assignments_frame since_create_ms tablets cm) as (k & Hk & Hcm).
  set (pass := handle_assignments since_create_ms tablets cm) in *.
  rewrite Hcm.
  destruct (_ && _).
  { intros [= <- <- <- <-]. split; [left; done|]. split; [left; done|]. done. }
  destruct (select_replicas_for_tablets _ _ _ _ _ _) as [[[[s1 dirty] ts1] rng1]|];
    [|discriminate].
  destruct (negb (ok s1)) eqn:Hs1.
  { intros [= <- <- <- <-]. split; [left; done|]. split; [right; done|]. done. }
  unfold SysCatalogTable.Write. cbn.
  destruct (ok (SysCatalogTable.next_outcome (CatalogManager.sys_catalog_ cm))) eqn:Hw;
    cbn; rewrite ?Hw; cbn.
  - intros [= <- <- <- <-]. split.
    { right. right. cbn. done. }
    split; [left; done|]. cbn. split; [lia|]. done.
  - intros [= <- <- <- <-]. split.
    { right. left. cbn. done. }
    split; [right; done|]. done.
Qed.

Lemma ProcessPendingAssignments_write_discipline_witness :
  single_write_outcome (sample_created [OK; IllegalState]) IllegalState []
    (catalog_after
       (@ProcessPendingAssignments sample_externals sample_placement (fun _ => 0)
          (sample_servers ["A"; "B"; "C"]) 0%nat ["#id"; "##id"]
          (sample_created [OK; IllegalState]))).
Proof.
  refine (proj1 (@ProcessPendingAssignments_write_discipline sample_externals
                   sample_placement (fun _ => 0) (sample_servers ["A"; "B"; "C"]) 0%nat
                   ["#id"; "##id"] (sample_created [OK; IllegalState]) IllegalState
                   {| create_tablet_requests := [];
                      ts_descs_after :=
                        match @ProcessPendingAssignments sample_externals sample_placement
                                (fun _ => 0) (sample_servers ["A"; "B"; "C"]) 0%nat
                                ["#id"; "##id"] (sample_created [OK; IllegalState]) with
                        | Returned _ resp _ _ => ts_descs_after resp
                        | Crashed => []
                        end |} [] _ _)).
  vm_compute. reflexivity.
Defined.

Lemma table_of_assigned_new cm (new : list (string * string)) nid tbl :
  NoDup new.*1 -> (nid, tbl) ∈ new ->
  CatalogManager.tablet_map_ cm !! nid = None ->
  table_of_assigned cm new nid = CatalogManager.table_ids_map_ cm !! tbl.
Proof.
  intros Hnd Hin Hnone. unfold table_of_assigned. rewrite Hnone.
  destruct (list_find (fun e => e.1 = nid) new) as [[j e]|] eqn:Hfind.
  - apply list_find_Some in Hfind as (Hj & He & _). destruct e as [nid' tbl'].
    cbn in He. subst nid'. cbn.
    apply list_elem_of_lookup in Hin as [j' Hj'].
    assert (j = j').
    { eapply NoDup_lookup; [exact Hnd| |]; rewrite list_lookup_fmap.
      - rewrite Hj. reflexivity.
      - rewrite Hj'. reflexivity. }
    subst j'. congruence.
  - apply list_find_None in Hfind. rewrite Forall_forall in Hfind.
    exfalso. apply (Hfind (nid, tbl) Hin). done.
Qed.

Lemma list_find_new_id (new : list (string * string)) nid tbl :
  NoDup new.*1 -> (nid, tbl) ∈ new ->
  exists j, list_find (fun e => e.1 = nid) new = Some (j, (nid, tbl)).
Proof.
  intros Hnd Hin.
  destruct (list_find (fun e => e.1 = nid) new) as [[j e]|] eqn:Hfind.
  - pose proof Hfind as Hfind'.
    apply list_find_Some in Hfind as (Hj & He & _). destruct e as [nid' tbl'].
    cbn in He. subst nid'.
    apply list_elem_of_lookup in Hin as [j' Hj'].
    assert (j = j').
    { eapply NoDup_lookup; [exact Hnd| |]; rewrite list_lookup_fmap.
      - rewrite Hj. reflexivity.
      - rewrite Hj'. reflexivity. }
    subst j'. exists j. congruence.
  - apply list_find_None in Hfind. rewrite Forall_forall in Hfind.
    exfalso. apply (Hfind (nid, tbl) Hin). done.
Qed.

Lemma list_find_not_new (new : list (string * string)) id :
  id ∉ new.*1 -> list_find (fun e => e.1 = id) new = None.
Proof.
  intros Hid. apply list_find_None. rewrite Forall_forall. intros [nid tbl] Hin Heq.
  cbn in Heq. subst nid. apply Hid. apply list_elem_of_fmap. exists (id, tbl). done.
Qed.

Section assigned.
Context `{Externals} `{Placement}.
Variables (since_create_ms : string -> Z) (ts_descs : list TSDescriptor) (rng : Rng).
Variables (tablets : list string) (cm : CatalogManager.t).
Hypothesis Hcontract : sampler_contract.
Hypothesis Hcons : directory_consistent cm.
Hypothesis Huuids : NoDup (permanent_uuid_ <$> ts_descs).
Hypothesis Hnd : NoDup tablets.
Hypothesis Hreplicas :
  forall id tab table, id ∈ tablets ->
    to_create cm id tab table \/ to_replace since_create_ms cm id tab table ->
    0 <= SysTablesEntryPB.num_replicas (TableInfo.metadata_ table)
      <= Z.of_nat (length ts_descs)
    /\ SysTablesEntryPB.num_replicas (TableInfo.metadata_ table) < 2 ^ 31.
Hypothesis Hwrite :
  ok (SysCatalogTable.next_outcome (CatalogManager.sys_catalog_ cm)) = true.

Lemma ProcessPendingAssignments_assigns :
  let new_id := fun j : nat => oid_Next (CatalogManager.oid_generator_ cm + j) in
  let uuids := permanent_uuid_ <$> ts_descs in
  exists olds needs upd objects resp rpcs cm',
    ProcessPendingAssignments since_create_ms ts_descs rng tablets cm
    = Returned OK resp rpcs cm'
    /\ NoDup ((fun o => o.1.1) <$> olds)
    /\ (forall id tab table,
          (id, tab, table) ∈ olds
          <-> id ∈ tablets /\ to_replace since_create_ms cm id tab table)
    /\ (forall id,
          id ∈ upd
          <-> id ∈ tablets
              /\ exists tab table, to_create cm id tab table
                                   \/ to_replace since_create_ms cm id tab table)
    /\ (forall id,
          id ∈ needs
          <-> (id ∈ tablets /\ exists tab table, to_create cm id tab table)
              \/ exists j, (j < length olds)%nat /\ id = new_id j)
    /\ CatalogManager.oid_generator_ cm'
       = (CatalogManager.oid_generator_ cm + length olds)%nat
    /\ CatalogManager.table_names_map_ cm' = CatalogManager.table_names_map_ cm
    /\ (forall id tab table,
          id ∈ tablets -> to_create cm id tab table ->
          exists pb',
            CatalogManager.tablet_map_ cm' !! id = Some (TabletInfo.set_metadata pb' tab)
            /\ replicas_placed uuids
                 (SysTablesEntryPB.num_replicas (TableInfo.metadata_ table))
                 (PersistentTabletInfo.set_state SysTabletsEntryPB.CREATING
                    "Sending initial creation of tablet" (TabletInfo.metadata_ tab)) pb'
            /\ SysCatalogTable.tablets_ (CatalogManager.sys_catalog_ cm') !! id = Some pb')
    /\ (forall j id tab table,
          olds !! j = Some (id, tab, table) ->
          let replaced :=
            PersistentTabletInfo.set_state SysTabletsEntryPB.REPLACED
              ("Replaced by " +:+ new_id j +:+ " at " +:+ LocalTimeAsString)
              (TabletInfo.metadata_ tab) in
          CatalogManager.tablet_map_ cm' !! id = Some (TabletInfo.set_metadata replaced tab)
          /\ SysCatalogTable.tablets_ (CatalogManager.sys_catalog_ cm') !! id = Some replaced
          /\ CatalogManager.tablet_map_ cm !! new_id j = None
          /\ exists pb',
               CatalogManager.tablet_map_ cm' !! new_id j
               = Some (new_TabletInfo (TabletInfo.table_ tab) (new_id j, pb'))
               /\ new_TabletInfo (TabletInfo.table_ tab) (new_id j, pb') ∈ objects
               /\ replicas_placed uuids
                    (SysTablesEntryPB.num_replicas (TableInfo.metadata_ table))
                    (PersistentTabletInfo.set_state SysTabletsEntryPB.CREATING
                       ("Replacement for " +:+ TabletInfo.tablet_id_ tab)
                       (CreateTabletInfo (TableInfo.table_id_ table)
                          (SysTabletsEntryPB.partition (TabletInfo.metadata_ tab)))) pb'
               /\ SysCatalogTable.tablets_ (CatalogManager.sys_catalog_ cm') !! new_id j
                  = Some pb')
    /\ (forall id, id ∉ upd -> (forall j, (j < length olds)%nat -> id <> new_id j) ->
          CatalogManager.tablet_map_ cm' !! id = CatalogManager.tablet_map_ cm !! id)
    /\ (forall t, t ∈ objects ->
          exists j id tab table,
            olds !! j = Some (id, tab, table)
            /\ TabletInfo.tablet_id_ t = new_id j
            /\ TabletInfo.table_ t = TabletInfo.table_ tab
            /\ SysTabletsEntryPB.partition (TabletInfo.metadata_ t)
               = SysTabletsEntryPB.partition (TabletInfo.metadata_ tab))
    /\ NoDup (TabletInfo.tablet_id_ <$> objects)
    /\ (forall tid,
          match CatalogManager.table_ids_map_ cm !! tid with
          | Some table =>
              exists table',
                CatalogManager.table_ids_map_ cm' !! tid = Some table'
                /\ TableInfo.metadata_ table' = TableInfo.metadata_ table
                /\ TableInfo.table_id_ table' = TableInfo.table_id_ table
                /\ TableInfo.tablet_map_ table'
                   = foldl (fun m t =>
                              <[partition_key_start
                                  (SysTabletsEntryPB.partition (TabletInfo.metadata_ t))
                                := TabletInfo.tablet_id_ t]> m)
                       (TableInfo.tablet_map_ table)
                       (filter (fun t => TabletInfo.table_ t = tid) objects)
          | None => CatalogManager.table_ids_map_ cm' !! tid = None
          end)
    /\ create_tablet_requests resp
       = resolve_tablets (CatalogManager.tablet_map_ cm') needs ≫= SendCreateTabletRequest
    /\ rpcs
       = resolve_tablets (CatalogManager.tablet_map_ cm') upd
         ≫= (fun tab => if tablet_is_deleted (TabletInfo.metadata_ tab)
                        then SendDeleteTabletRequest tab else [])
    /\ permanent_uuid_ <$> ts_descs_after resp = uuids.
Proof.
  cbv zeta. destruct Hcons as (_ & _ & _ & Htablets & Hinj & Hunused).
  assert (fresh_tablets : forall i, (CatalogManager.oid_generator_ cm <= i)%nat ->
            CatalogManager.tablet_map_ cm !! oid_Next i = None).
  { intros i Hi. apply Hunused. done. }
  destruct (handle_assignments_spec since_create_ms cm Hinj fresh_tablets tablets Hnd)
    as (olds & Hcm0 & Hnew & Hadd & Holds_nd & Holds & Hupd & Hneeds & Hupd_nd & Hneeds_nd
        & Hcreate & Hrepl & Hdom).
  cbv zeta in *.
  unfold ProcessPendingAssignments. cbv zeta.
  set (pass := handle_assignments since_create_ms tablets cm) in *.
  set (deferred := assign_deferred pass) in *.
  assert (Hnew_len : length (assign_new pass) = length olds).
  { rewrite Hnew, length_imap. done. }
  assert (Hnew_ids : forall n, n ∈ (assign_new pass).*1 <->
            exists j, (j < length olds)%nat /\ n = oid_Next (CatalogManager.oid_generator_ cm + j)).
  { intros n. rewrite Hnew. split.
    - intros Hn. apply list_elem_of_fmap in Hn as ([n' t] & -> & Hn).
      apply list_elem_of_lookup in Hn as [j Hj]. rewrite list_lookup_imap in Hj.
      destruct (olds !! j) as [o|] eqn:Ho; [|done]. cbn in Hj. injection Hj as <- <-.
      exists j. split; [|done]. eapply lookup_lt_Some; exact Ho.
    - intros (j & Hj & ->). destruct (lookup_lt_is_Some_2 olds j Hj) as [o Ho].
      apply list_elem_of_fmap. exists (oid_Next (CatalogManager.oid_generator_ cm + j), TabletInfo.table_ o.1.2). split; [done|].
      eapply list_elem_of_lookup_2. rewrite list_lookup_imap, Ho. done. }
  assert (Hnew_nd : NoDup (assign_new pass).*1).
  { apply NoDup_alt. intros i j x Hi Hj. rewrite list_lookup_fmap, Hnew, list_lookup_imap in Hi.
    rewrite list_lookup_fmap, Hnew, list_lookup_imap in Hj.
    destruct (olds !! i); [|done]. destruct (olds !! j); [|done]. cbn in Hi, Hj.
    injection Hi as <-. injection Hj as Hj. apply Hinj in Hj; lia. }
  assert (Hnew_at : forall j id tab table, olds !! j = Some (id, tab, table) ->
            (oid_Next (CatalogManager.oid_generator_ cm + j), TabletInfo.table_ tab) ∈ assign_new pass).
  { intros j id tab table Hj. eapply list_elem_of_lookup_2.
    rewrite Hnew, list_lookup_imap, Hj. done. }
  assert (Hneeds_info : forall id, id ∈ DeferredAssignmentActions.needs_create_rpc deferred ->
            exists table pb,
              table_of_assigned cm (assign_new pass) id = Some table
              /\ assign_dirty pass !! id = Some pb
              /\ 0 <= SysTablesEntryPB.num_replicas (TableInfo.metadata_ table)
                   <= Z.of_nat (length ts_descs)
              /\ SysTablesEntryPB.num_replicas (TableInfo.metadata_ table) < 2 ^ 31).
  { intros id Hin. apply Hneeds in Hin as [[Hin (tab & table & Hc)]|Hin].
    - exists table. eexists. split.
      { unfold table_of_assigned. destruct Hc as [[-> ->] _]. done. }
      split; [eapply Hcreate; eauto|]. eapply Hreplicas; eauto.
    - apply Hnew_ids in Hin as (j & Hj & ->).
      destruct (lookup_lt_is_Some_2 olds j Hj) as [[[old tab] table] Ho].
      pose proof (list_elem_of_lookup_2 _ _ _ Ho) as Hin. apply Holds in Hin as [Hin Hr].
      exists table. eexists. split.
      { rewrite (table_of_assigned_new cm (assign_new pass) (oid_Next (CatalogManager.oid_generator_ cm + j)) (TabletInfo.table_ tab)
                   Hnew_nd (Hnew_at _ _ _ _ Ho)) by (apply fresh_tablets; lia).
        destruct Hr as [[_ ->] _]. done. }
      split; [eapply Hrepl; eauto|]. eapply Hreplicas; eauto. }
  destruct (bool_decide (DeferredAssignmentActions.tablets_to_add deferred = [])
            && bool_decide (DeferredAssignmentActions.tablets_to_update deferred = [])
            && bool_decide (DeferredAssignmentActions.needs_create_rpc deferred = []))
    eqn:Hempty.
  { apply andb_true_iff in Hempty as [Hempty Hneeds_nil].
    apply andb_true_iff in Hempty as [Hadd_nil Hupd_nil].
    apply bool_decide_eq_true in Hadd_nil, Hupd_nil, Hneeds_nil.
    assert (Holds_nil : olds = []).
    { apply nil_length_inv. rewrite <- Hnew_len.
      rewrite <- (length_fmap fst), <- Hadd, Hadd_nil. done. }
    subst olds. rewrite Hupd_nil in Hupd. rewrite Hneeds_nil in Hneeds.
    exists [], [], [], []. eexists _, _, _. split; [reflexivity|].
    rewrite Hcm0. cbn.
    split; [constructor|]. split; [done|]. split; [done|].
    split. { intros id. rewrite Hneeds, Hnew_ids. done. }
    split; [done|]. split; [done|].
    split. { intros id tab table Hin Hc. exfalso.
             assert (Hin' : id ∈ @nil string) by (apply Hupd; eauto). inversion Hin'. }
    split. { intros j ? ? ? Hj. done. }
    split; [done|].
    split. { intros t Ht. inversion Ht. }
    split; [constructor|].
    split. { intros tid. destruct (CatalogManager.table_ids_map_ cm !! tid) as [table|]; eauto. }
    done. }
  destruct (select_replicas_for_tablets_outcome cm (assign_new pass)
              (DeferredAssignmentActions.needs_create_rpc deferred) Hcontract
              (assign_dirty pass) ts_descs rng Huuids Hneeds_nd)
    as (s1 & dirty' & ts1 & rng1 & Hsel & Hu1 & Hs1 & _ & Hres).
  { intros id Hin. destruct (Hneeds_info id Hin) as (table & pb & ? & ? & ? & ?).
    exists table, pb. split; [done|]. split; [done|]. lia. }
  assert (s1 = OK).
  { apply Hs1. intros id table Hin Ht.
    destruct (Hneeds_info id Hin) as (table' & pb & ? & ? & ? & ?).
    assert (table' = table) by congruence. subst table'. lia. }
  subst s1. rewrite Hsel.
  destruct (Hres eq_refl) as [Hother Hplaced]. clear Hres Hs1.
  change (negb (ok OK)) with false. cbv iota.
  rewrite Hcm0. unfold SysCatalogTable.Write.
  cbn [CatalogManager.sys_catalog_ CatalogManager.set_oid].
  rewrite Hwrite. cbv iota beta. change (negb (ok OK)) with false. cbv iota.
  set (upd := DeferredAssignmentActions.tablets_to_update deferred) in *.
  set (needs := DeferredAssignmentActions.needs_create_rpc deferred) in *.
  assert (Hold_not_new : forall id tab, CatalogManager.tablet_map_ cm !! id = Some tab ->
            id ∉ (assign_new pass).*1).
  { intros id tab Htab Hin. apply Hnew_ids in Hin as (j & _ & ->).
    rewrite fresh_tablets in Htab by lia. done. }
  assert (Fc : forall id tab table, id ∈ tablets -> to_create cm id tab table ->
            exists pb', dirty' !! id = Some pb'
              /\ replicas_placed (permanent_uuid_ <$> ts_descs)
                   (SysTablesEntryPB.num_replicas (TableInfo.metadata_ table))
                   (PersistentTabletInfo.set_state SysTabletsEntryPB.CREATING
                      "Sending initial creation of tablet" (TabletInfo.metadata_ tab)) pb').
  { intros id tab table Hin Hc. apply (Hplaced id table).
    - apply Hneeds. left. eauto.
    - unfold table_of_assigned. destruct Hc as [[-> ->] _]. done.
    - eapply Hcreate; eauto. }
  assert (Fr : forall j id tab table, olds !! j = Some (id, tab, table) ->
            dirty' !! id
            = Some (PersistentTabletInfo.set_state SysTabletsEntryPB.REPLACED
                      ("Replaced by " +:+ oid_Next (CatalogManager.oid_generator_ cm + j)
                       +:+ " at " +:+ LocalTimeAsString) (TabletInfo.metadata_ tab))
            /\ exists pb',
                 dirty' !! oid_Next (CatalogManager.oid_generator_ cm + j) = Some pb'
                 /\ replicas_placed (permanent_uuid_ <$> ts_descs)
                      (SysTablesEntryPB.num_replicas (TableInfo.metadata_ table))
                      (PersistentTabletInfo.set_state SysTabletsEntryPB.CREATING
                         ("Replacement for " +:+ TabletInfo.tablet_id_ tab)
                         (CreateTabletInfo (TableInfo.table_id_ table)
                            (SysTabletsEntryPB.partition (TabletInfo.metadata_ tab)))) pb').
  { intros j id tab table Hj.
    pose proof (list_elem_of_lookup_2 _ _ _ Hj) as Hin. apply Holds in Hin as [Hin Hr].
    destruct (Hrepl j id tab table Hj) as [Hd1 Hd2].
    assert (Hj' : (j < length olds)%nat) by (eapply lookup_lt_Some; exact Hj).
    split.
    - rewrite Hother; [done|]. intros Hin'. apply Hneeds in Hin' as [[_ Hex]|Hin'].
      + destruct Hex as (tab' & table' & Hc). eapply to_create_not_replace; eauto.
      + destruct Hr as [[Htab _] _]. eapply Hold_not_new; eauto.
    - apply (Hplaced _ table).
      + apply Hneeds. right. apply Hnew_ids. eauto.
      + rewrite (table_of_assigned_new cm (assign_new pass) _ (TabletInfo.table_ tab)
                   Hnew_nd (Hnew_at _ _ _ _ Hj)) by (apply fresh_tablets; lia).
        destruct Hr as [[_ ->] _]. done.
      + done. }
  assert (Hupd_some : forall id, id ∈ upd -> is_Some (dirty' !! id)).
  { intros id Hin. apply Hupd in Hin as [Hin (tab & table & [Hc|Hr])].
    - destruct (Fc id tab table Hin Hc) as (pb' & -> & _). eauto.
    - assert (Ho : (id, tab, table) ∈ olds) by (apply Holds; done).
      apply list_elem_of_lookup in Ho as [j Hj].
      destruct (Fr j id tab table Hj) as [-> _]. eauto. }
  assert (Hadd_some : forall id, id ∈ (assign_new pass).*1 -> is_Some (dirty' !! id)).
  { intros id Hin. apply Hnew_ids in Hin as (j & Hj & ->).
    destruct (lookup_lt_is_Some_2 olds j Hj) as [[[old tab] table] Ho].
    destruct (Fr j old tab table Ho) as [_ (pb' & -> & _)]. eauto. }
  pose proof (dirty_records_ids dirty' upd Hupd_some) as Hrecs_upd.
  pose proof (dirty_records_ids dirty' _ Hadd_some) as Hrecs_add.
  assert (Hupd_old : forall id, id ∈ upd -> is_Some (CatalogManager.tablet_map_ cm !! id)).
  { intros id Hin. apply Hupd in Hin as [_ (tab & table & [[[-> _] _]|[[-> _] _]])]; eauto. }
  exists olds, needs, upd,
    (omap (fun e => (fun pb => new_TabletInfo e.2 (e.1, pb)) <$> dirty' !! e.1)
       (assign_new pass)).
  eexists _, _, _. split; [reflexivity|].
  split; [done|]. split; [done|]. split; [done|].
  split. { intros id. rewrite Hneeds, Hnew_ids. done. }
  split; [done|]. split; [done|].
  split.
  { (* the tablets to create *)
    intros id tab table Hin Hc. destruct (Fc id tab table Hin Hc) as (pb' & Hd & Hp).
    pose proof Hc as [[Htab _] _].
    exists pb'. split; [|split; [done|]].
    - rewrite publish_replacements_tablets by done.
      rewrite (list_find_not_new (assign_new pass) id) by (eapply Hold_not_new; eauto).
      cbn [CatalogManager.tablet_map_ CatalogManager.set_maps CatalogManager.set_sys_catalog
           CatalogManager.set_oid].
      apply commit_tablets_lookup_eq; [rewrite Hrecs_upd; done| |done].
      apply dirty_records_elem. split; [|done]. apply Hupd. eauto.
    - cbn. apply put_tablets_lookup_eq; [rewrite Hrecs_upd; done|].
      apply dirty_records_elem. split; [|done]. apply Hupd. eauto. }
  split.
  { (* the tablets to replace *)
    intros j id tab table Hj. destruct (Fr j id tab table Hj) as [Hd (pb' & Hd' & Hp)].
    pose proof (list_elem_of_lookup_2 _ _ _ Hj) as Hin. apply Holds in Hin as [Hin Hr].
    pose proof Hr as [[Htab _] _].
    assert (Hj' : (j < length olds)%nat) by (eapply lookup_lt_Some; exact Hj).
    assert (Hin_upd : id ∈ upd) by (apply Hupd; eauto).
    split; [|split; [|split; [apply fresh_tablets; lia|]]].
    - rewrite publish_replacements_tablets by done.
      rewrite (list_find_not_new (assign_new pass) id) by (eapply Hold_not_new; eauto).
      cbn [CatalogManager.tablet_map_ CatalogManager.set_maps CatalogManager.set_sys_catalog
           CatalogManager.set_oid].
      apply commit_tablets_lookup_eq; [rewrite Hrecs_upd; done| |done].
      apply dirty_records_elem. done.
    - cbn. apply put_tablets_lookup_eq; [rewrite Hrecs_upd; done|].
      apply dirty_records_elem. done.
    - exists pb'.
      assert (Hobj : new_TabletInfo (TabletInfo.table_ tab)
                       (oid_Next (CatalogManager.oid_generator_ cm + j), pb')
                     ∈ omap (fun e => (fun pb => new_TabletInfo e.2 (e.1, pb))
                                        <$> dirty' !! e.1) (assign_new pass)).
      { apply replacement_objects_elem. eexists _, _, _. split; [eapply Hnew_at; eauto|].
        done. }
      split; [|split; [done|split; [done|]]].
      + rewrite publish_replacements_tablets by done.
        destruct (list_find_new_id (assign_new pass) _ _ Hnew_nd (Hnew_at _ _ _ _ Hj))
          as [j' ->].
        rewrite Hd'. done.
      + unfold publish_replacements.
        cbn [CatalogManager.sys_catalog_ CatalogManager.set_maps
             CatalogManager.set_sys_catalog CatalogManager.set_oid SysCatalogTable.tablets_
             Actions.tablets_to_update Actions.tablets_to_add].
        rewrite put_tablets_lookup_ne.
        * apply put_tablets_lookup_eq; [rewrite Hadd, Hrecs_add; done|].
          apply dirty_records_elem. split; [|done]. rewrite Hadd. apply Hnew_ids. eauto.
        * rewrite Hrecs_upd. intros Hin'. apply Hupd_old in Hin' as [? Hin'].
          rewrite fresh_tablets in Hin' by lia. done. }
  split.
  { (* the other tablets *)
    intros id Hnot_upd Hnot_new.
    rewrite publish_replacements_tablets by done.
    rewrite (list_find_not_new (assign_new pass) id).
    2: { intros Hin. apply Hnew_ids in Hin as (j & Hj & ->). eapply Hnot_new; eauto. }
    cbn [CatalogManager.tablet_map_ CatalogManager.set_maps CatalogManager.set_sys_catalog
         CatalogManager.set_oid].
    apply commit_tablets_lookup_ne. rewrite Hrecs_upd. done. }
  split.
  { (* the new objects *)
    intros t Ht. apply replacement_objects_elem in Ht as (nid & tbl & pb & Hin & Hd & ->).
    apply list_elem_of_lookup in Hin as [j Hj]. rewrite Hnew, list_lookup_imap in Hj.
    destruct (olds !! j) as [[[old tab] table]|] eqn:Ho; [|done]. cbn in Hj.
    injection Hj as <- <-.
    destruct (Fr j old tab table Ho) as [_ (pb' & Hd' & Hp)].
    assert (pb' = pb) by congruence. subst pb'.
    exists j, old, tab, table. split; [done|]. split; [done|]. split; [done|].
    destruct Hp as (_ & _ & Hpart & _). cbn. rewrite Hpart. done. }
  split; [apply replacement_objects_ids; done|].
  split.
  { intros tid. unfold publish_replacements.
    cbn [CatalogManager.table_ids_map_ CatalogManager.set_maps CatalogManager.set_sys_catalog
         CatalogManager.set_oid CatalogManager.tablet_map_].
    apply publish_tables. }
  split; [done|]. split; [done|]. exact Hu1.
Qed.
End assigned.

Lemma resolve_tablets_elem store ids tab :
  tab ∈ resolve_tablets store ids <-> exists id, id ∈ ids /\ store !! id = Some tab.
Proof. unfold resolve_tablets. apply list_elem_of_omap. Qed.

Lemma create_requests_elem store ids tid uuid :
  (tid, uuid) ∈ resolve_tablets store ids ≫= SendCreateTabletRequest
  <-> exists id tab p,
        id ∈ ids /\ store !! id = Some tab /\ tid = TabletInfo.tablet_id_ tab
        /\ p ∈ RaftConfigPB.peers
                 (ConsensusStatePB.committed_config
                    (SysTabletsEntryPB.consensus_state (TabletInfo.metadata_ tab)))
        /\ uuid = RaftPeerPB.permanent_uuid p.
Proof.
  rewrite list_elem_of_bind. split.
  - intros (tab & Hin & Htab). apply resolve_tablets_elem in Htab as (id & Hid & Hs).
    unfold SendCreateTabletRequest in Hin. apply list_elem_of_fmap in Hin as (p & Heq & Hp).
    injection Heq as -> ->. exists id, tab, p. done.
  - intros (id & tab & p & Hid & Hs & -> & Hp & ->). exists tab. split.
    + unfold SendCreateTabletRequest. apply list_elem_of_fmap. exists p. done.
    + apply resolve_tablets_elem. eauto.
Qed.

Lemma NoDup_fmap_elem_inj {A B : Type} (f : A -> B) (l : list A) x y :
  NoDup (f <$> l) -> x ∈ l -> y ∈ l -> f x = f y -> x = y.
Proof.
  intros Hnd Hx Hy Heq.
  apply list_elem_of_lookup in Hx as [i Hi]. apply list_elem_of_lookup in Hy as [k Hk].
  assert (i = k).
  { eapply NoDup_lookup; [exact Hnd| |]; rewrite list_lookup_fmap.
    - rewrite Hi. reflexivity.
    - rewrite Hk, Heq. reflexivity. }
  subst k. congruence.
Qed.

Lemma ProcessPendingAssignments_nothing_pending `{Externals} `{Placement}
    since_create_ms ts_descs rng tablets cm :
  (forall id tab table, id ∈ tablets ->
     ~ to_create cm id tab table /\ ~ to_replace since_create_ms cm id tab table) ->
  ProcessPendingAssignments since_create_ms ts_descs rng tablets cm
  = Returned OK {| create_tablet_requests := []; ts_descs_after := ts_descs |} [] cm.
Proof.
  intros Hnone.
  assert (Hpass : forall pass,
            foldl (handle_assignment since_create_ms cm) pass tablets = pass).
  { induction tablets as [|id tablets IH]; intros pass; [done|]. cbn [foldl].
    destruct (handle_assignment_cases since_create_ms cm pass id)
      as [(tab & table & Hc & _)|[(tab & table & Hr & _)|(_ & _ & ->)]].
    - exfalso. eapply (proj1 (Hnone id tab table ltac:(set_solver))). done.
    - exfalso. eapply (proj2 (Hnone id tab table ltac:(set_solver))). done.
    - apply IH. intros. apply Hnone. set_solver. }
  unfold ProcessPendingAssignments, handle_assignments. rewrite Hpass. done.
Qed.

Lemma ProcessPendingAssignments_keeps_consistent `{Externals} `{Placement}
    since_create_ms ts_descs rng tablets cm s resp rpcs cm' :
  ProcessPendingAssignments since_create_ms ts_descs rng tablets cm
  = Returned s resp rpcs cm' ->
  NoDup tablets ->
  directory_consistent cm -> directory_consistent cm'.
Proof.
  intros Hret Hnd Hcons.
  pose proof Hcons as (Hids & Hnames1 & Hnames2 & Htablets & Hinj & Hunused).
  assert (fresh_tablets : forall i, (CatalogManager.oid_generator_ cm <= i)%nat ->
            CatalogManager.tablet_map_ cm !! oid_Next i = None).
  { intros i Hi. apply Hunused. done. }
  destruct (handle_assignments_spec since_create_ms cm Hinj fresh_tablets tablets Hnd)
    as (olds & Hcm0 & Hnew & Hadd & Holds_nd & Holds & Hupd & Hneeds & Hupd_nd & Hneeds_nd
        & Hcreate & Hrepl & Hdom).
  cbv zeta in *.
  unfold ProcessPendingAssignments in Hret. cbv zeta in Hret.
  set (pass := handle_assignments since_create_ms tablets cm) in *.
  set (deferred := assign_deferred pass) in *.
  rewrite Hcm0 in Hret.
  assert (Hframe : forall sc,
            directory_consistent
              (CatalogManager.set_sys_catalog sc
                 (CatalogManager.set_oid
                    (CatalogManager.oid_generator_ cm + length olds) cm))).
  { intros sc. eapply directory_consistent_frame; [| |exact Hcons]; [done|cbn; lia]. }
  assert (Hframe0 : directory_consistent
                      (CatalogManager.set_oid
                         (CatalogManager.oid_generator_ cm + length olds) cm)).
  { eapply directory_consistent_frame; [| |exact Hcons]; [done|cbn; lia]. }
  destruct (_ && _).
  { injection Hret as <- <- <- <-. done. }
  destruct (select_replicas_for_tablets _ _ _ _ _ _) as [[[[s1 dirty'] ts1] rng1]|];
    [|discriminate].
  destruct (negb (ok s1)).
  { injection Hret as <- <- <- <-. done. }
  destruct (SysCatalogTable.Write _ _) as [s2 sc].
  destruct (negb (ok s2)).
  { injection Hret as <- <- <- <-. apply Hframe. }
  injection Hret as <- <- <- <-.
  assert (Hnew_nd : NoDup (assign_new pass).*1).
  { apply NoDup_alt. intros i j x Hi Hj. rewrite list_lookup_fmap, Hnew, list_lookup_imap in Hi.
    rewrite list_lookup_fmap, Hnew, list_lookup_imap in Hj.
    destruct (olds !! i); [|done]. destruct (olds !! j); [|done]. cbn in Hi, Hj.
    injection Hi as <-. injection Hj as Hj. apply Hinj in Hj; lia. }
  assert (Hnew_elem : forall nid tbl, (nid, tbl) ∈ assign_new pass ->
            exists j, (j < length olds)%nat
                      /\ nid = oid_Next (CatalogManager.oid_generator_ cm + j)
                      /\ is_Some (CatalogManager.table_ids_map_ cm !! tbl)).
  { intros nid tbl Hin. apply list_elem_of_lookup in Hin as [j Hj].
    rewrite Hnew, list_lookup_imap in Hj.
    destruct (olds !! j) as [[[old tab] table]|] eqn:Ho; [|done]. cbn in Hj.
    injection Hj as <- <-. exists j. split; [eapply lookup_lt_Some; exact Ho|].
    split; [done|].
    pose proof (list_elem_of_lookup_2 _ _ _ Ho) as Hin. apply Holds in Hin as [_ [[_ Ht] _]].
    eauto. }
  set (rs := dirty_records dirty' (DeferredAssignmentActions.tablets_to_update deferred)).
  set (cm2 := CatalogManager.set_maps _ _ _ _).
  assert (Htables : forall tid,
            match CatalogManager.table_ids_map_ cm !! tid with
            | Some table =>
                exists table',
                  CatalogManager.table_ids_map_ (publish_replacements dirty' (assign_new pass) cm2)
                  !! tid = Some table'
                  /\ TableInfo.metadata_ table' = TableInfo.metadata_ table
                  /\ TableInfo.table_id_ table' = TableInfo.table_id_ table
            | None =>
                CatalogManager.table_ids_map_ (publish_replacements dirty' (assign_new pass) cm2)
                !! tid = None
            end).
  { intros tid. unfold publish_replacements.
    cbn [CatalogManager.table_ids_map_ CatalogManager.set_maps].
    match goal with
    | |- context [foldl ?f ?ids ?objs] =>
        pose proof (publish_tables
                      (foldl (fun m t => <[TabletInfo.tablet_id_ t := t]> m)
                         (CatalogManager.tablet_map_ cm2)
                         (omap (fun e => (fun pb => new_TabletInfo e.2 (e.1, pb))
                                           <$> dirty' !! e.1) (assign_new pass)))
                      (omap (fun e => (fun pb => new_TabletInfo e.2 (e.1, pb))
                                        <$> dirty' !! e.1) (assign_new pass))
                      (CatalogManager.table_ids_map_ cm2) tid) as Hpub
    end.
    cbv zeta in Hpub. subst cm2.
    cbn [CatalogManager.table_ids_map_ CatalogManager.set_maps CatalogManager.set_sys_catalog
         CatalogManager.set_oid] in *.
    destruct (CatalogManager.table_ids_map_ cm !! tid) as [table|]; [|exact Hpub].
    destruct Hpub as (table' & ? & ? & ? & _). exists table'. done. }
  assert (Htables' : forall tid table',
            CatalogManager.table_ids_map_ (publish_replacements dirty' (assign_new pass) cm2)
            !! tid = Some table' ->
            exists table, CatalogManager.table_ids_map_ cm !! tid = Some table
                          /\ TableInfo.metadata_ table' = TableInfo.metadata_ table
                          /\ TableInfo.table_id_ table' = TableInfo.table_id_ table).
  { intros tid table' Ht. specialize (Htables tid).
    destruct (CatalogManager.table_ids_map_ cm !! tid) as [table|]; [|congruence].
    destruct Htables as (table'' & Ht'' & ? & ?). exists table.
    assert (table'' = table') by congruence. subst table''. done. }
  split.
  { intros id table' Ht. destruct (Htables' id table' Ht) as (table & Ht0 & _ & ->).
    eapply Hids; eauto. }
  split.
  { intros id table' Ht Hdel. destruct (Htables' id table' Ht) as (table & Ht0 & Hm & _).
    rewrite Hm in *. apply Hnames1; done. }
  split.
  { intros name id Hname. destruct (Hnames2 name id Hname) as (table & Ht & Hn & Hdel).
    specialize (Htables id). rewrite Ht in Htables.
    destruct Htables as (table' & Ht' & Hm & _). exists table'. rewrite Hm. done. }
  split.
  { intros id tab Htab. rewrite publish_replacements_tablets in Htab by done.
    assert (Hsome : forall tid, is_Some (CatalogManager.table_ids_map_ cm !! tid) ->
              is_Some (CatalogManager.table_ids_map_
                         (publish_replacements dirty' (assign_new pass) cm2) !! tid)).
    { intros tid [table Ht]. specialize (Htables tid). rewrite Ht in Htables.
      destruct Htables as (table' & -> & _). eauto. }
    assert (Hold : CatalogManager.tablet_map_ cm2 !! id = Some tab ->
              TabletInfo.tablet_id_ tab = id
              /\ is_Some (CatalogManager.table_ids_map_
                            (publish_replacements dirty' (assign_new pass) cm2)
                          !! TabletInfo.table_ tab)).
    { subst cm2. cbn [CatalogManager.tablet_map_ CatalogManager.set_maps
                      CatalogManager.set_sys_catalog CatalogManager.set_oid].
      apply (commit_tablets_consistent rs (CatalogManager.tablet_map_ cm)
               (CatalogManager.table_ids_map_ cm)); done. }
    destruct (list_find (fun e => e.1 = id) (assign_new pass)) as [[j [nid tbl]]|] eqn:Hfind;
      [|auto].
    destruct (dirty' !! id) as [pb|]; [|auto].
    injection Htab as <-. cbn. split; [done|].
    apply list_find_Some in Hfind as (Hj & _ & _).
    destruct (Hnew_elem nid tbl (list_elem_of_lookup_2 _ _ _ Hj)) as (_ & _ & _ & Hs). auto. }
  split.
  { intros i j Hi Hj. unfold publish_replacements in Hi, Hj. subst cm2. cbn in Hi, Hj.
    apply Hinj; lia. }
  intros i Hi. unfold publish_replacements in Hi. subst cm2. cbn in Hi.
  set (cm2 := CatalogManager.set_maps _ _ _ _).
  split.
  { specialize (Htables (oid_Next i)).
    rewrite (proj1 (Hunused i ltac:(lia))) in Htables. exact Htables. }
  rewrite publish_replacements_tablets by done.
  rewrite list_find_not_new.
  2: { intros Hin. apply list_elem_of_fmap in Hin as ([nid tbl] & Heq & Hin). cbn in Heq.
       subst nid. destruct (Hnew_elem _ _ Hin) as (j & Hj & Heq & _).
       apply Hinj in Heq; lia. }
  subst cm2. cbn [CatalogManager.tablet_map_ CatalogManager.set_maps
                  CatalogManager.set_sys_catalog CatalogManager.set_oid].
  pose proof (commit_tablets_lookup rs (CatalogManager.tablet_map_ cm) (oid_Next i)) as Hl.
  destruct (commit_tablets rs (CatalogManager.tablet_map_ cm) !! oid_Next i); [|done].
  destruct Hl as (tab0 & Ht0 & _). rewrite fresh_tablets in Ht0 by lia. done.
Qed.

Lemma sample_created_consistent script :
  @directory_consistent sample_externals (sample_created (OK :: script)).
Proof.
  refine (@CreateTable_keeps_consistent sample_externals (sample_create (Some 3)) 3
            (sample_cm (OK :: script)) OK _ _ _ _ (sample_cm_consistent _)).
  vm_compute. reflexivity.
Qed.

Lemma sample_assigned_consistent : @directory_consistent sample_externals sample_assigned.
Proof.
  refine (@ProcessPendingAssignments_keeps_consistent sample_externals sample_placement
            (fun _ => 0) (sample_servers ["A"; "B"; "C"]) 0%nat ["#id"; "##id"]
            (sample_created [OK]) OK _ _ _ _ _ (sample_created_consistent [])).
  - vm_compute. reflexivity.
  - apply (bool_decide_unpack _). vm_compute. exact I.
Qed.

Lemma sample_pending_replicas since_create_ms cm :
  cm = sample_created [OK] \/ cm = sample_assigned ->
  forall id tab table, id ∈ ["#id"; "##id"] ->
    @to_create cm id tab table \/ @to_replace sample_placement since_create_ms cm id tab table ->
    (0 <= SysTablesEntryPB.num_replicas (TableInfo.metadata_ table)
       <= Z.of_nat (length (sample_servers ["A"; "B"; "C"]))
     /\ SysTablesEntryPB.num_replicas (TableInfo.metadata_ table) < 2 ^ 31)
    /\ TableInfo.tablet_map_ table
       !! partition_key_start (SysTabletsEntryPB.partition (TabletInfo.metadata_ tab))
       = Some id.
Proof.
  intros Hcm id tab table Hin Hp.
  assert (Hpending : pending_tablet cm id tab table).
  { destruct Hp as [[Hp _]|[Hp _]]; exact Hp. }
  clear Hp. destruct Hpending as [Htab Htable].
  apply elem_of_cons in Hin as [->|Hin];
    [|apply elem_of_cons in Hin as [->|Hin]; [|inversion Hin]];
    destruct Hcm as [-> | ->];
    vm_compute in Htab; injection Htab as <-;
    vm_compute in Htable; injection Htable as <-;
    (split; [cbn; lia|vm_compute; reflexivity]).
Qed.

(** X16. A pass of the assignment over distinct tablets of a consistent
    directory, with a random source that keeps its contract, live servers
    of distinct uuids, enough of them for each table concerned, and a write
    that succeeds, returns OK. Each PREPARING tablet of the list is then
    CREATING, with as many voters on distinct live servers as its table has
    replicas; the system catalog holds the record that was committed; and
    the create requests for the tablet are exactly one per peer of its
    config. *)
Theorem ProcessPendingAssignments_creates_preparing `{Externals} `{Placement}
    since_create_ms ts_descs rng tablets cm :
  sampler_contract ->
  directory_consistent cm ->
  NoDup (permanent_uuid_ <$> ts_descs) ->
  NoDup tablets ->
  (forall id tab table, id ∈ tablets ->
     to_create cm id tab table \/ to_replace since_create_ms cm id tab table ->
     0 <= SysTablesEntryPB.num_replicas (TableInfo.metadata_ table)
       <= Z.of_nat (length ts_descs)
     /\ SysTablesEntryPB.num_replicas (TableInfo.metadata_ table) < 2 ^ 31) ->
  ok (SysCatalogTable.next_outcome (CatalogManager.sys_catalog_ cm)) = true ->
  exists resp rpcs cm',
    ProcessPendingAssignments since_create_ms ts_descs rng tablets cm
    = Returned OK resp rpcs cm'
    /\ forall id tab table,
         id ∈ tablets -> to_create cm id tab table ->
         exists pb',
           CatalogManager.tablet_map_ cm' !! id = Some (TabletInfo.set_metadata pb' tab)
           /\ SysCatalogTable.tablets_ (CatalogManager.sys_catalog_ cm') !! id = Some pb'
           /\ SysTabletsEntryPB.state pb' = SysTabletsEntryPB.CREATING
           /\ replicas_placed (permanent_uuid_ <$> ts_descs)
                (SysTablesEntryPB.num_replicas (TableInfo.metadata_ table))
                (PersistentTabletInfo.set_state SysTabletsEntryPB.CREATING
                   "Sending initial creation of tablet" (TabletInfo.metadata_ tab)) pb'
           /\ (forall uuid,
                 (TabletInfo.tablet_id_ tab, uuid) ∈ create_tablet_requests resp
                 <-> exists p,
                       p ∈ RaftConfigPB.peers
                             (ConsensusStatePB.committed_config
                                (SysTabletsEntryPB.consensus_state pb'))
                       /\ uuid = RaftPeerPB.permanent_uuid p).
Proof.
  intros Hcontract Hcons Huuids Hnd Hreplicas Hwrite.
  destruct (ProcessPendingAssignments_assigns since_create_ms ts_descs rng tablets cm
              Hcontract Hcons Huuids Hnd Hreplicas Hwrite)
    as (olds & needs & upd & objects & resp & rpcs & cm' & Heq & Holds_nd & Holds & Hupd
        & Hneeds & Hoid & Hnames & Hcreated & Hreplaced & Hother & Hobjects & Hobj_nd
        & Htables & Hcreates & Hrpcs & Huuids').
  exists resp, rpcs, cm'. split; [exact Heq|].
  intros id tab table Hin Hc.
  destruct (Hcreated id tab table Hin Hc) as (pb' & Hl & Hp & Hs).
  exists pb'. split; [done|]. split; [done|].
  split. { destruct Hp as (-> & _). done. }
  split; [done|].
  destruct Hcons as (_ & _ & _ & Htablets & Hinj & Hunused).
  pose proof Hc as [[Htab _] _]. destruct (Htablets id tab Htab) as [Hid _].
  intros uuid. rewrite Hcreates, create_requests_elem. split.
  - intros (id' & tab' & p & Hin' & Hl' & Heq' & Hp' & ->).
    assert (id' = id); [|subst id'].
    { apply Hneeds in Hin' as [[Hin' (tab0 & table0 & Hc0)]|(j & Hj & ->)].
      - destruct (Hcreated id' tab0 table0 Hin' Hc0) as (pb0 & Hl0 & _).
        rewrite Hl0 in Hl'. injection Hl' as <-. cbn in Heq'.
        destruct Hc0 as [[Htab0 _] _]. destruct (Htablets id' tab0 Htab0) as [Hid0 _].
        congruence.
      - destruct (lookup_lt_is_Some_2 olds j Hj) as [[[old tab0] table0] Ho].
        destruct (Hreplaced j old tab0 table0 Ho) as (_ & _ & Hnone & pb0 & Hl0 & _).
        rewrite Hl0 in Hl'. injection Hl' as <-. cbn in Heq'.
        rewrite <- Heq', Hid in Hnone. congruence. }
    rewrite Hl in Hl'. injection Hl' as <-. cbn in Hp'. eauto.
  - intros (p & Hp' & ->). exists id, (TabletInfo.set_metadata pb' tab), p.
    split; [apply Hneeds; left; eauto|]. split; [done|]. split; [cbn; done|]. done.
Qed.

Lemma ProcessPendingAssignments_creates_preparing_witness :
  exists tab',
    CatalogManager.tablet_map_ sample_assigned !! "#id" = Some tab'
    /\ SysTabletsEntryPB.state (TabletInfo.metadata_ tab') = SysTabletsEntryPB.CREATING
    /\ SysCatalogTable.tablets_ (CatalogManager.sys_catalog_ sample_assigned) !! "#id"
       = Some (TabletInfo.metadata_ tab').
Proof.
  destruct (@ProcessPendingAssignments_creates_preparing sample_externals sample_placement
              (fun _ => 0) (sample_servers ["A"; "B"; "C"]) 0%nat ["#id"; "##id"]
              (sample_created [OK]))
    as (resp & rpcs & cm' & Heq & Hall).
  - exact sample_placement_contract.
  - apply sample_created_consistent.
  - apply (bool_decide_unpack _). vm_compute. exact I.
  - apply (bool_decide_unpack _). vm_compute. exact I.
  - intros id tab table Hin Hp.
    apply (sample_pending_replicas (fun _ => 0) _ (or_introl eq_refl) id tab table Hin Hp).
  - vm_compute. reflexivity.
  - assert (Hc : exists tab table, to_create (sample_created [OK]) "#id" tab table).
    { eexists _, _. split; [split|]; vm_compute; reflexivity. }
    destruct Hc as (tab & table & Hc).
    destruct (Hall "#id" tab table ltac:(constructor) Hc) as (pb' & Hl & Hrow & Hstate & _).
    exists (TabletInfo.set_metadata pb' tab). unfold sample_assigned. rewrite Heq.
    cbn [catalog_after]. split; [exact Hl|]. split; [exact Hstate|exact Hrow].
Defined.

(** X17. In such a pass each CREATING tablet of the list whose creation
    has timed out is replaced: it is REPLACED, with a message that names the
    replacement; a tablet with a new id, the same table and the same
    partition is CREATING, with replicas placed, in the tablet map and, in
    place of the old one, in the map of its table; the system catalog holds
    both records as committed; a create request goes to each peer of the
    replacement; and when a REPLACED record counts as deleted, a delete
    request goes to each peer the old tablet had. The old tablet is taken to
    be the tablet of its table at the start of its partition. *)
Theorem ProcessPendingAssignments_replaces_timed_out `{Externals} `{Placement}
    since_create_ms ts_descs rng tablets cm :
  sampler_contract ->
  directory_consistent cm ->
  NoDup (permanent_uuid_ <$> ts_descs) ->
  NoDup tablets ->
  (forall id tab table, id ∈ tablets ->
     to_create cm id tab table \/ to_replace since_create_ms cm id tab table ->
     0 <= SysTablesEntryPB.num_replicas (TableInfo.metadata_ table)
       <= Z.of_nat (length ts_descs)
     /\ SysTablesEntryPB.num_replicas (TableInfo.metadata_ table) < 2 ^ 31) ->
  (forall id tab table, id ∈ tablets ->
     to_replace since_create_ms cm id tab table ->
     TableInfo.tablet_map_ table
     !! partition_key_start (SysTabletsEntryPB.partition (TabletInfo.metadata_ tab))
     = Some id) ->
  ok (SysCatalogTable.next_outcome (CatalogManager.sys_catalog_ cm)) = true ->
  exists resp rpcs cm',
    ProcessPendingAssignments since_create_ms ts_descs rng tablets cm
    = Returned OK resp rpcs cm'
    /\ forall id tab table,
         id ∈ tablets -> to_replace since_create_ms cm id tab table ->
         exists replacement pb' table',
           let replaced :=
             PersistentTabletInfo.set_state SysTabletsEntryPB.REPLACED
               ("Replaced by " +:+ replacement +:+ " at " +:+ LocalTimeAsString)
               (TabletInfo.metadata_ tab) in
           CatalogManager.tablet_map_ cm !! replacement = None
           /\ CatalogManager.tablet_map_ cm' !! id
              = Some (TabletInfo.set_metadata replaced tab)
           /\ SysCatalogTable.tablets_ (CatalogManager.sys_catalog_ cm') !! id
              = Some replaced
           /\ CatalogManager.tablet_map_ cm' !! replacement
              = Some (new_TabletInfo (TabletInfo.table_ tab) (replacement, pb'))
           /\ SysCatalogTable.tablets_ (CatalogManager.sys_catalog_ cm') !! replacement
              = Some pb'
           /\ SysTabletsEntryPB.state pb' = SysTabletsEntryPB.CREATING
           /\ replicas_placed (permanent_uuid_ <$> ts_descs)
                (SysTablesEntryPB.num_replicas (TableInfo.metadata_ table))
                (PersistentTabletInfo.set_state SysTabletsEntryPB.CREATING
                   ("Replacement for " +:+ TabletInfo.tablet_id_ tab)
                   (CreateTabletInfo (TableInfo.table_id_ table)
                      (SysTabletsEntryPB.partition (TabletInfo.metadata_ tab)))) pb'
           /\ CatalogManager.table_ids_map_ cm' !! TabletInfo.table_ tab = Some table'
           /\ TableInfo.metadata_ table' = TableInfo.metadata_ table
           /\ TableInfo.tablet_map_ table'
              !! partition_key_start (SysTabletsEntryPB.partition (TabletInfo.metadata_ tab))
              = Some replacement
           /\ (forall p,
                 p ∈ RaftConfigPB.peers
                       (ConsensusStatePB.committed_config
                          (SysTabletsEntryPB.consensus_state pb')) ->
                 (replacement, RaftPeerPB.permanent_uuid p) ∈ create_tablet_requests resp)
           /\ (tablet_is_deleted replaced = true ->
               forall r, r ∈ SendDeleteTabletRequest (TabletInfo.set_metadata replaced tab) ->
                         r ∈ rpcs).
Proof.
  intros Hcontract Hcons Huuids Hnd Hreplicas Hreach Hwrite.
  destruct (ProcessPendingAssignments_assigns since_create_ms ts_descs rng tablets cm
              Hcontract Hcons Huuids Hnd Hreplicas Hwrite)
    as (olds & needs & upd & objects & resp & rpcs & cm' & Heq & Holds_nd & Holds & Hupd
        & Hneeds & Hoid & Hnames & Hcreated & Hreplaced & Hother & Hobjects & Hobj_nd
        & Htables & Hcreates & Hrpcs & Huuids').
  exists resp, rpcs, cm'. split; [exact Heq|].
  intros id tab table Hin Hr.
  assert (Ho : (id, tab, table) ∈ olds) by (apply Holds; done).
  apply list_elem_of_lookup in Ho as [j Hj].
  destruct (Hreplaced j id tab table Hj)
    as (Hl & Hrow & Hnone & pb' & Hl' & Hobj & Hp & Hrow').
  pose proof Hr as [[Htab Htable] _].
  specialize (Htables (TabletInfo.table_ tab)). rewrite Htable in Htables.
  destruct Htables as (table' & Htable' & Hmeta & _ & Hmap).
  exists (oid_Next (CatalogManager.oid_generator_ cm + j)), pb', table'. cbv zeta.
  split; [done|]. split; [done|]. split; [done|]. split; [done|]. split; [done|].
  split. { destruct Hp as (-> & _). done. }
  split; [done|]. split; [done|]. split; [done|].
  split.
  { rewrite Hmap.
    set (x := new_TabletInfo (TabletInfo.table_ tab)
                (oid_Next (CatalogManager.oid_generator_ cm + j), pb')) in *.
    assert (Hkey : partition_key_start (SysTabletsEntryPB.partition (TabletInfo.metadata_ x))
                   = partition_key_start
                       (SysTabletsEntryPB.partition (TabletInfo.metadata_ tab))).
    { cbn. destruct Hp as (_ & _ & -> & _). done. }
    rewrite <- Hkey.
    apply (foldl_insert_lookup
             (fun t => partition_key_start
                         (SysTabletsEntryPB.partition (TabletInfo.metadata_ t)))
             TabletInfo.tablet_id_).
    2: { apply list_elem_of_filter. done. }
    apply NoDup_fmap_2_strong.
    2: { apply NoDup_filter. eapply NoDup_fmap_1. exact Hobj_nd. }
    intros y z Hy Hz Hyz.
    apply list_elem_of_filter in Hy as [Hty Hy]. apply list_elem_of_filter in Hz as [Htz Hz].
    apply (NoDup_fmap_elem_inj TabletInfo.tablet_id_ objects); [done|done|done|].
    destruct (Hobjects y Hy) as (j1 & id1 & tab1 & table1 & Ho1 & Hy1 & Hy2 & Hy3).
    destruct (Hobjects z Hz) as (j2 & id2 & tab2 & table2 & Ho2 & Hz1 & Hz2 & Hz3).
    pose proof (list_elem_of_lookup_2 _ _ _ Ho1) as Hin1. apply Holds in Hin1 as [Hin1 Hr1].
    pose proof (list_elem_of_lookup_2 _ _ _ Ho2) as Hin2. apply Holds in Hin2 as [Hin2 Hr2].
    pose proof (Hreach id1 tab1 table1 Hin1 Hr1) as Hreach1.
    pose proof (Hreach id2 tab2 table2 Hin2 Hr2) as Hreach2.
    destruct Hr1 as [[_ Ht1] _]. destruct Hr2 as [[_ Ht2] _].
    assert (table1 = table2) by congruence. subst table2.
    assert (id1 = id2) by congruence. subst id2.
    assert (j1 = j2).
    { eapply NoDup_lookup; [exact Holds_nd| |]; rewrite list_lookup_fmap.
      - rewrite Ho1. reflexivity.
      - rewrite Ho2. reflexivity. }
    congruence. }
  split.
  { intros p Hp'. rewrite Hcreates. apply create_requests_elem.
    eexists _, _, p. split; [|split; [exact Hl'|split; [done|done]]].
    apply Hneeds. right. exists j. split; [|done]. eapply lookup_lt_Some; exact Hj. }
  intros Hdel r Hrin. rewrite Hrpcs. apply list_elem_of_bind.
  eexists. split; [|apply resolve_tablets_elem; exists id; split; [|exact Hl]].
  - cbn [TabletInfo.metadata_ TabletInfo.set_metadata]. rewrite Hdel. exact Hrin.
  - apply Hupd. eauto.
Qed.

Lemma ProcessPendingAssignments_replaces_timed_out_witness :
  exists resp rpcs cm' replacement tab',
    @ProcessPendingAssignments sample_externals sample_placement (fun _ => 30000)
      (sample_servers ["A"; "B"; "C"]) 0%nat ["#id"; "##id"] sample_assigned
    = Returned OK resp rpcs cm'
    /\ CatalogManager.tablet_map_ sample_assigned !! replacement = None
    /\ CatalogManager.tablet_map_ cm' !! replacement = Some tab'
    /\ SysTabletsEntryPB.state (TabletInfo.metadata_ tab') = SysTabletsEntryPB.CREATING
    /\ (CatalogManager.tablet_map_ cm' !! "#id"
        ≫= fun tab => Some (SysTabletsEntryPB.state (TabletInfo.metadata_ tab)))
       = Some SysTabletsEntryPB.REPLACED.
Proof.
  destruct (@ProcessPendingAssignments_replaces_timed_out sample_externals sample_placement
              (fun _ => 30000) (sample_servers ["A"; "B"; "C"]) 0%nat ["#id"; "##id"]
              sample_assigned)
    as (resp & rpcs & cm' & Heq & Hall).
  - exact sample_placement_contract.
  - exact sample_assigned_consistent.
  - apply (bool_decide_unpack _). vm_compute. exact I.
  - apply (bool_decide_unpack _). vm_compute. exact I.
  - intros id tab table Hin Hp.
    apply (sample_pending_replicas (fun _ => 30000) _ (or_intror eq_refl) id tab table Hin Hp).
  - intros id tab table Hin Hp.
    apply (sample_pending_replicas (fun _ => 30000) _ (or_intror eq_refl) id tab table Hin
             (or_intror Hp)).
  - vm_compute. reflexivity.
  - assert (Hr : exists tab table,
               @to_replace sample_placement (fun _ => 30000) sample_assigned "#id" tab table).
    { eexists _, _. split; [split|split]; vm_compute; try reflexivity. discriminate. }
    destruct Hr as (tab & table & Hr).
    destruct (Hall "#id" tab table ltac:(constructor) Hr)
      as (replacement & pb' & table' & Hnone & Hold & _ & Hnew & _ & Hstate & _).
    exists resp, rpcs, cm', replacement,
      (new_TabletInfo (TabletInfo.table_ tab) (replacement, pb')).
    split; [exact Heq|]. split; [exact Hnone|]. split; [exact Hnew|].
    split; [exact Hstate|]. rewrite Hold. reflexivity.
Defined.

(** X18. After such a pass a second pass does nothing, whatever the
    servers and the random source, as long as no creation has timed out and
    every PREPARING tablet it is given was in the first pass: it returns OK
    without a write, a request or a change of the catalog. *)
Theorem ProcessPendingAssignments_second_pass_idle `{Externals} `{Placement}
    since_create_ms ts_descs rng tablets cm since_create_ms2 ts_descs2 rng2 tablets2 :
  sampler_contract ->
  directory_consistent cm ->
  NoDup (permanent_uuid_ <$> ts_descs) ->
  NoDup tablets ->
  (forall id tab table, id ∈ tablets ->
     to_create cm id tab table \/ to_replace since_create_ms cm id tab table ->
     0 <= SysTablesEntryPB.num_replicas (TableInfo.metadata_ table)
       <= Z.of_nat (length ts_descs)
     /\ SysTablesEntryPB.num_replicas (TableInfo.metadata_ table) < 2 ^ 31) ->
  ok (SysCatalogTable.next_outcome (CatalogManager.sys_catalog_ cm)) = true ->
  (forall id tab, id ∈ tablets2 -> CatalogManager.tablet_map_ cm !! id = Some tab ->
     SysTabletsEntryPB.state (TabletInfo.metadata_ tab) = SysTabletsEntryPB.PREPARING ->
     id ∈ tablets) ->
  (forall id, id ∈ tablets2 -> since_create_ms2 id < FLAGS_tablet_creation_timeout_ms) ->
  exists resp rpcs cm',
    ProcessPendingAssignments since_create_ms ts_descs rng tablets cm
    = Returned OK resp rpcs cm'
    /\ ProcessPendingAssignments since_create_ms2 ts_descs2 rng2 tablets2 cm'
       = Returned OK {| create_tablet_requests := []; ts_descs_after := ts_descs2 |} [] cm'.
Proof.
  intros Hcontract Hcons Huuids Hnd Hreplicas Hwrite Hlisted Htimers.
  destruct (ProcessPendingAssignments_assigns since_create_ms ts_descs rng tablets cm
              Hcontract Hcons Huuids Hnd Hreplicas Hwrite)
    as (olds & needs & upd & objects & resp & rpcs & cm' & Heq & Holds_nd & Holds & Hupd
        & Hneeds & Hoid & Hnames & Hcreated & Hreplaced & Hother & Hobjects & Hobj_nd
        & Htables & Hcreates & Hrpcs & Huuids').
  exists resp, rpcs, cm'. split; [exact Heq|].
  apply ProcessPendingAssignments_nothing_pending.
  intros id tab' table' Hin. split.
  2: { intros (_ & _ & Htimeout). specialize (Htimers id Hin). lia. }
  intros [[Htab' _] Hstate].
  destruct Hcons as (_ & _ & _ & Htablets & Hinj & Hunused).
  destruct (decide (id ∈ upd)) as [Hin_upd|Hnot_upd].
  { apply Hupd in Hin_upd as [Hin_t (tab & table & [Hc|Hr])].
    - destruct (Hcreated id tab table Hin_t Hc) as (pb' & Hl & Hp & _).
      rewrite Hl in Htab'. injection Htab' as <-. cbn in Hstate.
      destruct Hp as (Hs & _). rewrite Hs in Hstate. discriminate Hstate.
    - assert (Ho : (id, tab, table) ∈ olds) by (apply Holds; done).
      apply list_elem_of_lookup in Ho as [j Hj].
      destruct (Hreplaced j id tab table Hj) as (Hl & _).
      rewrite Hl in Htab'. injection Htab' as <-. discriminate Hstate. }
  destruct (decide (id ∈ needs)) as [Hin_needs|Hnot_needs].
  { apply Hneeds in Hin_needs as [[Hin_t (tab & table & Hc)]|(j & Hj & ->)].
    { exfalso. apply Hnot_upd. apply Hupd. eauto. }
    destruct (lookup_lt_is_Some_2 olds j Hj) as [[[old tab] table] Ho].
    destruct (Hreplaced j old tab table Ho) as (_ & _ & _ & pb' & Hl & _ & Hp & _).
    rewrite Hl in Htab'. injection Htab' as <-. cbn in Hstate.
    destruct Hp as (Hs & _). rewrite Hs in Hstate. discriminate Hstate. }
  rewrite Hother in Htab' by (try done; intros j Hj ->; apply Hnot_needs, Hneeds; eauto).
  apply Hnot_upd. apply Hupd.
  pose proof (Hlisted id tab' Hin Htab' Hstate) as Hin_t. split; [done|].
  destruct (Htablets id tab' Htab') as [_ [table Htable]].
  exists tab', table. left. done.
Qed.

Lemma ProcessPendingAssignments_second_pass_idle_witness :
  @ProcessPendingAssignments sample_externals sample_placement (fun _ => 1)
    (sample_servers ["A"; "B"]) 7%nat ["#id"; "##id"] sample_assigned
  = Returned OK {| create_tablet_requests := [];
                   ts_descs_after := sample_servers ["A"; "B"] |} [] sample_assigned.
Proof.
  destruct (@ProcessPendingAssignments_second_pass_idle sample_externals sample_placement
              (fun _ => 0) (sample_servers ["A"; "B"; "C"]) 0%nat ["#id"; "##id"]
              (sample_created [OK]) (fun _ => 1) (sample_servers ["A"; "B"]) 7%nat
              ["#id"; "##id"])
    as (resp & rpcs & cm' & Heq & Hidle).
  - exact sample_placement_contract.
  - apply sample_created_consistent.
  - apply (bool_decide_unpack _). vm_compute. exact I.
  - apply (bool_decide_unpack _). vm_compute. exact I.
  - intros id tab table Hin Hp.
    apply (sample_pending_replicas (fun _ => 0) _ (or_introl eq_refl) id tab table Hin Hp).
  - vm_compute. reflexivity.
  - intros id tab Hin _ _. exact Hin.
  - intros id _. cbn. lia.
  - unfold sample_assigned. rewrite Heq. cbn [catalog_after]. exact Hidle.
Defined.

(** X19. ProcessPendingAssignments keeps the directory consistent: a pass
    over distinct tablets of a consistent directory leaves, on every
    return, a consistent directory. *)
Theorem ProcessPendingAssignments_keeps_directory_consistent `{Externals} `{Placement}
    since_create_ms ts_descs rng tablets cm s resp rpcs cm' :
  ProcessPendingAssignments since_create_ms ts_descs rng tablets cm
  = Returned s resp rpcs cm' ->
  NoDup tablets ->
  directory_consistent cm -> directory_consistent cm'.
Proof. apply ProcessPendingAssignments_keeps_consistent. Qed.

Lemma ProcessPendingAssignments_keeps_directory_consistent_witness :
  @directory_consistent sample_externals
    (catalog_after
       (@ProcessPendingAssignments sample_externals sample_placement (fun _ => 30000)
          (sample_servers ["A"; "B"; "C"]) 0%nat ["#id"; "##id"] sample_assigned)).
Proof.
  refine (@ProcessPendingAssignments_keeps_directory_consistent sample_externals
            sample_placement (fun _ => 30000) (sample_servers ["A"; "B"; "C"]) 0%nat
            ["#id"; "##id"] sample_assigned OK _ _ _ _ _ sample_assigned_consistent).
  - vm_compute. reflexivity.
  - apply (bool_decide_unpack _). vm_compute. exact I.
Defined.

Lemma NoDup_fmap_omap {A B C : Type} (f : A -> option B) (h : B -> C) (l : list A) :
  NoDup l ->
  (forall x y b b', x ∈ l -> y ∈ l -> f x = Some b -> f y = Some b' -> h b = h b' -> x = y) ->
  NoDup (h <$> omap f l).
Proof.
  induction l as [|x l IH]; intros Hnd Hinj; [constructor|].
  apply NoDup_cons in Hnd as [Hx Hnd]. cbn.
  assert (IH' : NoDup (h <$> omap f l)).
  { apply IH; [done|]. intros y z b b' Hy Hz. apply Hinj; set_solver. }
  destruct (f x) as [b|] eqn:Hfx; [|done]. cbn. apply NoDup_cons. split; [|done].
  intros Hin. apply list_elem_of_fmap in Hin as (b' & Heq & Hin).
  apply list_elem_of_omap in Hin as (y & Hy & Hfy).
  assert (x = y) by (eapply Hinj; eauto; set_solver). subst y. done.
Qed.

(** X20. In a consistent directory ListTables lists, when the catalog
    manager is running, exactly the tables of the by-name map that are
    running and whose name holds the filter, if there is one: each once,
    under the name by which FindAndLockTable finds it and with its id. When
    the catalog manager is not running it returns ServiceUnavailable and
    lists nothing. *)
Theorem ListTables_lists_running_tables `{Externals} req cm :
  directory_consistent cm ->
  exists tables,
    ListTables req cm
    = Returned (if bool_decide (CatalogManager.state_ cm = CatalogManager.kRunning)
                then OK else ServiceUnavailable) tables [] cm
    /\ NoDup tables.*1 /\ NoDup tables.*2
    /\ forall id name,
         (id, name) ∈ tables
         <-> CatalogManager.state_ cm = CatalogManager.kRunning
             /\ CatalogManager.table_names_map_ cm !! name = Some id
             /\ (exists table,
                   FindAndLockTable {| ident_table_id := None; ident_table_name := Some name |}
                     cm = (OK, Some table)
                   /\ TableInfo.table_id_ table = id
                   /\ table_is_running (TableInfo.metadata_ table) = true)
             /\ (forall filter, name_filter req = Some filter ->
                   is_Some (String.index 0 filter name)).
Proof.
  intros (Hids & Hnames1 & Hnames2 & _).
  unfold ListTables. unfold CheckOnline at 1 2.
  case_bool_decide as Hstate; cbn.
  2: { exists []. split; [done|]. split; [constructor|]. split; [constructor|].
       intros id name. split; [intros Hin; inversion Hin|]. intros [? _]. done. }
  eexists. split; [reflexivity|].
  set (f := fun entry : string * string => _).
  assert (Hf : forall entry id name, entry ∈ map_to_list (CatalogManager.table_names_map_ cm) ->
            f entry = Some (id, name) ->
            entry = (name, id)
            /\ exists table, CatalogManager.table_ids_map_ cm !! id = Some table
                 /\ SysTablesEntryPB.name (TableInfo.metadata_ table) = name
                 /\ TableInfo.table_id_ table = id
                 /\ table_is_running (TableInfo.metadata_ table) = true
                 /\ (forall filter, name_filter req = Some filter ->
                       is_Some (String.index 0 filter name))).
  { intros [n tid] id name Hin Hfe. apply elem_of_map_to_list in Hin.
    destruct (Hnames2 n tid Hin) as (table & Ht & Hn & Hdel).
    unfold f in Hfe. cbn in Hfe. rewrite Ht in Hfe. cbn in Hfe.
    destruct (table_is_running (TableInfo.metadata_ table)) eqn:Hrun; [|done]. cbn in Hfe.
    pose proof (Hids tid table Ht) as Hid.
    destruct (name_filter req) as [filter|] eqn:Hfilter.
    - destruct (String.index 0 filter (SysTablesEntryPB.name (TableInfo.metadata_ table)))
        eqn:Hidx; [|done].
      injection Hfe as <- <-. split; [congruence|]. exists table.
      rewrite Hid. split; [done|]. split; [done|]. split; [done|]. split; [done|].
      intros filter' [= <-]. rewrite Hidx. eauto.
    - injection Hfe as <- <-. split; [congruence|]. exists table.
      rewrite Hid. split; [done|]. split; [done|]. split; [done|]. split; [done|]. done. }
  split.
  { apply NoDup_fmap_omap; [apply NoDup_map_to_list|].
    intros x y [id1 n1] [id2 n2] Hx Hy Hfx Hfy Heq. cbn in Heq. subst id2.
    destruct (Hf x id1 n1 Hx Hfx) as (-> & table1 & Ht1 & Hn1 & _).
    destruct (Hf y id1 n2 Hy Hfy) as (-> & table2 & Ht2 & Hn2 & _).
    congruence. }
  split.
  { apply NoDup_fmap_omap; [apply NoDup_map_to_list|].
    intros x y [id1 n1] [id2 n2] Hx Hy Hfx Hfy Heq. cbn in Heq. subst n2.
    destruct (Hf x id1 n1 Hx Hfx) as (-> & _).
    destruct (Hf y id2 n1 Hy Hfy) as (-> & _).
    apply elem_of_map_to_list in Hx, Hy. congruence. }
  intros id name. rewrite list_elem_of_omap. split.
  - intros (entry & Hin & Hfe).
    destruct (Hf entry id name Hin Hfe) as (-> & table & Ht & Hn & Hid & Hrun & Hfilter).
    apply elem_of_map_to_list in Hin.
    split; [done|]. split; [done|]. split; [|done].
    exists table. split; [|done].
    unfold FindAndLockTable. cbn. rewrite Hin. cbn. rewrite Ht. cbn. rewrite Ht.
    rewrite bool_decide_eq_false_2 by (intros Hne; apply Hne; congruence). done.
  - intros (_ & Hname & (table & Hfind & Hid & Hrun) & Hfilter).
    exists (name, id). split; [apply elem_of_map_to_list; done|].
    destruct (Hnames2 name id Hname) as (table0 & Ht0 & Hn0 & _).
    assert (table = table0); [|subst table0].
    { unfold FindAndLockTable in Hfind. cbn in Hfind. rewrite Hname in Hfind. cbn in Hfind.
      rewrite Ht0 in Hfind. cbn in Hfind. rewrite Ht0 in Hfind.
      destruct (bool_decide _) in Hfind; congruence. }
    unfold f. cbn. rewrite Ht0. cbn. rewrite Hrun. cbn.
    destruct (name_filter req) as [filter|] eqn:Hfl.
    + destruct (Hfilter filter eq_refl) as [k Hk]. rewrite Hn0, Hk. congruence.
    + congruence.
Qed.

Lemma ListTables_lists_running_tables_witness :
  exists tables,
    outcome_response
      (@ListTables sample_externals {| name_filter := Some "t" |} (sample_created [OK]))
    = Some tables
    /\ NoDup tables.*2.
Proof.
  destruct (@ListTables_lists_running_tables sample_externals {| name_filter := Some "t" |}
              (sample_created [OK]) (sample_created_consistent []))
    as (tables & Heq & _ & Hnd & _).
  exists tables. rewrite Heq. split; [reflexivity|exact Hnd].
Defined.

(** ** Reload of the directory *)

Lemma foldl_insert_filter {K : Type} `{Countable K} {A V : Type} (key : A -> K)
    (val : A -> V) (skip : A -> bool) (l : list A) (m : gmap K V) :
  foldl (fun acc x => if skip x then acc else <[key x := val x]> acc) m l
  = foldl (fun acc x => <[key x := val x]> acc) m (List.filter (fun x => negb (skip x)) l).
Proof.
  revert m. induction l as [|x l IH]; intros m; [done|]. cbn.
  destruct (skip x); cbn; apply IH.
Qed.

Lemma VisitTables_fold rows :
  NoDup rows.*1 ->
  forall cm,
  (forall r, r ∈ rows -> CatalogManager.table_ids_map_ cm !! r.1 = None) ->
  exists cm1,
    foldl (fun acc (row : string * SysTablesEntryPB.t) => acc ≫= VisitTable row.1 row.2)
      (Some cm) rows = Some cm1
    /\ CatalogManager.table_ids_map_ cm1
       = foldl (fun m (r : string * SysTablesEntryPB.t) =>
                  <[r.1 := {| TableInfo.table_id_ := r.1; TableInfo.metadata_ := r.2;
                              TableInfo.tablet_map_ := ∅;
                              TableInfo.schema_version_counts_ := ∅ |}]> m)
           (CatalogManager.table_ids_map_ cm) rows
    /\ CatalogManager.table_names_map_ cm1
       = foldl (fun m (r : string * SysTablesEntryPB.t) =>
                  if PersistentTableInfo.is_deleted r.2 then m
                  else <[SysTablesEntryPB.name r.2 := r.1]> m)
           (CatalogManager.table_names_map_ cm) rows
    /\ CatalogManager.tablet_map_ cm1 = CatalogManager.tablet_map_ cm
    /\ CatalogManager.sys_catalog_ cm1 = CatalogManager.sys_catalog_ cm
    /\ CatalogManager.oid_generator_ cm1 = CatalogManager.oid_generator_ cm
    /\ CatalogManager.state_ cm1 = CatalogManager.state_ cm
    /\ CatalogManager.reserved_table_names_ cm1 = CatalogManager.reserved_table_names_ cm.
Proof.
  induction rows as [|r rows IH]; intros Hnd cm Hfree.
  { exists cm. cbn. done. }
  rewrite fmap_cons in Hnd. apply NoDup_cons in Hnd as [Hr Hnd].
  cbn [foldl mbind option_bind]. unfold VisitTable at 2.
  rewrite (Hfree r) by set_solver.
  rewrite bool_decide_eq_false_2 by (intros [? ?]; done).
  match goal with |- context [foldl _ (Some ?c) rows] => destruct (IH Hnd c) as (cm1 & Heq & Hids & Hnames & Htab & Hsc & Hoid & Hst & Hres) end.
  { intros r' Hr'. cbn. rewrite lookup_insert_ne; [apply Hfree; set_solver|].
    intros Heq. apply Hr. rewrite Heq. apply list_elem_of_fmap. eauto. }
  exists cm1. split; [exact Heq|]. cbn in *.
  split; [done|]. split; [|done].
  rewrite Hnames. destruct (PersistentTableInfo.is_deleted r.2); done.
Qed.

Section loaders.
Context `{Externals}.

Lemma visit_tablets_stuck rows s cm :
  s <> OK -> foldl visit_tablet_row (s, cm) rows = (s, cm).
Proof.
  intros Hs. induction rows as [|r rows IH]; [done|]. cbn [foldl].
  unfold visit_tablet_row at 2. cbn [fst]. unfold ok.
  rewrite bool_decide_eq_false_2 by done. cbn. exact IH.
Qed.

Lemma VisitTablets_fold rows :
  forall cm,
  exists processed,
    processed `prefix_of` rows
    /\ (foldl visit_tablet_row (OK, cm) rows).1
       = (if decide (processed = rows) then OK else Corruption)
    /\ (processed <> rows ->
        exists r, rows !! length processed = Some r
                  /\ CatalogManager.table_ids_map_ cm !! SysTabletsEntryPB.table_id r.2 = None)
    /\ (forall r, r ∈ processed ->
          is_Some (CatalogManager.table_ids_map_ cm !! SysTabletsEntryPB.table_id r.2))
    /\ let cm2 := (foldl visit_tablet_row (OK, cm) rows).2 in
       CatalogManager.tablet_map_ cm2
       = foldl (fun m (r : string * SysTabletsEntryPB.t) =>
                  <[r.1 := {| TabletInfo.tablet_id_ := r.1;
                              TabletInfo.table_ := SysTabletsEntryPB.table_id r.2;
                              TabletInfo.metadata_ := r.2;
                              TabletInfo.reported_schema_version_ := NOT_YET_REPORTED |}]> m)
           (CatalogManager.tablet_map_ cm) processed
       /\ CatalogManager.table_names_map_ cm2 = CatalogManager.table_names_map_ cm
       /\ CatalogManager.sys_catalog_ cm2 = CatalogManager.sys_catalog_ cm
       /\ CatalogManager.oid_generator_ cm2 = CatalogManager.oid_generator_ cm
       /\ CatalogManager.state_ cm2 = CatalogManager.state_ cm
       /\ CatalogManager.reserved_table_names_ cm2 = CatalogManager.reserved_table_names_ cm
       /\ forall tid,
            match CatalogManager.table_ids_map_ cm !! tid with
            | Some table =>
                exists table',
                  CatalogManager.table_ids_map_ cm2 !! tid = Some table'
                  /\ TableInfo.metadata_ table' = TableInfo.metadata_ table
                  /\ TableInfo.table_id_ table' = TableInfo.table_id_ table
                  /\ TableInfo.tablet_map_ table'
                     = foldl (fun m (r : string * SysTabletsEntryPB.t) =>
                                <[partition_key_start (SysTabletsEntryPB.partition r.2)
                                  := r.1]> m)
                         (TableInfo.tablet_map_ table)
                         (List.filter
                            (fun r : string * SysTabletsEntryPB.t =>
                               bool_decide (SysTabletsEntryPB.table_id r.2 = tid)
                               && negb (tablet_is_deleted r.2)) processed)
            | None => CatalogManager.table_ids_map_ cm2 !! tid = None
            end.
Proof.
  induction rows as [|r rows IH]; intros cm.
  { exists []. cbn. split; [done|]. split; [done|]. split; [done|].
    split; [intros ? Hin; inversion Hin|].
    split; [done|]. split; [done|]. split; [done|]. split; [done|]. split; [done|].
    split; [done|]. intros tid. destruct (_ !! tid); eauto. }
  cbn [foldl].
  assert (Hstep : visit_tablet_row (OK, cm) r
                  = VisitTablet (SysTabletsEntryPB.table_id r.2) r.1 r.2 cm) by done.
  rewrite Hstep. clear Hstep. unfold VisitTablet.
  destruct (CatalogManager.table_ids_map_ cm !! SysTabletsEntryPB.table_id r.2)
    as [table|] eqn:Htable.
  2: { rewrite visit_tablets_stuck by done. exists []. cbn.
       split; [apply prefix_nil|]. split; [done|].
       split; [intros _; exists r; done|].
       split; [intros ? Hin; inversion Hin|].
       split; [done|]. split; [done|]. split; [done|]. split; [done|]. split; [done|].
       split; [done|]. intros tid. destruct (_ !! tid); eauto. }
  cbv zeta.
  set (tablet := {| TabletInfo.tablet_id_ := r.1;
                    TabletInfo.table_ := SysTabletsEntryPB.table_id r.2;
                    TabletInfo.metadata_ := r.2;
                    TabletInfo.reported_schema_version_ := NOT_YET_REPORTED |}).
  set (tablet_map := <[r.1 := tablet]> (CatalogManager.tablet_map_ cm)).
  destruct (AddRemoveTablets_add_only tablet_map [tablet] table) as [counts Hadd].
  cbn [foldl] in Hadd.
  set (ids := if tablet_is_deleted r.2 then _ else _).
  set (cm' := CatalogManager.set_maps ids _ tablet_map cm).
  assert (Hids : forall tid,
            match CatalogManager.table_ids_map_ cm !! tid with
            | Some t =>
                exists t', ids !! tid = Some t'
                  /\ TableInfo.metadata_ t' = TableInfo.metadata_ t
                  /\ TableInfo.table_id_ t' = TableInfo.table_id_ t
                  /\ TableInfo.tablet_map_ t'
                     = if bool_decide (SysTabletsEntryPB.table_id r.2 = tid)
                          && negb (tablet_is_deleted r.2)
                       then <[partition_key_start (SysTabletsEntryPB.partition r.2) := r.1]>
                              (TableInfo.tablet_map_ t)
                       else TableInfo.tablet_map_ t
            | None => ids !! tid = None
            end).
  { intros tid. subst ids. destruct (tablet_is_deleted r.2); cbn [negb].
    { rewrite andb_false_r. destruct (_ !! tid); eauto. }
    rewrite Hadd, andb_true_r. case_bool_decide as Htid.
    - subst tid. rewrite Htable, lookup_insert_eq. eexists. split; [done|]. done.
    - rewrite lookup_insert_ne by done. destruct (_ !! tid); eauto. }
  destruct (IH cm') as (processed & Hpre & Hs & Hfail & Hall & Htm & Hnm & Hsc & Hoid & Hst
                        & Hres & Htables).
  exists (r :: processed).
  split; [apply prefix_cons; done|].
  split. { rewrite Hs. destruct (decide (processed = rows)) as [->|Hne].
           - rewrite decide_True; done.
           - rewrite decide_False; [done|]. congruence. }
  split. { intros Hne. destruct Hfail as (r' & Hr' & Hnone); [congruence|].
           exists r'. split; [done|]. specialize (Hids (SysTabletsEntryPB.table_id r'.2)).
           destruct (CatalogManager.table_ids_map_ cm !! SysTabletsEntryPB.table_id r'.2);
             [|done].
           destruct Hids as (t' & Ht' & _). cbn in Hnone. congruence. }
  split. { intros r' Hin. apply elem_of_cons in Hin as [->|Hin]; [eauto|].
           specialize (Hall r' Hin). specialize (Hids (SysTabletsEntryPB.table_id r'.2)).
           destruct (CatalogManager.table_ids_map_ cm !! SysTabletsEntryPB.table_id r'.2);
             [eauto|].
           cbn in Hall. rewrite Hids in Hall. destruct Hall; done. }
  cbv zeta in *. split; [rewrite Htm; done|]. split; [done|]. split; [done|].
  split; [done|]. split; [done|]. split; [done|].
  intros tid. specialize (Hids tid). specialize (Htables tid).
  destruct (CatalogManager.table_ids_map_ cm !! tid) as [t|].
  - destruct Hids as (t1 & Ht1 & Hm1 & Hi1 & Hmap1). cbn in Htables. rewrite Ht1 in Htables.
    destruct Htables as (t' & Ht' & Hm' & Hi' & Hmap'). exists t'.
    split; [done|]. split; [congruence|]. split; [congruence|].
    rewrite Hmap', Hmap1. cbn [List.filter].
    destruct (bool_decide (SysTabletsEntryPB.table_id r.2 = tid)
              && negb (tablet_is_deleted r.2)); done.
  - cbn in Htables. rewrite Hids in Htables. done.
Qed.
End loaders.

Lemma foldl_insert_lookup_unique {K : Type} `{Countable K} {A V : Type} (key : A -> K)
    (val : A -> V) (l : list A) (m : gmap K V) (x : A) :
  x ∈ l -> (forall y, y ∈ l -> key y = key x -> val y = val x) ->
  foldl (fun acc x => <[key x := val x]> acc) m l !! key x = Some (val x).
Proof.
  induction l as [|y l IH] using rev_ind; intros Hin Huniq; [inversion Hin|].
  rewrite foldl_snoc. destruct (decide (key y = key x)) as [Heq|Hne].
  - rewrite Heq, lookup_insert_eq. f_equal. apply Huniq; [set_solver|done].
  - rewrite lookup_insert_ne by done. apply IH.
    + apply elem_of_app in Hin as [Hin|Hin]; [done|].
      apply list_elem_of_singleton in Hin. congruence.
    + intros z Hz. apply Huniq. set_solver.
Qed.

Lemma map_to_list_insert_lookup {A V : Type} (val : string -> A -> V) (M : gmap string A) id :
  foldl (fun (m : gmap string V) (r : string * A) => <[r.1 := val r.1 r.2]> m) ∅
    (map_to_list M) !! id
  = val id <$> M !! id.
Proof.
  destruct (M !! id) as [a|] eqn:Hid; cbn.
  - apply (foldl_insert_lookup (fun r : string * A => r.1) (fun r => val r.1 r.2)
             (map_to_list M) ∅ (id, a)).
    + apply NoDup_fst_map_to_list.
    + apply elem_of_map_to_list. done.
  - rewrite (foldl_insert_lookup_ne (fun r : string * A => r.1) (fun r => val r.1 r.2));
      [apply lookup_empty|].
    intros [k a] Hin Heq. cbn in Heq. subst k. apply elem_of_map_to_list in Hin. congruence.
Qed.

Lemma VisitTablesAndTabletsUnlocked_outcome `{Externals} cm :
  let sc := CatalogManager.sys_catalog_ cm in
  exists s cm',
    VisitTablesAndTabletsUnlocked cm = Returned s tt [] cm'
    /\ ((s = OK /\ forall id pb, SysCatalogTable.tablets_ sc !! id = Some pb ->
                     is_Some (SysCatalogTable.tables_ sc !! SysTabletsEntryPB.table_id pb))
        \/ (s = Corruption
            /\ exists id pb, SysCatalogTable.tablets_ sc !! id = Some pb
                 /\ SysCatalogTable.tables_ sc !! SysTabletsEntryPB.table_id pb = None))
    /\ CatalogManager.sys_catalog_ cm' = sc
    /\ CatalogManager.oid_generator_ cm' = CatalogManager.oid_generator_ cm
    /\ CatalogManager.state_ cm' = CatalogManager.state_ cm
    /\ TableInfo.metadata_ <$> CatalogManager.table_ids_map_ cm' = SysCatalogTable.tables_ sc
    /\ (forall id table, CatalogManager.table_ids_map_ cm' !! id = Some table ->
          TableInfo.table_id_ table = id)
    /\ (forall name id, CatalogManager.table_names_map_ cm' !! name = Some id ->
          exists pb, SysCatalogTable.tables_ sc !! id = Some pb
                     /\ SysTablesEntryPB.name pb = name
                     /\ PersistentTableInfo.is_deleted pb = false)
    /\ (forall id pb,
          SysCatalogTable.tables_ sc !! id = Some pb ->
          PersistentTableInfo.is_deleted pb = false ->
          (forall id' pb', SysCatalogTable.tables_ sc !! id' = Some pb' ->
             PersistentTableInfo.is_deleted pb' = false ->
             SysTablesEntryPB.name pb' = SysTablesEntryPB.name pb -> id' = id) ->
          CatalogManager.table_names_map_ cm' !! SysTablesEntryPB.name pb = Some id)
    /\ (forall id tab, CatalogManager.tablet_map_ cm' !! id = Some tab ->
          SysCatalogTable.tablets_ sc !! id = Some (TabletInfo.metadata_ tab)
          /\ TabletInfo.tablet_id_ tab = id
          /\ TabletInfo.table_ tab = SysTabletsEntryPB.table_id (TabletInfo.metadata_ tab)
          /\ TabletInfo.reported_schema_version_ tab = NOT_YET_REPORTED
          /\ is_Some (CatalogManager.table_ids_map_ cm' !! TabletInfo.table_ tab))
    /\ (s = OK ->
        TabletInfo.metadata_ <$> CatalogManager.tablet_map_ cm' = SysCatalogTable.tablets_ sc)
    /\ (forall tid table key id,
          CatalogManager.table_ids_map_ cm' !! tid = Some table ->
          TableInfo.tablet_map_ table !! key = Some id ->
          exists pb, SysCatalogTable.tablets_ sc !! id = Some pb
                     /\ SysTabletsEntryPB.table_id pb = tid
                     /\ partition_key_start (SysTabletsEntryPB.partition pb) = key
                     /\ tablet_is_deleted pb = false).
Proof.
  cbv zeta. unfold VisitTablesAndTabletsUnlocked, VisitTables, VisitTablets. cbv zeta.
  set (cm0 := CatalogManager.set_maps ∅ ∅ ∅ cm).
  change (CatalogManager.sys_catalog_ cm0) with (CatalogManager.sys_catalog_ cm).
  set (sc := CatalogManager.sys_catalog_ cm).
  destruct (VisitTables_fold (map_to_list (SysCatalogTable.tables_ sc))
              (NoDup_fst_map_to_list _) cm0)
    as (cm1 & Heq1 & Hids1 & Hnames1 & Htab1 & Hsc1 & Hoid1 & Hst1 & _).
  { intros r _. apply lookup_empty. }
  rewrite Heq1. rewrite Hsc1. fold sc.
  destruct (VisitTablets_fold (map_to_list (SysCatalogTable.tablets_ sc)) cm1)
    as (processed & Hpre & Hs & Hfail & Hall & Htm & Hnm & Hsc2 & Hoid2 & Hst2 & _ & Htables).
  destruct (foldl visit_tablet_row (OK, cm1) _) as [s cm2]. cbn [fst snd] in *.
  exists s, cm2. split; [done|]. subst cm0.
  cbn [CatalogManager.table_ids_map_ CatalogManager.table_names_map_
       CatalogManager.tablet_map_ CatalogManager.set_maps] in *.
  assert (Hl1 : forall id, CatalogManager.table_ids_map_ cm1 !! id
                = (fun pb => {| TableInfo.table_id_ := id; TableInfo.metadata_ := pb;
                                TableInfo.tablet_map_ := ∅;
                                TableInfo.schema_version_counts_ := ∅ |})
                  <$> SysCatalogTable.tables_ sc !! id).
  { intros id. rewrite Hids1.
    apply (map_to_list_insert_lookup
             (fun id pb => {| TableInfo.table_id_ := id; TableInfo.metadata_ := pb;
                              TableInfo.tablet_map_ := ∅;
                              TableInfo.schema_version_counts_ := ∅ |})). }
  assert (Hin_rows : forall r, r ∈ processed -> SysCatalogTable.tablets_ sc !! r.1 = Some r.2).
  { intros [id pb] Hin. apply elem_of_map_to_list. destruct Hpre as [rest ->]. set_solver. }
  assert (Htabs : forall id tab, CatalogManager.tablet_map_ cm2 !! id = Some tab ->
            exists pb, (id, pb) ∈ processed
              /\ tab = {| TabletInfo.tablet_id_ := id;
                          TabletInfo.table_ := SysTabletsEntryPB.table_id pb;
                          TabletInfo.metadata_ := pb;
                          TabletInfo.reported_schema_version_ := NOT_YET_REPORTED |}).
  { intros id tab Htab. rewrite Htm, Htab1 in Htab.
    apply (foldl_insert_lookup_inv (fun r : string * SysTabletsEntryPB.t => r.1)) in Htab
      as [Htab|([id' pb] & Hin & Hk & Hv)]; [rewrite lookup_empty in Htab; done|].
    cbn in Hk, Hv. subst id'. exists pb. done. }
  split.
  { destruct (decide (processed = map_to_list (SysCatalogTable.tablets_ sc))) as [Heq|Hne].
    - left. split; [done|]. intros id pb Hrow.
      destruct (Hall (id, pb)) as [t Ht].
      { rewrite Heq. apply elem_of_map_to_list. done. }
      cbn in Ht. rewrite Hl1 in Ht. destruct (SysCatalogTable.tables_ sc !! _); [eauto|done].
    - right. split; [done|]. destruct (Hfail Hne) as ([id pb] & Hr & Hnone).
      exists id, pb. split.
      + apply elem_of_map_to_list. eapply list_elem_of_lookup_2; exact Hr.
      + cbn in Hnone. rewrite Hl1 in Hnone.
        destruct (SysCatalogTable.tables_ sc !! _); done. }
  split; [rewrite Hsc2, Hsc1; reflexivity|].
  split; [rewrite Hoid2, Hoid1; reflexivity|].
  split; [rewrite Hst2, Hst1; reflexivity|].
  assert (Hl2 : forall id,
            match SysCatalogTable.tables_ sc !! id with
            | Some pb => exists table, CatalogManager.table_ids_map_ cm2 !! id = Some table
                           /\ TableInfo.metadata_ table = pb
                           /\ TableInfo.table_id_ table = id
            | None => CatalogManager.table_ids_map_ cm2 !! id = None
            end).
  { intros id. specialize (Htables id). rewrite Hl1 in Htables.
    destruct (SysCatalogTable.tables_ sc !! id) as [pb|]; cbn in Htables; [|done].
    destruct Htables as (t' & Ht' & Hm & Hi & _). exists t'. done. }
  split.
  { apply map_eq. intros id. rewrite lookup_fmap. specialize (Hl2 id).
    destruct (SysCatalogTable.tables_ sc !! id) as [pb|].
    - destruct Hl2 as (t & -> & <- & _). done.
    - rewrite Hl2. done. }
  split.
  { intros id table Ht. specialize (Hl2 id).
    destruct (SysCatalogTable.tables_ sc !! id) as [pb|]; [|congruence].
    destruct Hl2 as (t & Ht2 & _ & Hi). congruence. }
  split.
  { intros name id Hname. rewrite Hnm, Hnames1 in Hname. cbn in Hname.
    rewrite (foldl_insert_filter (fun r : string * SysTablesEntryPB.t =>
                                    SysTablesEntryPB.name r.2)
               (fun r => r.1) (fun r => PersistentTableInfo.is_deleted r.2)) in Hname.
    apply (foldl_insert_lookup_inv
             (fun r : string * SysTablesEntryPB.t => SysTablesEntryPB.name r.2)) in Hname
      as [Hname|([id' pb] & Hin & Hk & Hv)]; [rewrite lookup_empty in Hname; done|].
    cbn in Hk, Hv. subst id'. apply list_elem_of_In, filter_In in Hin as [Hin Hdel].
    apply list_elem_of_In, elem_of_map_to_list in Hin. exists pb.
    split; [done|]. split; [done|]. cbn in Hdel. apply negb_true_iff in Hdel. done. }
  split.
  { intros id pb Hrow Hdel Huniq. rewrite Hnm, Hnames1. cbn.
    rewrite (foldl_insert_filter (fun r : string * SysTablesEntryPB.t =>
                                    SysTablesEntryPB.name r.2)
               (fun r => r.1) (fun r => PersistentTableInfo.is_deleted r.2)).
    apply (foldl_insert_lookup_unique
             (fun r : string * SysTablesEntryPB.t => SysTablesEntryPB.name r.2)
             (fun r => r.1) _ _ (id, pb)).
    - apply list_elem_of_In, filter_In. split.
      + apply list_elem_of_In, elem_of_map_to_list. done.
      + cbn. rewrite Hdel. done.
    - intros [id' pb'] Hin Hname. cbn in Hname. cbn.
      apply list_elem_of_In, filter_In in Hin as [Hin Hdel'].
      apply list_elem_of_In, elem_of_map_to_list in Hin. cbn in Hdel'.
      apply negb_true_iff in Hdel'. eauto. }
  split.
  { intros id tab Htab. destruct (Htabs id tab Htab) as (pb & Hin & ->). cbn.
    split; [apply (Hin_rows (id, pb)); done|]. split; [done|]. split; [done|].
    split; [done|].
    destruct (Hall (id, pb) Hin) as [t Ht]. cbn in Ht. specialize (Htables (SysTabletsEntryPB.table_id pb)).
    rewrite Ht in Htables. destruct Htables as (t' & -> & _). eauto. }
  split.
  { intros ->.
    destruct (decide (processed = map_to_list (SysCatalogTable.tablets_ sc))) as [Heq|Hne];
      [|done].
    apply map_eq. intros id. rewrite lookup_fmap, Htm, Htab1, Heq. cbn.
    rewrite (map_to_list_insert_lookup
               (fun id pb => {| TabletInfo.tablet_id_ := id;
                                TabletInfo.table_ := SysTabletsEntryPB.table_id pb;
                                TabletInfo.metadata_ := pb;
                                TabletInfo.reported_schema_version_ := NOT_YET_REPORTED |})).
    destruct (SysCatalogTable.tablets_ sc !! id); done. }
  intros tid table key id Ht Hkey. specialize (Htables tid). rewrite Hl1 in Htables.
  destruct (SysCatalogTable.tables_ sc !! tid) as [pb0|]; cbn in Htables; [|congruence].
  destruct Htables as (t' & Ht' & _ & _ & Hmap). assert (t' = table) by congruence. subst t'.
  rewrite Hmap in Hkey. cbn in Hkey.
  apply (foldl_insert_lookup_inv
           (fun r : string * SysTabletsEntryPB.t =>
              partition_key_start (SysTabletsEntryPB.partition r.2))) in Hkey
    as [Hkey|([id' pb] & Hin & Hk & Hv)]; [rewrite lookup_empty in Hkey; done|].
  cbn in Hk, Hv. subst id'. apply list_elem_of_In, filter_In in Hin as [Hin Hcond].
  apply list_elem_of_In in Hin. cbn in Hcond. apply andb_true_iff in Hcond as [Htid Hdel].
  apply bool_decide_eq_true in Htid. apply negb_true_iff in Hdel.
  exists pb. split; [apply (Hin_rows (id, pb)); done|]. done.
Qed.

(** X21. VisitTablesAndTabletsUnlocked always returns, whatever the
    directory was before. It returns OK when the table of every tablet row
    of the system catalog has a row, and Corruption otherwise. Every table
    row is then a table of the by-id map, under its id and with its record;
    the by-name map names only tables that are not deleted, under their
    name, and names each such table whose name no other has; every tablet of the tablet map is a tablet row, under its id, with
    its record, the table of its record and no schema version reported, and
    on OK every tablet row is loaded; and the map of a table holds only
    tablets of that table that are not deleted, each under the start of its
    partition. *)
Theorem VisitTablesAndTabletsUnlocked_loads `{Externals} cm :
  let sc := CatalogManager.sys_catalog_ cm in
  exists s cm',
    VisitTablesAndTabletsUnlocked cm = Returned s tt [] cm'
    /\ ((s = OK /\ forall id pb, SysCatalogTable.tablets_ sc !! id = Some pb ->
                     is_Some (SysCatalogTable.tables_ sc !! SysTabletsEntryPB.table_id pb))
        \/ (s = Corruption
            /\ exists id pb, SysCatalogTable.tablets_ sc !! id = Some pb
                 /\ SysCatalogTable.tables_ sc !! SysTabletsEntryPB.table_id pb = None))
    /\ CatalogManager.sys_catalog_ cm' = sc
    /\ CatalogManager.oid_generator_ cm' = CatalogManager.oid_generator_ cm
    /\ CatalogManager.state_ cm' = CatalogManager.state_ cm
    /\ TableInfo.metadata_ <$> CatalogManager.table_ids_map_ cm' = SysCatalogTable.tables_ sc
    /\ (forall id table, CatalogManager.table_ids_map_ cm' !! id = Some table ->
          TableInfo.table_id_ table = id)
    /\ (forall name id, CatalogManager.table_names_map_ cm' !! name = Some id ->
          exists pb, SysCatalogTable.tables_ sc !! id = Some pb
                     /\ SysTablesEntryPB.name pb = name
                     /\ PersistentTableInfo.is_deleted pb = false)
    /\ (forall id pb,
          SysCatalogTable.tables_ sc !! id = Some pb ->
          PersistentTableInfo.is_deleted pb = false ->
          (forall id' pb', SysCatalogTable.tables_ sc !! id' = Some pb' ->
             PersistentTableInfo.is_deleted pb' = false ->
             SysTablesEntryPB.name pb' = SysTablesEntryPB.name pb -> id' = id) ->
          CatalogManager.table_names_map_ cm' !! SysTablesEntryPB.name pb = Some id)
    /\ (forall id tab, CatalogManager.tablet_map_ cm' !! id = Some tab ->
          SysCatalogTable.tablets_ sc !! id = Some (TabletInfo.metadata_ tab)
          /\ TabletInfo.tablet_id_ tab = id
          /\ TabletInfo.table_ tab = SysTabletsEntryPB.table_id (TabletInfo.metadata_ tab)
          /\ TabletInfo.reported_schema_version_ tab = NOT_YET_REPORTED
          /\ is_Some (CatalogManager.table_ids_map_ cm' !! TabletInfo.table_ tab))
    /\ (s = OK ->
        TabletInfo.metadata_ <$> CatalogManager.tablet_map_ cm' = SysCatalogTable.tablets_ sc)
    /\ (forall tid table key id,
          CatalogManager.table_ids_map_ cm' !! tid = Some table ->
          TableInfo.tablet_map_ table !! key = Some id ->
          exists pb, SysCatalogTable.tablets_ sc !! id = Some pb
                     /\ SysTabletsEntryPB.table_id pb = tid
                     /\ partition_key_start (SysTabletsEntryPB.partition pb) = key
                     /\ tablet_is_deleted pb = false).
Proof. apply VisitTablesAndTabletsUnlocked_outcome. Qed.

(** ** The leader a report keeps *)





(** ** C5: a leader that is no voter *)




(** ** The catalogs the handlers reach

    What holds of every catalog that CreateTable, DeleteTable, AlterTable,
    ProcessTabletReport and ProcessPendingAssignments make of an empty
    directory: each handler keeps the map of every table in step with the
    tablet map, and with it the consistency of the directory. *)

Lemma tablets_keyed_step cm cm' :
  tablets_keyed cm ->
  (forall id tab,
     CatalogManager.tablet_map_ cm !! id = Some tab ->
     exists tab',
       CatalogManager.tablet_map_ cm' !! id = Some tab'
       /\ SysTabletsEntryPB.partition (TabletInfo.metadata_ tab')
          = SysTabletsEntryPB.partition (TabletInfo.metadata_ tab)) ->
  (forall tid table' k id,
     CatalogManager.table_ids_map_ cm' !! tid = Some table' ->
     TableInfo.tablet_map_ table' !! k = Some id ->
     (exists tid0 table,
        CatalogManager.table_ids_map_ cm !! tid0 = Some table
        /\ TableInfo.tablet_map_ table !! k = Some id)
     \/ exists tab',
          CatalogManager.tablet_map_ cm' !! id = Some tab'
          /\ partition_key_start (SysTabletsEntryPB.partition (TabletInfo.metadata_ tab'))
             = k) ->
  tablets_keyed cm'.
Proof.
  intros Hkeyed Htablets Hmaps tid table' k id Htable Hentry.
  destruct (Hmaps _ _ _ _ Htable Hentry) as [(tid0 & table & Htid0 & Hk) | Hnew];
    [|exact Hnew].
  destruct (Hkeyed _ _ _ _ Htid0 Hk) as (tab & Htab & Hstart).
  destruct (Htablets _ _ Htab) as (tab' & Htab' & Hpart).
  exists tab'. split; [exact Htab'|]. rewrite Hpart. exact Hstart.
Qed.

Lemma tablets_keyed_frame cm cm' :
  CatalogManager.directory cm' = CatalogManager.directory cm ->
  tablets_keyed cm -> tablets_keyed cm'.
Proof.
  unfold CatalogManager.directory, tablets_keyed. intros [= -> _ ->] Hkeyed. exact Hkeyed.
Qed.

(** A commit of records that keep the partition of the tablet they are
    records of keeps every tablet, with its partition. *)
Lemma commit_tablets_partition (rs : list (string * SysTabletsEntryPB.t))
    (m : gmap string TabletInfo.t) :
  (forall id pb tab, (id, pb) ∈ rs -> m !! id = Some tab ->
     SysTabletsEntryPB.partition pb
     = SysTabletsEntryPB.partition (TabletInfo.metadata_ tab)) ->
  forall id tab,
    m !! id = Some tab ->
    exists tab',
      commit_tablets rs m !! id = Some tab'
      /\ SysTabletsEntryPB.partition (TabletInfo.metadata_ tab')
         = SysTabletsEntryPB.partition (TabletInfo.metadata_ tab).
Proof.
  unfold commit_tablets. revert m.
  induction rs as [|r rs IH]; intros m Hrs id tab Htab; [cbn; eauto|].
  cbn [foldl].
  assert (Hstep : exists tab1,
             alter (TabletInfo.set_metadata r.2) r.1 m !! id = Some tab1
             /\ SysTabletsEntryPB.partition (TabletInfo.metadata_ tab1)
                = SysTabletsEntryPB.partition (TabletInfo.metadata_ tab)).
  { destruct (decide (r.1 = id)) as [Heq | Hne].
    - rewrite <- Heq, lookup_alter_eq. rewrite Heq, Htab. cbn. eexists. split; [reflexivity|].
      cbn. apply (Hrs r.1 r.2 tab); [destruct r; left | rewrite Heq; exact Htab].
    - rewrite lookup_alter_ne by exact Hne. eauto. }
  destruct Hstep as (tab1 & Htab1 & Hpart1).
  destruct (IH (alter (TabletInfo.set_metadata r.2) r.1 m)) with (id := id) (tab := tab1)
    as (tab' & Htab' & Hpart'); [|exact Htab1|].
  - intros id0 pb0 tab0 Hin Htab0.
    destruct (decide (r.1 = id0)) as [Heq | Hne].
    + rewrite <- Heq, lookup_alter_eq in Htab0.
      destruct (m !! r.1) as [tabr|] eqn:Hr; [|discriminate Htab0].
      cbn in Htab0. injection Htab0 as <-. cbn.
      rewrite (Hrs r.1 r.2 tabr); [|destruct r; left | exact Hr].
      apply (Hrs id0 pb0 tabr); [right; exact Hin | rewrite <- Heq; exact Hr].
    + rewrite lookup_alter_ne in Htab0 by exact Hne.
      apply (Hrs id0 pb0 tab0); [right; exact Hin | exact Htab0].
  - exists tab'. split; [exact Htab'|]. congruence.
Qed.

(** The entries of the map of a table after [AddRemoveTablets]: entries it
    had, and an entry for added tablets, under the start of the partition. *)
Lemma AddRemoveTablets_entries store adds drops table table1 k id :
  TableInfo.AddRemoveTablets store adds drops table = Some table1 ->
  TableInfo.tablet_map_ table1 !! k = Some id ->
  TableInfo.tablet_map_ table !! k = Some id
  \/ exists t, t ∈ adds /\ TabletInfo.tablet_id_ t = id
               /\ partition_key_start
                    (SysTabletsEntryPB.partition (TabletInfo.metadata_ t)) = k.
Proof.
  unfold TableInfo.AddRemoveTablets. intros Hadd Hk.
  assert (Hdrops : forall (ds : list TabletInfo.t) m c m1 c1,
            foldl (fun acc tab => TableInfo.drop_tablet tab acc) (Some (m, c)) ds
            = Some (m1, c1) ->
            m1 !! k = Some id -> m !! k = Some id).
  { induction ds as [|d ds IH]; intros m c m1 c1 Hfold Hm1.
    { cbn in Hfold. injection Hfold as <- _. exact Hm1. }
    cbn [foldl] in Hfold. unfold TableInfo.drop_tablet at 2 in Hfold.
    cbn [mbind option_bind] in Hfold.
    destruct (m !! partition_key_start _) eqn:Hd.
    - apply IH in Hfold; [|exact Hm1]. apply lookup_delete_Some in Hfold as [_ Hfold].
      exact Hfold.
    - exfalso. clear -Hfold.
      induction ds as [|d' ds IH']; [discriminate Hfold|]. apply IH'. exact Hfold. }
  destruct (foldl _ (Some _) drops) as [[m0 c0]|] eqn:Hfold; [|discriminate Hadd].
  cbn [mbind option_bind] in Hadd.
  pose proof (add_tablets_map store adds m0 c0) as Hmap.
  destruct (foldl _ (m0, c0) adds) as [m2 c2]. cbn in Hmap. injection Hadd as <-.
  cbn [TableInfo.set_tablets TableInfo.tablet_map_] in Hk. subst m2.
  apply (foldl_insert_lookup_inv
           (fun t => partition_key_start
                       (SysTabletsEntryPB.partition (TabletInfo.metadata_ t)))
           TabletInfo.tablet_id_) in Hk as [Hold | (t & Ht & Hkey & Hid)].
  - left. exact (Hdrops _ _ _ _ _ Hfold Hold).
  - right. exists t. auto.
Qed.
Lemma DeleteTable_keeps_keyed `{Externals} req cm s resp rpcs cm' :
  DeleteTable req cm = Returned s resp rpcs cm' ->
  directory_consistent cm -> tablets_keyed cm -> tablets_keyed cm'.
Proof.
  unfold DeleteTable. intros Hdelete Hcons Hkeyed.
  destruct (DeleteTable_prepare req cm) as [refused | table] eqn:Hprep.
  { subst refused. apply DeleteTable_prepare_refuses in Hprep as (_ & _ & ->). exact Hkeyed. }
  assert (Hfound : exists tid, CatalogManager.table_ids_map_ cm !! tid = Some table).
  { unfold DeleteTable_prepare in Hprep.
    destruct (negb (ok (CheckOnline cm))); [discriminate Hprep|].
    destruct (FindAndLockTable req cm) as [s0 [found|]] eqn:Hfind;
      [|destruct (negb (ok s0)); discriminate Hprep].
    destruct (negb (ok s0)); [discriminate Hprep|].
    destruct (PersistentTableInfo.is_deleted _); [discriminate Hprep|].
    injection Hprep as <-. exact (FindAndLockTable_found _ _ _ _ Hfind). }
  destruct Hfound as [tid Htid].
  unfold DeleteTable_apply in Hdelete.
  destruct (SysCatalogTable.Write _ _) as [s0 sc0].
  destruct (negb (ok s0)).
  { injection Hdelete as _ _ _ <-. apply (tablets_keyed_frame cm); [reflexivity | exact Hkeyed]. }
  destruct (CatalogManager.table_names_map_ _ !! _); [|discriminate Hdelete].
  injection Hdelete as _ _ _ <-.
  apply (tablets_keyed_step cm); [exact Hkeyed | |];
    cbn [CatalogManager.set_maps CatalogManager.set_sys_catalog
         CatalogManager.tablet_map_ CatalogManager.table_ids_map_].
  - apply commit_tablets_partition.
    intros id pb tab Hin Htab. apply list_elem_of_fmap in Hin as (t & [= -> ->] & Ht).
    apply resolve_tablets_elem in Ht as (id0 & _ & Hid0).
    destruct Hcons as (_ & _ & _ & Htablets & _).
    destruct (Htablets _ _ Hid0) as [Heq _]. rewrite Heq in Htab.
    rewrite Hid0 in Htab. injection Htab as <-. reflexivity.
  - intros tid' table' k id Htable' Hk. left.
    destruct (decide (TableInfo.table_id_ table = tid')) as [<- | Hne].
    + rewrite lookup_insert_eq in Htable'. injection Htable' as <-. cbn in Hk. eauto.
    + rewrite lookup_insert_ne in Htable' by exact Hne. eauto.
Qed.
Lemma with_tablets_old (ts : list TabletInfo.t) (m : gmap string TabletInfo.t) id tab :
  (forall t, t ∈ ts -> m !! TabletInfo.tablet_id_ t = None) ->
  m !! id = Some tab -> with_tablets ts m !! id = Some tab.
Proof.
  intros Hfresh Htab. unfold with_tablets.
  rewrite (foldl_insert_lookup_ne TabletInfo.tablet_id_ (fun t => t)); [exact Htab|].
  intros t Ht Heq. pose proof (Hfresh t Ht) as Hnone. rewrite Heq in Hnone. congruence.
Qed.

Lemma with_tablets_new (ts : list TabletInfo.t) (m : gmap string TabletInfo.t) t :
  NoDup (TabletInfo.tablet_id_ <$> ts) -> t ∈ ts ->
  with_tablets ts m !! TabletInfo.tablet_id_ t = Some t.
Proof.
  intros Hnd Ht. unfold with_tablets.
  apply (foldl_insert_lookup TabletInfo.tablet_id_ (fun t => t) ts m t Hnd Ht).
Qed.

Lemma release_name_keyed name cm : tablets_keyed cm -> tablets_keyed (release_name name cm).
Proof. intros Hkeyed. apply (tablets_keyed_frame cm); [reflexivity | exact Hkeyed]. Qed.

Lemma CreateTable_keeps_keyed `{Externals} req live cm s resp rpcs cm' :
  CreateTable req live cm = Returned s resp rpcs cm' ->
  tablets_keyed cm -> tablets_keyed cm'.
Proof.
  unfold CreateTable. intros Hcreate Hkeyed.
  destruct (CreateTable_prepare req live cm) as [refused | [plan cm1]] eqn:Hprep.
  { subst refused. apply CreateTable_prepare_refuses in Hprep as (_ & _ & ->). exact Hkeyed. }
  apply CreateTable_prepare_plan in Hprep as (_ & Hdir & _).
  apply (tablets_keyed_frame _ _ Hdir) in Hkeyed. clear Hdir.
  unfold CreateTable_apply in Hcreate.
  destruct (negb _); [discriminate Hcreate|].
  destruct (SysCatalogTable.Write _ _) as [s0 sc0].
  destruct (negb (ok s0)).
  { injection Hcreate as _ _ _ <-. apply release_name_keyed.
    apply (tablets_keyed_frame cm1); [reflexivity | exact Hkeyed]. }
  destruct (TableInfo.AddRemoveTablets _ _ _ _) as [table|] eqn:Hadd; [|discriminate Hcreate].
  destruct (publish_tablets _ _) as [tablet_map|] eqn:Hpub; [|discriminate Hcreate].
  apply publish_tablets_Some in Hpub as (Hnd & Hfresh & ->).
  injection Hcreate as _ _ _ <-. apply release_name_keyed.
  cbn [CatalogManager.set_sys_catalog CatalogManager.tablet_map_] in *.
  apply (tablets_keyed_step cm1); [exact Hkeyed | |];
    cbn [CatalogManager.set_maps CatalogManager.set_sys_catalog
         CatalogManager.tablet_map_ CatalogManager.table_ids_map_].
  - intros id tab Htab. exists tab. split; [|reflexivity].
    apply with_tablets_old; assumption.
  - intros tid' table' k id Htable' Hk.
    destruct (decide (plan_table_id plan = tid')) as [<- | Hne].
    + rewrite lookup_insert_eq in Htable'. injection Htable' as <-.
      destruct (AddRemoveTablets_entries _ _ _ _ _ _ _ Hadd Hk)
        as [Hold | (t & Ht & <- & <-)].
      { cbn in Hold. rewrite lookup_empty in Hold. discriminate Hold. }
      right. exists t. split; [|reflexivity]. apply with_tablets_new; assumption.
    + rewrite lookup_insert_ne in Htable' by exact Hne. left. eauto.
Qed.

Lemma AlterTable_keeps_keyed `{Externals} req cm s resp rpcs cm' :
  AlterTable req cm = Returned s resp rpcs cm' ->
  directory_consistent cm -> tablets_keyed cm -> tablets_keyed cm'.
Proof.
  unfold AlterTable. intros Halter Hcons Hkeyed.
  destruct (AlterTable_prepare req cm) as [refused | [plan cm1]] eqn:Hprep.
  { subst refused. apply AlterTable_prepare_refuses in Hprep as (_ & _ & Hdir & _).
    apply (tablets_keyed_frame cm); [exact Hdir | exact Hkeyed]. }
  pose proof (AlterTable_prepare_to_drop _ _ _ _ Hprep) as (ks & _ & Hdrops).
  apply AlterTable_prepare_plan in Hprep as (Hdir & _ & _ & _ & [s1 Hfind] & _).
  apply FindAndLockTable_found in Hfind as [tid Htid].
  unfold AlterTable_apply in Halter.
  destruct (negb (has_metadata_changes req plan) && negb (has_partitioning_changes plan)).
  { injection Halter as _ _ _ <-. destruct (AlterTable_cleanup_frame req cm1) as [Hd _].
    apply (tablets_keyed_frame cm); [congruence | exact Hkeyed]. }
  destruct (SysCatalogTable.Write _ _) as [s0 sc0].
  destruct (negb (ok s0)).
  { injection Halter as _ _ _ <-.
    match goal with
    | |- tablets_keyed (AlterTable_cleanup req ?c) =>
        destruct (AlterTable_cleanup_frame req c) as [Hd _]
    end.
    apply (tablets_keyed_frame cm); [rewrite Hd; exact Hdir | exact Hkeyed]. }
  match type of Halter with
  | match ?x with _ => _ end = _ => destruct x as [names|]
  end; [|discriminate Halter].
  destruct (publish_tablets _ _) as [published|] eqn:Hpub; [|discriminate Halter].
  apply publish_tablets_Some in Hpub as (Hnd & Hfresh & ->).
  destruct (TableInfo.AddRemoveTablets _ _ _ _) as [table1|] eqn:Hadd;
    [|discriminate Halter].
  injection Halter as _ _ _ <-.
  match goal with
  | |- tablets_keyed (AlterTable_cleanup req ?c) =>
      destruct (AlterTable_cleanup_frame req c) as [Hd _];
      apply (tablets_keyed_frame c); [exact Hd|]
  end.
  clear Hd. unfold CatalogManager.directory in Hdir. injection Hdir as Hids1 _ Htm1.
  cbn [CatalogManager.set_sys_catalog CatalogManager.tablet_map_
       CatalogManager.table_ids_map_] in *.
  rewrite Htm1 in *. rewrite Hids1.
  set (objs := new_TabletInfo (TableInfo.table_id_ (alter_plan_table plan))
               <$> tablets_to_add plan) in *.
  assert (Hcommit : forall id tab,
            with_tablets objs (CatalogManager.tablet_map_ cm) !! id = Some tab ->
            exists tab',
              commit_tablets
                ((fun tab0 =>
                    (TabletInfo.tablet_id_ tab0,
                     PersistentTabletInfo.set_state SysTabletsEntryPB.DELETED
                       ("Partition dropped at " +:+ LocalTimeAsString)
                       (TabletInfo.metadata_ tab0))) <$> tablets_to_drop plan)
                (with_tablets objs (CatalogManager.tablet_map_ cm)) !! id = Some tab'
              /\ SysTabletsEntryPB.partition (TabletInfo.metadata_ tab')
                 = SysTabletsEntryPB.partition (TabletInfo.metadata_ tab)).
  { apply commit_tablets_partition.
    intros id pb tab Hin Htab. apply list_elem_of_fmap in Hin as (t & [= -> ->] & Ht).
    apply list_elem_of_lookup in Ht as [n Hn].
    destruct (Forall2_lookup_r _ _ _ _ _ Hdrops Hn) as (k & _ & id0 & _ & Hid0).
    destruct Hcons as (_ & _ & _ & Htablets & _).
    destruct (Htablets _ _ Hid0) as [Heq _]. rewrite Heq in Htab.
    rewrite (with_tablets_old objs _ _ _ Hfresh Hid0) in Htab.
    injection Htab as <-. reflexivity. }
  apply (tablets_keyed_step cm); [exact Hkeyed | |];
    cbn [CatalogManager.set_maps CatalogManager.set_sys_catalog
         CatalogManager.tablet_map_ CatalogManager.table_ids_map_].
  - intros id tab Htab. apply Hcommit. apply with_tablets_old; assumption.
  - intros tid' table' k id Htable' Hk.
    destruct (decide (TableInfo.table_id_ (alter_plan_table plan) = tid')) as [<- | Hne].
    + rewrite lookup_insert_eq in Htable'. injection Htable' as <-.
      assert (Hk1 : TableInfo.tablet_map_ table1 !! k = Some id).
      { destruct (_ || _); exact Hk. }
      destruct (AddRemoveTablets_entries _ _ _ _ _ _ _ Hadd Hk1)
        as [Hold | (t & Ht & <- & <-)]; [left; eauto|].
      right. destruct (Hcommit _ t (with_tablets_new objs _ t Hnd Ht))
        as (tab' & Htab' & Hpart).
      exists tab'. split; [exact Htab'|]. rewrite Hpart. reflexivity.
    + rewrite lookup_insert_ne in Htable' by exact Hne. left. eauto.
Qed.
Lemma process_consensus_state_partition `{Externals} ts table tab report reported
    dirty mutated rpcs after :
  process_consensus_state ts table tab report reported = Some (dirty, mutated, rpcs, after) ->
  SysTabletsEntryPB.partition dirty
  = SysTabletsEntryPB.partition (TabletInfo.metadata_ tab).
Proof.
  unfold process_consensus_state. intros Hproc.
  destruct (ShouldTransitionTabletToRunning _ _ _);
    destruct (consensus_state_updated _ _);
    try (destruct (retain_leader _ _) as [c'|]);
    try (destruct (FLAGS_master_tombstone_evicted_tablet_replicas FLAGS));
    try (destruct (tombstone_evicted _ _ _ _) as [rs|]; cbn in Hproc);
    try discriminate Hproc; injection Hproc as <- _ _ _; reflexivity.
Qed.

Lemma ProcessReportedTablet_partition `{Externals} ts table tab report er :
  ProcessReportedTablet ts table tab report = Some er ->
  SysTabletsEntryPB.partition (entry_dirty er)
  = SysTabletsEntryPB.partition (TabletInfo.metadata_ tab).
Proof.
  unfold ProcessReportedTablet. intros Hproc.
  destruct (skip_reported_tablet ts table tab report) as [r|] eqn:Hskip.
  { injection Hproc as <-. unfold skip_reported_tablet in Hskip.
    repeat match type of Hskip with
           | (if ?c then _ else _) = _ => destruct c
           end; try discriminate Hskip; injection Hskip as <-; reflexivity. }
  destruct (ReportedTabletPB.consensus_state report) as [reported|];
    [|injection Hproc as <-; reflexivity].
  destruct (negb _); [injection Hproc as <-; reflexivity|].
  destruct (process_consensus_state ts table tab report reported)
    as [[[[dirty mutated] rpcs] after]|] eqn:Hpcs; [|discriminate Hproc].
  apply process_consensus_state_partition in Hpcs.
  cbn in Hproc. destruct after as [[c u]|]; injection Hproc as <-; exact Hpcs.
Qed.

(** Every dirty record the loop of step 3 gathers is what the pass over a
    tablet of the tablet map left. *)
Lemma process_reports_dirty `{Externals} ts cm reports pass id pb :
  process_reports ts cm reports = Some pass ->
  (id, pb) ∈ pass_dirty pass ->
  exists tab table r er,
    CatalogManager.tablet_map_ cm !! id = Some tab
    /\ ProcessReportedTablet ts table tab r = Some er
    /\ pb = entry_dirty er.
Proof.
  unfold process_reports. generalize (map_to_list reports). intros l.
  set (P := fun p : ReportPass =>
              forall x, x ∈ pass_dirty p ->
                exists tab table r er,
                  CatalogManager.tablet_map_ cm !! x.1 = Some tab
                  /\ ProcessReportedTablet ts table tab r = Some er
                  /\ x.2 = entry_dirty er).
  assert (Hgen : forall p, P p ->
            forall pass0,
              foldl (fun acc (e : string * ReportedTabletPB.t) =>
                       acc ≫= fun pass =>
                         match CatalogManager.tablet_map_ cm !! e.1
                               ≫= fun tab =>
                                 CatalogManager.table_ids_map_ cm !! TabletInfo.table_ tab
                                 ≫= fun table => Some (tab, table) with
                         | None => Some pass
                         | Some (tab, table) =>
                             ProcessReportedTablet ts table tab e.2
                             ≫= fun r =>
                               Some {| pass_dirty := pass_dirty pass ++ [(e.1, entry_dirty r)];
                                       pass_rpcs := pass_rpcs pass ++ entry_rpcs r;
                                       pass_mutated :=
                                         pass_mutated pass
                                         ++ (if entry_mutated r
                                             then [(e.1, entry_dirty r)] else []);
                                       pass_msgs :=
                                         pass_msgs pass
                                         ++ (match entry_state_msg r with
                                             | Some m => [(e.1, m)]
                                             | None => []
                                             end) |}
                         end) (Some p) l = Some pass0 -> P pass0).
  { induction l as [|e l IH]; intros p Hp pass0 Hfold.
    { cbn in Hfold. injection Hfold as <-. exact Hp. }
    cbn [foldl] in Hfold.
    match type of Hfold with
    | foldl ?f ?acc l = _ => destruct acc as [p1|] eqn:Hstep
    end.
    2:{ rewrite process_reports_None in Hfold; [discriminate Hfold|].
        intros [acc|] e0; reflexivity. }
    apply (IH p1); [|exact Hfold]. clear IH Hfold.
    cbn in Hstep.
    destruct (CatalogManager.tablet_map_ cm !! e.1) as [tab0|] eqn:Htab0;
      [|cbn in Hstep; injection Hstep as <-; exact Hp].
    cbn in Hstep.
    destruct (CatalogManager.table_ids_map_ cm !! TabletInfo.table_ tab0) as [table0|];
      [|cbn in Hstep; injection Hstep as <-; exact Hp].
    cbn in Hstep.
    destruct (ProcessReportedTablet ts table0 tab0 e.2) as [er|] eqn:Her;
      [|discriminate Hstep].
    cbn in Hstep. injection Hstep as <-. intros x Hx. cbn in Hx.
    apply elem_of_app in Hx as [Hx | Hx]; [exact (Hp x Hx)|].
    apply list_elem_of_singleton in Hx as ->. cbn. eauto 8. }
  intros Hfold Hin.
  assert (Hstart : P {| pass_dirty := []; pass_rpcs := []; pass_mutated := [];
                        pass_msgs := [] |}).
  { intros x Hx. inversion Hx. }
  destruct (Hgen _ Hstart _ Hfold (id, pb) Hin)
    as (tab & table & r & er & Htab & Her & Hpb).
  eauto 8.
Qed.

Lemma set_reported_schema_version_table_maps tablet_id version cm tid table' :
  CatalogManager.table_ids_map_ (set_reported_schema_version tablet_id version cm) !! tid
  = Some table' ->
  exists tid0 table,
    CatalogManager.table_ids_map_ cm !! tid0 = Some table
    /\ TableInfo.tablet_map_ table' = TableInfo.tablet_map_ table.
Proof.
  unfold set_reported_schema_version.
  destruct (CatalogManager.tablet_map_ cm !! tablet_id) as [tab|]; [|eauto].
  destruct (bool_decide _); [eauto|].
  destruct (CatalogManager.table_ids_map_ cm !! TabletInfo.table_ tab) as [table|] eqn:Htable;
    [|eauto].
  destruct (negb _); [eauto|]. cbn.
  destruct (decide (TableInfo.table_id_ table = tid)) as [<- | Hne].
  - rewrite lookup_insert_eq. intros [= <-]. eauto.
  - rewrite lookup_insert_ne by exact Hne. eauto.
Qed.

Lemma HandleTabletSchemaVersionReport_table_maps `{Externals} tablet_id version cm
    tid table' :
  CatalogManager.table_ids_map_ (HandleTabletSchemaVersionReport tablet_id version cm) !! tid
  = Some table' ->
  exists tid0 table,
    CatalogManager.table_ids_map_ cm !! tid0 = Some table
    /\ TableInfo.tablet_map_ table' = TableInfo.tablet_map_ table.
Proof.
  unfold HandleTabletSchemaVersionReport.
  pose proof (set_reported_schema_version_table_maps tablet_id version cm) as Hset.
  set (cm1 := set_reported_schema_version tablet_id version cm) in *.
  destruct (CatalogManager.tablet_map_ cm1 !! tablet_id) as [tab|]; [|apply Hset].
  cbn [mbind option_bind].
  destruct (CatalogManager.table_ids_map_ cm1 !! TabletInfo.table_ tab) as [table|] eqn:Htable;
    [|apply Hset].
  destruct (_ || _); [apply Hset|].
  destruct (TableInfo.IsAlterInProgress _ _); [apply Hset|].
  destruct (SysCatalogTable.Write _ _) as [s0 sc0].
  destruct (negb (ok s0)); [apply Hset|]. cbn.
  destruct (decide (TableInfo.table_id_ table = tid)) as [<- | Hne].
  - rewrite lookup_insert_eq. intros [= <-]. cbn. apply (Hset _ _ Htable).
  - rewrite lookup_insert_ne by exact Hne. apply Hset.
Qed.

Lemma handle_schema_versions_table_maps `{Externals} reports cm tid table' :
  CatalogManager.table_ids_map_ (handle_schema_versions reports cm) !! tid = Some table' ->
  exists tid0 table,
    CatalogManager.table_ids_map_ cm !! tid0 = Some table
    /\ TableInfo.tablet_map_ table' = TableInfo.tablet_map_ table.
Proof.
  unfold handle_schema_versions. generalize (map_to_list reports). intros l.
  revert tid table'. induction l as [|e l IH] using rev_ind; intros tid table' Hlookup.
  { cbn in Hlookup. eauto. }
  rewrite foldl_snoc in Hlookup.
  destruct (ReportedTabletPB.schema_version e.2); [|exact (IH _ _ Hlookup)].
  apply HandleTabletSchemaVersionReport_table_maps in Hlookup
    as (tid0 & table0 & Htid0 & Hmap).
  destruct (IH _ _ Htid0) as (tid1 & table1 & Htid1 & Hmap1).
  exists tid1, table1. split; [exact Htid1 | congruence].
Qed.

Lemma ProcessTabletReport_keeps_keyed `{Externals} ts full_report cm s resp rpcs cm' :
  ProcessTabletReport ts full_report cm = Returned s resp rpcs cm' ->
  tablets_keyed cm -> tablets_keyed cm'.
Proof.
  unfold ProcessTabletReport. intros Hreport Hkeyed.
  destruct (process_reports ts cm _) as [pass|] eqn:Hpass; [|discriminate Hreport].
  destruct (SysCatalogTable.Write _ _) as [s0 sc0].
  destruct (negb (ok s0)).
  { injection Hreport as _ _ _ <-. apply (tablets_keyed_frame cm); [reflexivity | exact Hkeyed]. }
  injection Hreport as _ _ _ <-.
  match goal with
  | |- tablets_keyed (handle_schema_versions ?reports ?c) =>
      apply (tablets_keyed_step c)
  end.
  - apply (tablets_keyed_step cm); [exact Hkeyed | |];
      cbn [CatalogManager.set_maps CatalogManager.set_sys_catalog
           CatalogManager.tablet_map_ CatalogManager.table_ids_map_].
    + apply commit_tablets_partition. intros id pb tab Hin Htab.
      destruct (process_reports_dirty _ _ _ _ _ _ Hpass Hin)
        as (tab0 & table & r & er & Htab0 & Her & ->).
      rewrite Htab in Htab0. injection Htab0 as <-.
      exact (ProcessReportedTablet_partition _ _ _ _ _ Her).
    + intros tid table' k id Htable' Hk. left. eauto.
  - intros id tab Htab.
    match goal with
    | |- context [handle_schema_versions ?reports ?c] =>
        pose proof (handle_schema_versions_metadata reports c id) as Hmeta
    end.
    rewrite Htab in Hmeta.
    destruct (CatalogManager.tablet_map_ (handle_schema_versions _ _) !! id) as [tab'|];
      [|discriminate Hmeta].
    injection Hmeta as Hmeta. exists tab'. split; [reflexivity|]. rewrite Hmeta. reflexivity.
  - intros tid table' k id Htable' Hk. left.
    apply handle_schema_versions_table_maps in Htable' as (tid0 & table & Htid0 & Hmap).
    exists tid0, table. split; [exact Htid0|]. rewrite <- Hmap. exact Hk.
Qed.
Lemma SelectReplicasForTablet_partition `{Externals} `{Placement} ts_descs table dirty rng
    s pb1 ts_descs1 rng1 :
  SelectReplicasForTablet ts_descs table dirty rng = Some (s, pb1, ts_descs1, rng1) ->
  SysTabletsEntryPB.partition pb1 = SysTabletsEntryPB.partition dirty.
Proof.
  unfold SelectReplicasForTablet. intros Hsel.
  destruct (_ <? _); [injection Hsel as _ <- _ _; reflexivity|].
  destruct (SelectReplicas _ _ _ _ _) as [[[[ts1 sel] peers] rng2]|]; [|discriminate Hsel].
  injection Hsel as _ <- _ _. reflexivity.
Qed.

Lemma select_replicas_for_tablets_partition `{Externals} `{Placement} cm new needs :
  forall dirty ts_descs rng s dirty' ts_descs' rng' id pb',
    select_replicas_for_tablets cm new needs dirty ts_descs rng
    = Some (s, dirty', ts_descs', rng') ->
    dirty' !! id = Some pb' ->
    exists pb, dirty !! id = Some pb
               /\ SysTabletsEntryPB.partition pb' = SysTabletsEntryPB.partition pb.
Proof.
  induction needs as [|n rest IH]; intros dirty ts_descs rng s dirty' ts_descs' rng' id pb'
    Hsel Hpb'.
  { cbn in Hsel. injection Hsel as _ <- _ _. eauto. }
  cbn [select_replicas_for_tablets] in Hsel.
  destruct (table_of_assigned cm new n) as [table|]; [|exact (IH _ _ _ _ _ _ _ _ _ Hsel Hpb')].
  destruct (dirty !! n) as [pb|] eqn:Hn; [|exact (IH _ _ _ _ _ _ _ _ _ Hsel Hpb')].
  destruct (SelectReplicasForTablet _ _ _ _) as [[[[s1 pb1] ts1] rng1]|] eqn:Hone;
    [|discriminate Hsel].
  apply SelectReplicasForTablet_partition in Hone.
  destruct (negb (ok s1)); [injection Hsel as _ <- _ _; eauto|].
  destruct (IH _ _ _ _ _ _ _ _ _ Hsel Hpb') as (pb0 & Hpb0 & Hpart).
  destruct (decide (n = id)) as [<- | Hne].
  - rewrite lookup_insert_eq in Hpb0. injection Hpb0 as <-. exists pb.
    split; [exact Hn | congruence].
  - rewrite lookup_insert_ne in Hpb0 by exact Hne. eauto.
Qed.

Lemma ProcessPendingAssignments_keeps_keyed `{Externals} `{Placement}
    since_create_ms ts_descs rng tablets cm s resp rpcs cm' :
  ProcessPendingAssignments since_create_ms ts_descs rng tablets cm
  = Returned s resp rpcs cm' ->
  NoDup tablets ->
  directory_consistent cm -> tablets_keyed cm -> tablets_keyed cm'.
Proof.
  intros Hret Hnd Hcons Hkeyed.
  pose proof Hcons as (_ & _ & _ & _ & Hinj & Hunused).
  assert (fresh_tablets : forall i, (CatalogManager.oid_generator_ cm <= i)%nat ->
            CatalogManager.tablet_map_ cm !! oid_Next i = None).
  { intros i Hi. apply Hunused. done. }
  destruct (handle_assignments_spec since_create_ms cm Hinj fresh_tablets tablets Hnd)
    as (olds & Hcm0 & Hnew & Hadd & Holds_nd & Holds & Hupd & Hneeds & Hupd_nd & Hneeds_nd
        & Hcreate & Hrepl & Hdom).
  cbv zeta in *.
  unfold ProcessPendingAssignments in Hret. cbv zeta in Hret.
  set (pass := handle_assignments since_create_ms tablets cm) in *.
  set (deferred := assign_deferred pass) in *.
  rewrite Hcm0 in Hret.
  assert (Hframe : forall sc,
            tablets_keyed
              (CatalogManager.set_sys_catalog sc
                 (CatalogManager.set_oid
                    (CatalogManager.oid_generator_ cm + length olds) cm))).
  { intros sc. apply (tablets_keyed_frame cm); [reflexivity | exact Hkeyed]. }
  assert (Hframe0 : tablets_keyed
                      (CatalogManager.set_oid
                         (CatalogManager.oid_generator_ cm + length olds) cm)).
  { apply (tablets_keyed_frame cm); [reflexivity | exact Hkeyed]. }
  destruct (_ && _).
  { injection Hret as <- <- <- <-. done. }
  destruct (select_replicas_for_tablets _ _ _ _ _ _) as [[[[s1 dirty'] ts1] rng1]|] eqn:Hsel;
    [|discriminate].
  destruct (negb (ok s1)).
  { injection Hret as <- <- <- <-. done. }
  destruct (SysCatalogTable.Write _ _) as [s2 sc].
  destruct (negb (ok s2)).
  { injection Hret as <- <- <- <-. apply Hframe. }
  injection Hret as <- <- <- <-.
  assert (Hnew_nd : NoDup (assign_new pass).*1).
  { apply NoDup_alt. intros i j x Hi Hj. rewrite list_lookup_fmap, Hnew, list_lookup_imap in Hi.
    rewrite list_lookup_fmap, Hnew, list_lookup_imap in Hj.
    destruct (olds !! i); [|done]. destruct (olds !! j); [|done]. cbn in Hi, Hj.
    injection Hi as <-. injection Hj as Hj. apply Hinj in Hj; lia. }
  assert (Hnew_fresh : forall nid, nid ∈ (assign_new pass).*1 ->
            CatalogManager.tablet_map_ cm !! nid = None).
  { intros nid Hin. apply list_elem_of_fmap in Hin as ([nid' tbl] & -> & Hin).
    apply list_elem_of_lookup in Hin as [j Hj]. rewrite Hnew, list_lookup_imap in Hj.
    destruct (olds !! j) as [o|]; [|done]. cbn in Hj. injection Hj as <- _. cbn.
    apply fresh_tablets. lia. }
  set (rs := dirty_records dirty' (DeferredAssignmentActions.tablets_to_update deferred)).
  set (cm2 := CatalogManager.set_maps _ _ _ _).
  assert (Hcommit : forall id tab,
            CatalogManager.tablet_map_ cm !! id = Some tab ->
            exists tab',
              CatalogManager.tablet_map_ cm2 !! id = Some tab'
              /\ SysTabletsEntryPB.partition (TabletInfo.metadata_ tab')
                 = SysTabletsEntryPB.partition (TabletInfo.metadata_ tab)).
  { subst cm2. cbn [CatalogManager.tablet_map_ CatalogManager.set_maps
                    CatalogManager.set_sys_catalog CatalogManager.set_oid].
    apply commit_tablets_partition. intros id pb' tab Hin Htab.
    apply dirty_records_elem in Hin as [Hin Hpb'].
    destruct (select_replicas_for_tablets_partition _ _ _ _ _ _ _ _ _ _ _ _ Hsel Hpb')
      as (pb & Hpb & ->).
    apply Hupd in Hin as (Hin & tab0 & table0 & Hcase).
    destruct Hcase as [Hc | Hr].
    - rewrite (Hcreate _ _ _ Hin Hc) in Hpb. injection Hpb as <-.
      destruct Hc as [[Htab0 _] _]. rewrite Htab in Htab0. injection Htab0 as <-. reflexivity.
    - assert (Ho : (id, tab0, table0) ∈ olds) by (apply Holds; auto).
      apply list_elem_of_lookup in Ho as [j Hj].
      destruct (Hrepl _ _ _ _ Hj) as [Hold _]. rewrite Hold in Hpb. injection Hpb as <-.
      destruct Hr as [[Htab0 _] _]. rewrite Htab in Htab0. injection Htab0 as <-. reflexivity. }
  apply (tablets_keyed_step cm); [exact Hkeyed | |].
  - intros id tab Htab. rewrite publish_replacements_tablets by done.
    rewrite list_find_not_new; [exact (Hcommit _ _ Htab)|].
    intros Hin. rewrite (Hnew_fresh _ Hin) in Htab. discriminate Htab.
  - intros tid table' k id Htable' Hk.
    unfold publish_replacements in Htable'.
    cbn [CatalogManager.table_ids_map_ CatalogManager.set_maps] in Htable'.
    match type of Htable' with
    | foldl ?f ?ids ?objs !! _ = _ =>
        pose proof (publish_tables
                      (foldl (fun m t => <[TabletInfo.tablet_id_ t := t]> m)
                         (CatalogManager.tablet_map_ cm2)
                         (omap (fun e => (fun pb => new_TabletInfo e.2 (e.1, pb))
                                           <$> dirty' !! e.1) (assign_new pass)))
                      (omap (fun e => (fun pb => new_TabletInfo e.2 (e.1, pb))
                                        <$> dirty' !! e.1) (assign_new pass))
                      (CatalogManager.table_ids_map_ cm2) tid) as Hpub
    end.
    cbv zeta in Hpub.
    destruct (CatalogManager.table_ids_map_ cm2 !! tid) as [table|] eqn:Htable;
      [|rewrite Hpub in Htable'; discriminate Htable'].
    destruct Hpub as (table'' & Ht'' & _ & _ & Hmap).
    rewrite Ht'' in Htable'. injection Htable' as <-.
    rewrite Hmap in Hk.
    apply (foldl_insert_lookup_inv
             (fun t => partition_key_start
                         (SysTabletsEntryPB.partition (TabletInfo.metadata_ t)))
             TabletInfo.tablet_id_) in Hk as [Hold | (t & Ht & Hkey & Hid)].
    + left. exists tid, table. split; [|exact Hold]. subst cm2. exact Htable.
    + right. apply list_elem_of_filter in Ht as [_ Ht].
      apply replacement_objects_elem in Ht as (nid & tbl & pb & Hin & Hpb & ->).
      cbn in Hid, Hkey. subst id.
      rewrite publish_replacements_tablets by done.
      destruct (list_find (fun e => e.1 = nid) (assign_new pass)) as [[j [nid' tbl']]|]
        eqn:Hfind.
      * rewrite Hpb. eexists. split; [reflexivity|]. exact Hkey.
      * apply list_find_None in Hfind. rewrite Forall_forall in Hfind.
        exfalso. apply (Hfind _ Hin). reflexivity.
Qed.

Lemma ProcessPendingAssignments_keeps_fully_applied `{Externals} `{Placement}
    since_create_ms ts_descs rng tablets cm s resp rpcs cm' :
  ProcessPendingAssignments since_create_ms ts_descs rng tablets cm
  = Returned s resp rpcs cm' ->
  fully_applied_while_altering cm -> fully_applied_while_altering cm'.
Proof.
  intros Hret Hinv.
  destruct (handle_assignments_frame since_create_ms tablets cm) as (k & _ & Hcm0).
  unfold ProcessPendingAssignments in Hret. cbv zeta in Hret.
  rewrite Hcm0 in Hret.
  destruct (_ && _).
  { injection Hret as <- <- <- <-. exact Hinv. }
  destruct (select_replicas_for_tablets _ _ _ _ _ _) as [[[[s1 dirty'] ts1] rng1]|];
    [|discriminate].
  destruct (negb (ok s1)).
  { injection Hret as <- <- <- <-. exact Hinv. }
  destruct (SysCatalogTable.Write _ _) as [s2 sc].
  destruct (negb (ok s2)).
  { injection Hret as <- <- <- <-. exact Hinv. }
  injection Hret as <- <- <- <-.
  intros tid table' fully_applied Htable' Hfully.
  unfold publish_replacements in Htable'.
  cbn [CatalogManager.table_ids_map_ CatalogManager.set_maps] in Htable'.
  match type of Htable' with
  | foldl ?f ?ids ?objs !! _ = _ =>
      match f with
      | context [TableInfo.AddRemoveTablets ?store _ _ _] =>
          pose proof (publish_tables store objs ids tid) as Hpub
      end
  end.
  cbv zeta in Hpub.
  match type of Hpub with
  | match ?ids !! tid with _ => _ end =>
      destruct (ids !! tid) as [table|] eqn:Htable;
        [|rewrite Hpub in Htable'; discriminate Htable']
  end.
  destruct Hpub as (table'' & Ht'' & Hmeta & _).
  rewrite Ht'' in Htable'. injection Htable' as <-.
  rewrite Hmeta in Hfully |- *.
  exact (Hinv tid table fully_applied Htable Hfully).
Qed.

(** In every catalog the handlers reach, a table has a fully_applied_schema
    only while it is ALTERING, or REMOVED. *)
Lemma reachable_fully_applied `{Externals} `{Placement} cm :
  reachable cm -> fully_applied_while_altering cm.
Proof.
  intros Hreach.
  induction Hreach as
    [state reserved sys_catalog oid
    | cm req live s resp rpcs cm' _ Hfully Hrun
    | cm req s resp rpcs cm' _ Hfully Hrun
    | cm req s resp rpcs cm' _ Hfully Hrun
    | cm ts full_report s resp rpcs cm' _ Hfully Hrun
    | cm since_create_ms ts_descs rng tablets s resp rpcs cm' _ Hfully Hnd Hrun].
  - intros id table fully_applied Htable. cbn in Htable.
    rewrite lookup_empty in Htable. discriminate Htable.
  - exact (CreateTable_keeps_fully_applied _ _ _ _ _ _ _ Hrun Hfully).
  - exact (DeleteTable_keeps_fully_applied _ _ _ _ _ _ Hrun Hfully).
  - exact (AlterTable_keeps_fully_applied _ _ _ _ _ _ Hrun Hfully).
  - exact (ProcessTabletReport_keeps_fully_applied _ _ _ _ _ _ _ Hrun Hfully).
  - exact (ProcessPendingAssignments_keeps_fully_applied _ _ _ _ _ _ _ _ _ Hrun Hfully).
Qed.

(** In every catalog the handlers reach with a generator that never repeats
    an id, the directory is consistent and the map of every table holds
    tablets of the tablet map, each under the start of its partition. *)
Lemma reachable_consistent `{Externals} `{Placement} cm :
  generator_never_repeats ->
  reachable cm ->
  directory_consistent cm /\ tablets_keyed cm.
Proof.
  intros Hgen Hreach.
  induction Hreach as
    [state reserved sys_catalog oid
    | cm req live s resp rpcs cm' _ (Hcons & Hkeyed) Hrun
    | cm req s resp rpcs cm' _ (Hcons & Hkeyed) Hrun
    | cm req s resp rpcs cm' _ (Hcons & Hkeyed) Hrun
    | cm ts full_report s resp rpcs cm' _ (Hcons & Hkeyed) Hrun
    | cm since_create_ms ts_descs rng tablets s resp rpcs cm' _ (Hcons & Hkeyed) Hnd Hrun].
  - split.
    + unfold directory_consistent. cbn.
      split; [|split; [|split; [|split; [|split]]]];
        try (intros ? ? Hlookup; rewrite lookup_empty in Hlookup; discriminate Hlookup).
      * intros i j _ _. apply Hgen.
      * intros i _. split; apply lookup_empty.
    + intros table_id table key tablet_id Htable. cbn in Htable.
      rewrite lookup_empty in Htable. discriminate Htable.
  - split.
    + exact (CreateTable_keeps_consistent _ _ _ _ _ _ _ Hrun Hcons).
    + exact (CreateTable_keeps_keyed _ _ _ _ _ _ _ Hrun Hkeyed).
  - split.
    + exact (DeleteTable_keeps_consistent _ _ _ _ _ _ Hrun Hcons).
    + exact (DeleteTable_keeps_keyed _ _ _ _ _ _ Hrun Hcons Hkeyed).
  - split.
    + exact (AlterTable_keeps_consistent _ _ _ _ _ _ Hrun Hcons).
    + exact (AlterTable_keeps_keyed _ _ _ _ _ _ Hrun Hcons Hkeyed).
  - split.
    + exact (ProcessTabletReport_keeps_consistent _ _ _ _ _ _ _ Hrun Hcons).
    + exact (ProcessTabletReport_keeps_keyed _ _ _ _ _ _ _ Hrun Hkeyed).
  - split.
    + exact (ProcessPendingAssignments_keeps_consistent _ _ _ _ _ _ _ _ _ Hrun Hnd Hcons).
    + exact (ProcessPendingAssignments_keeps_keyed _ _ _ _ _ _ _ _ _ Hrun Hnd Hcons Hkeyed).
Qed.

(** The tablets AlterTable is to drop are tablets of the table, no two
    starting at one key, when the map of the table holds each tablet under
    the start of its partition. *)
Lemma AlterTable_prepare_drops `{Externals} req cm plan cm1 :
  tablets_keyed cm ->
  AlterTable_prepare req cm = inr (plan, cm1) ->
  drops_of_table (alter_plan_table plan) (tablets_to_drop plan).
Proof.
  intros Hkeyed Hprep.
  destruct (AlterTable_prepare_to_drop _ _ _ _ Hprep) as (ks & Hnd & Hdrops).
  destruct (AlterTable_prepare_plan _ _ _ _ Hprep) as (_ & _ & _ & _ & [s0 Hfind] & _).
  apply FindAndLockTable_found in Hfind as [tid Htable].
  assert (Hstarts : (fun tab => partition_key_start
                                  (SysTabletsEntryPB.partition (TabletInfo.metadata_ tab)))
                    <$> tablets_to_drop plan = ks).
  { clear Hnd. induction Hdrops as [|k tab ks drops (id & Hk & Htab) _ IH]; [reflexivity|].
    cbn [fmap list_fmap]. f_equal; [|exact IH].
    destruct (Hkeyed _ _ _ _ Htable Hk) as (tab' & Htab' & Hstart).
    rewrite Htab in Htab'. injection Htab' as <-. exact Hstart. }
  unfold drops_of_table. cbv zeta. rewrite Hstarts. split; [exact Hnd|].
  intros k Hk. apply list_elem_of_lookup in Hk as [i Hi].
  destruct (Forall2_lookup_l _ _ _ _ _ Hdrops Hi) as (tab & _ & id & Hid & _). eauto.
Qed.

(** In every catalog the handlers reach with a generator that never repeats
    an id, CreateTable, DeleteTable and AlterTable return. *)
Lemma reachable_handlers_return `{Externals} `{Placement} cm :
  generator_never_repeats ->
  reachable cm ->
  (forall req live, never_dies (CreateTable req live) cm)
  /\ (forall req, never_dies (DeleteTable req) cm)
  /\ (forall req, never_dies (AlterTable req) cm).
Proof.
  intros Hgen Hreach.
  destruct (reachable_consistent cm Hgen Hreach)
    as ((Hkey & Hnamed & Hnames & Htablets & Hinj & Hfresh) & Hkeyed).
  assert (Hfresh_ids : fresh_ids cm).
  { split; [exact Hinj|]. intros i Hi. apply Hfresh, Hi. }
  assert (Hnc : names_consistent cm).
  { intros id table Hid Hdel. rewrite (Hnamed _ _ Hid Hdel). eauto. }
  split; [|split].
  - intros req live. apply CreateTable_returns, Hfresh_ids.
  - intros req. apply DeleteTable_returns, Hnc.
  - intros req. apply AlterTable_returns; [assumption | assumption |].
    intros plan cm1 Hprep. exact (AlterTable_prepare_drops _ _ _ _ Hkeyed Hprep).
Qed.

Lemma sample_cm_reachable script :
  @reachable sample_externals sample_placement (sample_cm script).
Proof. apply reachable_empty. Qed.

Lemma sample_created_reachable script :
  @reachable sample_externals sample_placement (sample_created script).
Proof.
  unfold sample_created.
  destruct (CreateTable (sample_create (Some 3)) 3 (sample_cm script))
    as [s resp rpcs cm'|] eqn:Hrun; cbn [catalog_after].
  - exact (reachable_CreateTable _ _ _ _ _ _ _ (sample_cm_reachable script) Hrun).
  - apply reachable_empty.
Qed.

(** ** C1: the order of write and commit *)

(** C1 (amended). CreateTable, DeleteTable and AlterTable: when the write to
    the system catalog fails, the handler returns the status of that write,
    which is an error, starts no task and leaves the committed directory
    (the by-id and by-name maps and the table and tablet records) as it
    was; the directory changes only when the write succeeded, and then the
    handler returns OK. The same holds in ProcessTabletReport for the
    batched write of the mutated tablets, its first write; its later write
    of a table record whose alter a reported schema version completes is
    left out. The commit completes, that is the handler returns: for
    CreateTable, DeleteTable and AlterTable in every catalog that the
    handlers reach from an empty directory, the generator never giving one
    id twice; ProcessTabletReport returns whenever the loop over the
    entries of the report, which comes before its first write, does. *)
Theorem write_precedes_commit `{Externals} `{Placement} :
  (forall req live,
     failed_write_returns_error (CreateTable req live)
     /\ commit_follows_write (CreateTable req live)
     /\ no_error_after_write (CreateTable req live))
  /\ (forall req,
        failed_write_returns_error (DeleteTable req)
        /\ commit_follows_write (DeleteTable req)
        /\ no_error_after_write (DeleteTable req))
  /\ (forall req,
        failed_write_returns_error (AlterTable req)
        /\ commit_follows_write (AlterTable req)
        /\ no_error_after_write (AlterTable req))
  /\ (forall ts full_report,
        failed_first_write_returns_error (ProcessTabletReport ts full_report)
        /\ commit_follows_write (ProcessTabletReport ts full_report)
        /\ no_error_after_write (ProcessTabletReport ts full_report))
  /\ (generator_never_repeats ->
      forall cm, reachable cm ->
        (forall req live, never_dies (CreateTable req live) cm)
        /\ (forall req, never_dies (DeleteTable req) cm)
        /\ (forall req, never_dies (AlterTable req) cm))
  /\ (forall ts full_report cm,
        is_Some (process_reports ts cm
                   (collect_reports (CatalogManager.tablet_map_ cm) full_report))
        <-> never_dies (ProcessTabletReport ts full_report) cm).
Proof.
  split; [|split; [|split; [|split; [|split]]]].
  - intros req live. apply single_write_discipline.
    intros cm s resp rpcs cm'. apply CreateTable_single_write.
  - intros req. apply single_write_discipline.
    intros cm s resp rpcs cm'. apply DeleteTable_single_write.
  - intros req. apply single_write_discipline.
    intros cm s resp rpcs cm'. apply AlterTable_single_write.
  - intros ts full_report. apply ProcessTabletReport_discipline.
  - intros Hgen cm Hreach. exact (reachable_handlers_return cm Hgen Hreach).
  - intros ts full_report cm. apply ProcessTabletReport_returns.
Qed.

Lemma write_precedes_commit_witness :
  (exists s resp rpcs cm',
     CreateTable (sample_create (Some 3)) 3 (sample_cm [IOError]) = Returned s resp rpcs cm'
     /\ s = IOError /\ rpcs = []
     /\ CatalogManager.directory cm' = CatalogManager.directory (sample_cm [IOError]))
  /\ (exists s resp rpcs cm',
        DeleteTable (by_name "t") (sample_created [OK; OK]) = Returned s resp rpcs cm'
        /\ s = OK)
  /\ (exists s resp rpcs cm',
        AlterTable (sample_rename "u") (sample_created [OK; IOError])
        = Returned s resp rpcs cm'
        /\ s = IOError /\ rpcs = []
        /\ CatalogManager.directory cm'
           = CatalogManager.directory (sample_created [OK; IOError]))
  /\ (exists s resp rpcs cm',
        ProcessTabletReport "A" sample_version_report (sample_altering [IOError])
        = Returned s resp rpcs cm'
        /\ s = IOError /\ rpcs = []
        /\ CatalogManager.directory cm'
           = CatalogManager.directory (sample_altering [IOError])).
Proof.
  destruct (@write_precedes_commit sample_externals sample_placement)
    as (Hcreate & Hdelete & Halter & Hreport & Hreturns & Hreport_returns).
  pose proof (fun cm => Hreturns sample_oid_inj cm) as Hreach.
  split; [|split; [|split]].
  - destruct (proj1 (Hreach _ (sample_cm_reachable [IOError])) (sample_create (Some 3)) 3)
      as (s & resp & rpcs & cm' & Hrun).
    exists s, resp, rpcs, cm'. split; [exact Hrun|].
    destruct (proj1 (Hcreate _ _) _ _ _ _ _ Hrun) as (Hs & _ & Hrpcs & Hdir).
    + vm_compute in Hrun. injection Hrun as <- <- <- <-. vm_compute. discriminate.
    + split; [exact Hs|]. split; [exact Hrpcs | exact Hdir].
  - destruct (proj1 (proj2 (Hreach _ (sample_created_reachable [OK; OK]))) (by_name "t"))
      as (s & resp & rpcs & cm' & Hrun).
    exists s, resp, rpcs, cm'. split; [exact Hrun|].
    apply (proj2 (proj2 (Hdelete _)) _ _ _ _ _ Hrun).
    vm_compute in Hrun. injection Hrun as <- <- <- <-. vm_compute. discriminate.
  - destruct (proj2 (proj2 (Hreach _ (sample_created_reachable [OK; IOError])))
                (sample_rename "u")) as (s & resp & rpcs & cm' & Hrun).
    exists s, resp, rpcs, cm'. split; [exact Hrun|].
    destruct (proj1 (Halter _) _ _ _ _ _ Hrun) as (Hs & _ & Hrpcs & Hdir).
    + vm_compute in Hrun. injection Hrun as <- <- <- <-. vm_compute. discriminate.
    + split; [exact Hs|]. split; [exact Hrpcs | exact Hdir].
  - destruct (proj1 (Hreport_returns "A" sample_version_report (sample_altering [IOError])))
      as (s & resp & rpcs & cm' & Hrun).
    { vm_compute. eauto. }
    exists s, resp, rpcs, cm'. split; [exact Hrun|].
    destruct (proj1 (Hreport _ _) _ _ _ _ _ Hrun) as (Hs & _ & Hrpcs & Hdir & _);
      [reflexivity|].
    split; [exact Hs|]. split; [exact Hrpcs | exact Hdir].
Defined.

(** ** C4: the fully applied schema of a table that is altered *)

(** C4 (amended). In every catalog that the handlers reach from an empty
    directory a table has a fully_applied_schema only while it is ALTERING,
    or REMOVED. When AlterTable returns OK on such a catalog: with metadata
    changes (schema steps or a rename) for existing tablets the table is
    ALTERING and has a fully_applied_schema, the one it already had or else
    the schema it had before the alter, and its schema is the new one when
    there are schema steps and the old one otherwise; so after a rename
    without schema steps of a table that was not ALTERING,
    fully_applied_schema is present and equals schema. Without metadata
    changes, when tablets are added, the table is ALTERING with the
    fully_applied_schema and the schema it had. *)
Theorem AlterTable_fully_applied_schema `{Externals} `{Placement} cm :
  reachable cm ->
  fully_applied_while_altering cm
  /\ forall req resp rpcs cm',
       AlterTable req cm = Returned OK resp rpcs cm' ->
       exists plan cm1 s0,
         AlterTable_prepare req cm = inr (plan, cm1)
         /\ FindAndLockTable (AlterTableRequestPB.table req) cm
            = (s0, Some (alter_plan_table plan))
         /\ let old := TableInfo.metadata_ (alter_plan_table plan) in
            (has_metadata_changes_for_existing_tablets req plan = true ->
             exists table',
               CatalogManager.table_ids_map_ cm'
               !! TableInfo.table_id_ (alter_plan_table plan) = Some table'
               /\ SysTablesEntryPB.state (TableInfo.metadata_ table')
                  = SysTablesEntryPB.ALTERING
               /\ SysTablesEntryPB.fully_applied_schema (TableInfo.metadata_ table')
                  = Some (default (SysTablesEntryPB.schema old)
                            (SysTablesEntryPB.fully_applied_schema old))
               /\ SysTablesEntryPB.schema (TableInfo.metadata_ table')
                  = (if has_schema_changes plan then alter_plan_new_schema plan
                     else SysTablesEntryPB.schema old)
               /\ (has_schema_changes plan = false ->
                   SysTablesEntryPB.state old <> SysTablesEntryPB.ALTERING ->
                   SysTablesEntryPB.fully_applied_schema (TableInfo.metadata_ table')
                   = Some (SysTablesEntryPB.schema (TableInfo.metadata_ table'))))
            /\ (has_metadata_changes req plan = false ->
                tablets_to_add plan <> [] ->
                exists table',
                  CatalogManager.table_ids_map_ cm'
                  !! TableInfo.table_id_ (alter_plan_table plan) = Some table'
                  /\ SysTablesEntryPB.state (TableInfo.metadata_ table')
                     = SysTablesEntryPB.ALTERING
                  /\ SysTablesEntryPB.fully_applied_schema (TableInfo.metadata_ table')
                     = SysTablesEntryPB.fully_applied_schema old
                  /\ SysTablesEntryPB.schema (TableInfo.metadata_ table')
                     = SysTablesEntryPB.schema old).
Proof.
  intros Hreach. pose proof (reachable_fully_applied cm Hreach) as Hinv.
  split; [exact Hinv|].
  intros req resp rpcs cm' Hrun.
  destruct (AlterTable_prepare req cm) as [[s resp0 rpcs0 cm0 |] | [plan cm1]] eqn:Hprep.
  { unfold AlterTable in Hrun. rewrite Hprep in Hrun. injection Hrun as -> _ _ _.
    apply AlterTable_prepare_refuses in Hprep as [Hs _]. congruence. }
  { unfold AlterTable in Hrun. rewrite Hprep in Hrun. discriminate Hrun. }
  destruct (AlterTable_prepare_plan _ _ _ _ Hprep)
    as (_ & _ & _ & _ & [s0 Hfind] & Hdel & _).
  exists plan, cm1, s0. split; [reflexivity|]. split; [exact Hfind|].
  destruct (AlterTable_record_after _ _ _ _ _ _ _ Hprep Hrun) as [Hfor Hadd].
  cbv zeta. split.
  - intros Hchanges.
    destruct (Hfor Hchanges) as (table' & Htable' & Hstate & Hfas & Hschema).
    exists table'. split; [exact Htable'|]. split; [exact Hstate|].
    split; [exact Hfas|]. split; [exact Hschema|].
    intros Hno Hold. rewrite Hfas, Hschema, Hno.
    destruct (SysTablesEntryPB.fully_applied_schema
                (TableInfo.metadata_ (alter_plan_table plan))) as [fa|] eqn:Hfa;
      [|reflexivity].
    apply FindAndLockTable_found in Hfind as [id Hid].
    destruct (Hinv _ _ _ Hid Hfa) as [Hst | Hst]; [congruence|].
    unfold PersistentTableInfo.is_deleted in Hdel.
    apply bool_decide_eq_false in Hdel. congruence.
  - intros Hmeta Hadded. apply Hadd; [exact Hmeta | exact Hadded |].
    destruct (AlterTable_prepare_steps _ _ _ _ Hprep)
      as (_ & _ & schema_steps & steps & _ & _ & Hpart & Hnone).
    rewrite Hpart. apply negb_true_iff, bool_decide_eq_false.
    intros Hsteps. apply Hnone in Hsteps as [Hnil _]. congruence.
Qed.

Lemma AlterTable_fully_applied_schema_witness :
  exists table',
    CatalogManager.table_ids_map_
      (catalog_after (AlterTable (sample_rename "u") (sample_created [OK; OK]))) !! "id"
    = Some table'
    /\ SysTablesEntryPB.state (TableInfo.metadata_ table') = SysTablesEntryPB.ALTERING
    /\ SysTablesEntryPB.fully_applied_schema (TableInfo.metadata_ table')
       = Some (SysTablesEntryPB.schema (TableInfo.metadata_ table')).
Proof.
  destruct (@AlterTable_fully_applied_schema sample_externals sample_placement
              (sample_created [OK; OK]) (sample_created_reachable _)) as [_ Halter].
  destruct (AlterTable (sample_rename "u") (sample_created [OK; OK]))
    as [s resp rpcs cm'|] eqn:Hrun; [|vm_compute in Hrun; discriminate Hrun].
  cbn [catalog_after].
  assert (Hs : s = OK).
  { pose proof Hrun as Hrun'. vm_compute in Hrun'. injection Hrun' as <- _ _ _. reflexivity. }
  subst s.
  destruct (Halter _ _ _ _ Hrun) as (plan & cm1 & s0 & Hprep & _ & Hfor & _).
  vm_compute in Hprep. injection Hprep as <- _.
  destruct Hfor as (table' & Htable' & Hstate & _ & _ & Hequal); [vm_compute; reflexivity|].
  exists table'. split; [exact Htable'|]. split; [exact Hstate|].
  apply Hequal; [reflexivity | vm_compute; discriminate].
Defined.
